(* ===== verification/_CoqProject ===== *)
-Q . S2P
Prelude.v
RiscvDefs.v
State.v
IoMem.v
Tlb.v
Pmp.v
Mmu.v
Csr.v
Trap.v
Alu.v
SoftFp.v
FpRound.v
FpProps.v
Exec.v
ExecFp.v
Vector.v
Stf.v
Interp.v
HartInv.v
Frame.v
InterpInv.v
Devices.v
Machine.v
Translate.v
Snapshot.v
Atomics.v
Virtio.v
VirtioDevs.v
VirtioProps.v
BlockProps.v
VirtioRegs.v
Uart.v
Fdt.v
Cosim.v
Boot.v
BootElf.v
Json.v
Config.v
Options.v
Main.v
