(* ===== verification/Prelude.v ===== *)
(** * A verification library for the Majordomo RISC-V golden model

    Majordomo is an instruction-set simulator for 64-bit RISC-V.  A machine
    ([RISCVMachine]) owns a map of physical memory ranges, a set of harts
    ([RISCVCPUState]) and devices on that map.  The run loop hands every hart in
    turn to the interpreter [riscv_cpu_interp64] with a budget of cycles; the
    interpreter fetches and executes instructions, which translate addresses
    through three software TLBs backed by a page walk and a PMP check, read and
    write CSRs, compute with software floating point, and reach RAM or a device
    callback; devices raise interrupt lines at the PLIC and the CLINT, which set
    bits of the [mip] register that the interpreter looks at before it fetches.

    ** Layout

    - [Prelude]: integers of a fixed width as [Z] with the wrap-around written
      out ([uN], [sN]), C truth, the tactics and hint databases, lemmas on
      lists, bits and arithmetic.
    - [RiscvDefs], [State]: the constants of [include/riscv.h] and
      [include/riscv_cpu.h]; the hart, the physical memory map, the machine and
      the local variables of the interpreter as records with one setter per
      field; the monad [M] of the hart's code.  [M] threads the state and leaves
      early with a [stop], one constructor per [goto] target of the
      interpreter, with [Undefined] for behaviour C leaves undefined and
      [AssertFail] for a failing [assert].
    - [IoMem] ([src/iomem.cpp]), [Tlb], [Pmp], [Mmu], [Csr], [Trap]
      ([src/riscv_cpu.cpp]): memory ranges and dirty bitmaps, TLB maintenance,
      the PMP check and its unpacked form, the page walk and memory accessors,
      both CSR switches, trap entry and return, interrupts, hart creation.
      Device callbacks are the class [DeviceBus] of [State], the CSR and
      interrupt hooks of an embedding program are the class of hooks beside it;
      the theorems are proved against these interfaces and [Devices] gives the
      instance of the CLINT and the PLIC.
    - [Alu], [SoftFp], [Exec], [ExecFp], [Vector], [Stf], [Interp]
      ([include/majordomo_template.h], [include/majordomo_fp_template.h],
      [include/softfp_template.h], [include/softfp_template_icvt.h],
      [include/vector_template.h], [src/majordomo_stf.cpp]): the arithmetic
      helpers, the floating-point templates over a format record, every arm of
      the [switch (opcode)], the trace recorder and the interpreter loop with
      its prologue and the labels behind the loop.
    - [Devices] ([src/interrupts.cpp]), [Machine] ([src/riscv_machine.cpp],
      [src/majordomo_main.cpp], [src/majordomo.cpp]): CLINT and PLIC, the
      timer check, the run of one hart with its HTIF mailbox, the round over
      all harts.
    - [Snapshot]: the recovery boot ROM that a checkpoint writes
      ([create_boot_rom] and its encoders).
    - [Virtio], [VirtioDevs] ([src/virtio.cpp], [src/block_device.cpp]): the
      transport (guest memory, descriptor chains, rings, notification, the MMIO
      and PCI register files) over the class [VirtioDevice], and its instances,
      the block device with its file back end, the network, console and input
      devices.
    - [Uart] ([src/uart.cpp], [src/dw_apb_uart.cpp], [src/term_io.cpp]): the two
      UARTs and the console behind them, whose character streams are lists.
    - [Fdt] ([src/fdt.cpp]): the builder of the flattened device tree.
    - [Cosim] ([src/majordomo_cosim.cpp]): the calls a test bench makes to check
      the commits of a design against the model.
    - [Boot] ([src/elf64.cpp], [src/bin_utils.cpp], [virt_machine_init]): the
      reader of ELF images, the loaders, the generated boot ROM and the
      construction of a machine from its parameters; [BootElf] has the
      properties of the ELF loader.
    - [Json] ([src/json.cpp]), [Config] ([src/machine.cpp]), [Options] and [Main]
      ([virt_machine_main] of [src/riscv_machine.cpp],
      [src/majordomo_main.cpp]): the reader of the configuration file, the
      options, and the program from its command line to the machine.

    ** What is proved

    - [FpRound], [FpProps]: a reference semantics of rounding on exact numbers,
      and that addition, multiplication and division of both formats return the
      exact result correctly rounded with exactly the right flags; comparisons,
      packing and the integer square root.
    - [HartInv], [Frame], [InterpInv]: the well-formedness invariant of a hart,
      kept by every instruction and by a whole call of the interpreter, for
      every memory content; termination and the accounting of instructions;
      reachability from hart creation, with what the invariant gives there.
    - [Translate]: the page walk against the page tables, flushes, and that
      the accessors with their TLBs implement a flat memory.
    - [Atomics]: load-reserved/store-conditional across harts.
    - [Pmp], [Csr], [Trap]: the optimised PMP check against the CSRs, locked
      entries, the fields a status write reaches, who may read a CSR, trap
      entry and its inverse, which interrupt is taken.
    - [Devices], [Machine]: the claim protocol of the PLIC and its interrupt
      lines over any sequence of accesses, the CLINT registers, the timer, the
      round over the harts.
    - [Snapshot]: the boot ROM fits and, executed, restores the registers.
    - [VirtioProps], [BlockProps], [VirtioRegs]: requests of the console are
      delivered in order and answered in the used ring, the disk is an array of
      sectors, every register access is within bounds.
    - [Uart]: no character is lost or duplicated between the console and the
      guest, and the interrupt line follows the interrupt status.
    - [Fdt]: reading a finished blob back gives the tree that was built.
    - [Cosim]: a session reports a mismatch exactly where the design departs from
      the model's own run, and keeps harts well formed.
    - [Boot], [BootElf]: segments and images end up where the guest looks for
      them; the boot ROM, executed by the interpreter's instructions, hands over
      to the firmware with the hart number and the device tree.
    - [Json], [Config], [Main]: reading a printed configuration gives it back,
      any text is refused or read within bounds, and a configuration file becomes
      the machine it describes, images included.

    Statements named [Remark] record what the code does where it departs from
    the architecture or from its own comments.

    ** Bounds and fuel

    The interpreter loop runs with the fuel budget + 1, and
    [interp_terminates] shows that this is always enough; the machine's round
    inherits it.  The Newton iteration of [sqrtrem_u] has [F_SIZE + 2] steps,
    shown to be enough.  The loop over available requests of a VirtIO queue has
    65536 rounds, as many as a 16-bit index can be ahead of the last one served;
    the walk of a descriptor chain has a fuel of its own, and a chain that
    cannot finish is one that the code would walk for ever.  The loop of a
    co-simulation step has a fuel that is an argument: the code runs it until an
    instruction executes.  The JSON reader runs with the fuel [2 * length + 1],
    shown to be enough for every text; the loops over the tables of devices have
    one round more than a table has entries.  Loops over arrays recurse over
    their counter.

    ** Not modelled

    Messages on [stderr], logs and trace text; files the program writes
    (checkpoint images, the encoding of STF records by stf_lib, dumps of memory)
    and the checkpoint and simulation-point files it reads; the boost option
    parser and the ISA string, whose calls are commented out; code that the build
    leaves out ([LIVECACHE], [GOLDMEM_INORDER], [F_SIZE == 128], the slirp
    network) or that no machine uses (the PCI bridge); the 9P file system, whose
    back end is the host's; the driver of the co-simulation test.
    Functions of the C library that matter are modelled by their documented
    behaviour; [malloc] is an argument that names the address it returned. *)

From Stdlib Require Export ZArith Lia Bool List Btauto.
From coqutil Require Export Z.bitblast.
From stdpp Require Export base gmap list numbers.

Open Scope Z_scope.

(** ** Fixed-width integers

    A C integer is a [Z].  An unsigned [w]-bit value lies in [[0, 2^w)] and
    every conversion to an unsigned type is written out with [uN w]; [sN w]
    reads the low [w] bits as a two's-complement number, which is what a
    conversion to a signed type does. *)

Definition uN (w x : Z) : Z := x mod 2 ^ w.

Definition sN (w x : Z) : Z :=
  let v := x mod 2 ^ w in if v <? 2 ^ (w - 1) then v else v - 2 ^ w.

Abbreviation u8 := (uN 8).
Abbreviation u16 := (uN 16).
Abbreviation u32 := (uN 32).
Abbreviation u64 := (uN 64).
Abbreviation u128 := (uN 128).
Abbreviation i8 := (sN 8).
Abbreviation i16 := (sN 16).
Abbreviation i32 := (sN 32).
Abbreviation i64 := (sN 64).
Abbreviation i128 := (sN 128).

(** The value range of an unsigned [w]-bit C type. *)
Definition in_u (w x : Z) : Prop := 0 <= x < 2 ^ w.

(** C truth of an integer expression: [if (x)]. *)
Definition nz (x : Z) : bool := negb (x =? 0).

Declare Scope c_scope.
Delimit Scope c_scope with c.
Infix ".&" := Z.land (at level 42, left associativity) : c_scope.
Infix ".^" := Z.lxor (at level 43, left associativity) : c_scope.
Infix ".|" := Z.lor (at level 44, left associativity) : c_scope.
Infix "<<" := Z.shiftl (at level 41, left associativity) : c_scope.
Infix ">>" := Z.shiftr (at level 41, left associativity) : c_scope.
(** [a .&~ b] is the C expression [a & ~b]. *)
Infix ".&~" := Z.ldiff (at level 42, left associativity) : c_scope.
(** [x 'has' m] is the C condition [(x & m)]. *)
Notation "x 'has' m" := (nz (Z.land x m)) (at level 46, no associativity) : c_scope.
Open Scope c_scope.

(** Bounded search [for (int i = lo; i < lo + n; ++i) if (p i) return i;] *)
Fixpoint find_up (p : Z -> bool) (n : nat) (lo : Z) : option Z :=
  match n with
  | O => None
  | S n' => if p lo then Some lo else find_up p n' (lo + 1)
  end.

(** [for (int i = 0; i < n; ++i) s = f(i, s);] *)
Fixpoint for_up {A : Type} (f : Z -> A -> A) (n : nat) (lo : Z) (a : A) : A :=
  match n with
  | O => a
  | S n' => for_up f n' (lo + 1) (f lo a)
  end.

(** Array read with C's [a[i]] for an index the code keeps in range; the
    default is never reached when [0 <= i < length a]. *)
Definition aget {A : Type} (d : A) (a : list A) (ix : Z) : A :=
  nth (Z.to_nat ix) a d.

(** Array store [a[i] = v]. *)
Definition aset {A : Type} (a : list A) (ix : Z) (v : A) : list A :=
  <[Z.to_nat ix := v]> a.

(** Little-endian bytes of a value, least significant first. *)
Fixpoint le_bytes (n : nat) (v : Z) : list Z :=
  match n with
  | O => []
  | S n' => u8 v :: le_bytes n' (v >> 8)
  end.

Fixpoint le_value (l : list Z) : Z :=
  match l with
  | [] => 0
  | b :: l' => b .| (le_value l' << 8)
  end.

Arguments Z.b2z : simpl never.
Arguments Z.testbit : simpl never.
Arguments uN : simpl never.
Arguments sN : simpl never.
Arguments aget : simpl never.
Arguments aset : simpl never.

Create HintDb range.
Create HintDb cint.

(** ** Tactics *)

(** Split every boolean comparison and conjunction of the context. *)
Ltac bool_hyps :=
  repeat match goal with
  | H : _ && _ = true |- _ => apply andb_true_iff in H as [? ?]
  | H : _ || _ = false |- _ => apply orb_false_iff in H as [? ?]
  | H : negb _ = true |- _ => apply negb_true_iff in H
  | H : negb _ = false |- _ => apply negb_false_iff in H
  | H : (_ =? _) = true |- _ => apply Z.eqb_eq in H
  | H : (_ =? _) = false |- _ => apply Z.eqb_neq in H
  | H : (_ <? _) = true |- _ => apply Z.ltb_lt in H
  | H : (_ <? _) = false |- _ => apply Z.ltb_ge in H
  | H : (_ <=? _) = true |- _ => apply Z.leb_le in H
  | H : (_ <=? _) = false |- _ => apply Z.leb_gt in H
  end.

(** Case on the innermost scrutinee of the goal. *)
Ltac case_goal :=
  match goal with
  | |- context [match ?x with _ => _ end] =>
      lazymatch x with
      | context [match _ with _ => _ end] => fail
      | _ => destruct x eqn:?
      end
  end.

(** Case on a scrutinee of hypothesis [H]. *)
Ltac case_in H :=
  match type of H with
  | context [match ?x with _ => _ end] =>
      lazymatch x with
      | context [match _ with _ => _ end] => fail
      | _ => destruct x eqn:?
      end
  end.

(** Bitwise equality of two [Z] expressions. *)
Ltac bitwise := unfold uN; rewrite <- ?Z.land_ones by lia; Z.bitblast.

(** ** Generic lemmas *)

Lemma pow2_pos w : 0 <= w -> 0 < 2 ^ w.
Proof. intros; apply Z.pow_pos_nonneg; lia. Qed.

Lemma u_range w x : 0 <= w -> in_u w (uN w x).
Proof. intros; apply Z.mod_pos_bound, pow2_pos; lia. Qed.

Lemma u_small w x : in_u w x -> uN w x = x.
Proof. intros; apply Z.mod_small; assumption. Qed.

Lemma u_u w x : 0 <= w -> uN w (uN w x) = uN w x.
Proof. intros; apply u_small, u_range; assumption. Qed.

Lemma u_testbit w x n : 0 <= w ->
  Z.testbit (uN w x) n = (n <? w) && Z.testbit x n.
Proof. intros; unfold uN; apply Z.testbit_mod_pow2; lia. Qed.

Lemma in_u_testbit w x : 0 <= w ->
  in_u w x <-> 0 <= x /\ forall n, w <= n -> Z.testbit x n = false.
Proof.
  intros Hw; split.
  - intros Hx; split; [apply Hx|]; intros n Hn.
    rewrite <- (u_small w x Hx), u_testbit by lia.
    destruct (Z.ltb_spec n w); [lia|reflexivity].
  - intros [H0 Hb]. replace x with (uN w x); [apply u_range; lia|].
    apply Z.bits_inj'; intros n Hn. rewrite u_testbit by lia.
    destruct (Z.ltb_spec n w); [reflexivity|]. rewrite Hb by lia; reflexivity.
Qed.

Lemma in_u_weaken w w' x : w <= w' -> in_u w x -> in_u w' x.
Proof.
  unfold in_u; intros Hw Hx.
  pose proof (Z.pow_le_mono_r 2 w w' ltac:(lia) Hw). lia.
Qed.

Lemma in_u_land_l w a b : in_u w a -> in_u w (a .& b).
Proof.
  intros Ha. assert (0 <= w).
  { destruct (Z.ltb_spec w 0); [|lia].
    unfold in_u in Ha; rewrite Z.pow_neg_r in Ha by lia; lia. }
  rewrite in_u_testbit in * by lia. destruct Ha as [H0 Hb]; split.
  - apply Z.land_nonneg; left; assumption.
  - intros n Hn. rewrite Z.land_spec, Hb by lia. reflexivity.
Qed.

Lemma in_u_land_r w a b : in_u w b -> in_u w (a .& b).
Proof. rewrite Z.land_comm; apply in_u_land_l. Qed.

Lemma in_u_nonneg_w w a : in_u w a -> 0 <= w.
Proof.
  intros Ha. destruct (Z.ltb_spec w 0); [|lia].
  unfold in_u in Ha; rewrite Z.pow_neg_r in Ha by lia; lia.
Qed.

Lemma in_u_lor w a b : in_u w a -> in_u w b -> in_u w (a .| b).
Proof.
  intros Ha Hb. pose proof (in_u_nonneg_w _ _ Ha).
  rewrite in_u_testbit in * by lia. destruct Ha, Hb; split.
  - apply Z.lor_nonneg; split; assumption.
  - intros n Hn. rewrite Z.lor_spec, H1, H3 by lia. reflexivity.
Qed.

Lemma in_u_lxor w a b : in_u w a -> in_u w b -> in_u w (a .^ b).
Proof.
  intros Ha Hb. pose proof (in_u_nonneg_w _ _ Ha).
  rewrite in_u_testbit in * by lia. destruct Ha, Hb; split.
  - apply Z.lxor_nonneg; split; intros; assumption.
  - intros n Hn. rewrite Z.lxor_spec, H1, H3 by lia. reflexivity.
Qed.

Lemma in_u_ldiff w a b : in_u w a -> in_u w (a .&~ b).
Proof. rewrite Z.ldiff_land; apply in_u_land_l. Qed.

Lemma in_u_shiftr w a n : 0 <= n -> in_u w a -> in_u w (a >> n).
Proof.
  intros Hn Ha. pose proof (in_u_nonneg_w _ _ Ha).
  rewrite in_u_testbit in * by lia. destruct Ha as [H0 Hb]; split.
  - apply Z.shiftr_nonneg; assumption.
  - intros m Hm. rewrite Z.shiftr_spec, Hb by lia. reflexivity.
Qed.

Lemma in_u_b2z w b : 1 <= w -> in_u w (Z.b2z b).
Proof.
  intros; unfold in_u; pose proof (Z.pow_le_mono_r 2 1 w ltac:(lia) H).
  destruct b; unfold Z.b2z; lia.
Qed.

#[export] Hint Resolve in_u_lor in_u_lxor in_u_ldiff in_u_land_l : range.
#[export] Hint Extern 1 (in_u ?w (uN ?w _)) => apply u_range; lia : range.
#[export] Hint Extern 2 (in_u _ (Z.shiftr _ _)) => apply in_u_shiftr; [lia|] : range.
#[export] Hint Extern 1 (in_u _ (Z.b2z _)) => apply in_u_b2z; lia : range.
#[export] Hint Extern 1 (in_u _ (Zpos _)) => split; [discriminate|reflexivity] : range.
#[export] Hint Extern 1 (in_u _ 0) => split; [discriminate|reflexivity] : range.

Lemma i_eq_mod w x : 0 < w -> uN w (sN w x) = uN w x.
Proof.
  intros Hw. unfold sN, uN. destruct (_ <? _).
  - apply Z.mod_mod. pose proof (pow2_pos w); lia.
  - replace (x mod 2 ^ w - 2 ^ w) with (x mod 2 ^ w + (-1) * 2 ^ w) by lia.
    rewrite Z.mod_add by (pose proof (pow2_pos w); lia).
    apply Z.mod_mod. pose proof (pow2_pos w); lia.
Qed.

Lemma i_range w x : 0 < w -> - 2 ^ (w - 1) <= sN w x < 2 ^ (w - 1).
Proof.
  intros Hw. unfold sN.
  assert (2 ^ w = 2 * 2 ^ (w - 1)) as Hp.
  { rewrite <- Z.pow_succ_r by lia. f_equal; lia. }
  pose proof (pow2_pos (w - 1) ltac:(lia)).
  pose proof (Z.mod_pos_bound x (2 ^ w) ltac:(lia)).
  destruct (Z.ltb_spec (x mod 2 ^ w) (2 ^ (w - 1))); lia.
Qed.

Lemma nz_true x : nz x = true <-> x <> 0.
Proof. unfold nz. rewrite negb_true_iff, Z.eqb_neq. reflexivity. Qed.

Lemma nz_false x : nz x = false <-> x = 0.
Proof. unfold nz. rewrite negb_false_iff, Z.eqb_eq. reflexivity. Qed.

Lemma has_pow2 x n : 0 <= n -> x has (2 ^ n) = Z.testbit x n.
Proof.
  intros Hn. destruct (Z.testbit x n) eqn:E.
  - apply nz_true. intros H.
    assert (Z.testbit (x .& 2 ^ n) n = true)
      by (rewrite Z.land_spec, Z.pow2_bits_true, E by lia; reflexivity).
    rewrite H, Z.testbit_0_l in H0; discriminate.
  - apply nz_false. apply Z.bits_inj'; intros k Hk.
    rewrite Z.land_spec, Z.testbit_0_l.
    destruct (Z.eq_dec k n) as [->|]; [rewrite E; reflexivity|].
    rewrite Z.pow2_bits_false by lia. apply andb_false_r.
Qed.

Lemma aset_length {A} (a : list A) ix v : length (aset a ix v) = length a.
Proof. apply length_insert. Qed.

Lemma aget_aset_eq {A} (d : A) a ix v :
  0 <= ix < Z.of_nat (length a) -> aget d (aset a ix v) ix = v.
Proof.
  intros H. unfold aget, aset. apply nth_lookup_Some.
  apply list_lookup_insert_eq. lia.
Qed.

Lemma aget_aset_ne {A} (d : A) a ix jx v :
  0 <= ix -> 0 <= jx -> ix <> jx -> aget d (aset a ix v) jx = aget d a jx.
Proof.
  intros Hi Hj Hne. unfold aget, aset. rewrite !nth_lookup.
  rewrite list_lookup_insert_ne by lia. reflexivity.
Qed.

Lemma Forall_aset {A} (P : A -> Prop) a ix v :
  Forall P a -> P v -> Forall P (aset a ix v).
Proof. intros; apply Forall_insert; assumption. Qed.

Lemma Forall_aget {A} (P : A -> Prop) d a ix :
  Forall P a -> P d -> P (aget d a ix).
Proof.
  intros Ha Hd. unfold aget.
  destruct (nth_in_or_default (Z.to_nat ix) a d) as [Hin| ->]; [|assumption].
  rewrite List.Forall_forall in Ha. auto.
Qed.

#[export] Hint Resolve Forall_aset : range.

Lemma le_bytes_length n v : length (le_bytes n v) = n.
Proof. revert v; induction n; intros v; simpl; [|rewrite IHn]; reflexivity. Qed.

Lemma le_value_bytes n v : le_value (le_bytes n v) = uN (8 * Z.of_nat n) v.
Proof.
  revert v; induction n as [|n IH]; intros v.
  - unfold uN; simpl. rewrite Z.mod_1_r. reflexivity.
  - cbn [le_bytes le_value]. rewrite IH.
    replace (8 * Z.of_nat (S n)) with (8 + 8 * Z.of_nat n) by lia.
    apply Z.bits_inj'; intros k Hk.
    rewrite Z.lor_spec, !u_testbit by lia.
    destruct (Z.ltb_spec k 8).
    + rewrite Z.shiftl_spec_low by lia.
      destruct (Z.ltb_spec k (8 + 8 * Z.of_nat n)); [|lia].
      apply orb_false_r.
    + rewrite Z.shiftl_spec, u_testbit, Z.shiftr_spec by lia.
      replace (k - 8 + 8) with k by lia. simpl.
      destruct (Z.ltb_spec (k - 8) (8 * Z.of_nat n)),
        (Z.ltb_spec k (8 + 8 * Z.of_nat n)); (reflexivity || lia).
Qed.

Lemma le_bytes_uN n v : le_bytes n (uN (8 * Z.of_nat n) v) = le_bytes n v.
Proof.
  revert v. induction n as [|n IH]; intros v; [reflexivity|]. cbn [le_bytes]. f_equal.
  - apply Z.bits_inj'; intros k Hk. rewrite !u_testbit by lia.
    destruct (Z.ltb_spec k 8); [|reflexivity]. destruct (Z.ltb_spec k (8 * Z.of_nat (S n))); [reflexivity|lia].
  - rewrite <- (IH (v >> 8)). f_equal. apply Z.bits_inj'; intros k Hk.
    rewrite Z.shiftr_spec, !u_testbit, Z.shiftr_spec by lia.
    destruct (Z.ltb_spec k (8 * Z.of_nat n)), (Z.ltb_spec (k + 8) (8 * Z.of_nat (S n))); (reflexivity || lia).
Qed.

Lemma le_bytes_wf n v : Forall (in_u 8) (le_bytes n v).
Proof. revert v. induction n; constructor; [apply u_range; lia|auto]. Qed.

Lemma find_up_some p n lo k :
  find_up p n lo = Some k ->
  lo <= k < lo + Z.of_nat n /\ p k = true /\ (forall j, lo <= j < k -> p j = false).
Proof.
  revert lo; induction n as [|n IH]; intros lo H; [discriminate|].
  cbn [find_up] in H. destruct (p lo) eqn:E.
  - injection H as ->. repeat split; try lia. exact E.
  - apply IH in H as (? & ? & Hj). repeat split; try lia; [assumption|].
    intros j Hlj. destruct (Z.eq_dec j lo) as [->|]; [exact E|]. apply Hj; lia.
Qed.

Lemma find_up_none p n lo :
  find_up p n lo = None -> forall j, lo <= j < lo + Z.of_nat n -> p j = false.
Proof.
  revert lo; induction n as [|n IH]; intros lo H j Hj; [lia|].
  cbn [find_up] in H. destruct (p lo) eqn:E; [discriminate|].
  destruct (Z.eq_dec j lo) as [->|]; [exact E|]. apply (IH _ H); lia.
Qed.

(** Invariant rule for [for_up]. *)
Lemma for_up_ind {A} (P : Z -> A -> Prop) f n lo a :
  P lo a -> (forall j a, lo <= j < lo + Z.of_nat n -> P j a -> P (j + 1) (f j a)) ->
  P (lo + Z.of_nat n) (for_up f n lo a).
Proof.
  revert lo a; induction n as [|n IH]; intros lo a H0 Hs.
  - simpl. rewrite Z.add_0_r. exact H0.
  - cbn [for_up]. replace (lo + Z.of_nat (S n)) with (lo + 1 + Z.of_nat n) by lia.
    apply IH; [apply Hs; [lia|exact H0]|]. intros j b Hj. apply Hs; lia.
Qed.

Lemma for_up_step {A} (f : Z -> A -> A) n lo a :
  for_up f (S n) lo a = for_up f n (lo + 1) (f lo a).
Proof. reflexivity. Qed.

Lemma for_up_ext {A} (f g : Z -> A -> A) n lo a :
  (forall k b, lo <= k < lo + Z.of_nat n -> f k b = g k b) -> for_up f n lo a = for_up g n lo a.
Proof.
  revert lo a; induction n as [|n IH]; intros lo a H; [reflexivity|].
  cbn [for_up]. rewrite H by lia. apply IH. intros; apply H; lia.
Qed.

Lemma u_lxor w x y : 0 <= w -> uN w (x .^ y) = uN w x .^ uN w y.
Proof.
  intros Hw. apply Z.bits_inj'; intros n Hn. rewrite Z.lxor_spec, !u_testbit, Z.lxor_spec by lia.
  destruct (n <? w); reflexivity.
Qed.

Lemma shl_shr x k m : 0 <= k <= m -> (x << k) >> m = x >> (m - k).
Proof. intros. rewrite Z.shiftr_shiftl_r by lia. reflexivity. Qed.

(** A low field and a shifted high field do not overlap. *)
Lemma lor_low_high h l w : 0 <= w -> 0 <= l < 2 ^ w -> h * 2 ^ w .| l = h * 2 ^ w + l.
Proof.
  intros Hw Hl. rewrite <- Z.shiftl_mul_pow2 by lia.
  assert (H0 : (h << w) .& l = 0).
  { apply Z.bits_inj'; intros n Hn. rewrite Z.land_spec, Z.testbit_0_l.
    destruct (Z.ltb_spec n w); [rewrite Z.shiftl_spec_low by lia; reflexivity|].
    assert (Hlu : in_u w l) by exact Hl. apply in_u_testbit in Hlu as [_ Hlu]; [|lia].
    rewrite Hlu by lia. apply andb_false_r. }
  rewrite Z.add_nocarry_lxor by exact H0. symmetry; apply Z.lxor_lor, H0.
Qed.

Lemma i_small w x : 0 < w -> - 2 ^ (w - 1) <= x < 2 ^ (w - 1) -> sN w x = x.
Proof.
  intros Hw Hx. unfold sN.
  assert (Hp : 2 ^ w = 2 * 2 ^ (w - 1)) by (rewrite <- Z.pow_succ_r by lia; f_equal; lia).
  pose proof (pow2_pos (w - 1) ltac:(lia)).
  destruct (Z.ltb_spec x 0).
  - replace (x mod 2 ^ w) with (x + 2 ^ w).
    + destruct (Z.ltb_spec (x + 2 ^ w) (2 ^ (w - 1))); lia.
    + symmetry; rewrite <- (Z.mod_add x 1) by lia. rewrite Z.mul_1_l. apply Z.mod_small; lia.
  - rewrite Z.mod_small by lia. destruct (Z.ltb_spec x (2 ^ (w - 1))); lia.
Qed.
