(* ===== verification/RiscvDefs.v ===== *)
(** * Constants of the RISC-V definitions

    [include/riscv.h] (interrupt, cause, privilege, [misa], [mstatus], trigger
    and PMP constants), the build-time parameters and masks of
    [include/riscv_cpu.h] for the configuration the build uses ([XLEN = 64],
    [FLEN = 64], [VLEN = 128]), the vector CSR masks of
    [include/vector_template.h], and the masks that [src/riscv_cpu.cpp]
    defines beside its functions. *)

From S2P Require Import Prelude.
Open Scope Z_scope.
Open Scope c_scope.

(** ** Interrupt bits (include/riscv.h) *)
Definition MIP_USIP := 1 << 0.
Definition MIP_SSIP := 1 << 1.
Definition MIP_MSIP := 1 << 3.
Definition MIP_UTIP := 1 << 4.
Definition MIP_STIP := 1 << 5.
Definition MIP_MTIP := 1 << 7.
Definition MIP_UEIP := 1 << 8.
Definition MIP_SEIP := 1 << 9.
Definition MIP_MEIP := 1 << 11.
Definition MIP_MCIP := 1 << 18.
Definition MIE_SSIE := MIP_SSIP.
Definition MIE_MSIE := MIP_MSIP.
Definition MIE_STIE := MIP_STIP.
Definition MIE_MTIE := MIP_MTIP.
Definition MIE_SEIE := MIP_SEIP.
Definition MIE_MEIE := MIP_MEIP.
Definition MIE_MCIP := MIP_MCIP.

(** ** Causes *)
Definition CAUSE_MISALIGNED_FETCH := 0x0.
Definition CAUSE_FAULT_FETCH := 0x1.
Definition CAUSE_ILLEGAL_INSTRUCTION := 0x2.
Definition CAUSE_BREAKPOINT := 0x3.
Definition CAUSE_MISALIGNED_LOAD := 0x4.
Definition CAUSE_FAULT_LOAD := 0x5.
Definition CAUSE_MISALIGNED_STORE := 0x6.
Definition CAUSE_FAULT_STORE := 0x7.
Definition CAUSE_USER_ECALL := 0x8.
Definition CAUSE_FETCH_PAGE_FAULT := 0xc.
Definition CAUSE_LOAD_PAGE_FAULT := 0xd.
Definition CAUSE_STORE_PAGE_FAULT := 0xf.
Definition SCAUSE_MASK := 0x800000000000001f.
Definition MCAUSE_MASK := 0x80000000000000ff.
Definition CAUSE_INTERRUPT := 0x8000000000000000.

(** ** Privilege levels *)
Definition PRV_U := 0.
Definition PRV_S := 1.
Definition PRV_H := 2.
Definition PRV_M := 3.

(** ** misa letters *)
Definition MCPUID_SUPER := 1 << 18.
Definition MCPUID_USER := 1 << 20.
Definition MCPUID_I := 1 << 8.
Definition MCPUID_M := 1 << 12.
Definition MCPUID_A := 1 << 0.
Definition MCPUID_F := 1 << 5.
Definition MCPUID_D := 1 << 3.
Definition MCPUID_C := 1 << 2.
Definition MCPUID_X := 1 << 23.
Definition MCPUID_V := 1 << 21.

(** ** mstatus *)
Definition MSTATUS_SPIE_SHIFT := 5.
Definition MSTATUS_MPIE_SHIFT := 7.
Definition MSTATUS_SPP_SHIFT := 8.
Definition MSTATUS_VS_SHIFT := 9.
Definition MSTATUS_MPP_SHIFT := 11.
Definition MSTATUS_FS_SHIFT := 13.
Definition MSTATUS_UXL_SHIFT := 32.
Definition MSTATUS_SXL_SHIFT := 34.
Definition MSTATUS_SIE := 1 << 1.
Definition MSTATUS_MIE := 1 << 3.
Definition MSTATUS_SPIE := 1 << MSTATUS_SPIE_SHIFT.
Definition MSTATUS_MPIE := 1 << MSTATUS_MPIE_SHIFT.
Definition MSTATUS_SPP := 1 << MSTATUS_SPP_SHIFT.
Definition MSTATUS_VS := 3 << MSTATUS_VS_SHIFT.
Definition MSTATUS_MPP := 3 << MSTATUS_MPP_SHIFT.
Definition MSTATUS_FS := 3 << MSTATUS_FS_SHIFT.
Definition MSTATUS_XS := 3 << 15.
Definition MSTATUS_MPRV := 1 << 17.
Definition MSTATUS_SUM := 1 << 18.
Definition MSTATUS_MXR := 1 << 19.
Definition MSTATUS_TVM := 1 << 20.
Definition MSTATUS_TW := 1 << 21.
Definition MSTATUS_TSR := 1 << 22.
Definition MSTATUS_UXL_MASK := 3 << MSTATUS_UXL_SHIFT.
Definition MSTATUS_SXL_MASK := 3 << MSTATUS_SXL_SHIFT.

(** ** Debug triggers *)
Definition MCONTROL_TYPE_AD_MATCH := 2 << 60.
Definition MCONTROL_DMODE := 1 << 59.
Definition MCONTROL_MAXMASK_4 := 4 << 53.
Definition MCONTROL_ACTION := 0x3f << 12.
Definition MCONTROL_MATCH := 0xf << 7.
Definition MCONTROL_U := 1 << 3.
Definition MCONTROL_EXECUTE := 1 << 2.
Definition MCONTROL_STORE := 1 << 1.
Definition MCONTROL_LOAD := 1 << 0.
Definition MCONTROL_MATCH_EQUAL := 0.
Definition MCONTROL_MATCH_NAPOT := 1.
Definition MCONTROL_MATCH_GE := 2.
Definition MCONTROL_MATCH_LT := 3.

Definition SBI_SHUTDOWN := 8.

(** ** PMP *)
Definition CSR_PMPCFG (n : Z) := 0x3A0 + n.
Definition CSR_PMPADDR (n : Z) := 0x3B0 + n.
Definition PMP_N := 8.
Definition PMPCFG_R := 1.
Definition PMPCFG_W := 2.
Definition PMPCFG_X := 4.
Definition PMPCFG_A_MASK := 0x18.
Definition PMPCFG_A_OFF := 0.
Definition PMPCFG_A_TOR := 8.
Definition PMPCFG_A_NA4 := 0x10.
Definition PMPCFG_A_NAPOT := 0x18.
Definition PMPCFG_RES := 0x60.
Definition PMPCFG_L := 0x80.

(** ** PLIC *)
Definition PLIC_NUM_SOURCES := 127.
Definition PLIC_PRIORITY_BASE := 4.
Definition PLIC_PENDING_BASE := 0x1000.
Definition PLIC_ENABLE_BASE := 0x2000.
Definition PLIC_ENABLE_STRIDE := 0x80.
Definition PLIC_CONTEXT_BASE := 0x200000.
Definition PLIC_CONTEXT_STRIDE := 0x1000.

(** ** Build parameters (include/riscv_cpu.h, include/riscv_machine.h) *)
Definition ROM_SIZE := 0x2000.
Definition ROM_BASE_ADDR := 0x10000.
Definition BOOT_BASE_ADDR := 0x10000.
Definition VLEN := 1 << 7.
Definition TLB_SIZE := 256.
Definition PG_SHIFT := 12.
Definition PG_MASK := (1 << PG_SHIFT) - 1.
Definition ASID_BITS := 0.
Definition SATP_MASK := (15 << 60) .| (((1 << ASID_BITS) - 1) << 44) .| ((1 << 44) - 1).
Definition MAX_TRIGGERS := 1.
Definition HPM_EVENT_SETMASK := 0x7.
Definition HPM_EVENT_EVENTMASK := 0xffffff00.
Definition F32_HIGH := 0xffffffff00000000.
Definition F64_HIGH := 0.
Definition MAX_CPUS := 8.
Definition RTC_FREQ_DIV := 2000000000 / 1000000.

(** ** Vector CSR masks (include/vector_template.h) *)
Definition VILL := 1 << 63.
Definition VSTART_MASK := VLEN - 1.
Definition VXSAT_MASK := 1 << 0.
Definition VXRM_MASK := 3 << 0.
Definition VCSR_VXSAT := VXSAT_MASK.
Definition VCSR_VXRM := VXRM_MASK << 1.
Definition VCSR_MASK := VCSR_VXRM .| VCSR_VXSAT.

(** ** Masks of src/riscv_cpu.cpp *)

(** [CANONICAL_S49(v)]: [((intptr_t)(v) << 15 >> 15)], stored into a
    [target_ulong]. *)
Definition CANONICAL_S49 (v : Z) : Z := u64 (i64 (v << 15) >> 15).
Definition PMPADDR_MASK := 0x3fffffffff.
Definition PTE_V_MASK := 1 << 0.
Definition PTE_U_MASK := 1 << 4.
Definition PTE_A_MASK := 1 << 6.
Definition PTE_D_MASK := 1 << 7.
Definition SSTATUS_MASK :=
  MSTATUS_SIE .| MSTATUS_SPIE .| MSTATUS_SPP .| MSTATUS_VS .| MSTATUS_FS
  .| MSTATUS_SUM .| MSTATUS_MXR .| MSTATUS_UXL_MASK.
Definition MSTATUS_MASK :=
  MSTATUS_SIE .| MSTATUS_MIE .| MSTATUS_SPIE .| MSTATUS_MPIE .| MSTATUS_SPP
  .| MSTATUS_MPP .| MSTATUS_VS .| MSTATUS_FS .| MSTATUS_MPRV .| MSTATUS_SUM
  .| MSTATUS_MXR .| MSTATUS_TVM .| MSTATUS_TW .| MSTATUS_TSR
  .| MSTATUS_UXL_MASK .| MSTATUS_SXL_MASK.
