(* ===== verification/State.v ===== *)
(** * The state of a hart and of the machine, and the effect monad

    [struct RISCVCPUState] (include/riscv_cpu.h), [PhysMemoryRange]
    (include/iomem.h), [struct RISCVMachine] (include/riscv_machine.h) and the
    locals of the interpreter, with one setter per field, and the state and
    early-exit monad [M] in which the hart's operations are written. *)

From S2P Require Import Prelude.
Open Scope Z_scope.
Open Scope c_scope.

(** ** Data *)

(** Control-flow summary information ([RISCVCTFInfo]). *)
Inductive RISCVCTFInfo :=
| ctf_nop
| ctf_taken_jump
| ctf_taken_branch
| ctf_taken_jalr
| ctf_taken_jalr_pop
| ctf_taken_jalr_push
| ctf_taken_jalr_pop_push.

(** [struct TLBEntry]. *)
Record TLBEntry := mkTLBEntry { te_vaddr : Z; te_mem_addend : Z }.

(** [struct pmp_addr]: the half-open range [[lo; hi)]. *)
Record pmp_addr := mkPmpAddr { pmp_lo : Z; pmp_hi : Z }.

(** [struct stf_mem_access]. *)
Record stf_mem_access := mkStfMem { sm_vaddr : Z; sm_size : Z; sm_value : Z }.

(** Operand kinds and records of the STF trace writer, with the arguments
    [src/majordomo_stf.cpp] gives them. *)
Inductive stf_operand := REG_STATE | REG_SOURCE | REG_DEST.
Inductive stf_record :=
| TraceHeader (header_pc : Z)
| ForcePCRecord (pc : Z)
| InstRegRecord (rn : Z) (fp : bool) (kind : stf_operand) (value : Z)
| InstMemAccessRecord (vaddr size : Z) (is_write : bool)
| InstMemContentRecord (value : Z)
| InstPCTargetRecord (pc : Z)
| InstOpcode32Record (insn : Z)
| InstOpcode16Record (insn : Z)
| EventRecord (cause : Z).

(** [PhysMemoryRange].  [pr_phys_mem] is a host address; [pr_dirty_bits] is the
    index of the bitmap in [pr_dirty_bits_tab] the pointer refers to, [None]
    for [NULL]; [pr_opaque] identifies the device whose callbacks the range
    has. *)
Record PhysMemoryRange := mkRange {
  pr_addr : Z;
  pr_org_size : Z;
  pr_size : Z;
  pr_is_ram : bool;
  pr_devram_flags : Z;
  pr_phys_mem : Z;
  pr_dirty_bits_size : Z;
  pr_dirty_bits : option Z;
  pr_dirty_bits_tab : list (list Z);
  pr_dirty_bits_index : Z;
  pr_opaque : Z;
  pr_devio_flags : Z
}.

(** Program counter, register files, privilege and unit status. *)
Record HartRegs := mkHartRegs {
  pc : Z;
  last_pc : Z;
  reg : list Z;
  reg_prior : list Z;
  most_recently_written_reg : Z;
  fp_reg : list Z;
  most_recently_written_fp_reg : Z;
  fflags : Z;
  frm : Z;
  priv : Z;
  fs : Z;
  vs : Z
}.

(** Vector registers and vector CSRs. *)
Record VecRegs := mkVecRegs {
  v_reg : list (list Z);
  most_recently_written_vregs : list bool;
  vstart : Z;
  vxsat : Z;
  vxrm : Z;
  vtype : Z;
  vl : Z
}.

(** Counters, run flags, pending exception, reservation, timer. *)
Record HartCtl := mkHartCtl {
  insn_counter : Z;
  minstret : Z;
  mcycle : Z;
  debug_mode : bool;
  stop_the_counter : bool;
  power_down_flag : bool;
  terminate_simulation : bool;
  pending_exception : Z;
  pending_tval : Z;
  plic_enable_irq : list Z;
  load_res : Z;
  load_res_memseqno : Z;
  physical_addr_len : Z;
  benchmark_exit_code : Z;
  info : RISCVCTFInfo;
  next_addr : Z;
  timecmp : Z;
  ignore_sbi_shutdown : bool
}.

(** Machine-mode, trigger and debug CSRs. *)
Record MCsrs := mkMCsrs {
  mstatus : Z;
  mtvec : Z;
  mscratch : Z;
  mepc : Z;
  mcause : Z;
  mtval : Z;
  mvendorid : Z;
  marchid : Z;
  mimpid : Z;
  mhartid : Z;
  misa : Z;
  mie : Z;
  mip : Z;
  medeleg : Z;
  mideleg : Z;
  mcounteren : Z;
  mcountinhibit : Z;
  tselect : Z;
  unimpl_mcontext : Z;
  tdata1 : list Z;
  tdata2 : list Z;
  mhpmevent : list Z;
  dcsr : Z;
  dpc : Z;
  dscratch : Z
}.

(** Supervisor-mode CSRs. *)
Record SCsrs := mkSCsrs {
  stvec : Z;
  sscratch : Z;
  sepc : Z;
  scause : Z;
  stval : Z;
  satp : Z;
  scounteren : Z
}.

(** PMP CSRs and their unpacked form. *)
Record Pmps := mkPmps {
  csr_pmpcfg : list Z;
  csr_pmpaddr : list Z;
  pmp_n : Z;
  pmp : list pmp_addr;
  pmpcfg : list Z
}.

(** The three direct-mapped software TLBs. *)
Record Tlbs := mkTlbs {
  tlb_read : list TLBEntry;
  tlb_write : list TLBEntry;
  tlb_code : list TLBEntry;
  tlb_read_paddr_addend : list Z;
  tlb_write_paddr_addend : list Z;
  tlb_code_paddr_addend : list Z
}.

(** The last data access and the STF capture vectors. *)
Record Trace := mkTrace {
  last_data_paddr : Z;
  last_data_vaddr : Z;
  last_data_size : Z;
  last_data_type : Z;
  stf_read_regs : list Z;
  stf_write_regs : list Z;
  stf_read_fp_regs : list Z;
  stf_write_fp_regs : list Z;
  stf_mem_reads : list stf_mem_access;
  stf_mem_writes : list stf_mem_access;
  stf_prev_priv_mode : Z
}.

(** [struct RISCVCPUState] (include/riscv_cpu.h), its fields grouped by use; the
    coercions let [mip s] read as [s->mip]. *)
Record RISCVCPUState := mkCPU {
  hr : HartRegs;
  vec : VecRegs;
  ctl : HartCtl;
  mcsr : MCsrs;
  scsr : SCsrs;
  pmps : Pmps;
  tlbs : Tlbs;
  trk : Trace
}.

Coercion hr : RISCVCPUState >-> HartRegs.
Coercion vec : RISCVCPUState >-> VecRegs.
Coercion ctl : RISCVCPUState >-> HartCtl.
Coercion mcsr : RISCVCPUState >-> MCsrs.
Coercion scsr : RISCVCPUState >-> SCsrs.
Coercion pmps : RISCVCPUState >-> Pmps.
Coercion tlbs : RISCVCPUState >-> Tlbs.
Coercion trk : RISCVCPUState >-> Trace.

Definition with_hr (s : RISCVCPUState) (x : HartRegs) : RISCVCPUState :=
  mkCPU x (vec s) (ctl s) (mcsr s) (scsr s) (pmps s) (tlbs s) (trk s).
Definition with_vec (s : RISCVCPUState) (x : VecRegs) : RISCVCPUState :=
  mkCPU (hr s) x (ctl s) (mcsr s) (scsr s) (pmps s) (tlbs s) (trk s).
Definition with_ctl (s : RISCVCPUState) (x : HartCtl) : RISCVCPUState :=
  mkCPU (hr s) (vec s) x (mcsr s) (scsr s) (pmps s) (tlbs s) (trk s).
Definition with_mcsr (s : RISCVCPUState) (x : MCsrs) : RISCVCPUState :=
  mkCPU (hr s) (vec s) (ctl s) x (scsr s) (pmps s) (tlbs s) (trk s).
Definition with_scsr (s : RISCVCPUState) (x : SCsrs) : RISCVCPUState :=
  mkCPU (hr s) (vec s) (ctl s) (mcsr s) x (pmps s) (tlbs s) (trk s).
Definition with_pmps (s : RISCVCPUState) (x : Pmps) : RISCVCPUState :=
  mkCPU (hr s) (vec s) (ctl s) (mcsr s) (scsr s) x (tlbs s) (trk s).
Definition with_tlbs (s : RISCVCPUState) (x : Tlbs) : RISCVCPUState :=
  mkCPU (hr s) (vec s) (ctl s) (mcsr s) (scsr s) (pmps s) x (trk s).
Definition with_trk (s : RISCVCPUState) (x : Trace) : RISCVCPUState :=
  mkCPU (hr s) (vec s) (ctl s) (mcsr s) (scsr s) (pmps s) (tlbs s) x.

Definition set_pc (v : Z) (s : RISCVCPUState) : RISCVCPUState :=
  with_hr s (mkHartRegs
   v (last_pc s) (reg s) (reg_prior s) (most_recently_written_reg s) (fp_reg s)
   (most_recently_written_fp_reg s) (fflags s) (frm s) (priv s) (fs s) (vs s)).

Definition set_last_pc (v : Z) (s : RISCVCPUState) : RISCVCPUState :=
  with_hr s (mkHartRegs
   (pc s) v (reg s) (reg_prior s) (most_recently_written_reg s) (fp_reg s)
   (most_recently_written_fp_reg s) (fflags s) (frm s) (priv s) (fs s) (vs s)).

Definition set_reg (v : list Z) (s : RISCVCPUState) : RISCVCPUState :=
  with_hr s (mkHartRegs
   (pc s) (last_pc s) v (reg_prior s) (most_recently_written_reg s) (fp_reg s)
   (most_recently_written_fp_reg s) (fflags s) (frm s) (priv s) (fs s) (vs s)).

Definition set_reg_prior (v : list Z) (s : RISCVCPUState) : RISCVCPUState :=
  with_hr s (mkHartRegs
   (pc s) (last_pc s) (reg s) v (most_recently_written_reg s) (fp_reg s)
   (most_recently_written_fp_reg s) (fflags s) (frm s) (priv s) (fs s) (vs s)).

Definition set_most_recently_written_reg (v : Z) (s : RISCVCPUState) : RISCVCPUState :=
  with_hr s (mkHartRegs
   (pc s) (last_pc s) (reg s) (reg_prior s) v (fp_reg s) (most_recently_written_fp_reg s)
   (fflags s) (frm s) (priv s) (fs s) (vs s)).

Definition set_fp_reg (v : list Z) (s : RISCVCPUState) : RISCVCPUState :=
  with_hr s (mkHartRegs
   (pc s) (last_pc s) (reg s) (reg_prior s) (most_recently_written_reg s) v
   (most_recently_written_fp_reg s) (fflags s) (frm s) (priv s) (fs s) (vs s)).

Definition set_most_recently_written_fp_reg (v : Z) (s : RISCVCPUState) : RISCVCPUState :=
  with_hr s (mkHartRegs
   (pc s) (last_pc s) (reg s) (reg_prior s) (most_recently_written_reg s) (fp_reg s) v
   (fflags s) (frm s) (priv s) (fs s) (vs s)).

Definition set_fflags (v : Z) (s : RISCVCPUState) : RISCVCPUState :=
  with_hr s (mkHartRegs
   (pc s) (last_pc s) (reg s) (reg_prior s) (most_recently_written_reg s) (fp_reg s)
   (most_recently_written_fp_reg s) v (frm s) (priv s) (fs s) (vs s)).

Definition put_frm (v : Z) (s : RISCVCPUState) : RISCVCPUState :=
  with_hr s (mkHartRegs
   (pc s) (last_pc s) (reg s) (reg_prior s) (most_recently_written_reg s) (fp_reg s)
   (most_recently_written_fp_reg s) (fflags s) v (priv s) (fs s) (vs s)).

Definition put_priv (v : Z) (s : RISCVCPUState) : RISCVCPUState :=
  with_hr s (mkHartRegs
   (pc s) (last_pc s) (reg s) (reg_prior s) (most_recently_written_reg s) (fp_reg s)
   (most_recently_written_fp_reg s) (fflags s) (frm s) v (fs s) (vs s)).

Definition set_fs (v : Z) (s : RISCVCPUState) : RISCVCPUState :=
  with_hr s (mkHartRegs
   (pc s) (last_pc s) (reg s) (reg_prior s) (most_recently_written_reg s) (fp_reg s)
   (most_recently_written_fp_reg s) (fflags s) (frm s) (priv s) v (vs s)).

Definition set_vs (v : Z) (s : RISCVCPUState) : RISCVCPUState :=
  with_hr s (mkHartRegs
   (pc s) (last_pc s) (reg s) (reg_prior s) (most_recently_written_reg s) (fp_reg s)
   (most_recently_written_fp_reg s) (fflags s) (frm s) (priv s) (fs s) v).

Definition set_v_reg (v : list (list Z)) (s : RISCVCPUState) : RISCVCPUState :=
  with_vec s (mkVecRegs
   v (most_recently_written_vregs s) (vstart s) (vxsat s) (vxrm s) (vtype s) (vl s)).

Definition set_most_recently_written_vregs (v : list bool) (s : RISCVCPUState) : RISCVCPUState :=
  with_vec s (mkVecRegs
   (v_reg s) v (vstart s) (vxsat s) (vxrm s) (vtype s) (vl s)).

Definition set_vstart (v : Z) (s : RISCVCPUState) : RISCVCPUState :=
  with_vec s (mkVecRegs
   (v_reg s) (most_recently_written_vregs s) v (vxsat s) (vxrm s) (vtype s) (vl s)).

Definition set_vxsat (v : Z) (s : RISCVCPUState) : RISCVCPUState :=
  with_vec s (mkVecRegs
   (v_reg s) (most_recently_written_vregs s) (vstart s) v (vxrm s) (vtype s) (vl s)).

Definition set_vxrm (v : Z) (s : RISCVCPUState) : RISCVCPUState :=
  with_vec s (mkVecRegs
   (v_reg s) (most_recently_written_vregs s) (vstart s) (vxsat s) v (vtype s) (vl s)).

Definition set_vtype (v : Z) (s : RISCVCPUState) : RISCVCPUState :=
  with_vec s (mkVecRegs
   (v_reg s) (most_recently_written_vregs s) (vstart s) (vxsat s) (vxrm s) v (vl s)).

Definition set_vl (v : Z) (s : RISCVCPUState) : RISCVCPUState :=
  with_vec s (mkVecRegs
   (v_reg s) (most_recently_written_vregs s) (vstart s) (vxsat s) (vxrm s) (vtype s) v).

Definition set_insn_counter (v : Z) (s : RISCVCPUState) : RISCVCPUState :=
  with_ctl s (mkHartCtl
   v (minstret s) (mcycle s) (debug_mode s) (stop_the_counter s) (power_down_flag s)
   (terminate_simulation s) (pending_exception s) (pending_tval s) (plic_enable_irq s)
   (load_res s) (load_res_memseqno s) (physical_addr_len s) (benchmark_exit_code s) (info s)
   (next_addr s) (timecmp s) (ignore_sbi_shutdown s)).

Definition set_minstret (v : Z) (s : RISCVCPUState) : RISCVCPUState :=
  with_ctl s (mkHartCtl
   (insn_counter s) v (mcycle s) (debug_mode s) (stop_the_counter s) (power_down_flag s)
   (terminate_simulation s) (pending_exception s) (pending_tval s) (plic_enable_irq s)
   (load_res s) (load_res_memseqno s) (physical_addr_len s) (benchmark_exit_code s) (info s)
   (next_addr s) (timecmp s) (ignore_sbi_shutdown s)).

Definition set_mcycle (v : Z) (s : RISCVCPUState) : RISCVCPUState :=
  with_ctl s (mkHartCtl
   (insn_counter s) (minstret s) v (debug_mode s) (stop_the_counter s) (power_down_flag s)
   (terminate_simulation s) (pending_exception s) (pending_tval s) (plic_enable_irq s)
   (load_res s) (load_res_memseqno s) (physical_addr_len s) (benchmark_exit_code s) (info s)
   (next_addr s) (timecmp s) (ignore_sbi_shutdown s)).

Definition set_debug_mode (v : bool) (s : RISCVCPUState) : RISCVCPUState :=
  with_ctl s (mkHartCtl
   (insn_counter s) (minstret s) (mcycle s) v (stop_the_counter s) (power_down_flag s)
   (terminate_simulation s) (pending_exception s) (pending_tval s) (plic_enable_irq s)
   (load_res s) (load_res_memseqno s) (physical_addr_len s) (benchmark_exit_code s) (info s)
   (next_addr s) (timecmp s) (ignore_sbi_shutdown s)).

Definition set_stop_the_counter (v : bool) (s : RISCVCPUState) : RISCVCPUState :=
  with_ctl s (mkHartCtl
   (insn_counter s) (minstret s) (mcycle s) (debug_mode s) v (power_down_flag s)
   (terminate_simulation s) (pending_exception s) (pending_tval s) (plic_enable_irq s)
   (load_res s) (load_res_memseqno s) (physical_addr_len s) (benchmark_exit_code s) (info s)
   (next_addr s) (timecmp s) (ignore_sbi_shutdown s)).

Definition set_power_down_flag (v : bool) (s : RISCVCPUState) : RISCVCPUState :=
  with_ctl s (mkHartCtl
   (insn_counter s) (minstret s) (mcycle s) (debug_mode s) (stop_the_counter s) v
   (terminate_simulation s) (pending_exception s) (pending_tval s) (plic_enable_irq s)
   (load_res s) (load_res_memseqno s) (physical_addr_len s) (benchmark_exit_code s) (info s)
   (next_addr s) (timecmp s) (ignore_sbi_shutdown s)).

Definition set_terminate_simulation (v : bool) (s : RISCVCPUState) : RISCVCPUState :=
  with_ctl s (mkHartCtl
   (insn_counter s) (minstret s) (mcycle s) (debug_mode s) (stop_the_counter s)
   (power_down_flag s) v (pending_exception s) (pending_tval s) (plic_enable_irq s)
   (load_res s) (load_res_memseqno s) (physical_addr_len s) (benchmark_exit_code s) (info s)
   (next_addr s) (timecmp s) (ignore_sbi_shutdown s)).

Definition set_pending_exception (v : Z) (s : RISCVCPUState) : RISCVCPUState :=
  with_ctl s (mkHartCtl
   (insn_counter s) (minstret s) (mcycle s) (debug_mode s) (stop_the_counter s)
   (power_down_flag s) (terminate_simulation s) v (pending_tval s) (plic_enable_irq s)
   (load_res s) (load_res_memseqno s) (physical_addr_len s) (benchmark_exit_code s) (info s)
   (next_addr s) (timecmp s) (ignore_sbi_shutdown s)).

Definition set_pending_tval (v : Z) (s : RISCVCPUState) : RISCVCPUState :=
  with_ctl s (mkHartCtl
   (insn_counter s) (minstret s) (mcycle s) (debug_mode s) (stop_the_counter s)
   (power_down_flag s) (terminate_simulation s) (pending_exception s) v (plic_enable_irq s)
   (load_res s) (load_res_memseqno s) (physical_addr_len s) (benchmark_exit_code s) (info s)
   (next_addr s) (timecmp s) (ignore_sbi_shutdown s)).

Definition set_plic_enable_irq (v : list Z) (s : RISCVCPUState) : RISCVCPUState :=
  with_ctl s (mkHartCtl
   (insn_counter s) (minstret s) (mcycle s) (debug_mode s) (stop_the_counter s)
   (power_down_flag s) (terminate_simulation s) (pending_exception s) (pending_tval s) v
   (load_res s) (load_res_memseqno s) (physical_addr_len s) (benchmark_exit_code s) (info s)
   (next_addr s) (timecmp s) (ignore_sbi_shutdown s)).

Definition set_load_res (v : Z) (s : RISCVCPUState) : RISCVCPUState :=
  with_ctl s (mkHartCtl
   (insn_counter s) (minstret s) (mcycle s) (debug_mode s) (stop_the_counter s)
   (power_down_flag s) (terminate_simulation s) (pending_exception s) (pending_tval s)
   (plic_enable_irq s) v (load_res_memseqno s) (physical_addr_len s) (benchmark_exit_code s)
   (info s) (next_addr s) (timecmp s) (ignore_sbi_shutdown s)).

Definition set_load_res_memseqno (v : Z) (s : RISCVCPUState) : RISCVCPUState :=
  with_ctl s (mkHartCtl
   (insn_counter s) (minstret s) (mcycle s) (debug_mode s) (stop_the_counter s)
   (power_down_flag s) (terminate_simulation s) (pending_exception s) (pending_tval s)
   (plic_enable_irq s) (load_res s) v (physical_addr_len s) (benchmark_exit_code s) (info s)
   (next_addr s) (timecmp s) (ignore_sbi_shutdown s)).

Definition set_physical_addr_len (v : Z) (s : RISCVCPUState) : RISCVCPUState :=
  with_ctl s (mkHartCtl
   (insn_counter s) (minstret s) (mcycle s) (debug_mode s) (stop_the_counter s)
   (power_down_flag s) (terminate_simulation s) (pending_exception s) (pending_tval s)
   (plic_enable_irq s) (load_res s) (load_res_memseqno s) v (benchmark_exit_code s) (info s)
   (next_addr s) (timecmp s) (ignore_sbi_shutdown s)).

Definition set_benchmark_exit_code (v : Z) (s : RISCVCPUState) : RISCVCPUState :=
  with_ctl s (mkHartCtl
   (insn_counter s) (minstret s) (mcycle s) (debug_mode s) (stop_the_counter s)
   (power_down_flag s) (terminate_simulation s) (pending_exception s) (pending_tval s)
   (plic_enable_irq s) (load_res s) (load_res_memseqno s) (physical_addr_len s) v (info s)
   (next_addr s) (timecmp s) (ignore_sbi_shutdown s)).

Definition set_info (v : RISCVCTFInfo) (s : RISCVCPUState) : RISCVCPUState :=
  with_ctl s (mkHartCtl
   (insn_counter s) (minstret s) (mcycle s) (debug_mode s) (stop_the_counter s)
   (power_down_flag s) (terminate_simulation s) (pending_exception s) (pending_tval s)
   (plic_enable_irq s) (load_res s) (load_res_memseqno s) (physical_addr_len s)
   (benchmark_exit_code s) v (next_addr s) (timecmp s) (ignore_sbi_shutdown s)).

Definition set_next_addr (v : Z) (s : RISCVCPUState) : RISCVCPUState :=
  with_ctl s (mkHartCtl
   (insn_counter s) (minstret s) (mcycle s) (debug_mode s) (stop_the_counter s)
   (power_down_flag s) (terminate_simulation s) (pending_exception s) (pending_tval s)
   (plic_enable_irq s) (load_res s) (load_res_memseqno s) (physical_addr_len s)
   (benchmark_exit_code s) (info s) v (timecmp s) (ignore_sbi_shutdown s)).

Definition set_timecmp (v : Z) (s : RISCVCPUState) : RISCVCPUState :=
  with_ctl s (mkHartCtl
   (insn_counter s) (minstret s) (mcycle s) (debug_mode s) (stop_the_counter s)
   (power_down_flag s) (terminate_simulation s) (pending_exception s) (pending_tval s)
   (plic_enable_irq s) (load_res s) (load_res_memseqno s) (physical_addr_len s)
   (benchmark_exit_code s) (info s) (next_addr s) v (ignore_sbi_shutdown s)).

Definition set_ignore_sbi_shutdown (v : bool) (s : RISCVCPUState) : RISCVCPUState :=
  with_ctl s (mkHartCtl
   (insn_counter s) (minstret s) (mcycle s) (debug_mode s) (stop_the_counter s)
   (power_down_flag s) (terminate_simulation s) (pending_exception s) (pending_tval s)
   (plic_enable_irq s) (load_res s) (load_res_memseqno s) (physical_addr_len s)
   (benchmark_exit_code s) (info s) (next_addr s) (timecmp s) v).

Definition put_mstatus (v : Z) (s : RISCVCPUState) : RISCVCPUState :=
  with_mcsr s (mkMCsrs
   v (mtvec s) (mscratch s) (mepc s) (mcause s) (mtval s) (mvendorid s) (marchid s)
   (mimpid s) (mhartid s) (misa s) (mie s) (mip s) (medeleg s) (mideleg s) (mcounteren s)
   (mcountinhibit s) (tselect s) (unimpl_mcontext s) (tdata1 s) (tdata2 s) (mhpmevent s)
   (dcsr s) (dpc s) (dscratch s)).

Definition set_mtvec (v : Z) (s : RISCVCPUState) : RISCVCPUState :=
  with_mcsr s (mkMCsrs
   (mstatus s) v (mscratch s) (mepc s) (mcause s) (mtval s) (mvendorid s) (marchid s)
   (mimpid s) (mhartid s) (misa s) (mie s) (mip s) (medeleg s) (mideleg s) (mcounteren s)
   (mcountinhibit s) (tselect s) (unimpl_mcontext s) (tdata1 s) (tdata2 s) (mhpmevent s)
   (dcsr s) (dpc s) (dscratch s)).

Definition set_mscratch (v : Z) (s : RISCVCPUState) : RISCVCPUState :=
  with_mcsr s (mkMCsrs
   (mstatus s) (mtvec s) v (mepc s) (mcause s) (mtval s) (mvendorid s) (marchid s)
   (mimpid s) (mhartid s) (misa s) (mie s) (mip s) (medeleg s) (mideleg s) (mcounteren s)
   (mcountinhibit s) (tselect s) (unimpl_mcontext s) (tdata1 s) (tdata2 s) (mhpmevent s)
   (dcsr s) (dpc s) (dscratch s)).

Definition set_mepc (v : Z) (s : RISCVCPUState) : RISCVCPUState :=
  with_mcsr s (mkMCsrs
   (mstatus s) (mtvec s) (mscratch s) v (mcause s) (mtval s) (mvendorid s) (marchid s)
   (mimpid s) (mhartid s) (misa s) (mie s) (mip s) (medeleg s) (mideleg s) (mcounteren s)
   (mcountinhibit s) (tselect s) (unimpl_mcontext s) (tdata1 s) (tdata2 s) (mhpmevent s)
   (dcsr s) (dpc s) (dscratch s)).

Definition set_mcause (v : Z) (s : RISCVCPUState) : RISCVCPUState :=
  with_mcsr s (mkMCsrs
   (mstatus s) (mtvec s) (mscratch s) (mepc s) v (mtval s) (mvendorid s) (marchid s)
   (mimpid s) (mhartid s) (misa s) (mie s) (mip s) (medeleg s) (mideleg s) (mcounteren s)
   (mcountinhibit s) (tselect s) (unimpl_mcontext s) (tdata1 s) (tdata2 s) (mhpmevent s)
   (dcsr s) (dpc s) (dscratch s)).

Definition set_mtval (v : Z) (s : RISCVCPUState) : RISCVCPUState :=
  with_mcsr s (mkMCsrs
   (mstatus s) (mtvec s) (mscratch s) (mepc s) (mcause s) v (mvendorid s) (marchid s)
   (mimpid s) (mhartid s) (misa s) (mie s) (mip s) (medeleg s) (mideleg s) (mcounteren s)
   (mcountinhibit s) (tselect s) (unimpl_mcontext s) (tdata1 s) (tdata2 s) (mhpmevent s)
   (dcsr s) (dpc s) (dscratch s)).

Definition set_mvendorid (v : Z) (s : RISCVCPUState) : RISCVCPUState :=
  with_mcsr s (mkMCsrs
   (mstatus s) (mtvec s) (mscratch s) (mepc s) (mcause s) (mtval s) v (marchid s) (mimpid s)
   (mhartid s) (misa s) (mie s) (mip s) (medeleg s) (mideleg s) (mcounteren s)
   (mcountinhibit s) (tselect s) (unimpl_mcontext s) (tdata1 s) (tdata2 s) (mhpmevent s)
   (dcsr s) (dpc s) (dscratch s)).

Definition set_marchid (v : Z) (s : RISCVCPUState) : RISCVCPUState :=
  with_mcsr s (mkMCsrs
   (mstatus s) (mtvec s) (mscratch s) (mepc s) (mcause s) (mtval s) (mvendorid s) v
   (mimpid s) (mhartid s) (misa s) (mie s) (mip s) (medeleg s) (mideleg s) (mcounteren s)
   (mcountinhibit s) (tselect s) (unimpl_mcontext s) (tdata1 s) (tdata2 s) (mhpmevent s)
   (dcsr s) (dpc s) (dscratch s)).

Definition set_mimpid (v : Z) (s : RISCVCPUState) : RISCVCPUState :=
  with_mcsr s (mkMCsrs
   (mstatus s) (mtvec s) (mscratch s) (mepc s) (mcause s) (mtval s) (mvendorid s)
   (marchid s) v (mhartid s) (misa s) (mie s) (mip s) (medeleg s) (mideleg s) (mcounteren s)
   (mcountinhibit s) (tselect s) (unimpl_mcontext s) (tdata1 s) (tdata2 s) (mhpmevent s)
   (dcsr s) (dpc s) (dscratch s)).

Definition set_mhartid (v : Z) (s : RISCVCPUState) : RISCVCPUState :=
  with_mcsr s (mkMCsrs
   (mstatus s) (mtvec s) (mscratch s) (mepc s) (mcause s) (mtval s) (mvendorid s)
   (marchid s) (mimpid s) v (misa s) (mie s) (mip s) (medeleg s) (mideleg s) (mcounteren s)
   (mcountinhibit s) (tselect s) (unimpl_mcontext s) (tdata1 s) (tdata2 s) (mhpmevent s)
   (dcsr s) (dpc s) (dscratch s)).

Definition set_misa (v : Z) (s : RISCVCPUState) : RISCVCPUState :=
  with_mcsr s (mkMCsrs
   (mstatus s) (mtvec s) (mscratch s) (mepc s) (mcause s) (mtval s) (mvendorid s)
   (marchid s) (mimpid s) (mhartid s) v (mie s) (mip s) (medeleg s) (mideleg s)
   (mcounteren s) (mcountinhibit s) (tselect s) (unimpl_mcontext s) (tdata1 s) (tdata2 s)
   (mhpmevent s) (dcsr s) (dpc s) (dscratch s)).

Definition set_mie (v : Z) (s : RISCVCPUState) : RISCVCPUState :=
  with_mcsr s (mkMCsrs
   (mstatus s) (mtvec s) (mscratch s) (mepc s) (mcause s) (mtval s) (mvendorid s)
   (marchid s) (mimpid s) (mhartid s) (misa s) v (mip s) (medeleg s) (mideleg s)
   (mcounteren s) (mcountinhibit s) (tselect s) (unimpl_mcontext s) (tdata1 s) (tdata2 s)
   (mhpmevent s) (dcsr s) (dpc s) (dscratch s)).

Definition set_mip (v : Z) (s : RISCVCPUState) : RISCVCPUState :=
  with_mcsr s (mkMCsrs
   (mstatus s) (mtvec s) (mscratch s) (mepc s) (mcause s) (mtval s) (mvendorid s)
   (marchid s) (mimpid s) (mhartid s) (misa s) (mie s) v (medeleg s) (mideleg s)
   (mcounteren s) (mcountinhibit s) (tselect s) (unimpl_mcontext s) (tdata1 s) (tdata2 s)
   (mhpmevent s) (dcsr s) (dpc s) (dscratch s)).

Definition set_medeleg (v : Z) (s : RISCVCPUState) : RISCVCPUState :=
  with_mcsr s (mkMCsrs
   (mstatus s) (mtvec s) (mscratch s) (mepc s) (mcause s) (mtval s) (mvendorid s)
   (marchid s) (mimpid s) (mhartid s) (misa s) (mie s) (mip s) v (mideleg s) (mcounteren s)
   (mcountinhibit s) (tselect s) (unimpl_mcontext s) (tdata1 s) (tdata2 s) (mhpmevent s)
   (dcsr s) (dpc s) (dscratch s)).

Definition set_mideleg (v : Z) (s : RISCVCPUState) : RISCVCPUState :=
  with_mcsr s (mkMCsrs
   (mstatus s) (mtvec s) (mscratch s) (mepc s) (mcause s) (mtval s) (mvendorid s)
   (marchid s) (mimpid s) (mhartid s) (misa s) (mie s) (mip s) (medeleg s) v (mcounteren s)
   (mcountinhibit s) (tselect s) (unimpl_mcontext s) (tdata1 s) (tdata2 s) (mhpmevent s)
   (dcsr s) (dpc s) (dscratch s)).

Definition set_mcounteren (v : Z) (s : RISCVCPUState) : RISCVCPUState :=
  with_mcsr s (mkMCsrs
   (mstatus s) (mtvec s) (mscratch s) (mepc s) (mcause s) (mtval s) (mvendorid s)
   (marchid s) (mimpid s) (mhartid s) (misa s) (mie s) (mip s) (medeleg s) (mideleg s) v
   (mcountinhibit s) (tselect s) (unimpl_mcontext s) (tdata1 s) (tdata2 s) (mhpmevent s)
   (dcsr s) (dpc s) (dscratch s)).

Definition set_mcountinhibit (v : Z) (s : RISCVCPUState) : RISCVCPUState :=
  with_mcsr s (mkMCsrs
   (mstatus s) (mtvec s) (mscratch s) (mepc s) (mcause s) (mtval s) (mvendorid s)
   (marchid s) (mimpid s) (mhartid s) (misa s) (mie s) (mip s) (medeleg s) (mideleg s)
   (mcounteren s) v (tselect s) (unimpl_mcontext s) (tdata1 s) (tdata2 s) (mhpmevent s)
   (dcsr s) (dpc s) (dscratch s)).

Definition set_tselect (v : Z) (s : RISCVCPUState) : RISCVCPUState :=
  with_mcsr s (mkMCsrs
   (mstatus s) (mtvec s) (mscratch s) (mepc s) (mcause s) (mtval s) (mvendorid s)
   (marchid s) (mimpid s) (mhartid s) (misa s) (mie s) (mip s) (medeleg s) (mideleg s)
   (mcounteren s) (mcountinhibit s) v (unimpl_mcontext s) (tdata1 s) (tdata2 s)
   (mhpmevent s) (dcsr s) (dpc s) (dscratch s)).

Definition set_unimpl_mcontext (v : Z) (s : RISCVCPUState) : RISCVCPUState :=
  with_mcsr s (mkMCsrs
   (mstatus s) (mtvec s) (mscratch s) (mepc s) (mcause s) (mtval s) (mvendorid s)
   (marchid s) (mimpid s) (mhartid s) (misa s) (mie s) (mip s) (medeleg s) (mideleg s)
   (mcounteren s) (mcountinhibit s) (tselect s) v (tdata1 s) (tdata2 s) (mhpmevent s)
   (dcsr s) (dpc s) (dscratch s)).

Definition set_tdata1 (v : list Z) (s : RISCVCPUState) : RISCVCPUState :=
  with_mcsr s (mkMCsrs
   (mstatus s) (mtvec s) (mscratch s) (mepc s) (mcause s) (mtval s) (mvendorid s)
   (marchid s) (mimpid s) (mhartid s) (misa s) (mie s) (mip s) (medeleg s) (mideleg s)
   (mcounteren s) (mcountinhibit s) (tselect s) (unimpl_mcontext s) v (tdata2 s)
   (mhpmevent s) (dcsr s) (dpc s) (dscratch s)).

Definition set_tdata2 (v : list Z) (s : RISCVCPUState) : RISCVCPUState :=
  with_mcsr s (mkMCsrs
   (mstatus s) (mtvec s) (mscratch s) (mepc s) (mcause s) (mtval s) (mvendorid s)
   (marchid s) (mimpid s) (mhartid s) (misa s) (mie s) (mip s) (medeleg s) (mideleg s)
   (mcounteren s) (mcountinhibit s) (tselect s) (unimpl_mcontext s) (tdata1 s) v
   (mhpmevent s) (dcsr s) (dpc s) (dscratch s)).

Definition set_mhpmevent (v : list Z) (s : RISCVCPUState) : RISCVCPUState :=
  with_mcsr s (mkMCsrs
   (mstatus s) (mtvec s) (mscratch s) (mepc s) (mcause s) (mtval s) (mvendorid s)
   (marchid s) (mimpid s) (mhartid s) (misa s) (mie s) (mip s) (medeleg s) (mideleg s)
   (mcounteren s) (mcountinhibit s) (tselect s) (unimpl_mcontext s) (tdata1 s) (tdata2 s) v
   (dcsr s) (dpc s) (dscratch s)).

Definition set_dcsr (v : Z) (s : RISCVCPUState) : RISCVCPUState :=
  with_mcsr s (mkMCsrs
   (mstatus s) (mtvec s) (mscratch s) (mepc s) (mcause s) (mtval s) (mvendorid s)
   (marchid s) (mimpid s) (mhartid s) (misa s) (mie s) (mip s) (medeleg s) (mideleg s)
   (mcounteren s) (mcountinhibit s) (tselect s) (unimpl_mcontext s) (tdata1 s) (tdata2 s)
   (mhpmevent s) v (dpc s) (dscratch s)).

Definition set_dpc (v : Z) (s : RISCVCPUState) : RISCVCPUState :=
  with_mcsr s (mkMCsrs
   (mstatus s) (mtvec s) (mscratch s) (mepc s) (mcause s) (mtval s) (mvendorid s)
   (marchid s) (mimpid s) (mhartid s) (misa s) (mie s) (mip s) (medeleg s) (mideleg s)
   (mcounteren s) (mcountinhibit s) (tselect s) (unimpl_mcontext s) (tdata1 s) (tdata2 s)
   (mhpmevent s) (dcsr s) v (dscratch s)).

Definition set_dscratch (v : Z) (s : RISCVCPUState) : RISCVCPUState :=
  with_mcsr s (mkMCsrs
   (mstatus s) (mtvec s) (mscratch s) (mepc s) (mcause s) (mtval s) (mvendorid s)
   (marchid s) (mimpid s) (mhartid s) (misa s) (mie s) (mip s) (medeleg s) (mideleg s)
   (mcounteren s) (mcountinhibit s) (tselect s) (unimpl_mcontext s) (tdata1 s) (tdata2 s)
   (mhpmevent s) (dcsr s) (dpc s) v).

Definition set_stvec (v : Z) (s : RISCVCPUState) : RISCVCPUState :=
  with_scsr s (mkSCsrs
   v (sscratch s) (sepc s) (scause s) (stval s) (satp s) (scounteren s)).

Definition set_sscratch (v : Z) (s : RISCVCPUState) : RISCVCPUState :=
  with_scsr s (mkSCsrs
   (stvec s) v (sepc s) (scause s) (stval s) (satp s) (scounteren s)).

Definition set_sepc (v : Z) (s : RISCVCPUState) : RISCVCPUState :=
  with_scsr s (mkSCsrs
   (stvec s) (sscratch s) v (scause s) (stval s) (satp s) (scounteren s)).

Definition set_scause (v : Z) (s : RISCVCPUState) : RISCVCPUState :=
  with_scsr s (mkSCsrs
   (stvec s) (sscratch s) (sepc s) v (stval s) (satp s) (scounteren s)).

Definition set_stval (v : Z) (s : RISCVCPUState) : RISCVCPUState :=
  with_scsr s (mkSCsrs
   (stvec s) (sscratch s) (sepc s) (scause s) v (satp s) (scounteren s)).

Definition set_satp (v : Z) (s : RISCVCPUState) : RISCVCPUState :=
  with_scsr s (mkSCsrs
   (stvec s) (sscratch s) (sepc s) (scause s) (stval s) v (scounteren s)).

Definition set_scounteren (v : Z) (s : RISCVCPUState) : RISCVCPUState :=
  with_scsr s (mkSCsrs
   (stvec s) (sscratch s) (sepc s) (scause s) (stval s) (satp s) v).

Definition set_csr_pmpcfg (v : list Z) (s : RISCVCPUState) : RISCVCPUState :=
  with_pmps s (mkPmps
   v (csr_pmpaddr s) (pmp_n s) (pmp s) (pmpcfg s)).

Definition set_csr_pmpaddr (v : list Z) (s : RISCVCPUState) : RISCVCPUState :=
  with_pmps s (mkPmps
   (csr_pmpcfg s) v (pmp_n s) (pmp s) (pmpcfg s)).

Definition set_pmp_n (v : Z) (s : RISCVCPUState) : RISCVCPUState :=
  with_pmps s (mkPmps
   (csr_pmpcfg s) (csr_pmpaddr s) v (pmp s) (pmpcfg s)).

Definition set_pmp (v : list pmp_addr) (s : RISCVCPUState) : RISCVCPUState :=
  with_pmps s (mkPmps
   (csr_pmpcfg s) (csr_pmpaddr s) (pmp_n s) v (pmpcfg s)).

Definition set_pmpcfg (v : list Z) (s : RISCVCPUState) : RISCVCPUState :=
  with_pmps s (mkPmps
   (csr_pmpcfg s) (csr_pmpaddr s) (pmp_n s) (pmp s) v).

Definition set_tlb_read (v : list TLBEntry) (s : RISCVCPUState) : RISCVCPUState :=
  with_tlbs s (mkTlbs
   v (tlb_write s) (tlb_code s) (tlb_read_paddr_addend s) (tlb_write_paddr_addend s)
   (tlb_code_paddr_addend s)).

Definition set_tlb_write (v : list TLBEntry) (s : RISCVCPUState) : RISCVCPUState :=
  with_tlbs s (mkTlbs
   (tlb_read s) v (tlb_code s) (tlb_read_paddr_addend s) (tlb_write_paddr_addend s)
   (tlb_code_paddr_addend s)).

Definition set_tlb_code (v : list TLBEntry) (s : RISCVCPUState) : RISCVCPUState :=
  with_tlbs s (mkTlbs
   (tlb_read s) (tlb_write s) v (tlb_read_paddr_addend s) (tlb_write_paddr_addend s)
   (tlb_code_paddr_addend s)).

Definition set_tlb_read_paddr_addend (v : list Z) (s : RISCVCPUState) : RISCVCPUState :=
  with_tlbs s (mkTlbs
   (tlb_read s) (tlb_write s) (tlb_code s) v (tlb_write_paddr_addend s)
   (tlb_code_paddr_addend s)).

Definition set_tlb_write_paddr_addend (v : list Z) (s : RISCVCPUState) : RISCVCPUState :=
  with_tlbs s (mkTlbs
   (tlb_read s) (tlb_write s) (tlb_code s) (tlb_read_paddr_addend s) v
   (tlb_code_paddr_addend s)).

Definition set_tlb_code_paddr_addend (v : list Z) (s : RISCVCPUState) : RISCVCPUState :=
  with_tlbs s (mkTlbs
   (tlb_read s) (tlb_write s) (tlb_code s) (tlb_read_paddr_addend s)
   (tlb_write_paddr_addend s) v).

Definition set_last_data_paddr (v : Z) (s : RISCVCPUState) : RISCVCPUState :=
  with_trk s (mkTrace
   v (last_data_vaddr s) (last_data_size s) (last_data_type s) (stf_read_regs s)
   (stf_write_regs s) (stf_read_fp_regs s) (stf_write_fp_regs s) (stf_mem_reads s)
   (stf_mem_writes s) (stf_prev_priv_mode s)).

Definition set_last_data_vaddr (v : Z) (s : RISCVCPUState) : RISCVCPUState :=
  with_trk s (mkTrace
   (last_data_paddr s) v (last_data_size s) (last_data_type s) (stf_read_regs s)
   (stf_write_regs s) (stf_read_fp_regs s) (stf_write_fp_regs s) (stf_mem_reads s)
   (stf_mem_writes s) (stf_prev_priv_mode s)).

Definition set_last_data_size (v : Z) (s : RISCVCPUState) : RISCVCPUState :=
  with_trk s (mkTrace
   (last_data_paddr s) (last_data_vaddr s) v (last_data_type s) (stf_read_regs s)
   (stf_write_regs s) (stf_read_fp_regs s) (stf_write_fp_regs s) (stf_mem_reads s)
   (stf_mem_writes s) (stf_prev_priv_mode s)).

Definition set_last_data_type (v : Z) (s : RISCVCPUState) : RISCVCPUState :=
  with_trk s (mkTrace
   (last_data_paddr s) (last_data_vaddr s) (last_data_size s) v (stf_read_regs s)
   (stf_write_regs s) (stf_read_fp_regs s) (stf_write_fp_regs s) (stf_mem_reads s)
   (stf_mem_writes s) (stf_prev_priv_mode s)).

Definition set_stf_read_regs (v : list Z) (s : RISCVCPUState) : RISCVCPUState :=
  with_trk s (mkTrace
   (last_data_paddr s) (last_data_vaddr s) (last_data_size s) (last_data_type s) v
   (stf_write_regs s) (stf_read_fp_regs s) (stf_write_fp_regs s) (stf_mem_reads s)
   (stf_mem_writes s) (stf_prev_priv_mode s)).

Definition set_stf_write_regs (v : list Z) (s : RISCVCPUState) : RISCVCPUState :=
  with_trk s (mkTrace
   (last_data_paddr s) (last_data_vaddr s) (last_data_size s) (last_data_type s)
   (stf_read_regs s) v (stf_read_fp_regs s) (stf_write_fp_regs s) (stf_mem_reads s)
   (stf_mem_writes s) (stf_prev_priv_mode s)).

Definition set_stf_read_fp_regs (v : list Z) (s : RISCVCPUState) : RISCVCPUState :=
  with_trk s (mkTrace
   (last_data_paddr s) (last_data_vaddr s) (last_data_size s) (last_data_type s)
   (stf_read_regs s) (stf_write_regs s) v (stf_write_fp_regs s) (stf_mem_reads s)
   (stf_mem_writes s) (stf_prev_priv_mode s)).

Definition set_stf_write_fp_regs (v : list Z) (s : RISCVCPUState) : RISCVCPUState :=
  with_trk s (mkTrace
   (last_data_paddr s) (last_data_vaddr s) (last_data_size s) (last_data_type s)
   (stf_read_regs s) (stf_write_regs s) (stf_read_fp_regs s) v (stf_mem_reads s)
   (stf_mem_writes s) (stf_prev_priv_mode s)).

Definition set_stf_mem_reads (v : list stf_mem_access) (s : RISCVCPUState) : RISCVCPUState :=
  with_trk s (mkTrace
   (last_data_paddr s) (last_data_vaddr s) (last_data_size s) (last_data_type s)
   (stf_read_regs s) (stf_write_regs s) (stf_read_fp_regs s) (stf_write_fp_regs s) v
   (stf_mem_writes s) (stf_prev_priv_mode s)).

Definition set_stf_mem_writes (v : list stf_mem_access) (s : RISCVCPUState) : RISCVCPUState :=
  with_trk s (mkTrace
   (last_data_paddr s) (last_data_vaddr s) (last_data_size s) (last_data_type s)
   (stf_read_regs s) (stf_write_regs s) (stf_read_fp_regs s) (stf_write_fp_regs s)
   (stf_mem_reads s) v (stf_prev_priv_mode s)).

Definition set_stf_prev_priv_mode (v : Z) (s : RISCVCPUState) : RISCVCPUState :=
  with_trk s (mkTrace
   (last_data_paddr s) (last_data_vaddr s) (last_data_size s) (last_data_type s)
   (stf_read_regs s) (stf_write_regs s) (stf_read_fp_regs s) (stf_write_fp_regs s)
   (stf_mem_reads s) (stf_mem_writes s) v).

(** [struct RISCVMachine] with the [VirtMachine common] fields the hart reads
    or writes (include/riscv_machine.h, include/machine.h).  [hmem] is the
    host memory that [phys_mem] pointers address, [simpoint_roi] and
    [plic_priority] are globals of the program, [stf_trace] says whether the
    trace file name is set and [stf_writer_open] is the state of the trace
    writer object and
    [stf_out] the records it has written, in order. *)
Record RISCVMachine := mkMachine {
  cpu_state : list RISCVCPUState;
  mem_map : list PhysMemoryRange;
  hmem : gmap Z Z;
  memseqno : Z;
  ncpus : Z;
  ram_base_addr : Z;
  plic_pending_irq : Z;
  plic_served_irq : Z;
  plic_priority : list Z;
  htif_tohost_addr : Z;
  maxinsns : Z;
  simpoint_en_bbv : bool;
  simpoint_roi : bool;
  cosim : bool;
  pending_interrupt : Z;
  stf_trace : bool;
  stf_exit_on_stop_opc : bool;
  stf_memrecord_size_in_bits : bool;
  stf_highest_priv_mode : Z;
  stf_insn_num_tracing : bool;
  stf_trace_open_flag : bool;
  stf_in_traceable_region : bool;
  stf_macro_tracing_active : bool;
  stf_insn_tracing_active : bool;
  stf_is_start_opc : bool;
  stf_is_stop_opc : bool;
  stf_has_exit_pending : bool;
  stf_prog_asid : Z;
  stf_writer_open : bool;
  num_executed : Z;
  stf_num_traced : Z;
  stf_trace_register_state : bool;
  stf_disable_memory_records : bool;
  stf_insn_start : Z;
  stf_insn_length : Z;
  exe_trace : Z;
  interactive : bool;
  stf_out : list stf_record
}.

Definition set_cpu_state (v : list RISCVCPUState) (s : RISCVMachine) : RISCVMachine :=
  mkMachine
   v s.(mem_map) s.(hmem) s.(memseqno) s.(ncpus) s.(ram_base_addr) s.(plic_pending_irq)
   s.(plic_served_irq) s.(plic_priority) s.(htif_tohost_addr) s.(maxinsns)
   s.(simpoint_en_bbv) s.(simpoint_roi) s.(cosim) s.(pending_interrupt) s.(stf_trace)
   s.(stf_exit_on_stop_opc) s.(stf_memrecord_size_in_bits) s.(stf_highest_priv_mode)
   s.(stf_insn_num_tracing) s.(stf_trace_open_flag) s.(stf_in_traceable_region)
   s.(stf_macro_tracing_active) s.(stf_insn_tracing_active) s.(stf_is_start_opc)
   s.(stf_is_stop_opc) s.(stf_has_exit_pending) s.(stf_prog_asid) s.(stf_writer_open)
   s.(num_executed) s.(stf_num_traced) s.(stf_trace_register_state)
   s.(stf_disable_memory_records) s.(stf_insn_start) s.(stf_insn_length) s.(exe_trace)
   s.(interactive) s.(stf_out).

Definition set_mem_map (v : list PhysMemoryRange) (s : RISCVMachine) : RISCVMachine :=
  mkMachine
   s.(cpu_state) v s.(hmem) s.(memseqno) s.(ncpus) s.(ram_base_addr) s.(plic_pending_irq)
   s.(plic_served_irq) s.(plic_priority) s.(htif_tohost_addr) s.(maxinsns)
   s.(simpoint_en_bbv) s.(simpoint_roi) s.(cosim) s.(pending_interrupt) s.(stf_trace)
   s.(stf_exit_on_stop_opc) s.(stf_memrecord_size_in_bits) s.(stf_highest_priv_mode)
   s.(stf_insn_num_tracing) s.(stf_trace_open_flag) s.(stf_in_traceable_region)
   s.(stf_macro_tracing_active) s.(stf_insn_tracing_active) s.(stf_is_start_opc)
   s.(stf_is_stop_opc) s.(stf_has_exit_pending) s.(stf_prog_asid) s.(stf_writer_open)
   s.(num_executed) s.(stf_num_traced) s.(stf_trace_register_state)
   s.(stf_disable_memory_records) s.(stf_insn_start) s.(stf_insn_length) s.(exe_trace)
   s.(interactive) s.(stf_out).

Definition set_hmem (v : gmap Z Z) (s : RISCVMachine) : RISCVMachine :=
  mkMachine
   s.(cpu_state) s.(mem_map) v s.(memseqno) s.(ncpus) s.(ram_base_addr) s.(plic_pending_irq)
   s.(plic_served_irq) s.(plic_priority) s.(htif_tohost_addr) s.(maxinsns)
   s.(simpoint_en_bbv) s.(simpoint_roi) s.(cosim) s.(pending_interrupt) s.(stf_trace)
   s.(stf_exit_on_stop_opc) s.(stf_memrecord_size_in_bits) s.(stf_highest_priv_mode)
   s.(stf_insn_num_tracing) s.(stf_trace_open_flag) s.(stf_in_traceable_region)
   s.(stf_macro_tracing_active) s.(stf_insn_tracing_active) s.(stf_is_start_opc)
   s.(stf_is_stop_opc) s.(stf_has_exit_pending) s.(stf_prog_asid) s.(stf_writer_open)
   s.(num_executed) s.(stf_num_traced) s.(stf_trace_register_state)
   s.(stf_disable_memory_records) s.(stf_insn_start) s.(stf_insn_length) s.(exe_trace)
   s.(interactive) s.(stf_out).

Definition set_memseqno (v : Z) (s : RISCVMachine) : RISCVMachine :=
  mkMachine
   s.(cpu_state) s.(mem_map) s.(hmem) v s.(ncpus) s.(ram_base_addr) s.(plic_pending_irq)
   s.(plic_served_irq) s.(plic_priority) s.(htif_tohost_addr) s.(maxinsns)
   s.(simpoint_en_bbv) s.(simpoint_roi) s.(cosim) s.(pending_interrupt) s.(stf_trace)
   s.(stf_exit_on_stop_opc) s.(stf_memrecord_size_in_bits) s.(stf_highest_priv_mode)
   s.(stf_insn_num_tracing) s.(stf_trace_open_flag) s.(stf_in_traceable_region)
   s.(stf_macro_tracing_active) s.(stf_insn_tracing_active) s.(stf_is_start_opc)
   s.(stf_is_stop_opc) s.(stf_has_exit_pending) s.(stf_prog_asid) s.(stf_writer_open)
   s.(num_executed) s.(stf_num_traced) s.(stf_trace_register_state)
   s.(stf_disable_memory_records) s.(stf_insn_start) s.(stf_insn_length) s.(exe_trace)
   s.(interactive) s.(stf_out).

Definition set_ncpus (v : Z) (s : RISCVMachine) : RISCVMachine :=
  mkMachine
   s.(cpu_state) s.(mem_map) s.(hmem) s.(memseqno) v s.(ram_base_addr) s.(plic_pending_irq)
   s.(plic_served_irq) s.(plic_priority) s.(htif_tohost_addr) s.(maxinsns)
   s.(simpoint_en_bbv) s.(simpoint_roi) s.(cosim) s.(pending_interrupt) s.(stf_trace)
   s.(stf_exit_on_stop_opc) s.(stf_memrecord_size_in_bits) s.(stf_highest_priv_mode)
   s.(stf_insn_num_tracing) s.(stf_trace_open_flag) s.(stf_in_traceable_region)
   s.(stf_macro_tracing_active) s.(stf_insn_tracing_active) s.(stf_is_start_opc)
   s.(stf_is_stop_opc) s.(stf_has_exit_pending) s.(stf_prog_asid) s.(stf_writer_open)
   s.(num_executed) s.(stf_num_traced) s.(stf_trace_register_state)
   s.(stf_disable_memory_records) s.(stf_insn_start) s.(stf_insn_length) s.(exe_trace)
   s.(interactive) s.(stf_out).

Definition set_ram_base_addr (v : Z) (s : RISCVMachine) : RISCVMachine :=
  mkMachine
   s.(cpu_state) s.(mem_map) s.(hmem) s.(memseqno) s.(ncpus) v s.(plic_pending_irq)
   s.(plic_served_irq) s.(plic_priority) s.(htif_tohost_addr) s.(maxinsns)
   s.(simpoint_en_bbv) s.(simpoint_roi) s.(cosim) s.(pending_interrupt) s.(stf_trace)
   s.(stf_exit_on_stop_opc) s.(stf_memrecord_size_in_bits) s.(stf_highest_priv_mode)
   s.(stf_insn_num_tracing) s.(stf_trace_open_flag) s.(stf_in_traceable_region)
   s.(stf_macro_tracing_active) s.(stf_insn_tracing_active) s.(stf_is_start_opc)
   s.(stf_is_stop_opc) s.(stf_has_exit_pending) s.(stf_prog_asid) s.(stf_writer_open)
   s.(num_executed) s.(stf_num_traced) s.(stf_trace_register_state)
   s.(stf_disable_memory_records) s.(stf_insn_start) s.(stf_insn_length) s.(exe_trace)
   s.(interactive) s.(stf_out).

Definition set_plic_pending_irq (v : Z) (s : RISCVMachine) : RISCVMachine :=
  mkMachine
   s.(cpu_state) s.(mem_map) s.(hmem) s.(memseqno) s.(ncpus) s.(ram_base_addr) v
   s.(plic_served_irq) s.(plic_priority) s.(htif_tohost_addr) s.(maxinsns)
   s.(simpoint_en_bbv) s.(simpoint_roi) s.(cosim) s.(pending_interrupt) s.(stf_trace)
   s.(stf_exit_on_stop_opc) s.(stf_memrecord_size_in_bits) s.(stf_highest_priv_mode)
   s.(stf_insn_num_tracing) s.(stf_trace_open_flag) s.(stf_in_traceable_region)
   s.(stf_macro_tracing_active) s.(stf_insn_tracing_active) s.(stf_is_start_opc)
   s.(stf_is_stop_opc) s.(stf_has_exit_pending) s.(stf_prog_asid) s.(stf_writer_open)
   s.(num_executed) s.(stf_num_traced) s.(stf_trace_register_state)
   s.(stf_disable_memory_records) s.(stf_insn_start) s.(stf_insn_length) s.(exe_trace)
   s.(interactive) s.(stf_out).

Definition set_plic_served_irq (v : Z) (s : RISCVMachine) : RISCVMachine :=
  mkMachine
   s.(cpu_state) s.(mem_map) s.(hmem) s.(memseqno) s.(ncpus) s.(ram_base_addr)
   s.(plic_pending_irq) v s.(plic_priority) s.(htif_tohost_addr) s.(maxinsns)
   s.(simpoint_en_bbv) s.(simpoint_roi) s.(cosim) s.(pending_interrupt) s.(stf_trace)
   s.(stf_exit_on_stop_opc) s.(stf_memrecord_size_in_bits) s.(stf_highest_priv_mode)
   s.(stf_insn_num_tracing) s.(stf_trace_open_flag) s.(stf_in_traceable_region)
   s.(stf_macro_tracing_active) s.(stf_insn_tracing_active) s.(stf_is_start_opc)
   s.(stf_is_stop_opc) s.(stf_has_exit_pending) s.(stf_prog_asid) s.(stf_writer_open)
   s.(num_executed) s.(stf_num_traced) s.(stf_trace_register_state)
   s.(stf_disable_memory_records) s.(stf_insn_start) s.(stf_insn_length) s.(exe_trace)
   s.(interactive) s.(stf_out).

Definition set_plic_priority (v : list Z) (s : RISCVMachine) : RISCVMachine :=
  mkMachine
   s.(cpu_state) s.(mem_map) s.(hmem) s.(memseqno) s.(ncpus) s.(ram_base_addr)
   s.(plic_pending_irq) s.(plic_served_irq) v s.(htif_tohost_addr) s.(maxinsns)
   s.(simpoint_en_bbv) s.(simpoint_roi) s.(cosim) s.(pending_interrupt) s.(stf_trace)
   s.(stf_exit_on_stop_opc) s.(stf_memrecord_size_in_bits) s.(stf_highest_priv_mode)
   s.(stf_insn_num_tracing) s.(stf_trace_open_flag) s.(stf_in_traceable_region)
   s.(stf_macro_tracing_active) s.(stf_insn_tracing_active) s.(stf_is_start_opc)
   s.(stf_is_stop_opc) s.(stf_has_exit_pending) s.(stf_prog_asid) s.(stf_writer_open)
   s.(num_executed) s.(stf_num_traced) s.(stf_trace_register_state)
   s.(stf_disable_memory_records) s.(stf_insn_start) s.(stf_insn_length) s.(exe_trace)
   s.(interactive) s.(stf_out).

Definition set_htif_tohost_addr (v : Z) (s : RISCVMachine) : RISCVMachine :=
  mkMachine
   s.(cpu_state) s.(mem_map) s.(hmem) s.(memseqno) s.(ncpus) s.(ram_base_addr)
   s.(plic_pending_irq) s.(plic_served_irq) s.(plic_priority) v s.(maxinsns)
   s.(simpoint_en_bbv) s.(simpoint_roi) s.(cosim) s.(pending_interrupt) s.(stf_trace)
   s.(stf_exit_on_stop_opc) s.(stf_memrecord_size_in_bits) s.(stf_highest_priv_mode)
   s.(stf_insn_num_tracing) s.(stf_trace_open_flag) s.(stf_in_traceable_region)
   s.(stf_macro_tracing_active) s.(stf_insn_tracing_active) s.(stf_is_start_opc)
   s.(stf_is_stop_opc) s.(stf_has_exit_pending) s.(stf_prog_asid) s.(stf_writer_open)
   s.(num_executed) s.(stf_num_traced) s.(stf_trace_register_state)
   s.(stf_disable_memory_records) s.(stf_insn_start) s.(stf_insn_length) s.(exe_trace)
   s.(interactive) s.(stf_out).

Definition set_maxinsns (v : Z) (s : RISCVMachine) : RISCVMachine :=
  mkMachine
   s.(cpu_state) s.(mem_map) s.(hmem) s.(memseqno) s.(ncpus) s.(ram_base_addr)
   s.(plic_pending_irq) s.(plic_served_irq) s.(plic_priority) s.(htif_tohost_addr) v
   s.(simpoint_en_bbv) s.(simpoint_roi) s.(cosim) s.(pending_interrupt) s.(stf_trace)
   s.(stf_exit_on_stop_opc) s.(stf_memrecord_size_in_bits) s.(stf_highest_priv_mode)
   s.(stf_insn_num_tracing) s.(stf_trace_open_flag) s.(stf_in_traceable_region)
   s.(stf_macro_tracing_active) s.(stf_insn_tracing_active) s.(stf_is_start_opc)
   s.(stf_is_stop_opc) s.(stf_has_exit_pending) s.(stf_prog_asid) s.(stf_writer_open)
   s.(num_executed) s.(stf_num_traced) s.(stf_trace_register_state)
   s.(stf_disable_memory_records) s.(stf_insn_start) s.(stf_insn_length) s.(exe_trace)
   s.(interactive) s.(stf_out).

Definition set_simpoint_en_bbv (v : bool) (s : RISCVMachine) : RISCVMachine :=
  mkMachine
   s.(cpu_state) s.(mem_map) s.(hmem) s.(memseqno) s.(ncpus) s.(ram_base_addr)
   s.(plic_pending_irq) s.(plic_served_irq) s.(plic_priority) s.(htif_tohost_addr)
   s.(maxinsns) v s.(simpoint_roi) s.(cosim) s.(pending_interrupt) s.(stf_trace)
   s.(stf_exit_on_stop_opc) s.(stf_memrecord_size_in_bits) s.(stf_highest_priv_mode)
   s.(stf_insn_num_tracing) s.(stf_trace_open_flag) s.(stf_in_traceable_region)
   s.(stf_macro_tracing_active) s.(stf_insn_tracing_active) s.(stf_is_start_opc)
   s.(stf_is_stop_opc) s.(stf_has_exit_pending) s.(stf_prog_asid) s.(stf_writer_open)
   s.(num_executed) s.(stf_num_traced) s.(stf_trace_register_state)
   s.(stf_disable_memory_records) s.(stf_insn_start) s.(stf_insn_length) s.(exe_trace)
   s.(interactive) s.(stf_out).

Definition set_simpoint_roi (v : bool) (s : RISCVMachine) : RISCVMachine :=
  mkMachine
   s.(cpu_state) s.(mem_map) s.(hmem) s.(memseqno) s.(ncpus) s.(ram_base_addr)
   s.(plic_pending_irq) s.(plic_served_irq) s.(plic_priority) s.(htif_tohost_addr)
   s.(maxinsns) s.(simpoint_en_bbv) v s.(cosim) s.(pending_interrupt) s.(stf_trace)
   s.(stf_exit_on_stop_opc) s.(stf_memrecord_size_in_bits) s.(stf_highest_priv_mode)
   s.(stf_insn_num_tracing) s.(stf_trace_open_flag) s.(stf_in_traceable_region)
   s.(stf_macro_tracing_active) s.(stf_insn_tracing_active) s.(stf_is_start_opc)
   s.(stf_is_stop_opc) s.(stf_has_exit_pending) s.(stf_prog_asid) s.(stf_writer_open)
   s.(num_executed) s.(stf_num_traced) s.(stf_trace_register_state)
   s.(stf_disable_memory_records) s.(stf_insn_start) s.(stf_insn_length) s.(exe_trace)
   s.(interactive) s.(stf_out).

Definition set_cosim (v : bool) (s : RISCVMachine) : RISCVMachine :=
  mkMachine
   s.(cpu_state) s.(mem_map) s.(hmem) s.(memseqno) s.(ncpus) s.(ram_base_addr)
   s.(plic_pending_irq) s.(plic_served_irq) s.(plic_priority) s.(htif_tohost_addr)
   s.(maxinsns) s.(simpoint_en_bbv) s.(simpoint_roi) v s.(pending_interrupt) s.(stf_trace)
   s.(stf_exit_on_stop_opc) s.(stf_memrecord_size_in_bits) s.(stf_highest_priv_mode)
   s.(stf_insn_num_tracing) s.(stf_trace_open_flag) s.(stf_in_traceable_region)
   s.(stf_macro_tracing_active) s.(stf_insn_tracing_active) s.(stf_is_start_opc)
   s.(stf_is_stop_opc) s.(stf_has_exit_pending) s.(stf_prog_asid) s.(stf_writer_open)
   s.(num_executed) s.(stf_num_traced) s.(stf_trace_register_state)
   s.(stf_disable_memory_records) s.(stf_insn_start) s.(stf_insn_length) s.(exe_trace)
   s.(interactive) s.(stf_out).

Definition set_pending_interrupt (v : Z) (s : RISCVMachine) : RISCVMachine :=
  mkMachine
   s.(cpu_state) s.(mem_map) s.(hmem) s.(memseqno) s.(ncpus) s.(ram_base_addr)
   s.(plic_pending_irq) s.(plic_served_irq) s.(plic_priority) s.(htif_tohost_addr)
   s.(maxinsns) s.(simpoint_en_bbv) s.(simpoint_roi) s.(cosim) v s.(stf_trace)
   s.(stf_exit_on_stop_opc) s.(stf_memrecord_size_in_bits) s.(stf_highest_priv_mode)
   s.(stf_insn_num_tracing) s.(stf_trace_open_flag) s.(stf_in_traceable_region)
   s.(stf_macro_tracing_active) s.(stf_insn_tracing_active) s.(stf_is_start_opc)
   s.(stf_is_stop_opc) s.(stf_has_exit_pending) s.(stf_prog_asid) s.(stf_writer_open)
   s.(num_executed) s.(stf_num_traced) s.(stf_trace_register_state)
   s.(stf_disable_memory_records) s.(stf_insn_start) s.(stf_insn_length) s.(exe_trace)
   s.(interactive) s.(stf_out).

Definition set_stf_trace (v : bool) (s : RISCVMachine) : RISCVMachine :=
  mkMachine
   s.(cpu_state) s.(mem_map) s.(hmem) s.(memseqno) s.(ncpus) s.(ram_base_addr)
   s.(plic_pending_irq) s.(plic_served_irq) s.(plic_priority) s.(htif_tohost_addr)
   s.(maxinsns) s.(simpoint_en_bbv) s.(simpoint_roi) s.(cosim) s.(pending_interrupt) v
   s.(stf_exit_on_stop_opc) s.(stf_memrecord_size_in_bits) s.(stf_highest_priv_mode)
   s.(stf_insn_num_tracing) s.(stf_trace_open_flag) s.(stf_in_traceable_region)
   s.(stf_macro_tracing_active) s.(stf_insn_tracing_active) s.(stf_is_start_opc)
   s.(stf_is_stop_opc) s.(stf_has_exit_pending) s.(stf_prog_asid) s.(stf_writer_open)
   s.(num_executed) s.(stf_num_traced) s.(stf_trace_register_state)
   s.(stf_disable_memory_records) s.(stf_insn_start) s.(stf_insn_length) s.(exe_trace)
   s.(interactive) s.(stf_out).

Definition set_stf_exit_on_stop_opc (v : bool) (s : RISCVMachine) : RISCVMachine :=
  mkMachine
   s.(cpu_state) s.(mem_map) s.(hmem) s.(memseqno) s.(ncpus) s.(ram_base_addr)
   s.(plic_pending_irq) s.(plic_served_irq) s.(plic_priority) s.(htif_tohost_addr)
   s.(maxinsns) s.(simpoint_en_bbv) s.(simpoint_roi) s.(cosim) s.(pending_interrupt)
   s.(stf_trace) v s.(stf_memrecord_size_in_bits) s.(stf_highest_priv_mode)
   s.(stf_insn_num_tracing) s.(stf_trace_open_flag) s.(stf_in_traceable_region)
   s.(stf_macro_tracing_active) s.(stf_insn_tracing_active) s.(stf_is_start_opc)
   s.(stf_is_stop_opc) s.(stf_has_exit_pending) s.(stf_prog_asid) s.(stf_writer_open)
   s.(num_executed) s.(stf_num_traced) s.(stf_trace_register_state)
   s.(stf_disable_memory_records) s.(stf_insn_start) s.(stf_insn_length) s.(exe_trace)
   s.(interactive) s.(stf_out).

Definition set_stf_memrecord_size_in_bits (v : bool) (s : RISCVMachine) : RISCVMachine :=
  mkMachine
   s.(cpu_state) s.(mem_map) s.(hmem) s.(memseqno) s.(ncpus) s.(ram_base_addr)
   s.(plic_pending_irq) s.(plic_served_irq) s.(plic_priority) s.(htif_tohost_addr)
   s.(maxinsns) s.(simpoint_en_bbv) s.(simpoint_roi) s.(cosim) s.(pending_interrupt)
   s.(stf_trace) s.(stf_exit_on_stop_opc) v s.(stf_highest_priv_mode)
   s.(stf_insn_num_tracing) s.(stf_trace_open_flag) s.(stf_in_traceable_region)
   s.(stf_macro_tracing_active) s.(stf_insn_tracing_active) s.(stf_is_start_opc)
   s.(stf_is_stop_opc) s.(stf_has_exit_pending) s.(stf_prog_asid) s.(stf_writer_open)
   s.(num_executed) s.(stf_num_traced) s.(stf_trace_register_state)
   s.(stf_disable_memory_records) s.(stf_insn_start) s.(stf_insn_length) s.(exe_trace)
   s.(interactive) s.(stf_out).

Definition set_stf_highest_priv_mode (v : Z) (s : RISCVMachine) : RISCVMachine :=
  mkMachine
   s.(cpu_state) s.(mem_map) s.(hmem) s.(memseqno) s.(ncpus) s.(ram_base_addr)
   s.(plic_pending_irq) s.(plic_served_irq) s.(plic_priority) s.(htif_tohost_addr)
   s.(maxinsns) s.(simpoint_en_bbv) s.(simpoint_roi) s.(cosim) s.(pending_interrupt)
   s.(stf_trace) s.(stf_exit_on_stop_opc) s.(stf_memrecord_size_in_bits) v
   s.(stf_insn_num_tracing) s.(stf_trace_open_flag) s.(stf_in_traceable_region)
   s.(stf_macro_tracing_active) s.(stf_insn_tracing_active) s.(stf_is_start_opc)
   s.(stf_is_stop_opc) s.(stf_has_exit_pending) s.(stf_prog_asid) s.(stf_writer_open)
   s.(num_executed) s.(stf_num_traced) s.(stf_trace_register_state)
   s.(stf_disable_memory_records) s.(stf_insn_start) s.(stf_insn_length) s.(exe_trace)
   s.(interactive) s.(stf_out).

Definition set_stf_insn_num_tracing (v : bool) (s : RISCVMachine) : RISCVMachine :=
  mkMachine
   s.(cpu_state) s.(mem_map) s.(hmem) s.(memseqno) s.(ncpus) s.(ram_base_addr)
   s.(plic_pending_irq) s.(plic_served_irq) s.(plic_priority) s.(htif_tohost_addr)
   s.(maxinsns) s.(simpoint_en_bbv) s.(simpoint_roi) s.(cosim) s.(pending_interrupt)
   s.(stf_trace) s.(stf_exit_on_stop_opc) s.(stf_memrecord_size_in_bits)
   s.(stf_highest_priv_mode) v s.(stf_trace_open_flag) s.(stf_in_traceable_region)
   s.(stf_macro_tracing_active) s.(stf_insn_tracing_active) s.(stf_is_start_opc)
   s.(stf_is_stop_opc) s.(stf_has_exit_pending) s.(stf_prog_asid) s.(stf_writer_open)
   s.(num_executed) s.(stf_num_traced) s.(stf_trace_register_state)
   s.(stf_disable_memory_records) s.(stf_insn_start) s.(stf_insn_length) s.(exe_trace)
   s.(interactive) s.(stf_out).

Definition set_stf_trace_open_flag (v : bool) (s : RISCVMachine) : RISCVMachine :=
  mkMachine
   s.(cpu_state) s.(mem_map) s.(hmem) s.(memseqno) s.(ncpus) s.(ram_base_addr)
   s.(plic_pending_irq) s.(plic_served_irq) s.(plic_priority) s.(htif_tohost_addr)
   s.(maxinsns) s.(simpoint_en_bbv) s.(simpoint_roi) s.(cosim) s.(pending_interrupt)
   s.(stf_trace) s.(stf_exit_on_stop_opc) s.(stf_memrecord_size_in_bits)
   s.(stf_highest_priv_mode) s.(stf_insn_num_tracing) v s.(stf_in_traceable_region)
   s.(stf_macro_tracing_active) s.(stf_insn_tracing_active) s.(stf_is_start_opc)
   s.(stf_is_stop_opc) s.(stf_has_exit_pending) s.(stf_prog_asid) s.(stf_writer_open)
   s.(num_executed) s.(stf_num_traced) s.(stf_trace_register_state)
   s.(stf_disable_memory_records) s.(stf_insn_start) s.(stf_insn_length) s.(exe_trace)
   s.(interactive) s.(stf_out).

Definition set_stf_in_traceable_region (v : bool) (s : RISCVMachine) : RISCVMachine :=
  mkMachine
   s.(cpu_state) s.(mem_map) s.(hmem) s.(memseqno) s.(ncpus) s.(ram_base_addr)
   s.(plic_pending_irq) s.(plic_served_irq) s.(plic_priority) s.(htif_tohost_addr)
   s.(maxinsns) s.(simpoint_en_bbv) s.(simpoint_roi) s.(cosim) s.(pending_interrupt)
   s.(stf_trace) s.(stf_exit_on_stop_opc) s.(stf_memrecord_size_in_bits)
   s.(stf_highest_priv_mode) s.(stf_insn_num_tracing) s.(stf_trace_open_flag) v
   s.(stf_macro_tracing_active) s.(stf_insn_tracing_active) s.(stf_is_start_opc)
   s.(stf_is_stop_opc) s.(stf_has_exit_pending) s.(stf_prog_asid) s.(stf_writer_open)
   s.(num_executed) s.(stf_num_traced) s.(stf_trace_register_state)
   s.(stf_disable_memory_records) s.(stf_insn_start) s.(stf_insn_length) s.(exe_trace)
   s.(interactive) s.(stf_out).

Definition set_stf_macro_tracing_active (v : bool) (s : RISCVMachine) : RISCVMachine :=
  mkMachine
   s.(cpu_state) s.(mem_map) s.(hmem) s.(memseqno) s.(ncpus) s.(ram_base_addr)
   s.(plic_pending_irq) s.(plic_served_irq) s.(plic_priority) s.(htif_tohost_addr)
   s.(maxinsns) s.(simpoint_en_bbv) s.(simpoint_roi) s.(cosim) s.(pending_interrupt)
   s.(stf_trace) s.(stf_exit_on_stop_opc) s.(stf_memrecord_size_in_bits)
   s.(stf_highest_priv_mode) s.(stf_insn_num_tracing) s.(stf_trace_open_flag)
   s.(stf_in_traceable_region) v s.(stf_insn_tracing_active) s.(stf_is_start_opc)
   s.(stf_is_stop_opc) s.(stf_has_exit_pending) s.(stf_prog_asid) s.(stf_writer_open)
   s.(num_executed) s.(stf_num_traced) s.(stf_trace_register_state)
   s.(stf_disable_memory_records) s.(stf_insn_start) s.(stf_insn_length) s.(exe_trace)
   s.(interactive) s.(stf_out).

Definition set_stf_insn_tracing_active (v : bool) (s : RISCVMachine) : RISCVMachine :=
  mkMachine
   s.(cpu_state) s.(mem_map) s.(hmem) s.(memseqno) s.(ncpus) s.(ram_base_addr)
   s.(plic_pending_irq) s.(plic_served_irq) s.(plic_priority) s.(htif_tohost_addr)
   s.(maxinsns) s.(simpoint_en_bbv) s.(simpoint_roi) s.(cosim) s.(pending_interrupt)
   s.(stf_trace) s.(stf_exit_on_stop_opc) s.(stf_memrecord_size_in_bits)
   s.(stf_highest_priv_mode) s.(stf_insn_num_tracing) s.(stf_trace_open_flag)
   s.(stf_in_traceable_region) s.(stf_macro_tracing_active) v s.(stf_is_start_opc)
   s.(stf_is_stop_opc) s.(stf_has_exit_pending) s.(stf_prog_asid) s.(stf_writer_open)
   s.(num_executed) s.(stf_num_traced) s.(stf_trace_register_state)
   s.(stf_disable_memory_records) s.(stf_insn_start) s.(stf_insn_length) s.(exe_trace)
   s.(interactive) s.(stf_out).

Definition set_stf_is_start_opc (v : bool) (s : RISCVMachine) : RISCVMachine :=
  mkMachine
   s.(cpu_state) s.(mem_map) s.(hmem) s.(memseqno) s.(ncpus) s.(ram_base_addr)
   s.(plic_pending_irq) s.(plic_served_irq) s.(plic_priority) s.(htif_tohost_addr)
   s.(maxinsns) s.(simpoint_en_bbv) s.(simpoint_roi) s.(cosim) s.(pending_interrupt)
   s.(stf_trace) s.(stf_exit_on_stop_opc) s.(stf_memrecord_size_in_bits)
   s.(stf_highest_priv_mode) s.(stf_insn_num_tracing) s.(stf_trace_open_flag)
   s.(stf_in_traceable_region) s.(stf_macro_tracing_active) s.(stf_insn_tracing_active) v
   s.(stf_is_stop_opc) s.(stf_has_exit_pending) s.(stf_prog_asid) s.(stf_writer_open)
   s.(num_executed) s.(stf_num_traced) s.(stf_trace_register_state)
   s.(stf_disable_memory_records) s.(stf_insn_start) s.(stf_insn_length) s.(exe_trace)
   s.(interactive) s.(stf_out).

Definition set_stf_is_stop_opc (v : bool) (s : RISCVMachine) : RISCVMachine :=
  mkMachine
   s.(cpu_state) s.(mem_map) s.(hmem) s.(memseqno) s.(ncpus) s.(ram_base_addr)
   s.(plic_pending_irq) s.(plic_served_irq) s.(plic_priority) s.(htif_tohost_addr)
   s.(maxinsns) s.(simpoint_en_bbv) s.(simpoint_roi) s.(cosim) s.(pending_interrupt)
   s.(stf_trace) s.(stf_exit_on_stop_opc) s.(stf_memrecord_size_in_bits)
   s.(stf_highest_priv_mode) s.(stf_insn_num_tracing) s.(stf_trace_open_flag)
   s.(stf_in_traceable_region) s.(stf_macro_tracing_active) s.(stf_insn_tracing_active)
   s.(stf_is_start_opc) v s.(stf_has_exit_pending) s.(stf_prog_asid) s.(stf_writer_open)
   s.(num_executed) s.(stf_num_traced) s.(stf_trace_register_state)
   s.(stf_disable_memory_records) s.(stf_insn_start) s.(stf_insn_length) s.(exe_trace)
   s.(interactive) s.(stf_out).

Definition set_stf_has_exit_pending (v : bool) (s : RISCVMachine) : RISCVMachine :=
  mkMachine
   s.(cpu_state) s.(mem_map) s.(hmem) s.(memseqno) s.(ncpus) s.(ram_base_addr)
   s.(plic_pending_irq) s.(plic_served_irq) s.(plic_priority) s.(htif_tohost_addr)
   s.(maxinsns) s.(simpoint_en_bbv) s.(simpoint_roi) s.(cosim) s.(pending_interrupt)
   s.(stf_trace) s.(stf_exit_on_stop_opc) s.(stf_memrecord_size_in_bits)
   s.(stf_highest_priv_mode) s.(stf_insn_num_tracing) s.(stf_trace_open_flag)
   s.(stf_in_traceable_region) s.(stf_macro_tracing_active) s.(stf_insn_tracing_active)
   s.(stf_is_start_opc) s.(stf_is_stop_opc) v s.(stf_prog_asid) s.(stf_writer_open)
   s.(num_executed) s.(stf_num_traced) s.(stf_trace_register_state)
   s.(stf_disable_memory_records) s.(stf_insn_start) s.(stf_insn_length) s.(exe_trace)
   s.(interactive) s.(stf_out).

Definition set_stf_prog_asid (v : Z) (s : RISCVMachine) : RISCVMachine :=
  mkMachine
   s.(cpu_state) s.(mem_map) s.(hmem) s.(memseqno) s.(ncpus) s.(ram_base_addr)
   s.(plic_pending_irq) s.(plic_served_irq) s.(plic_priority) s.(htif_tohost_addr)
   s.(maxinsns) s.(simpoint_en_bbv) s.(simpoint_roi) s.(cosim) s.(pending_interrupt)
   s.(stf_trace) s.(stf_exit_on_stop_opc) s.(stf_memrecord_size_in_bits)
   s.(stf_highest_priv_mode) s.(stf_insn_num_tracing) s.(stf_trace_open_flag)
   s.(stf_in_traceable_region) s.(stf_macro_tracing_active) s.(stf_insn_tracing_active)
   s.(stf_is_start_opc) s.(stf_is_stop_opc) s.(stf_has_exit_pending) v s.(stf_writer_open)
   s.(num_executed) s.(stf_num_traced) s.(stf_trace_register_state)
   s.(stf_disable_memory_records) s.(stf_insn_start) s.(stf_insn_length) s.(exe_trace)
   s.(interactive) s.(stf_out).

Definition set_stf_writer_open (v : bool) (s : RISCVMachine) : RISCVMachine :=
  mkMachine
   s.(cpu_state) s.(mem_map) s.(hmem) s.(memseqno) s.(ncpus) s.(ram_base_addr)
   s.(plic_pending_irq) s.(plic_served_irq) s.(plic_priority) s.(htif_tohost_addr)
   s.(maxinsns) s.(simpoint_en_bbv) s.(simpoint_roi) s.(cosim) s.(pending_interrupt)
   s.(stf_trace) s.(stf_exit_on_stop_opc) s.(stf_memrecord_size_in_bits)
   s.(stf_highest_priv_mode) s.(stf_insn_num_tracing) s.(stf_trace_open_flag)
   s.(stf_in_traceable_region) s.(stf_macro_tracing_active) s.(stf_insn_tracing_active)
   s.(stf_is_start_opc) s.(stf_is_stop_opc) s.(stf_has_exit_pending) s.(stf_prog_asid) v
   s.(num_executed) s.(stf_num_traced) s.(stf_trace_register_state)
   s.(stf_disable_memory_records) s.(stf_insn_start) s.(stf_insn_length) s.(exe_trace)
   s.(interactive) s.(stf_out).

Definition set_num_executed (v : Z) (s : RISCVMachine) : RISCVMachine :=
  mkMachine
   s.(cpu_state) s.(mem_map) s.(hmem) s.(memseqno) s.(ncpus) s.(ram_base_addr)
   s.(plic_pending_irq) s.(plic_served_irq) s.(plic_priority) s.(htif_tohost_addr)
   s.(maxinsns) s.(simpoint_en_bbv) s.(simpoint_roi) s.(cosim) s.(pending_interrupt)
   s.(stf_trace) s.(stf_exit_on_stop_opc) s.(stf_memrecord_size_in_bits)
   s.(stf_highest_priv_mode) s.(stf_insn_num_tracing) s.(stf_trace_open_flag)
   s.(stf_in_traceable_region) s.(stf_macro_tracing_active) s.(stf_insn_tracing_active)
   s.(stf_is_start_opc) s.(stf_is_stop_opc) s.(stf_has_exit_pending) s.(stf_prog_asid)
   s.(stf_writer_open) v s.(stf_num_traced) s.(stf_trace_register_state)
   s.(stf_disable_memory_records) s.(stf_insn_start) s.(stf_insn_length) s.(exe_trace)
   s.(interactive) s.(stf_out).

Definition set_stf_num_traced (v : Z) (s : RISCVMachine) : RISCVMachine :=
  mkMachine
   s.(cpu_state) s.(mem_map) s.(hmem) s.(memseqno) s.(ncpus) s.(ram_base_addr)
   s.(plic_pending_irq) s.(plic_served_irq) s.(plic_priority) s.(htif_tohost_addr)
   s.(maxinsns) s.(simpoint_en_bbv) s.(simpoint_roi) s.(cosim) s.(pending_interrupt)
   s.(stf_trace) s.(stf_exit_on_stop_opc) s.(stf_memrecord_size_in_bits)
   s.(stf_highest_priv_mode) s.(stf_insn_num_tracing) s.(stf_trace_open_flag)
   s.(stf_in_traceable_region) s.(stf_macro_tracing_active) s.(stf_insn_tracing_active)
   s.(stf_is_start_opc) s.(stf_is_stop_opc) s.(stf_has_exit_pending) s.(stf_prog_asid)
   s.(stf_writer_open) s.(num_executed) v s.(stf_trace_register_state)
   s.(stf_disable_memory_records) s.(stf_insn_start) s.(stf_insn_length) s.(exe_trace)
   s.(interactive) s.(stf_out).

Definition set_stf_trace_register_state (v : bool) (s : RISCVMachine) : RISCVMachine :=
  mkMachine
   s.(cpu_state) s.(mem_map) s.(hmem) s.(memseqno) s.(ncpus) s.(ram_base_addr)
   s.(plic_pending_irq) s.(plic_served_irq) s.(plic_priority) s.(htif_tohost_addr)
   s.(maxinsns) s.(simpoint_en_bbv) s.(simpoint_roi) s.(cosim) s.(pending_interrupt)
   s.(stf_trace) s.(stf_exit_on_stop_opc) s.(stf_memrecord_size_in_bits)
   s.(stf_highest_priv_mode) s.(stf_insn_num_tracing) s.(stf_trace_open_flag)
   s.(stf_in_traceable_region) s.(stf_macro_tracing_active) s.(stf_insn_tracing_active)
   s.(stf_is_start_opc) s.(stf_is_stop_opc) s.(stf_has_exit_pending) s.(stf_prog_asid)
   s.(stf_writer_open) s.(num_executed) s.(stf_num_traced) v s.(stf_disable_memory_records)
   s.(stf_insn_start) s.(stf_insn_length) s.(exe_trace) s.(interactive) s.(stf_out).

Definition set_stf_disable_memory_records (v : bool) (s : RISCVMachine) : RISCVMachine :=
  mkMachine
   s.(cpu_state) s.(mem_map) s.(hmem) s.(memseqno) s.(ncpus) s.(ram_base_addr)
   s.(plic_pending_irq) s.(plic_served_irq) s.(plic_priority) s.(htif_tohost_addr)
   s.(maxinsns) s.(simpoint_en_bbv) s.(simpoint_roi) s.(cosim) s.(pending_interrupt)
   s.(stf_trace) s.(stf_exit_on_stop_opc) s.(stf_memrecord_size_in_bits)
   s.(stf_highest_priv_mode) s.(stf_insn_num_tracing) s.(stf_trace_open_flag)
   s.(stf_in_traceable_region) s.(stf_macro_tracing_active) s.(stf_insn_tracing_active)
   s.(stf_is_start_opc) s.(stf_is_stop_opc) s.(stf_has_exit_pending) s.(stf_prog_asid)
   s.(stf_writer_open) s.(num_executed) s.(stf_num_traced) s.(stf_trace_register_state) v
   s.(stf_insn_start) s.(stf_insn_length) s.(exe_trace) s.(interactive) s.(stf_out).

Definition set_stf_insn_start (v : Z) (s : RISCVMachine) : RISCVMachine :=
  mkMachine
   s.(cpu_state) s.(mem_map) s.(hmem) s.(memseqno) s.(ncpus) s.(ram_base_addr)
   s.(plic_pending_irq) s.(plic_served_irq) s.(plic_priority) s.(htif_tohost_addr)
   s.(maxinsns) s.(simpoint_en_bbv) s.(simpoint_roi) s.(cosim) s.(pending_interrupt)
   s.(stf_trace) s.(stf_exit_on_stop_opc) s.(stf_memrecord_size_in_bits)
   s.(stf_highest_priv_mode) s.(stf_insn_num_tracing) s.(stf_trace_open_flag)
   s.(stf_in_traceable_region) s.(stf_macro_tracing_active) s.(stf_insn_tracing_active)
   s.(stf_is_start_opc) s.(stf_is_stop_opc) s.(stf_has_exit_pending) s.(stf_prog_asid)
   s.(stf_writer_open) s.(num_executed) s.(stf_num_traced) s.(stf_trace_register_state)
   s.(stf_disable_memory_records) v s.(stf_insn_length) s.(exe_trace) s.(interactive)
   s.(stf_out).

Definition set_stf_insn_length (v : Z) (s : RISCVMachine) : RISCVMachine :=
  mkMachine
   s.(cpu_state) s.(mem_map) s.(hmem) s.(memseqno) s.(ncpus) s.(ram_base_addr)
   s.(plic_pending_irq) s.(plic_served_irq) s.(plic_priority) s.(htif_tohost_addr)
   s.(maxinsns) s.(simpoint_en_bbv) s.(simpoint_roi) s.(cosim) s.(pending_interrupt)
   s.(stf_trace) s.(stf_exit_on_stop_opc) s.(stf_memrecord_size_in_bits)
   s.(stf_highest_priv_mode) s.(stf_insn_num_tracing) s.(stf_trace_open_flag)
   s.(stf_in_traceable_region) s.(stf_macro_tracing_active) s.(stf_insn_tracing_active)
   s.(stf_is_start_opc) s.(stf_is_stop_opc) s.(stf_has_exit_pending) s.(stf_prog_asid)
   s.(stf_writer_open) s.(num_executed) s.(stf_num_traced) s.(stf_trace_register_state)
   s.(stf_disable_memory_records) s.(stf_insn_start) v s.(exe_trace) s.(interactive)
   s.(stf_out).

Definition set_exe_trace (v : Z) (s : RISCVMachine) : RISCVMachine :=
  mkMachine
   s.(cpu_state) s.(mem_map) s.(hmem) s.(memseqno) s.(ncpus) s.(ram_base_addr)
   s.(plic_pending_irq) s.(plic_served_irq) s.(plic_priority) s.(htif_tohost_addr)
   s.(maxinsns) s.(simpoint_en_bbv) s.(simpoint_roi) s.(cosim) s.(pending_interrupt)
   s.(stf_trace) s.(stf_exit_on_stop_opc) s.(stf_memrecord_size_in_bits)
   s.(stf_highest_priv_mode) s.(stf_insn_num_tracing) s.(stf_trace_open_flag)
   s.(stf_in_traceable_region) s.(stf_macro_tracing_active) s.(stf_insn_tracing_active)
   s.(stf_is_start_opc) s.(stf_is_stop_opc) s.(stf_has_exit_pending) s.(stf_prog_asid)
   s.(stf_writer_open) s.(num_executed) s.(stf_num_traced) s.(stf_trace_register_state)
   s.(stf_disable_memory_records) s.(stf_insn_start) s.(stf_insn_length) v s.(interactive)
   s.(stf_out).

Definition set_interactive (v : bool) (s : RISCVMachine) : RISCVMachine :=
  mkMachine
   s.(cpu_state) s.(mem_map) s.(hmem) s.(memseqno) s.(ncpus) s.(ram_base_addr)
   s.(plic_pending_irq) s.(plic_served_irq) s.(plic_priority) s.(htif_tohost_addr)
   s.(maxinsns) s.(simpoint_en_bbv) s.(simpoint_roi) s.(cosim) s.(pending_interrupt)
   s.(stf_trace) s.(stf_exit_on_stop_opc) s.(stf_memrecord_size_in_bits)
   s.(stf_highest_priv_mode) s.(stf_insn_num_tracing) s.(stf_trace_open_flag)
   s.(stf_in_traceable_region) s.(stf_macro_tracing_active) s.(stf_insn_tracing_active)
   s.(stf_is_start_opc) s.(stf_is_stop_opc) s.(stf_has_exit_pending) s.(stf_prog_asid)
   s.(stf_writer_open) s.(num_executed) s.(stf_num_traced) s.(stf_trace_register_state)
   s.(stf_disable_memory_records) s.(stf_insn_start) s.(stf_insn_length) s.(exe_trace) v
   s.(stf_out).

Definition set_stf_out (v : list stf_record) (s : RISCVMachine) : RISCVMachine :=
  mkMachine
   s.(cpu_state) s.(mem_map) s.(hmem) s.(memseqno) s.(ncpus) s.(ram_base_addr)
   s.(plic_pending_irq) s.(plic_served_irq) s.(plic_priority) s.(htif_tohost_addr)
   s.(maxinsns) s.(simpoint_en_bbv) s.(simpoint_roi) s.(cosim) s.(pending_interrupt)
   s.(stf_trace) s.(stf_exit_on_stop_opc) s.(stf_memrecord_size_in_bits)
   s.(stf_highest_priv_mode) s.(stf_insn_num_tracing) s.(stf_trace_open_flag)
   s.(stf_in_traceable_region) s.(stf_macro_tracing_active) s.(stf_insn_tracing_active)
   s.(stf_is_start_opc) s.(stf_is_stop_opc) s.(stf_has_exit_pending) s.(stf_prog_asid)
   s.(stf_writer_open) s.(num_executed) s.(stf_num_traced) s.(stf_trace_register_state)
   s.(stf_disable_memory_records) s.(stf_insn_start) s.(stf_insn_length) s.(exe_trace)
   s.(interactive) v.

(** Local variables of [riscv_cpu_interp64] that outlive one instruction. *)
Record Locals := mkLocals {
  insn_counter_start : Z;
  insn_counter_addend : Z;
  n_cycles : Z;
  insn_executed : Z;
  code_ptr : Z;
  code_end : Z;
  code_to_pc_addend : Z
}.

Definition set_insn_counter_start (v : Z) (s : Locals) : Locals :=
  mkLocals
   v s.(insn_counter_addend) s.(n_cycles) s.(insn_executed) s.(code_ptr) s.(code_end)
   s.(code_to_pc_addend).

Definition set_insn_counter_addend (v : Z) (s : Locals) : Locals :=
  mkLocals
   s.(insn_counter_start) v s.(n_cycles) s.(insn_executed) s.(code_ptr) s.(code_end)
   s.(code_to_pc_addend).

Definition set_n_cycles (v : Z) (s : Locals) : Locals :=
  mkLocals
   s.(insn_counter_start) s.(insn_counter_addend) v s.(insn_executed) s.(code_ptr)
   s.(code_end) s.(code_to_pc_addend).

Definition set_insn_executed (v : Z) (s : Locals) : Locals :=
  mkLocals
   s.(insn_counter_start) s.(insn_counter_addend) s.(n_cycles) v s.(code_ptr) s.(code_end)
   s.(code_to_pc_addend).

Definition set_code_ptr (v : Z) (s : Locals) : Locals :=
  mkLocals
   s.(insn_counter_start) s.(insn_counter_addend) s.(n_cycles) s.(insn_executed) v
   s.(code_end) s.(code_to_pc_addend).

Definition set_code_end (v : Z) (s : Locals) : Locals :=
  mkLocals
   s.(insn_counter_start) s.(insn_counter_addend) s.(n_cycles) s.(insn_executed)
   s.(code_ptr) v s.(code_to_pc_addend).

Definition set_code_to_pc_addend (v : Z) (s : Locals) : Locals :=
  mkLocals
   s.(insn_counter_start) s.(insn_counter_addend) s.(n_cycles) s.(insn_executed)
   s.(code_ptr) s.(code_end) v.


(** ** The execution state

    [cpu] is the hart the operation runs on; the machine's own array entry for
    that hart is stale while it runs (see [focus] and [unfocus]). *)
Record St := mkSt { cpu : RISCVCPUState; mach : RISCVMachine; lc : Locals }.

Definition with_cpu (c : RISCVCPUState) (st : St) : St := mkSt c (mach st) (lc st).
Definition with_mach (m : RISCVMachine) (st : St) : St := mkSt (cpu st) m (lc st).
Definition with_lc (l : Locals) (st : St) : St := mkSt (cpu st) (mach st) l.

(** Hand the hart's state back to the machine's array, and take it out again. *)
Definition unfocus (h : Z) (st : St) : RISCVMachine :=
  set_cpu_state (aset (cpu_state (mach st)) h (cpu st)) (mach st).
Definition focus (h : Z) (st : St) (m : RISCVMachine) : St :=
  mkSt (aget (cpu st) (cpu_state m) h) m (lc st).

(** The zeroed block [mallocz] returns. *)
Definition zero_hart : RISCVCPUState :=
  mkCPU
    (mkHartRegs 0 0 (repeat 0 32) (repeat 0 32) 0 (repeat 0 32) 0 0 0 0 0 0)
    (mkVecRegs (repeat (repeat 0 16) 32) (repeat false 32) 0 0 0 0 0)
    (mkHartCtl 0 0 0 false false false false 0 0 [0; 0] 0 0 0 0 ctf_nop 0 0 false)
    (mkMCsrs 0 0 0 0 0 0 0 0 0 0 0 0 0 0 0 0 0 0 0 [0] [0] (repeat 0 32) 0 0 0)
    (mkSCsrs 0 0 0 0 0 0 0)
    (mkPmps [0; 0; 0; 0] (repeat 0 16) 0 (repeat (mkPmpAddr 0 0) 16) (repeat 0 16))
    (mkTlbs (repeat (mkTLBEntry 0 0) 256) (repeat (mkTLBEntry 0 0) 256)
       (repeat (mkTLBEntry 0 0) 256) (repeat 0 256) (repeat 0 256) (repeat 0 256))
    (mkTrace 0 0 0 0 [] [] [] [] [] [] 0).

(** A machine with no memory, no device and tracing off. *)
Definition zero_machine : RISCVMachine :=
  mkMachine [] [] ∅ 0 1 0 0 0 (repeat 0 128) 0 0 false false false (-1) false false false 0
    false false false false false false false false 0 false 0 0 false false 0 0 0 false [].

(** How an operation leaves the straight-line path: the labels of
    [riscv_cpu_interp64] and its [return] inside the loop, a failing [assert], and an access the C standard
    leaves undefined (a wild host address, an over-long shift, a
    [__builtin_ctz] of zero). *)
Inductive stop :=
| IllegalInsn
| MmuException
| ExceptionStop
| DoneInterp
| TheEnd
| ReturnNow
| JumpInsn (kind : RISCVCTFInfo)
| AssertFail
| Undefined.

Definition M (A : Type) : Type := St -> St * (A + stop).

Definition ret {A} (a : A) : M A := fun st => (st, inl a).
Definition bind {A B} (m : M A) (k : A -> M B) : M B := fun st =>
  match m st with
  | (st', inl a) => k a st'
  | (st', inr e) => (st', inr e)
  end.
Definition throw {A} (e : stop) : M A := fun st => (st, inr e).
Definition gets {A} (f : St -> A) : M A := fun st => (st, inl (f st)).
Definition getc {A} (f : RISCVCPUState -> A) : M A := fun st => (st, inl (f (cpu st))).
Definition modc (f : RISCVCPUState -> RISCVCPUState) : M unit := fun st =>
  (with_cpu (f (cpu st)) st, inl tt).
Definition modm (f : RISCVMachine -> RISCVMachine) : M unit := fun st =>
  (with_mach (f (mach st)) st, inl tt).
Definition modl (f : Locals -> Locals) : M unit := fun st =>
  (with_lc (f (lc st)) st, inl tt).
Definition guard (b : bool) (e : stop) : M unit := if b then ret tt else throw e.
Definition when (b : bool) (m : M unit) : M unit := if b then m else ret tt.
Definition from_option {A} (e : stop) (o : option A) : M A :=
  match o with Some a => ret a | None => throw e end.

(** [if (m) { h; goto mmu_exception; }]: run [h] when [m] leaves through
    [MmuException], then leave the same way. *)
Definition on_mmu_exception {A} (m : M A) (h : M unit) : M A := fun st =>
  match m st with
  | (st', inr MmuException) =>
      match h st' with
      | (st'', inl _) => (st'', inr MmuException)
      | (st'', inr e) => (st'', inr e)
      end
  | r => r
  end.

Declare Scope m_scope.
Delimit Scope m_scope with m.
Notation "'let!' x ':=' m 'in' k" := (bind m (fun x => k))
  (at level 10, x pattern, m at level 100, k at level 200) : m_scope.
Notation "m ;; k" := (bind m (fun _ => k)) (at level 100, k at level 200, right associativity) : m_scope.

(** ** Host memory: little-endian loads and stores through a host pointer. *)
Fixpoint host_read_bytes (m : gmap Z Z) (n : nat) (a : Z) : option (list Z) :=
  match n with
  | O => Some []
  | S n' =>
      match m !! a, host_read_bytes m n' (a + 1) with
      | Some b, Some l => Some (b :: l)
      | _, _ => None
      end
  end.

Fixpoint host_write_bytes (m : gmap Z Z) (a : Z) (l : list Z) : option (gmap Z Z) :=
  match l with
  | [] => Some m
  | b :: l' =>
      match m !! a with
      | Some _ => host_write_bytes (<[a := b]> m) (a + 1) l'
      | None => None
      end
  end.

(** [*(uintN_t * )ptr] *)
Definition host_load (m : gmap Z Z) (n : nat) (a : Z) : option Z :=
  option_map le_value (host_read_bytes m n a).

(** [*(uintN_t * )ptr = v] *)
Definition host_store (m : gmap Z Z) (n : nat) (a v : Z) : option (gmap Z Z) :=
  host_write_bytes m a (le_bytes n v).

Open Scope m_scope.

Definition hload (n : nat) (a : Z) : M Z :=
  let! st := gets id in from_option Undefined (host_load (hmem (mach st)) n a).

Definition hstore (n : nat) (a v : Z) : M unit :=
  let! st := gets id in
  let! m' := from_option Undefined (host_store (hmem (mach st)) n a v) in
  modm (set_hmem m').

#[export] Instance RISCVCTFInfo_eq_dec : EqDecision RISCVCTFInfo.
Proof. solve_decision. Defined.

#[export] Instance stop_eq_dec : EqDecision stop.
Proof. solve_decision. Defined.

(** ** Host memory lemmas *)

Lemma host_write_bytes_lookup m a l m' :
  host_write_bytes m a l = Some m' ->
  forall x, m' !! x =
    if (a <=? x) && (x <? a + Z.of_nat (length l))
    then Some (nth (Z.to_nat (x - a)) l 0) else m !! x.
Proof.
  revert m a; induction l as [|b l IH]; intros m a H x; cbn [host_write_bytes] in H.
  - injection H as <-. cbn [length].
    destruct (Z.leb_spec a x), (Z.ltb_spec x (a + Z.of_nat 0)); simpl; (reflexivity || lia).
  - destruct (m !! a) eqn:Ea; [|discriminate].
    rewrite (IH _ _ H x). cbn [length].
    destruct (Z.eq_dec x a) as [->|Hne].
    + replace (a + 1 <=? a) with false by (symmetry; apply Z.leb_gt; lia).
      rewrite Z.leb_refl. replace (a <? a + Z.of_nat (S (length l))) with true
        by (symmetry; apply Z.ltb_lt; lia).
      simpl. rewrite lookup_insert_eq, Z.sub_diag. reflexivity.
    + rewrite lookup_insert_ne by lia.
      destruct (Z.leb_spec (a + 1) x), (Z.leb_spec a x),
        (Z.ltb_spec x (a + 1 + Z.of_nat (length l))),
        (Z.ltb_spec x (a + Z.of_nat (S (length l)))); simpl; try reflexivity; try lia.
      replace (Z.to_nat (x - a)) with (S (Z.to_nat (x - (a + 1)))) by lia. reflexivity.
Qed.

Lemma host_read_bytes_ext m m' n a :
  (forall x, a <= x < a + Z.of_nat n -> m !! x = m' !! x) ->
  host_read_bytes m n a = host_read_bytes m' n a.
Proof.
  revert a; induction n as [|n IH]; intros a H; [reflexivity|]. cbn [host_read_bytes].
  rewrite (H a) by lia. rewrite (IH (a + 1)) by (intros; apply H; lia). reflexivity.
Qed.

Lemma host_read_after_write m a l m' :
  host_write_bytes m a l = Some m' ->
  host_read_bytes m' (length l) a = Some l.
Proof.
  revert m a; induction l as [|b l IH]; intros m a H; [reflexivity|].
  pose proof (host_write_bytes_lookup _ _ _ _ H a) as Ha.
  cbn [length] in Ha |- *. rewrite Z.leb_refl in Ha.
  replace (a <? a + Z.of_nat (S (length l))) with true in Ha
    by (symmetry; apply Z.ltb_lt; lia).
  rewrite Z.sub_diag in Ha. cbn [host_read_bytes]. simpl in Ha. rewrite Ha.
  cbn [host_write_bytes] in H. destruct (m !! a); [|discriminate].
  rewrite (IH _ _ H). reflexivity.
Qed.

(** A store followed by a load of the same width returns the stored value
    reduced to that width. *)
Lemma host_load_store_same m n a v m' :
  host_store m n a v = Some m' ->
  host_load m' n a = Some (uN (8 * Z.of_nat n) v).
Proof.
  unfold host_store, host_load; intros H.
  apply host_read_after_write in H. rewrite le_bytes_length in H.
  rewrite H. simpl. rewrite le_value_bytes. reflexivity.
Qed.

(** A store leaves disjoint addresses alone. *)
Lemma host_load_store_other m n a v m' k b :
  host_store m n a v = Some m' ->
  b + Z.of_nat k <= a \/ a + Z.of_nat n <= b ->
  host_load m' k b = host_load m k b.
Proof.
  unfold host_store, host_load; intros H Hd. f_equal.
  apply host_read_bytes_ext; intros x Hx.
  rewrite (host_write_bytes_lookup _ _ _ _ H), le_bytes_length.
  destruct (Z.leb_spec a x), (Z.ltb_spec x (a + Z.of_nat n)); simpl; (reflexivity || lia).
Qed.

(** A store into present bytes succeeds. *)
Lemma host_write_present l : forall h p, (forall x, p <= x < p + Z.of_nat (length l) -> is_Some (h !! x)) ->
  is_Some (host_write_bytes h p l).
Proof.
  induction l as [|b l IH]; intros h p H; [eexists; reflexivity|]. cbn [host_write_bytes].
  destruct (H p) as [v ->]; [cbn; lia|]. apply IH. intros x Hx. destruct (Z.eq_dec x p) as [->|Hne].
  - rewrite lookup_insert. case_decide; [eexists; reflexivity|congruence].
  - rewrite lookup_insert_ne by lia. apply H. cbn [length]. lia.
Qed.

(** ** Monad laws used by the proofs *)

Lemma bind_ret_l {A B} (a : A) (k : A -> M B) st : bind (ret a) k st = k a st.
Proof. reflexivity. Qed.

Lemma bind_assoc {A B C} (m : M A) (k : A -> M B) (j : B -> M C) st :
  bind (bind m k) j st = bind m (fun a => bind (k a) j) st.
Proof. unfold bind. destruct (m st) as [? [?|?]]; reflexivity. Qed.

Lemma bind_inv {A B} (m : M A) (k : A -> M B) st st' r :
  bind m k st = (st', r) ->
  (exists a st1, m st = (st1, inl a) /\ k a st1 = (st', r)) \/
  (exists e, m st = (st', inr e) /\ r = inr e).
Proof.
  unfold bind. destruct (m st) as [st1 [a|e]]; intros H.
  - left; eauto.
  - right. injection H as -> <-. eauto.
Qed.
