(* ===== verification/IoMem.v ===== *)
(** * Physical memory ranges

    [src/iomem.cpp] and the inline dirty-bit helpers of [include/iomem.h]: the
    table of RAM and device ranges, its lookup, the registration functions,
    address changes and the dirty-page bitmaps.  Allocation ([mallocz]) is an
    argument: the host address it returned. *)

From S2P Require Import Prelude RiscvDefs State.
Open Scope Z_scope.
Open Scope c_scope.

Definition DEVIO_SIZE8 := 1 << 0.
Definition DEVIO_SIZE16 := 1 << 1.
Definition DEVIO_SIZE32 := 1 << 2.
Definition DEVIO_DISABLED := 1 << 4.
Definition DEVRAM_FLAG_ROM := 1 << 0.
Definition DEVRAM_FLAG_DIRTY_BITS := 1 << 1.
Definition DEVRAM_FLAG_DISABLED := 1 << 2.
Definition DEVRAM_PAGE_SIZE_LOG2 := 12.
Definition DEVRAM_PAGE_SIZE := 1 << DEVRAM_PAGE_SIZE_LOG2.
Definition PHYS_MEM_RANGE_MAX := 32.

(** An unused slot of the zeroed [phys_mem_range] array. *)
Definition zero_range : PhysMemoryRange :=
  mkRange 0 0 0 false 0 0 0 None [] 0 0 0.

(** [paddr >= pr->addr && paddr < pr->addr + pr->size] *)
Definition range_contains (pr : PhysMemoryRange) (paddr : Z) : bool :=
  (pr_addr pr <=? paddr) && (paddr <? u64 (pr_addr pr + pr_size pr)).

(** The loop runs from the last registered range to the first; the result is
    the index of the range found. *)
Fixpoint get_phys_mem_range_from (map : list PhysMemoryRange) (n : nat) (paddr : Z) : option Z :=
  match n with
  | O => None
  | S n' =>
      if range_contains (nth n' map zero_range) paddr then Some (Z.of_nat n')
      else get_phys_mem_range_from map n' paddr
  end.

Definition get_phys_mem_range (map : list PhysMemoryRange) (paddr : Z) : option Z :=
  get_phys_mem_range_from map (length map) paddr.

(** [register_ram_entry]; [None] when an [assert] fails. *)
Definition register_ram_entry (map : list PhysMemoryRange) (addr size devram_flags : Z)
  : option (list PhysMemoryRange) :=
  if negb (Z.of_nat (length map) <? PHYS_MEM_RANGE_MAX) then None
  else if negb (((size .& (DEVRAM_PAGE_SIZE - 1)) =? 0) && nz size) then None
  else Some (map ++ [mkRange addr size
                       (if devram_flags has DEVRAM_FLAG_DISABLED then 0 else size)
                       true (devram_flags .&~ DEVRAM_FLAG_DISABLED) 0 0 None [] 0 0 0]).

(** [default_register_ram]; [phys_mem] is the block [mallocz(size)] returned. *)
Definition default_register_ram (map : list PhysMemoryRange) (addr size devram_flags phys_mem : Z)
  : option (list PhysMemoryRange) :=
  match register_ram_entry map addr size devram_flags with
  | None => None
  | Some map' =>
      let n := Z.of_nat (length map) in
      let pr := aget zero_range map' n in
      let nb_pages := size >> DEVRAM_PAGE_SIZE_LOG2 in
      let bits_size := ((nb_pages + 31) / 32) * 4 in
      let tab := repeat 0 (Z.to_nat (bits_size / 4)) in
      let pr' :=
        if devram_flags has DEVRAM_FLAG_DIRTY_BITS then
          mkRange (pr_addr pr) (pr_org_size pr) (pr_size pr) (pr_is_ram pr)
            (pr_devram_flags pr) phys_mem bits_size (Some 0) [tab; tab] 0
            (pr_opaque pr) (pr_devio_flags pr)
        else
          mkRange (pr_addr pr) (pr_org_size pr) (pr_size pr) (pr_is_ram pr)
            (pr_devram_flags pr) phys_mem (pr_dirty_bits_size pr) (pr_dirty_bits pr)
            (pr_dirty_bits_tab pr) (pr_dirty_bits_index pr)
            (pr_opaque pr) (pr_devio_flags pr) in
      Some (aset map' n pr')
  end.

(** [cpu_register_device]; [opaque] stands for the device and its callbacks. *)
Definition cpu_register_device (map : list PhysMemoryRange) (addr size opaque devio_flags : Z)
  : option (list PhysMemoryRange) :=
  if negb (Z.of_nat (length map) <? PHYS_MEM_RANGE_MAX) then None
  else if negb (size <=? 0xffffffff) then None
  else Some (map ++ [mkRange addr size
                       (if devio_flags has DEVIO_DISABLED then 0 else size)
                       false 0 0 0 None [] 0 opaque devio_flags]).

(** The current bitmap, [pr->dirty_bits]. *)
Definition dirty_bitmap (pr : PhysMemoryRange) : list Z :=
  match pr_dirty_bits pr with
  | Some k => aget [] (pr_dirty_bits_tab pr) k
  | None => []
  end.

Definition with_dirty (pr : PhysMemoryRange) (bits : option Z) (tab : list (list Z)) (index : Z)
  : PhysMemoryRange :=
  mkRange (pr_addr pr) (pr_org_size pr) (pr_size pr) (pr_is_ram pr) (pr_devram_flags pr)
    (pr_phys_mem pr) (pr_dirty_bits_size pr) bits tab index (pr_opaque pr) (pr_devio_flags pr).

Definition with_addr_size (pr : PhysMemoryRange) (addr size : Z) : PhysMemoryRange :=
  mkRange addr (pr_org_size pr) size (pr_is_ram pr) (pr_devram_flags pr)
    (pr_phys_mem pr) (pr_dirty_bits_size pr) (pr_dirty_bits pr) (pr_dirty_bits_tab pr)
    (pr_dirty_bits_index pr) (pr_opaque pr) (pr_devio_flags pr).

(** [phys_mem_set_dirty_bit] *)
Definition phys_mem_set_dirty_bit (pr : PhysMemoryRange) (offset : Z) : PhysMemoryRange :=
  match pr_dirty_bits pr with
  | None => pr
  | Some k =>
      let page_index := offset >> DEVRAM_PAGE_SIZE_LOG2 in
      let mask := u32 (1 << (page_index .& 0x1f)) in
      let word := page_index >> 5 in
      let bits := aget [] (pr_dirty_bits_tab pr) k in
      let bits' := aset bits word (aget 0 bits word .| mask) in
      with_dirty pr (pr_dirty_bits pr) (aset (pr_dirty_bits_tab pr) k bits')
        (pr_dirty_bits_index pr)
  end.

(** [phys_mem_is_dirty_bit] *)
Definition phys_mem_is_dirty_bit (pr : PhysMemoryRange) (offset : Z) : bool :=
  match pr_dirty_bits pr with
  | None => true
  | Some k =>
      let page_index := offset >> DEVRAM_PAGE_SIZE_LOG2 in
      let bits := aget [] (pr_dirty_bits_tab pr) k in
      nz ((aget 0 bits (page_index >> 5) >> (page_index .& 0x1f)) .& 1)
  end.

(** ** Operations that call back into the machine

    [flush_tlb_write_range] is the map's callback field. *)
Section WithFlush.
Context {W : Type}.
Variable flush_tlb_write_range : Z -> Z -> W -> W.

(** [default_get_dirty_bits]: hand out the bitmap collected so far and start
    the other one afresh. *)
Definition default_get_dirty_bits (pr : PhysMemoryRange) (w : W)
  : list Z * PhysMemoryRange * W :=
  let dirty_bits := dirty_bitmap pr in
  let n := Z.to_nat (pr_dirty_bits_size pr / 4) in
  let has_dirty_bits := existsb nz (take n dirty_bits) in
  let w' :=
    if has_dirty_bits && nz (pr_size pr)
    then flush_tlb_write_range (pr_phys_mem pr) (pr_org_size pr) w else w in
  let index := Z.lxor (pr_dirty_bits_index pr) 1 in
  let tab := aset (pr_dirty_bits_tab pr) index (repeat 0 n) in
  (dirty_bits, with_dirty pr (Some index) tab index, w').

(** [default_set_addr] *)
Definition default_set_addr (pr : PhysMemoryRange) (addr : Z) (enabled : bool) (w : W)
  : PhysMemoryRange * W :=
  let flush :=
    if pr_is_ram pr then flush_tlb_write_range (pr_phys_mem pr) (pr_org_size pr) w else w in
  if enabled then
    if (pr_size pr =? 0) || negb (pr_addr pr =? addr)
    then (with_addr_size pr addr (pr_org_size pr), flush)
    else (pr, w)
  else
    if nz (pr_size pr) then (with_addr_size pr 0 0, flush) else (pr, w).

(** [phys_mem_set_addr]; the map's [set_ram_addr] is [default_set_addr]. *)
Definition phys_mem_set_addr (pr : PhysMemoryRange) (addr : Z) (enabled : bool) (w : W)
  : PhysMemoryRange * W :=
  if negb (pr_is_ram pr) then default_set_addr pr addr enabled w
  else default_set_addr pr addr enabled w.

End WithFlush.

(** ** Well-formedness of a map and lemmas *)

Definition range_wf (pr : PhysMemoryRange) : Prop :=
  in_u 64 (pr_addr pr) /\ 0 <= pr_size pr /\ pr_addr pr + pr_size pr < 2 ^ 64 /\
  (pr_is_ram pr = true -> pr_size pr mod 2 ^ 12 = 0 /\ pr_addr pr mod 2 ^ 12 = 0).

Lemma range_contains_wf pr a : range_wf pr ->
  range_contains pr a = true <-> pr_addr pr <= a < pr_addr pr + pr_size pr.
Proof.
  intros (H1 & H2 & H3 & _). unfold range_contains. unfold in_u in H1.
  rewrite u_small by (unfold in_u; lia). rewrite andb_true_iff, Z.leb_le, Z.ltb_lt. lia.
Qed.

Lemma get_from_spec map n a k :
  get_phys_mem_range_from map n a = Some k ->
  0 <= k < Z.of_nat n /\ range_contains (aget zero_range map k) a = true /\
  forall j, k < j < Z.of_nat n -> range_contains (aget zero_range map j) a = false.
Proof.
  induction n as [|n IH]; [discriminate|]. cbn [get_phys_mem_range_from].
  destruct (range_contains (nth n map zero_range) a) eqn:E; intros H.
  - injection H as <-. unfold aget. rewrite Nat2Z.id. repeat split; try lia. exact E.
  - apply IH in H as (? & ? & Hj). repeat split; try lia; [assumption|].
    intros j Hlt. destruct (Z.eq_dec j (Z.of_nat n)) as [->|]; [|apply Hj; lia].
    unfold aget. rewrite Nat2Z.id. exact E.
Qed.

Lemma get_from_none map n a :
  get_phys_mem_range_from map n a = None ->
  forall j, 0 <= j < Z.of_nat n -> range_contains (aget zero_range map j) a = false.
Proof.
  induction n as [|n IH]; intros H j Hj; [lia|]. cbn [get_phys_mem_range_from] in H.
  destruct (range_contains (nth n map zero_range) a) eqn:E; [discriminate|].
  destruct (Z.eq_dec j (Z.of_nat n)) as [->|]; [|apply IH; [exact H|lia]].
  unfold aget. rewrite Nat2Z.id. exact E.
Qed.

(** Two addresses that every range treats alike find the same range. *)
Lemma get_from_ext map n a b :
  (forall j, 0 <= j < Z.of_nat n ->
     range_contains (aget zero_range map j) a = range_contains (aget zero_range map j) b) ->
  get_phys_mem_range_from map n a = get_phys_mem_range_from map n b.
Proof.
  induction n as [|n IH]; intros H; [reflexivity|]. cbn [get_phys_mem_range_from].
  pose proof (H (Z.of_nat n) ltac:(lia)) as Hn. unfold aget in Hn. rewrite Nat2Z.id in Hn.
  rewrite Hn, IH by (intros; apply H; lia). reflexivity.
Qed.

(** The lookup of a physical address answers the most recently registered
    range that contains it, and answers no range exactly when none does. *)
Theorem get_phys_mem_range_last_match map a :
  match get_phys_mem_range map a with
  | Some k =>
      0 <= k < Z.of_nat (length map) /\
      range_contains (aget zero_range map k) a = true /\
      forall j, k < j < Z.of_nat (length map) ->
        range_contains (aget zero_range map j) a = false
  | None =>
      forall j, 0 <= j < Z.of_nat (length map) ->
        range_contains (aget zero_range map j) a = false
  end.
Proof.
  unfold get_phys_mem_range. destruct (get_phys_mem_range_from _ _ _) eqn:E.
  - exact (get_from_spec _ _ _ _ E).
  - exact (get_from_none _ _ _ E).
Qed.

(** Word and bit of a page in a dirty bitmap. *)
Lemma dirty_split p : 0 <= p -> 32 * (p >> 5) + (p .& 0x1f) = p /\ 0 <= (p .& 0x1f) < 32 /\ 0 <= p >> 5.
Proof.
  intros Hp. rewrite Z.shiftr_div_pow2 by lia. change 0x1f with (Z.ones 5).
  rewrite Z.land_ones by lia. change (2 ^ 5) with 32.
  pose proof (Z.div_mod p 32 ltac:(lia)). pose proof (Z.mod_pos_bound p 32 ltac:(lia)).
  pose proof (Z.div_pos p 32 Hp ltac:(lia)). lia.
Qed.

Lemma dirty_mask_bit k n : 0 <= k < 32 -> 0 <= n ->
  Z.testbit (u32 (1 << k)) n = (n =? k).
Proof.
  intros Hk Hn. rewrite u_testbit by lia. rewrite Z.shiftl_1_l, Z.pow2_bits_eqb by lia.
  rewrite (Z.eqb_sym k n). destruct (Z.eqb_spec n k); [|apply andb_false_r].
  destruct (Z.ltb_spec n 32); [reflexivity|lia].
Qed.

(** Marking a page dirty makes exactly that page read as dirty: after
    [phys_mem_set_dirty_bit] at [off], a page of the bitmap reads as dirty iff
    it is the page of [off] or was dirty before. *)
Theorem dirty_bit_roundtrip pr k bits off off' :
  pr_dirty_bits pr = Some k -> pr_dirty_bits_tab pr !! Z.to_nat k = Some bits ->
  0 <= k -> 0 <= off -> 0 <= off' ->
  off >> DEVRAM_PAGE_SIZE_LOG2 < 32 * Z.of_nat (length bits) ->
  phys_mem_is_dirty_bit (phys_mem_set_dirty_bit pr off) off' =
    (off >> DEVRAM_PAGE_SIZE_LOG2 =? off' >> DEVRAM_PAGE_SIZE_LOG2)
    || phys_mem_is_dirty_bit pr off'.
Proof.
  intros Hd Ht Hk Ho Ho' Hlen.
  unfold phys_mem_is_dirty_bit, phys_mem_set_dirty_bit. rewrite !Hd. unfold with_dirty.
  cbn [pr_dirty_bits pr_dirty_bits_tab].
  assert (Hlt : 0 <= k < Z.of_nat (length (pr_dirty_bits_tab pr)))
    by (apply lookup_lt_Some in Ht; lia).
  rewrite aget_aset_eq by exact Hlt.
  assert (aget [] (pr_dirty_bits_tab pr) k = bits) as ->
    by (unfold aget; rewrite nth_lookup, Ht; reflexivity).
  set (p := off >> DEVRAM_PAGE_SIZE_LOG2) in *. set (q := off' >> DEVRAM_PAGE_SIZE_LOG2).
  assert (0 <= p) by (apply Z.shiftr_nonneg; assumption).
  assert (0 <= q) by (apply Z.shiftr_nonneg; assumption).
  destruct (dirty_split p H) as (Hp1 & Hp2 & Hp3), (dirty_split q H0) as (Hq1 & Hq2 & Hq3).
  assert (forall x n, 0 <= n -> nz ((x >> n) .& 1) = Z.testbit x n) as Hbit.
  { intros x n Hn. change 1 with (2 ^ 0). rewrite has_pow2, Z.shiftr_spec by lia. f_equal; lia. }
  rewrite !Hbit by lia.
  destruct (Z.eq_dec (p >> 5) (q >> 5)) as [E|E].
  - rewrite E, aget_aset_eq by lia.
    rewrite Z.lor_spec, dirty_mask_bit by lia. rewrite orb_comm. f_equal.
    destruct (Z.eqb_spec (q .& 31) (p .& 31)), (Z.eqb_spec p q); (reflexivity || lia).
  - rewrite aget_aset_ne by lia.
    destruct (Z.eqb_spec p q); [congruence|reflexivity].
Qed.

Lemma dirty_bit_roundtrip_witness :
  let pr := mkRange 0x80000000 0x40000 0x40000 true 2 0 8 (Some 0) [[0; 0]; [0; 0]] 0 0 0 in
  phys_mem_is_dirty_bit (phys_mem_set_dirty_bit pr 0x3004) 0x3ff8 = true.
Proof.
  intros pr. rewrite (dirty_bit_roundtrip pr 0 [0; 0] 0x3004 0x3ff8);
    first [reflexivity | lia | vm_compute; congruence].
Defined.
