(* ===== verification/Tlb.v ===== *)
(** * TLB maintenance

    [tlb_init], [tlb_flush_all], [tlb_flush_vaddr] and
    [riscv_cpu_flush_tlb_write_range_ram] of [src/riscv_cpu.cpp]. *)

From S2P Require Import Prelude RiscvDefs State.
Open Scope Z_scope.
Open Scope c_scope.

(** [(target_ulong)-1], the tag of an empty entry. *)
Definition TLB_EMPTY : Z := u64 (-1).

Definition clear_vaddr (e : TLBEntry) : TLBEntry := mkTLBEntry TLB_EMPTY (te_mem_addend e).

Definition tlb_init (s : RISCVCPUState) : RISCVCPUState :=
  set_tlb_code (map clear_vaddr (tlb_code s))
  (set_tlb_write (map clear_vaddr (tlb_write s))
  (set_tlb_read (map clear_vaddr (tlb_read s)) s)).

Definition tlb_flush_all (s : RISCVCPUState) : RISCVCPUState := tlb_init s.

Definition tlb_flush_vaddr (s : RISCVCPUState) (vaddr : Z) : RISCVCPUState := tlb_flush_all s.

(** Drop the write entries whose host page starts inside [[ram_ptr, ram_ptr + ram_size)]. *)
Definition riscv_cpu_flush_tlb_write_range_ram (s : RISCVCPUState) (ram_ptr ram_size : Z)
  : RISCVCPUState :=
  let ram_end := u64 (ram_ptr + ram_size) in
  set_tlb_write
    (map (fun e =>
            if negb (te_vaddr e =? TLB_EMPTY) then
              let ptr := u64 (te_mem_addend e + te_vaddr e) in
              if (ram_ptr <=? ptr) && (ptr <? ram_end) then clear_vaddr e else e
            else e) (tlb_write s)) s.

(** [(addr >> PG_SHIFT) & (TLB_SIZE - 1)] *)
Definition tlb_index (addr : Z) : Z := (addr >> PG_SHIFT) .& (TLB_SIZE - 1).

Definition tlb_get (t : list TLBEntry) (ix : Z) : TLBEntry := aget (mkTLBEntry TLB_EMPTY 0) t ix.

(** ** Lemmas *)

Lemma tlb_index_range a : 0 <= tlb_index a < TLB_SIZE.
Proof.
  unfold tlb_index. change (TLB_SIZE - 1) with (Z.ones 8).
  rewrite Z.land_ones by lia. apply Z.mod_pos_bound; reflexivity.
Qed.

Lemma tlb_get_clear t ix : te_vaddr (tlb_get (map clear_vaddr t) ix) = TLB_EMPTY.
Proof.
  unfold tlb_get, aget. rewrite nth_lookup, list_lookup_fmap.
  destruct (t !! Z.to_nat ix); reflexivity.
Qed.

(** A page-aligned tag never equals the empty tag. *)
Lemma page_tag_not_empty a : a .&~ PG_MASK <> TLB_EMPTY.
Proof.
  intros H. apply (f_equal (fun x => Z.testbit x 0)) in H.
  rewrite Z.ldiff_spec in H. change (Z.testbit PG_MASK 0) with true in H.
  change (Z.testbit TLB_EMPTY 0) with true in H. rewrite andb_false_r in H. discriminate.
Qed.
