(* ===== verification/Pmp.v ===== *)
(** * Physical memory protection

    [riscv_cpu_pmp_access_ok] and [unpack_pmpaddrs] of [src/riscv_cpu.cpp]. *)

From S2P Require Import Prelude RiscvDefs State Tlb.
Open Scope Z_scope.
Open Scope c_scope.

(** The privilege a data access is checked against: [MPP] when [MPRV] is set,
    else the current one. *)
Definition data_priv (s : RISCVCPUState) : Z :=
  if mstatus s has MSTATUS_MPRV
  then (mstatus s >> MSTATUS_MPP_SHIFT) .& 3
  else priv s.

Definition pmp_entry (s : RISCVCPUState) (k : Z) : pmp_addr := aget (mkPmpAddr 0 0) (pmp s) k.

(** The loop over the unpacked entries: the first one that overlaps
    [[paddr; paddr + size)] decides. *)
Fixpoint pmp_scan (s : RISCVCPUState) (prv paddr size perm : Z) (n : nat) (k : Z) : bool :=
  match n with
  | O => prv =? PRV_M
  | S n' =>
      if (pmp_lo (pmp_entry s k) <=? u64 (paddr + size - 1)) && (paddr <? pmp_hi (pmp_entry s k))
      then
        if (prv <? PRV_M) || (aget 0 (pmpcfg s) k has PMPCFG_L)
        then (perm .& aget 0 (pmpcfg s) k) =? perm
        else true
      else pmp_scan s prv paddr size perm n' (k + 1)
  end.

Definition riscv_cpu_pmp_access_ok (s : RISCVCPUState) (paddr size perm : Z) : bool :=
  if nz (paddr >> physical_addr_len s) then false
  else
    let prv :=
      if (mstatus s has MSTATUS_MPRV) && negb (perm has PMPCFG_X)
      then (mstatus s >> MSTATUS_MPP_SHIFT) .& 3
      else priv s in
    pmp_scan s prv paddr size perm (Z.to_nat (pmp_n s)) 0.

(** Append an unpacked entry at index [pmp_n]. *)
Definition push_pmp (s : RISCVCPUState) (cfg lo hi : Z) : RISCVCPUState :=
  set_pmp_n (pmp_n s + 1)
  (set_pmp (aset (pmp s) (pmp_n s) (mkPmpAddr lo hi))
  (set_pmpcfg (aset (pmpcfg s) (pmp_n s) cfg) s)).

(** Number of trailing ones of a 64-bit value: the first [j < 64] whose bit is
    clear, [64] when there is none. *)
Definition trailing_ones (v : Z) : Z :=
  match find_up (fun j => (v .& (1 << j)) =? 0) 64 0 with Some j => j | None => 64 end.

(** One iteration of the loop of [unpack_pmpaddrs]. *)
Definition unpack_one (k : Z) (s : RISCVCPUState) : RISCVCPUState :=
  let cfg :=
    if k <? 8 then u8 (aget 0 (csr_pmpcfg s) 0 >> (k * 8))
    else u8 (aget 0 (csr_pmpcfg s) 2 >> ((k - 8) * 8)) in
  let addr := aget 0 (csr_pmpaddr s) k in
  let a := cfg .& PMPCFG_A_MASK in
  if a =? PMPCFG_A_OFF then s
  else if a =? PMPCFG_A_TOR then
    push_pmp s cfg
      (if k =? 0 then 0 else u64 (aget 0 (csr_pmpaddr s) (k - 1) << 2))
      (u64 (addr << 2))
  else if a =? PMPCFG_A_NA4 then
    push_pmp s cfg (u64 (addr << 2)) (u64 (u64 (addr << 2) + 4))
  else (* PMPCFG_A_NAPOT *)
    let j := trailing_ones addr + 3 in
    if 64 <=? j then push_pmp s cfg 0 (u64 (-1))
    else
      let lo := u64 (addr << 2) .&~ ((1 << j) - 1) in
      let hi := u64 (lo + (1 << j)) in
      push_pmp s cfg lo (if hi <=? lo then u64 (-1) else hi).

Definition unpack_pmpaddrs (s : RISCVCPUState) : RISCVCPUState :=
  tlb_flush_all (for_up unpack_one 16 0 (set_pmp_n 0 s)).

(** ** The specification: what the PMP CSRs mean

    Entry [k] is read from its configuration byte and address register alone;
    nothing here mentions the unpacked arrays. *)

Definition pmp_cfg (s : RISCVCPUState) (k : Z) : Z :=
  if k <? 8 then u8 (aget 0 (csr_pmpcfg s) 0 >> (k * 8))
  else u8 (aget 0 (csr_pmpcfg s) 2 >> ((k - 8) * 8)).

(** The half-open byte range an entry covers, [None] when it is off.  A NAPOT
    register with [t] trailing ones names the naturally aligned block of
    [2^(t+3)] bytes that holds [4 * addr]. *)
Definition pmp_region (s : RISCVCPUState) (k : Z) : option (Z * Z) :=
  let cfg := pmp_cfg s k in
  let addr := aget 0 (csr_pmpaddr s) k in
  let a := cfg .& PMPCFG_A_MASK in
  if a =? PMPCFG_A_OFF then None
  else if a =? PMPCFG_A_TOR then
    Some (if k =? 0 then 0 else 4 * aget 0 (csr_pmpaddr s) (k - 1), 4 * addr)
  else if a =? PMPCFG_A_NA4 then Some (4 * addr, 4 * addr + 4)
  else
    let size := 2 ^ (trailing_ones addr + 3) in
    Some (4 * addr / size * size, 4 * addr / size * size + size).

(** The configuration of the lowest-numbered entry that overlaps the access. *)
Fixpoint pmp_first_match (s : RISCVCPUState) (paddr size : Z) (ks : list Z) : option Z :=
  match ks with
  | [] => None
  | k :: ks' =>
      match pmp_region s k with
      | Some (lo, hi) =>
          if (lo <? paddr + size) && (paddr <? hi) then Some (pmp_cfg s k)
          else pmp_first_match s paddr size ks'
      | None => pmp_first_match s paddr size ks'
      end
  end.

(** The architectural check: an unlocked entry does not bind machine mode, and
    with no matching entry only machine mode passes. *)
Definition pmp_allows (s : RISCVCPUState) (paddr size perm : Z) : bool :=
  let prv := if (mstatus s has MSTATUS_MPRV) && negb (perm has PMPCFG_X)
             then (mstatus s >> MSTATUS_MPP_SHIFT) .& 3 else priv s in
  (paddr <? 2 ^ physical_addr_len s) &&
  match pmp_first_match s paddr size (map Z.of_nat (seq 0 16)) with
  | Some cfg =>
      if (prv <? PRV_M) || (cfg has PMPCFG_L) then (perm .& cfg) =? perm else true
  | None => prv =? PRV_M
  end.

(** The CSRs hold what [csr_write] lets through: sixteen 38-bit addresses. *)
Record pmp_csrs_ok (s : RISCVCPUState) : Prop := {
  pc_addr_len : length (csr_pmpaddr s) = 16%nat;
  pc_addr : Forall (in_u 38) (csr_pmpaddr s);
  pc_pmp_len : length (pmp s) = 16%nat;
  pc_cfg_len : length (pmpcfg s) = 16%nat
}.

(** ** The unpacked arrays list the enabled entries in order *)

Definition enabled (s : RISCVCPUState) (k : Z) : option (Z * pmp_addr) :=
  match pmp_region s k with
  | Some (lo, hi) => Some (pmp_cfg s k, mkPmpAddr lo hi)
  | None => None
  end.

Definition unpacked (s : RISCVCPUState) (l : list (Z * pmp_addr)) : Prop :=
  pmp_n s = Z.of_nat (length l) /\
  forall j, 0 <= j < Z.of_nat (length l) ->
    (aget 0 (pmpcfg s) j, pmp_entry s j) = aget (0, mkPmpAddr 0 0) l j.

Lemma trailing_ones_range v : 0 <= trailing_ones v <= 64.
Proof.
  unfold trailing_ones. destruct (find_up _ _ _) eqn:E; [|lia].
  apply find_up_some in E. lia.
Qed.

(** A 38-bit value has at most 38 trailing ones. *)
Lemma trailing_ones_38 v : in_u 38 v -> trailing_ones v <= 38.
Proof.
  intros Hv. unfold trailing_ones. destruct (find_up _ _ _) as [z|] eqn:E.
  - apply find_up_some in E as (_ & _ & Hj).
    destruct (Z.leb_spec z 38); [assumption|]. specialize (Hj 38 ltac:(lia)).
    apply Z.eqb_neq in Hj. destruct Hj. rewrite Z.shiftl_1_l.
    apply in_u_testbit in Hv as [_ Hv]; [|lia]. apply nz_false. rewrite has_pow2, Hv by lia.
    reflexivity.
  - pose proof (find_up_none _ _ _ E 38 ltac:(lia)) as Hj.
    apply Z.eqb_neq in Hj. destruct Hj. rewrite Z.shiftl_1_l.
    apply in_u_testbit in Hv as [_ Hv]; [|lia]. apply nz_false. rewrite has_pow2, Hv by lia.
    reflexivity.
Qed.

(** [x & ~(2^n - 1)] rounds down to a multiple of [2^n]. *)
Lemma ldiff_align x n : 0 <= n -> x .&~ ((1 << n) - 1) = x / 2 ^ n * 2 ^ n.
Proof.
  intros Hn. rewrite Z.shiftl_1_l, Z.sub_1_r, <- Z.ones_equiv, Z.ldiff_ones_r by lia.
  rewrite Z.shiftr_div_pow2, Z.shiftl_mul_pow2 by lia. reflexivity.
Qed.

Lemma addr_shl2 (s : RISCVCPUState) k : Forall (in_u 38) (csr_pmpaddr s) ->
  u64 (aget 0 (csr_pmpaddr s) k << 2) = 4 * aget 0 (csr_pmpaddr s) k /\
  0 <= 4 * aget 0 (csr_pmpaddr s) k < 2 ^ 40.
Proof.
  intros H. pose proof (Forall_aget _ 0 _ k H ltac:(split; [lia|reflexivity])) as Hk.
  unfold in_u in Hk. rewrite Z.shiftl_mul_pow2, (Z.mul_comm _ (2 ^ 2)) by lia.
  change (2 ^ 2) with 4. split; [|lia]. apply u_small. unfold in_u; lia.
Qed.

(** One iteration appends the entry exactly when it is enabled. *)
Lemma unpack_one_spec (s : RISCVCPUState) k l :
  Forall (in_u 38) (csr_pmpaddr s) -> 0 <= k ->
  length (pmp s) = 16%nat -> length (pmpcfg s) = 16%nat -> (length l < 16)%nat ->
  unpacked s l ->
  unpacked (unpack_one k s) (l ++ match enabled s k with Some e => [e] | None => [] end).
Proof.
  intros Ha Hk Hp Hc Hl [Hn Hj].
  assert (Hpush : forall c lo hi, unpacked (push_pmp s c lo hi) (l ++ [(c, mkPmpAddr lo hi)])).
  { intros c lo hi. unfold unpacked, push_pmp, pmp_entry; cbn. rewrite length_app; cbn. split; [lia|].
    intros j Hlt. rewrite Hn.
    destruct (Z.eq_dec j (Z.of_nat (length l))) as [->|Hne].
    - rewrite !aget_aset_eq by lia. unfold aget. rewrite Nat2Z.id.
      rewrite app_nth2, Nat.sub_diag by lia. reflexivity.
    - rewrite !aget_aset_ne by lia. unfold aget at 3. rewrite app_nth1 by lia. apply Hj; lia. }
  unfold unpack_one, enabled, pmp_region. fold (pmp_cfg s k).
  destruct (addr_shl2 s k Ha) as [-> Hr]. destruct (addr_shl2 s (k - 1) Ha) as [-> _].
  pose proof (Forall_aget _ 0 _ k Ha ltac:(split; [lia|reflexivity])) as Hk38.
  destruct (_ =? PMPCFG_A_OFF); [rewrite app_nil_r; split; assumption|].
  destruct (_ =? PMPCFG_A_TOR); [apply Hpush|].
  destruct (_ =? PMPCFG_A_NA4).
  { rewrite u_small by (unfold in_u; lia). apply Hpush. }
  pose proof (trailing_ones_38 _ Hk38). pose proof (trailing_ones_range (aget 0 (csr_pmpaddr s) k)).
  set (j := trailing_ones _ + 3) in *. rewrite ldiff_align by lia.
  destruct (Z.leb_spec 64 j); [lia|]. rewrite Z.shiftl_1_l.
  assert (2 ^ j <= 2 ^ 41) by (apply Z.pow_le_mono_r; lia).
  pose proof (pow2_pos j ltac:(lia)).
  pose proof (Z.mul_div_le (4 * aget 0 (csr_pmpaddr s) k) (2 ^ j) ltac:(lia)).
  pose proof (Z.div_pos (4 * aget 0 (csr_pmpaddr s) k) (2 ^ j) ltac:(lia) ltac:(lia)).
  rewrite u_small by (unfold in_u; nia).
  destruct (Z.leb_spec (4 * aget 0 (csr_pmpaddr s) k / 2 ^ j * 2 ^ j + 2 ^ j)
              (4 * aget 0 (csr_pmpaddr s) k / 2 ^ j * 2 ^ j)); [lia|]. apply Hpush.
Qed.

(** Fields [unpack_one] leaves alone. *)
Lemma unpack_one_frame k (s : RISCVCPUState) :
  csr_pmpaddr (unpack_one k s) = csr_pmpaddr s /\ csr_pmpcfg (unpack_one k s) = csr_pmpcfg s /\
  length (pmp (unpack_one k s)) = length (pmp s) /\
  length (pmpcfg (unpack_one k s)) = length (pmpcfg s) /\
  mcsr (unpack_one k s) = mcsr s /\ hr (unpack_one k s) = hr s /\ ctl (unpack_one k s) = ctl s.
Proof.
  unfold unpack_one. repeat case_goal; cbn; rewrite ?aset_length; auto 10.
Qed.

(** The list [unpack_pmpaddrs] builds from the first [n] entries. *)
Definition enabled_upto (s : RISCVCPUState) (n : nat) : list (Z * pmp_addr) :=
  flat_map (fun k => match enabled s (Z.of_nat k) with Some e => [e] | None => [] end) (seq 0 n).

Lemma enabled_upto_length s n : (length (enabled_upto s n) <= n)%nat.
Proof.
  unfold enabled_upto. induction n as [|n IH]; [cbn; lia|].
  rewrite seq_S, flat_map_app, length_app. cbn. destruct (enabled _ _); cbn; lia.
Qed.

Lemma enabled_ext (s s' : RISCVCPUState) k :
  csr_pmpaddr s' = csr_pmpaddr s -> csr_pmpcfg s' = csr_pmpcfg s -> enabled s' k = enabled s k.
Proof. intros H1 H2. unfold enabled, pmp_region, pmp_cfg. rewrite H1, H2. reflexivity. Qed.

(** What the loop of [unpack_pmpaddrs] keeps of the state [s0] it starts in. *)
Definition unpack_inv (s0 : RISCVCPUState) (k : Z) (s : RISCVCPUState) : Prop :=
  csr_pmpaddr s = csr_pmpaddr s0 /\ csr_pmpcfg s = csr_pmpcfg s0 /\
  length (pmp s) = 16%nat /\ length (pmpcfg s) = 16%nat /\
  mcsr s = mcsr s0 /\ hr s = hr s0 /\ ctl s = ctl s0 /\
  unpacked s (enabled_upto s0 (Z.to_nat k)).

Lemma unpack_step (s0 s : RISCVCPUState) k :
  Forall (in_u 38) (csr_pmpaddr s0) -> 0 <= k < 16 ->
  unpack_inv s0 k s -> unpack_inv s0 (k + 1) (unpack_one k s).
Proof.
  intros Ha Hk (H1 & H2 & H3 & H4 & H5 & H6 & H7 & H8).
  destruct (unpack_one_frame k s) as (F1 & F2 & F3 & F4 & F5 & F6 & F7).
  repeat split; try congruence; try (rewrite F3 || rewrite F4; assumption);
  (assert (Hu : unpacked (unpack_one k s) (enabled_upto s0 (Z.to_nat (k + 1))));
   [|apply Hu; assumption]).
  all: replace (Z.to_nat (k + 1)) with (S (Z.to_nat k)) by lia;
    unfold enabled_upto; rewrite seq_S, flat_map_app; cbn;
    rewrite app_nil_r, Z2Nat.id, <- (enabled_ext s0 s k H1 H2) by lia;
    apply unpack_one_spec; try assumption; try lia; try (rewrite H1; assumption);
    pose proof (enabled_upto_length s0 (Z.to_nat k)); unfold enabled_upto in *; lia.
Qed.

Lemma unpack_pmpaddrs_inv s :
  pmp_csrs_ok s -> unpack_inv s 16 (for_up unpack_one 16 0 (set_pmp_n 0 s)).
Proof.
  intros [Hl Ha Hp Hc].
  apply (for_up_ind (unpack_inv s) unpack_one 16 0).
  - repeat split; try assumption. intros j Hj.
    change (enabled_upto s (Z.to_nat 0)) with (@nil (Z * pmp_addr)) in Hj. cbn in Hj. lia.
  - intros k a Hk Hi. apply unpack_step; (assumption || lia).
Qed.

(** ** Scanning the arrays is scanning the list *)

Fixpoint list_match (l : list (Z * pmp_addr)) (paddr size : Z) : option Z :=
  match l with
  | [] => None
  | (cfg, r) :: l' =>
      if (pmp_lo r <? paddr + size) && (paddr <? pmp_hi r) then Some cfg
      else list_match l' paddr size
  end.

Definition verdict (prv perm : Z) (o : option Z) : bool :=
  match o with
  | Some cfg => if (prv <? PRV_M) || (cfg has PMPCFG_L) then (perm .& cfg) =? perm else true
  | None => prv =? PRV_M
  end.

Lemma pmp_scan_list (s : RISCVCPUState) prv paddr size perm l :
  0 <= paddr -> 0 < size -> paddr + size <= 2 ^ 64 ->
  forall k, 0 <= k ->
  (forall j, 0 <= j < Z.of_nat (length l) ->
     (aget 0 (pmpcfg s) (k + j), pmp_entry s (k + j)) = aget (0, mkPmpAddr 0 0) l j) ->
  pmp_scan s prv paddr size perm (length l) k = verdict prv perm (list_match l paddr size).
Proof.
  intros Hp Hs Hb. induction l as [|[c r] l IH]; intros k Hk Hj; [reflexivity|].
  cbn [length pmp_scan list_match].
  pose proof (Hj 0 ltac:(cbn; lia)) as H0. rewrite Z.add_0_r in H0. injection H0 as -> ->.
  rewrite u_small by (unfold in_u; lia).
  replace (pmp_lo r <=? paddr + size - 1) with (pmp_lo r <? paddr + size)
    by (destruct (Z.ltb_spec (pmp_lo r) (paddr + size)), (Z.leb_spec (pmp_lo r) (paddr + size - 1));
        (reflexivity || lia)).
  destruct (_ && _); [reflexivity|]. apply IH; [lia|].
  intros j Hlt. specialize (Hj (j + 1) ltac:(cbn [length]; lia)).
  replace (k + 1 + j) with (k + (j + 1)) by lia. rewrite Hj. unfold aget.
  replace (Z.to_nat (j + 1)) with (S (Z.to_nat j)) by lia. reflexivity.
Qed.

Lemma list_match_enabled s paddr size ks :
  list_match (flat_map (fun k => match enabled s (Z.of_nat k) with Some e => [e] | None => [] end) ks)
    paddr size = pmp_first_match s paddr size (map Z.of_nat ks).
Proof.
  induction ks as [|k ks IH]; [reflexivity|]. cbn. rewrite <- IH. unfold enabled at 1.
  destruct (pmp_region s (Z.of_nat k)) as [[lo hi]|]; reflexivity.
Qed.

(** The check on a hart whose arrays are unpacked. *)
Lemma pmp_check_unpacked (s : RISCVCPUState) (paddr size perm : Z) :
  unpacked s (enabled_upto s 16) -> 0 <= physical_addr_len s ->
  0 <= paddr -> 0 < size -> paddr + size <= 2 ^ 64 ->
  riscv_cpu_pmp_access_ok s paddr size perm = pmp_allows s paddr size perm.
Proof.
  intros [Hn Hj] Hpl Hp Hs Hb. unfold riscv_cpu_pmp_access_ok, pmp_allows. rewrite Hn, Nat2Z.id.
  assert (Hz : nz (paddr >> physical_addr_len s) = negb (paddr <? 2 ^ physical_addr_len s)).
  { unfold nz. f_equal. rewrite Z.shiftr_div_pow2 by lia. pose proof (pow2_pos (physical_addr_len s) Hpl).
    destruct (Z.ltb_spec paddr (2 ^ physical_addr_len s)).
    - rewrite Z.div_small by lia. reflexivity.
    - apply Z.eqb_neq. pose proof (Z.div_str_pos paddr (2 ^ physical_addr_len s) ltac:(lia)). lia. }
  rewrite Hz. destruct (paddr <? _); [|reflexivity]. cbn [negb andb].
  rewrite (pmp_scan_list s _ _ _ _ (enabled_upto s 16)); try lia; [|exact Hj].
  unfold enabled_upto. rewrite list_match_enabled. reflexivity.
Qed.

Lemma enabled_upto_ext (s s' : RISCVCPUState) n :
  csr_pmpaddr s' = csr_pmpaddr s -> csr_pmpcfg s' = csr_pmpcfg s -> enabled_upto s' n = enabled_upto s n.
Proof.
  intros H1 H2. unfold enabled_upto. apply flat_map_ext. intros k.
  rewrite (enabled_ext s s' _ H1 H2). reflexivity.
Qed.

Lemma pmp_allows_ext (s s' : RISCVCPUState) paddr size perm :
  csr_pmpaddr s' = csr_pmpaddr s -> csr_pmpcfg s' = csr_pmpcfg s ->
  mcsr s' = mcsr s -> hr s' = hr s -> ctl s' = ctl s ->
  pmp_allows s' paddr size perm = pmp_allows s paddr size perm.
Proof.
  intros H1 H2 H3 H4 H5. unfold pmp_allows. rewrite H3, H4, H5.
  enough (Hm : forall ks, pmp_first_match s' paddr size ks = pmp_first_match s paddr size ks)
    by (rewrite Hm; reflexivity).
  induction ks as [|k ks IH]; [reflexivity|]. cbn. unfold pmp_region, pmp_cfg.
  rewrite H1, H2, IH. reflexivity.
Qed.

(** C16. The optimised PMP check is the architectural one: after
    [unpack_pmpaddrs], [riscv_cpu_pmp_access_ok] gives, for every access that
    does not wrap around the address space, the verdict that the
    lowest-numbered overlapping entry of the PMP CSRs prescribes. *)
Theorem pmp_check_refines_csrs (s : RISCVCPUState) (paddr size perm : Z) :
  pmp_csrs_ok s -> 0 <= physical_addr_len s ->
  0 <= paddr -> 0 < size -> paddr + size <= 2 ^ 64 ->
  riscv_cpu_pmp_access_ok (unpack_pmpaddrs s) paddr size perm = pmp_allows s paddr size perm.
Proof.
  intros Hok Hpl Hp Hs Hb. pose proof (unpack_pmpaddrs_inv s Hok) as Hinv.
  unfold unpack_pmpaddrs. revert Hinv. generalize (for_up unpack_one 16 0 (set_pmp_n 0 s)).
  intros u (I1 & I2 & _ & _ & Hm & Hh & Hc & Hu).
  rewrite <- (enabled_upto_ext s (tlb_flush_all u) _ I1 I2) in Hu.
  rewrite (pmp_check_unpacked (tlb_flush_all u)); try assumption;
    [apply pmp_allows_ext; assumption|].
  change (physical_addr_len (tlb_flush_all u)) with (physical_addr_len u). rewrite Hc. exact Hpl.
Qed.

(** A hart whose entry 0 is a locked, readable NAPOT block of 8 KiB at
    [0x80000000]. *)
Definition pmp_example : RISCVCPUState :=
  set_csr_pmpaddr (aset (repeat 0 16) 0 0x200003ff)
  (set_csr_pmpcfg [0x99; 0; 0; 0] (set_physical_addr_len 56 zero_hart)).

Lemma pmp_example_ok : pmp_csrs_ok pmp_example.
Proof.
  split; try reflexivity.
  unfold pmp_example; cbn. unfold aset; cbn.
  repeat (apply List.Forall_cons; [split; [discriminate|reflexivity]|]). apply List.Forall_nil.
Qed.

Lemma pmp_check_refines_csrs_witness :
  riscv_cpu_pmp_access_ok (unpack_pmpaddrs pmp_example) 0x80001ff8 8 PMPCFG_R = true /\
  riscv_cpu_pmp_access_ok (unpack_pmpaddrs pmp_example) 0x80001ff8 8 PMPCFG_W = false.
Proof.
  split.
  - rewrite (pmp_check_refines_csrs pmp_example _ _ _ pmp_example_ok); [vm_compute; reflexivity|..];
      vm_compute; (reflexivity || discriminate).
  - rewrite (pmp_check_refines_csrs pmp_example _ _ _ pmp_example_ok); [vm_compute; reflexivity|..];
      vm_compute; (reflexivity || discriminate).
Defined.
