(* ===== verification/Mmu.v ===== *)
(** * Address translation and memory access

    The trigger check, the access trackers, the physical and virtual memory
    accessors, the Sv39/Sv48 page walk and the instruction fetch of
    [src/riscv_cpu.cpp], for the configuration of [include/riscv_cpu.h]
    ([CONFIG_SW_MANAGED_A_AND_D = 1], [CONFIG_ALLOW_MISALIGNED_ACCESS = 0],
    [MLEN = 64]).  A C function that returns a non-zero error code leaves
    through [MmuException]; the page walk returns its code. *)

From S2P Require Import Prelude RiscvDefs State IoMem Tlb Pmp.
Open Scope Z_scope.
Open Scope c_scope.
Open Scope m_scope.

(** What the memory system asks of the devices: the [read_func] and
    [write_func] callbacks of the range registered under [opaque].  They reach
    the hart that makes the access and the machine, not the interpreter's
    local variables; a failing [assert] or a wild pointer inside a callback is
    its [stop]. *)
Class DeviceBus := {
  dev_read : forall (opaque offset size_log2 : Z),
    RISCVCPUState * RISCVMachine -> (RISCVCPUState * RISCVMachine) * (Z + stop);
  dev_write : forall (opaque offset val size_log2 : Z),
    RISCVCPUState * RISCVMachine -> (RISCVCPUState * RISCVMachine) * (unit + stop)
}.

Inductive access := ACCESS_READ | ACCESS_WRITE | ACCESS_CODE.

#[export] Instance access_eq_dec : EqDecision access.
Proof. solve_decision. Defined.

Definition access_code (a : access) : Z :=
  match a with ACCESS_READ => 0 | ACCESS_WRITE => 1 | ACCESS_CODE => 2 end.

(** ** Trackers *)

(** [s->machine->cpu_state[0]] *)
Definition hart0 (st : St) : RISCVCPUState :=
  if mhartid (cpu st) =? 0 then cpu st else aget (cpu st) (cpu_state (mach st)) 0.

Definition record_access (vaddr paddr size type : Z) (s : RISCVCPUState) : RISCVCPUState :=
  set_last_data_type type
  (set_last_data_size size
  (set_last_data_vaddr vaddr
  (set_last_data_paddr paddr s))).

Definition memrecord_size (m : RISCVMachine) (size : Z) : Z :=
  if stf_memrecord_size_in_bits m then size else size / 8.

Definition track_write (vaddr paddr data size : Z) (trace_en : bool) : M unit := fun st =>
  let size := memrecord_size (mach st) size in
  let s := record_access vaddr paddr size 1 (cpu st) in
  let trace_this := trace_en && stf_macro_tracing_active (mach st) &&
                    (priv (hart0 st) <=? stf_highest_priv_mode (mach st)) in
  let s' := if trace_this
            then set_stf_mem_writes (stf_mem_writes s ++ [mkStfMem vaddr size data]) s else s in
  (with_cpu s' st, inl tt).

Definition track_dread (vaddr paddr data size : Z) (trace_en : bool) : M Z := fun st =>
  let size := memrecord_size (mach st) size in
  let s := record_access vaddr paddr size 0 (cpu st) in
  let trace_this := trace_en && stf_macro_tracing_active (mach st) &&
                    (priv (hart0 st) <=? stf_highest_priv_mode (mach st)) &&
                    negb (vaddr =? htif_tohost_addr (mach st)) in
  let s' := if trace_this
            then set_stf_mem_reads (stf_mem_reads s ++ [mkStfMem vaddr size data]) s else s in
  (with_cpu s' st, inl data).

Definition track_iread (data size : Z) : M Z :=
  guard ((size =? 16) || (size =? 32)) AssertFail ;; ret data.

(** ** Debug triggers *)

(** Does trigger [k] fire on [addr]? *)
Definition trigger_matches (s : RISCVCPUState) (k addr : Z) : bool :=
  let t1 := aget 0 (tdata1 s) k in
  let t2 := aget 0 (tdata2 s) k in
  let t_match := (t1 .& MCONTROL_MATCH) >> 7 in
  let napot_mask := u64 (Z.lnot (u64 (t2 + 1) .^ t2)) in
  (t_match =? MCONTROL_MATCH_EQUAL) && (addr =? t2)
  || (t_match =? MCONTROL_MATCH_NAPOT) && ((napot_mask .& addr) =? (napot_mask .& t2))
  || (t_match =? MCONTROL_MATCH_GE) && (t2 <=? addr)
  || (t_match =? MCONTROL_MATCH_LT) && (addr <? t2).

Fixpoint check_triggers_from (s : RISCVCPUState) (t_mctl addr : Z) (n : nat) (k : Z)
  : bool * RISCVCPUState :=
  match n with
  | O => (false, s)
  | S n' =>
      let t1 := aget 0 (tdata1 s) k in
      let t2 := aget 0 (tdata2 s) k in
      if ((t1 .& t_mctl) =? t_mctl) && trigger_matches s k addr then
        if (t2 has MCONTROL_ACTION) && (t1 has MCONTROL_DMODE)
        then (true, set_pc 0x0800 (set_debug_mode true s))
        else (true, set_pending_tval addr (set_pending_exception CAUSE_BREAKPOINT s))
      else check_triggers_from s t_mctl addr n' (k + 1)
  end.

Definition check_triggers (s : RISCVCPUState) (t_mctl addr : Z) : bool * RISCVCPUState :=
  if debug_mode s then (false, s)
  else check_triggers_from s (t_mctl .| (MCONTROL_U << priv s)) addr (Z.to_nat MAX_TRIGGERS) 0.

(** [if (check_triggers(...)) return -1;] *)
Definition check_triggers_m (t_mctl addr : Z) (e : stop) : M unit := fun st =>
  let '(hit, s) := check_triggers (cpu st) t_mctl addr in
  (with_cpu s st, if hit then inr e else inl tt).

(** ** Physical accesses *)

(** [get_phys_mem_range_pmp]: [None] is [*fail = true]; [Some None] is a
    permitted access to no range. *)
Definition get_phys_mem_range_pmp (st : St) (paddr size perm : Z) : option (option Z) :=
  if riscv_cpu_pmp_access_ok (cpu st) paddr size perm
  then Some (get_phys_mem_range (mem_map (mach st)) paddr) else None.

Definition the_range (st : St) (k : Z) : PhysMemoryRange := aget zero_range (mem_map (mach st)) k.

(** [pr->phys_mem + (uintptr_t)(paddr - pr->addr)] *)
Definition range_ptr (pr : PhysMemoryRange) (paddr : Z) : Z :=
  u64 (pr_phys_mem pr + (paddr - pr_addr pr)).

(** [riscv_phys_read_u##size]; [None] is [*fail = true]. *)
Definition riscv_phys_read (n : nat) (paddr : Z) : M (option Z) := fun st =>
  match get_phys_mem_range_pmp st paddr (Z.of_nat n) PMPCFG_R with
  | None | Some None => (st, inl None)
  | Some (Some k) =>
      (let! pval := hload n (range_ptr (the_range st k) paddr) in
       let! v := track_dread paddr paddr pval (8 * Z.of_nat n) false in
       ret (Some v)) st
  end.

(** [riscv_phys_write_u##size]; [false] is [*fail = true]. *)
Definition riscv_phys_write (n : nat) (paddr val : Z) : M bool := fun st =>
  match get_phys_mem_range_pmp st paddr (Z.of_nat n) PMPCFG_W with
  | None | Some None => (st, inl false)
  | Some (Some k) =>
      if negb (pr_is_ram (the_range st k)) then (st, inl false)
      else
        (track_write paddr paddr val (8 * Z.of_nat n) false ;;
         hstore n (range_ptr (the_range st k) paddr) val ;;
         ret true) st
  end.

(** ** The page walk *)

(** The privilege used for translation. *)
Definition walk_priv (s : RISCVCPUState) (a : access) : Z :=
  if (mstatus s has MSTATUS_MPRV) && negb (bool_decide (a = ACCESS_CODE))
  then (mstatus s >> MSTATUS_MPP_SHIFT) .& 3 else priv s.

(** The checks on a leaf entry ([xwr != 0]); [true] when the access is allowed.
    [j] is the number of levels below this one. *)
Definition leaf_ok (s : RISCVCPUState) (prv : Z) (a : access) (pte j : Z) : bool :=
  let xwr := (pte >> 1) .& 7 in
  if (xwr =? 2) || (xwr =? 6) then false
  else if negb (if prv =? PRV_S
                then negb ((pte has PTE_U_MASK) && negb (mstatus s has MSTATUS_SUM))
                else pte has PTE_U_MASK) then false
  else
    let xwr := if mstatus s has MSTATUS_MXR then xwr .| (xwr >> 2) else xwr in
    if ((xwr >> access_code a) .& 1) =? 0 then false
    else if ((1 << j) - 1) has u32 (pte >> 10) then false
    else if negb (pte has PTE_A_MASK) then false
    else negb (bool_decide (a = ACCESS_WRITE) && negb (pte has PTE_D_MASK)).

(** The loop over the levels; [n] levels remain, the table is at [pte_addr].
    The result is the physical address or the error code. *)
Fixpoint walk_levels (prv vaddr : Z) (a : access) (n : nat) (pte_addr : Z) : M (Z + Z) :=
  match n with
  | O => ret (inr (-1))
  | S n' =>
      let vaddr_shift := PG_SHIFT + 9 * Z.of_nat n' in
      let pte_idx := (vaddr >> vaddr_shift) .& 511 in
      let pte_addr := u64 (pte_addr + (pte_idx << 3)) in
      let! r := riscv_phys_read 8 pte_addr in
      match r with
      | None => ret (inr (-2))
      | Some pte =>
          if negb (pte has PTE_V_MASK) then ret (inr (-1))
          else
            let paddr := u64 ((pte >> 10) << PG_SHIFT) in
            if nz ((pte >> 1) .& 7) then
              let! s := getc id in
              if leaf_ok s prv a pte (Z.of_nat n') then
                let vaddr_mask := (1 << vaddr_shift) - 1 in
                ret (inl (paddr .&~ vaddr_mask .| vaddr .& vaddr_mask))
              else ret (inr (-1))
            else walk_levels prv vaddr a n' paddr
      end
  end.

Definition riscv_cpu_get_phys_addr (vaddr : Z) (a : access) : M (Z + Z) :=
  let! s := getc id in
  let prv := walk_priv s a in
  if prv =? PRV_M then ret (inl vaddr)
  else
    let mode := (satp s >> 60) .& 0xf in
    if mode =? 0 then ret (inl vaddr)
    else
      let levels := mode - 8 + 3 in
      let vaddr_shift := 64 - (PG_SHIFT + levels * 9) in
      if negb ((i64 (vaddr << vaddr_shift) >> vaddr_shift) =? i64 vaddr) then ret (inr (-1))
      else
        let pte_addr := u64 ((satp s .& ((1 << 44) - 1)) << PG_SHIFT) in
        walk_levels prv vaddr a (Z.to_nat levels) pte_addr.

(** ** Virtual accesses: the slow path *)

(** [s->pending_tval = addr; s->pending_exception = cause; return -1;] *)
Definition fault {A} (addr cause : Z) : M A :=
  modc (fun s => set_pending_exception cause (set_pending_tval addr s)) ;; throw MmuException.

Section WithBus.
Context {Bus : DeviceBus}.

Definition dev_read_m (opaque offset size_log2 : Z) : M Z := fun st =>
  let '(c, m, r) := dev_read opaque (u32 offset) size_log2 (cpu st, mach st) in
  (mkSt c m (lc st), match r with inl v => inl (u32 v) | inr e => inr e end).

Definition dev_write_m (opaque offset val size_log2 : Z) : M unit := fun st =>
  let '(c, m, r) := dev_write opaque (u32 offset) (u32 val) size_log2 (cpu st, mach st) in
  (mkSt c m (lc st), r).

(** Fill the read TLB for the page of [addr]. *)
Definition fill_tlb_read (addr paddr ptr : Z) (s : RISCVCPUState) : RISCVCPUState :=
  let ix := tlb_index addr in
  set_tlb_read (aset (tlb_read s) ix (mkTLBEntry (addr .&~ PG_MASK) (u64 (ptr - addr))))
  (set_tlb_read_paddr_addend (aset (tlb_read_paddr_addend s) ix (u64 (paddr - addr))) s).

Definition fill_tlb_write (addr paddr ptr : Z) (s : RISCVCPUState) : RISCVCPUState :=
  let ix := tlb_index addr in
  set_tlb_write (aset (tlb_write s) ix (mkTLBEntry (addr .&~ PG_MASK) (u64 (ptr - addr))))
  (set_tlb_write_paddr_addend (aset (tlb_write_paddr_addend s) ix (u64 (paddr - addr))) s).

Definition fill_tlb_code (addr paddr ptr : Z) (s : RISCVCPUState) : RISCVCPUState :=
  let ix := tlb_index addr in
  set_tlb_code (aset (tlb_code s) ix (mkTLBEntry (addr .&~ PG_MASK) (u64 (ptr - addr))))
  (set_tlb_code_paddr_addend (aset (tlb_code_paddr_addend s) ix (u64 (paddr - addr))) s).

(** The device half of [riscv_cpu_read_memory]. *)
Definition device_read (pr : PhysMemoryRange) (paddr size_log2 : Z) : M Z :=
  let offset := paddr - pr_addr pr in
  if nz ((pr_devio_flags pr >> size_log2) .& 1) then dev_read_m (pr_opaque pr) offset size_log2
  else if (pr_devio_flags pr has DEVIO_SIZE32) && (size_log2 =? 3) then
    let! lo := dev_read_m (pr_opaque pr) offset 2 in
    let! hi := dev_read_m (pr_opaque pr) (offset + 4) 2 in
    ret (lo .| (hi << 32))
  else ret 0.

Definition device_write (pr : PhysMemoryRange) (paddr val size_log2 : Z) : M unit :=
  let offset := paddr - pr_addr pr in
  if nz ((pr_devio_flags pr >> size_log2) .& 1) then
    dev_write_m (pr_opaque pr) offset val size_log2
  else if (pr_devio_flags pr has DEVIO_SIZE32) && (size_log2 =? 3) then
    dev_write_m (pr_opaque pr) offset (val .& 0xffffffff) 2 ;;
    dev_write_m (pr_opaque pr) (offset + 4) ((val >> 32) .& 0xffffffff) 2
  else ret tt.

Definition riscv_cpu_read_memory (addr size_log2 : Z) : M Z :=
  let size := 1 << size_log2 in
  if nz (addr .& (size - 1)) then fault addr CAUSE_MISALIGNED_LOAD
  else
    let! r := riscv_cpu_get_phys_addr addr ACCESS_READ in
    match r with
    | inr err => fault addr (if err =? -1 then CAUSE_LOAD_PAGE_FAULT else CAUSE_FAULT_LOAD)
    | inl paddr =>
        let! st := gets id in
        match get_phys_mem_range_pmp st paddr size PMPCFG_R with
        | None => fault addr CAUSE_FAULT_LOAD
        | Some o =>
            let! v :=
              match o with
              | None => ret 0
              | Some k =>
                  let pr := the_range st k in
                  if pr_is_ram pr then
                    let ptr := range_ptr pr paddr in
                    modc (fill_tlb_read addr paddr ptr) ;;
                    hload (Z.to_nat size) ptr
                  else device_read pr paddr size_log2
              end in
            track_dread addr paddr v (size * 8) true
        end
    end.

(** [++s->machine->memseqno; ++s->load_res_memseqno;] *)
Definition bump_memseqno : M unit :=
  modm (fun m => set_memseqno (u64 (memseqno m + 1)) m) ;;
  modc (fun s => set_load_res_memseqno (u64 (load_res_memseqno s + 1)) s).

Definition riscv_cpu_write_memory (addr val size_log2 : Z) : M unit :=
  let size := 1 << size_log2 in
  if nz (addr .& (size - 1)) then fault addr CAUSE_MISALIGNED_STORE
  else
    let! r := riscv_cpu_get_phys_addr addr ACCESS_WRITE in
    match r with
    | inr err => fault addr (if err =? -1 then CAUSE_STORE_PAGE_FAULT else CAUSE_FAULT_STORE)
    | inl paddr =>
        let! st := gets id in
        match get_phys_mem_range_pmp st paddr size PMPCFG_W with
        | None => fault addr CAUSE_FAULT_STORE
        | Some o =>
            match o with
            | None => ret tt
            | Some k =>
                let pr := the_range st k in
                if pr_is_ram pr then
                  modm (fun m => set_mem_map
                    (aset (mem_map m) k (phys_mem_set_dirty_bit pr (paddr - pr_addr pr))) m) ;;
                  let ptr := range_ptr pr paddr in
                  modc (fill_tlb_write addr paddr ptr) ;;
                  hstore (Z.to_nat size) ptr val ;;
                  bump_memseqno
                else device_write pr paddr val size_log2
            end ;;
            track_write addr paddr val (size * 8) true
        end
    end.

(** ** Virtual accesses: [target_read_u##size] and [target_write_u##size] *)

(** [addr & ~(PG_MASK & ~((size / 8) - 1))] *)
Definition tlb_tag (n addr : Z) : Z := addr .&~ (PG_MASK .&~ (n - 1)).

Definition target_read (size_log2 addr : Z) : M Z :=
  let n := 1 << size_log2 in
  check_triggers_m MCONTROL_LOAD addr MmuException ;;
  if nz (addr .& (n - 1)) then fault addr CAUSE_MISALIGNED_LOAD
  else
    let! s := getc id in
    let ix := tlb_index addr in
    let e := tlb_get (tlb_read s) ix in
    if te_vaddr e =? tlb_tag n addr then
      let! data := hload (Z.to_nat n) (u64 (te_mem_addend e + addr)) in
      let paddr := u64 (aget 0 (tlb_read_paddr_addend s) ix + addr) in
      track_dread addr paddr data (n * 8) true
    else
      let! v := riscv_cpu_read_memory addr size_log2 in
      ret (uN (8 * n) v).

Definition target_write (size_log2 addr v : Z) : M unit :=
  let n := 1 << size_log2 in
  let val := uN (8 * n) v in
  check_triggers_m MCONTROL_STORE addr MmuException ;;
  if nz (addr .& (n - 1)) then fault addr CAUSE_MISALIGNED_STORE
  else
    let! s := getc id in
    let ix := tlb_index addr in
    let e := tlb_get (tlb_write s) ix in
    if te_vaddr e =? tlb_tag n addr then
      hstore (Z.to_nat n) (u64 (te_mem_addend e + addr)) val ;;
      bump_memseqno ;;
      track_write addr (u64 (aget 0 (tlb_write_paddr_addend s) ix + addr)) val (n * 8) true
    else riscv_cpu_write_memory addr val size_log2.

(** ** Instruction fetch *)

(** [get_insn32]: an unaligned 32-bit host load. *)
Definition get_insn32 (ptr : Z) : M Z := hload 4 ptr.

(** A range code may be fetched from: present, permitted and RAM. *)
Definition exec_range (st : St) (paddr size : Z) : option PhysMemoryRange :=
  match get_phys_mem_range_pmp st paddr size PMPCFG_X with
  | Some (Some k) => if pr_is_ram (the_range st k) then Some (the_range st k) else None
  | _ => None
  end.

Definition fetch_cause (err : Z) : Z :=
  if err =? -1 then CAUSE_FETCH_PAGE_FAULT else CAUSE_FAULT_FETCH.

Definition target_read_insn_slow (size addr : Z) : M Z :=
  let! r := riscv_cpu_get_phys_addr addr ACCESS_CODE in
  match r with
  | inr err => fault addr (fetch_cause err)
  | inl paddr =>
      let! st := gets id in
      match exec_range st paddr (size / 8) with
      | None => fault addr CAUSE_FAULT_FETCH
      | Some pr =>
          let tlb_idx := tlb_index addr in
          let ptr := range_ptr pr paddr in
          when (riscv_cpu_pmp_access_ok (cpu st) (paddr .&~ PG_MASK) (PG_MASK + 1) PMPCFG_X)
            (modc (fill_tlb_code addr paddr ptr)) ;;
          let tlb_idx_cross := tlb_index (u64 (addr + 2)) in
          if negb (tlb_idx =? tlb_idx_cross) && (size =? 32) then
            let! r2 := riscv_cpu_get_phys_addr (u64 (addr + 2)) ACCESS_CODE in
            match r2 with
            | inr err => fault addr (fetch_cause err)
            | inl paddr_cross =>
                let! st2 := gets id in
                match exec_range st2 paddr_cross 2 with
                | None => fault addr CAUSE_FAULT_FETCH
                | Some pr_cross =>
                    let! d1 := hload 2 ptr in
                    let! d2 := hload 2 (range_ptr pr_cross paddr_cross) in
                    let! data1 := track_iread d1 16 in
                    let! data2 := track_iread d2 16 in
                    ret (data1 .| u32 (data2 << 16))
                end
            end
          else
            guard ((size =? 32) || (size =? 16)) AssertFail ;;
            let! insn := hload (if size =? 32 then 4%nat else 2%nat) ptr in
            track_iread insn size
      end
  end.

Definition target_read_insn_u16 (addr : Z) : M Z :=
  let! s := getc id in
  let ix := tlb_index addr in
  let e := tlb_get (tlb_code s) ix in
  if te_vaddr e =? (addr .&~ PG_MASK) then
    let! data := hload 2 (u64 (te_mem_addend e + addr)) in
    track_iread data 16
  else
    let! v := target_read_insn_slow 16 addr in
    ret (u16 v).

(** [riscv_read_insn]: a fetch that leaves the pending exception alone. *)
Definition riscv_read_insn (addr : Z) : M Z := fun st =>
  let saved_pending_exception := pending_exception (cpu st) in
  let saved_pending_tval := pending_tval (cpu st) in
  let '(st', r) := target_read_insn_slow 32 addr st in
  (with_cpu (set_pending_tval saved_pending_tval
     (set_pending_exception saved_pending_exception (cpu st'))) st', r).

End WithBus.
