(* ===== verification/Csr.v ===== *)
(** * Control and status registers

    [get_mstatus], [set_mstatus], [counter_access_ok], [csr_read], [set_frm],
    [get_insn_rm] and [csr_write] of [src/riscv_cpu.cpp].  The two [switch]es
    over the CSR number are split into groups of cases; a group answers [None]
    when the number is none of its cases.  Messages on [stderr] are left
    out. *)

From S2P Require Import Prelude RiscvDefs State Tlb Pmp.
Open Scope Z_scope.
Open Scope c_scope.
Open Scope m_scope.

(** The [RISCVMachineHooks] of [include/riscv_machine.h].  A read hook that
    answers [None], and a write hook that answers [false], returned non-zero:
    the access goes on to the built-in registers. *)
Class CsrHooks := {
  hook_csr_read : option (forall (funct3 csr : Z),
    RISCVCPUState * RISCVMachine -> (RISCVCPUState * RISCVMachine) * option Z);
  hook_csr_write : option (forall (funct3 csr val : Z),
    RISCVCPUState * RISCVMachine -> (RISCVCPUState * RISCVMachine) * bool)
}.

(** No hook installed, as [virt_machine_init] leaves them. *)
Definition no_hooks : CsrHooks := {| hook_csr_read := None; hook_csr_write := None |}.

(** ** mstatus *)

Definition get_mstatus (s : RISCVCPUState) (mask : Z) : Z :=
  let val := mstatus s .| (fs s << MSTATUS_FS_SHIFT) .| (vs s << MSTATUS_VS_SHIFT) in
  let val := val .& mask in
  let sd := ((val .& MSTATUS_VS) =? MSTATUS_VS)
            || ((val .& MSTATUS_FS) =? MSTATUS_FS)
            || ((val .& MSTATUS_XS) =? MSTATUS_XS) in
  if sd then val .| (1 << 63) else val.

(** The bits of the [mstatus] field that [set_mstatus] replaces. *)
Definition set_mstatus_mask : Z :=
  MSTATUS_MASK .&~ (MSTATUS_FS .| MSTATUS_VS .| MSTATUS_UXL_MASK .| MSTATUS_SXL_MASK).

(** The changes of [mstatus] that flush the TLBs. *)
Definition mstatus_flushes (s : RISCVCPUState) (val : Z) : bool :=
  let modified := mstatus s .^ val in
  (modified has (MSTATUS_MPRV .| MSTATUS_SUM .| MSTATUS_MXR))
  || (mstatus s has MSTATUS_MPRV) && (modified has MSTATUS_MPP).

Definition set_mstatus (s : RISCVCPUState) (val : Z) : RISCVCPUState :=
  let s := if mstatus_flushes s val then tlb_flush_all s else s in
  let s := set_fs ((val >> MSTATUS_FS_SHIFT) .& 3) s in
  let s := set_vs ((val >> MSTATUS_VS_SHIFT) .& 3) s in
  let mask := set_mstatus_mask in
  put_mstatus (mstatus s .&~ mask .| val .& mask) s.

Definition counter_access_ok (s : RISCVCPUState) (csr : Z) : bool :=
  let counteren :=
    if priv s =? PRV_U then scounteren s
    else if priv s =? PRV_S then mcounteren s
    else if priv s =? PRV_M then 0xffffffff
    else 0 in
  nz ((counteren >> (csr .& 31)) .& 1).

(** ** csr_read *)

(** [if (!ok) return -1; val = v; break;] *)
Definition val_if (ok : bool) (v : Z) : option (option Z) := Some (if ok then Some v else None).

(** Floating-point and vector CSRs. *)
Definition csr_read_fp_vec (s : RISCVCPUState) (csr : Z) : option (option Z) :=
  if csr =? 0x001 then val_if (nz (fs s)) (fflags s)
  else if csr =? 0x002 then val_if (nz (fs s)) (frm s)
  else if csr =? 0x003 then val_if (nz (fs s)) (fflags s .| (frm s << 5))
  else if csr =? 0x008 then val_if (nz (vs s)) (vstart s)
  else if csr =? 0x009 then val_if (nz (vs s)) (vxsat s)
  else if csr =? 0x00A then val_if (nz (vs s)) (vxrm s)
  else if csr =? 0x00F then val_if (nz (vs s)) (vxsat s .| (vxrm s << 1))
  else if csr =? 0xc20 then val_if (nz (vs s)) (vl s)
  else if csr =? 0xc21 then val_if (nz (vs s)) (vtype s)
  else if csr =? 0xc22 then val_if (nz (vs s)) (VLEN / 8)
  else None.

(** Supervisor CSRs. *)
Definition csr_read_s (s : RISCVCPUState) (csr : Z) : option (option Z) :=
  if csr =? 0x100 then Some (Some (get_mstatus s SSTATUS_MASK))
  else if csr =? 0x104 then Some (Some (mie s .& mideleg s))
  else if csr =? 0x105 then Some (Some (stvec s))
  else if csr =? 0x106 then Some (Some (scounteren s))
  else if csr =? 0x140 then Some (Some (sscratch s))
  else if csr =? 0x141 then Some (Some (sepc s))
  else if csr =? 0x142 then Some (Some (scause s))
  else if csr =? 0x143 then Some (Some (stval s))
  else if csr =? 0x144 then Some (Some (mip s .& mideleg s))
  else if csr =? 0x180 then
    val_if (negb ((priv s =? PRV_S) && (mstatus s has MSTATUS_TVM))) (satp s)
  else None.

(** Machine CSRs. *)
Definition csr_read_m (s : RISCVCPUState) (csr : Z) : option (option Z) :=
  if csr =? 0x300 then Some (Some (get_mstatus s (u64 (-1))))
  else if csr =? 0x301 then Some (Some (misa s .| u64 (2 << 62)))
  else if csr =? 0x302 then Some (Some (medeleg s))
  else if csr =? 0x303 then Some (Some (mideleg s))
  else if csr =? 0x304 then Some (Some (mie s))
  else if csr =? 0x305 then Some (Some (mtvec s))
  else if csr =? 0x306 then Some (Some (mcounteren s))
  else if csr =? 0x320 then Some (Some (mcountinhibit s))
  else if csr =? 0x340 then Some (Some (mscratch s))
  else if csr =? 0x341 then Some (Some (mepc s))
  else if csr =? 0x342 then Some (Some (mcause s))
  else if csr =? 0x343 then Some (Some (mtval s))
  else if csr =? 0x344 then Some (Some (mip s))
  else if csr =? 0xf14 then Some (Some (mhartid s))
  else if csr =? 0xf13 then Some (Some (mimpid s))
  else if csr =? 0xf12 then Some (Some (marchid s))
  else if csr =? 0xf11 then Some (Some (mvendorid s))
  else if (0x323 <=? csr) && (csr <=? 0x33f) then Some (Some (aget 0 (mhpmevent s) (csr .& 0x1F)))
  else None.

(** Trigger and debug CSRs. *)
Definition csr_read_debug (s : RISCVCPUState) (csr : Z) : option (option Z) :=
  if csr =? 0x744 then Some (Some (unimpl_mcontext s))
  else if csr =? 0x7a0 then Some (Some (tselect s))
  else if csr =? 0x7a1 then Some (Some (aget 0 (tdata1 s) (tselect s)))
  else if csr =? 0x7a2 then Some (Some (aget 0 (tdata2 s) (tselect s)))
  else if csr =? 0x7b0 then val_if (debug_mode s) (dcsr s)
  else if csr =? 0x7b1 then val_if (debug_mode s) (dpc s)
  else if csr =? 0x7b2 then val_if (debug_mode s) (dscratch s)
  else None.

(** Counters: [mcycle]/[cycle], [minstret]/[instret] and the [hpmcounter]s. *)
Definition csr_read_counters (s : RISCVCPUState) (csr : Z) : option (option Z) :=
  if (csr =? 0xb00) || (csr =? 0xc00) then val_if (counter_access_ok s csr) (mcycle s)
  else if (csr =? 0xb02) || (csr =? 0xc02) then val_if (counter_access_ok s csr) (minstret s)
  else if ((0xb03 <=? csr) && (csr <=? 0xb1f)) || ((0xc03 <=? csr) && (csr <=? 0xc1f))
  then val_if (counter_access_ok s csr) 0
  else None.

(** PMP CSRs and the simulation point CSR. *)
Definition csr_read_pmp (s : RISCVCPUState) (csr : Z) : option (option Z) :=
  if (csr =? CSR_PMPCFG 0) || (csr =? CSR_PMPCFG 2)
  then Some (Some (aget 0 (csr_pmpcfg s) (csr - CSR_PMPCFG 0)))
  else if (CSR_PMPADDR 0 <=? csr) && (csr <=? CSR_PMPADDR 15)
  then Some (Some (aget 0 (csr_pmpaddr s) (csr - CSR_PMPADDR 0)))
  else if csr =? 0x8C2 then Some (Some 0)
  else None.

(** Try the groups of cases in turn; [None] is [return -1]. *)
Definition or_else {A} (o : option A) (k : option A) : option A :=
  match o with Some a => Some a | None => k end.

Definition csr_read_switch (s : RISCVCPUState) (csr : Z) : option Z :=
  match
    or_else (csr_read_fp_vec s csr)
    (or_else (csr_read_s s csr)
    (or_else (csr_read_m s csr)
    (or_else (csr_read_debug s csr)
    (or_else (csr_read_counters s csr)
             (csr_read_pmp s csr)))))
  with
  | Some r => r
  | None => None
  end.

Section WithHooks.
Context `{CsrHooks}.

(** [csr_read]: [Some val] when it returns [0], [None] when it returns [-1]. *)
Definition csr_read (funct3 csr : Z) (will_write : bool) : M (option Z) := fun st =>
  if ((csr .& 0xc00) =? 0xc00) && will_write then (st, inl None)
  else if priv (cpu st) <? ((csr >> 8) .& 3) then (st, inl None)
  else
    match hook_csr_read with
    | Some h =>
        match h funct3 csr (cpu st, mach st) with
        | (c, m, Some v) => (mkSt c m (lc st), inl (Some v))
        | (c, m, None) => (mkSt c m (lc st), inl (csr_read_switch c csr))
        end
    | None => (st, inl (csr_read_switch (cpu st) csr))
    end.

End WithHooks.

(** ** Rounding mode *)

Definition set_frm (s : RISCVCPUState) (val : Z) : RISCVCPUState := put_frm (u8 val) s.

(** [None] is [return -1]. *)
Definition get_insn_rm (s : RISCVCPUState) (rm : Z) : option Z :=
  let rm := if rm =? 7 then frm s else rm in
  if 5 <=? rm then None else Some rm.

(** ** csr_write

    The result pairs the return code with the new state. *)

(** [old & ~mask | val & mask] *)
Definition masked (old val mask : Z) : Z := old .&~ mask .| val .& mask.

(** [val & (s->misa & MCPUID_C ? ~1 : ~3)] *)
Definition epc_align (s : RISCVCPUState) (val : Z) : Z :=
  val .&~ (if misa s has MCPUID_C then 1 else 3).

(** [if (val & 1) val &= ~255 + 1;] *)
Definition tvec_align (val : Z) : Z := if val has 1 then val .& u64 (-255) else val.

Definition ok_with (s : RISCVCPUState) : option (Z * RISCVCPUState) := Some (0, s).

Definition csr_write_fp_vec (s : RISCVCPUState) (csr val : Z) : option (Z * RISCVCPUState) :=
  if csr =? 0x001 then ok_with (set_fs 3 (set_fflags (val .& 0x1f) s))
  else if csr =? 0x002 then ok_with (set_fs 3 (set_frm s (val .& 7)))
  else if csr =? 0x003 then
    ok_with (set_fs 3 (set_fflags (val .& 0x1f) (set_frm s ((val >> 5) .& 7))))
  else if csr =? 0x008 then
    if vs s =? 0 then Some (-1, s) else ok_with (set_vs 3 (set_vstart (val .& VSTART_MASK) s))
  else if csr =? 0x009 then
    if vs s =? 0 then Some (-1, s) else ok_with (set_vs 3 (set_vxsat (val .& VXSAT_MASK) s))
  else if csr =? 0x00A then
    if vs s =? 0 then Some (-1, s) else ok_with (set_vs 3 (set_vxrm (val .& VXRM_MASK) s))
  else if csr =? 0x00F then
    if vs s =? 0 then Some (-1, s)
    else
      let val := val .& VCSR_MASK in
      ok_with (set_vs 3 (set_vxrm ((val .& VCSR_VXRM) >> 1) (set_vxsat (val .& VCSR_VXSAT) s)))
  else None.

Definition csr_write_s (s : RISCVCPUState) (csr val : Z) : option (Z * RISCVCPUState) :=
  if csr =? 0x100 then ok_with (set_mstatus s (masked (mstatus s) val SSTATUS_MASK))
  else if csr =? 0x104 then ok_with (set_mie (u32 (masked (mie s) val (mideleg s))) s)
  else if csr =? 0x105 then ok_with (set_stvec (tvec_align val .&~ 2) s)
  else if csr =? 0x106 then ok_with (set_scounteren (u32 val) s)
  else if csr =? 0x140 then ok_with (set_sscratch val s)
  else if csr =? 0x141 then ok_with (set_sepc (CANONICAL_S49 (epc_align s val)) s)
  else if csr =? 0x142 then ok_with (set_scause (val .& SCAUSE_MASK) s)
  else if csr =? 0x143 then ok_with (set_stval (CANONICAL_S49 val) s)
  else if csr =? 0x144 then ok_with (set_mip (u32 (masked (mip s) val (mideleg s))) s)
  else if csr =? 0x180 then
    if (priv s =? PRV_S) && (mstatus s has MSTATUS_TVM) then Some (-1, s)
    else
      let mode := (val >> 60) .& 15 in
      let s := if (mode =? 0) || (mode =? 8) || (mode =? 9)
               then set_satp (val .& SATP_MASK) s else s in
      Some (2, tlb_flush_all s)
  else None.

Definition MIDELEG_WMASK := MIP_SSIP .| MIP_STIP .| MIP_SEIP.
Definition MIE_WMASK :=
  MIE_MCIP .| MIE_MEIE .| MIE_SEIE .| MIE_MTIE .| MIE_STIE .| MIE_MSIE .| MIE_SSIE.
Definition MIP_WMASK := MIP_SEIP .| MIP_STIP .| MIP_SSIP.

Definition csr_write_m (s : RISCVCPUState) (csr val : Z) : option (Z * RISCVCPUState) :=
  if csr =? 0x300 then ok_with (set_mstatus s val)
  else if csr =? 0x301 then ok_with s
  else if csr =? 0x302 then ok_with (set_medeleg (u32 (masked (medeleg s) val 0xB109)) s)
  else if csr =? 0x303 then ok_with (set_mideleg (u32 (masked (mideleg s) val MIDELEG_WMASK)) s)
  else if csr =? 0x304 then ok_with (set_mie (u32 (masked (mie s) val MIE_WMASK)) s)
  else if csr =? 0x305 then
    ok_with (set_mtvec (tvec_align val .& u64 ((1 << physical_addr_len s) - 3)) s)
  else if csr =? 0x306 then ok_with (set_mcounteren (u32 val) s)
  else if csr =? 0x320 then ok_with (set_mcountinhibit (u32 (val .&~ 2)) s)
  else if csr =? 0x340 then ok_with (set_mscratch val s)
  else if csr =? 0x341 then ok_with (set_mepc (CANONICAL_S49 (epc_align s val)) s)
  else if csr =? 0x342 then ok_with (set_mcause (val .& MCAUSE_MASK) s)
  else if csr =? 0x343 then ok_with (set_mtval (CANONICAL_S49 val) s)
  else if csr =? 0x344 then ok_with (set_mip (u32 (masked (mip s) val MIP_WMASK)) s)
  else if (0x323 <=? csr) && (csr <=? 0x33f) then
    ok_with (set_mhpmevent (aset (mhpmevent s) (csr .& 0x1F)
               (val .& (HPM_EVENT_SETMASK .| HPM_EVENT_EVENTMASK))) s)
  else None.

Definition csr_write_debug (s : RISCVCPUState) (csr val : Z) : option (Z * RISCVCPUState) :=
  let t1 := aget 0 (tdata1 s) (tselect s) in
  let writable := negb (t1 has MCONTROL_DMODE) || debug_mode s in
  if csr =? 0x744 then ok_with s
  else if csr =? 0x7a0 then ok_with (set_tselect (val mod MAX_TRIGGERS) s)
  else if csr =? 0x7a1 then
    if writable then
      let mask := 0x20800000000011df + (if debug_mode s then 0x800000000000000 else 0) in
      let val := val .| 0x2080000000000000 in
      ok_with (set_tdata1 (aset (tdata1 s) (tselect s) (masked t1 val mask)) s)
    else ok_with s
  else if csr =? 0x7a2 then
    if writable then ok_with (set_tdata2 (aset (tdata2 s) (tselect s) val) s) else ok_with s
  else if csr =? 0x7b0 then
    if debug_mode s then
      let s := set_dcsr (masked (dcsr s) val 0x603) s in
      (* s->dcsr & 0x600 != 0 parses as s->dcsr & (0x600 != 0) *)
      ok_with (set_stop_the_counter (nz (dcsr s .& Z.b2z (nz 0x600))) s)
    else Some (-1, s)
  else if csr =? 0x7b1 then
    if debug_mode s then ok_with (set_dpc (epc_align s val) s) else Some (-1, s)
  else if csr =? 0x7b2 then
    if debug_mode s then ok_with (set_dscratch val s) else Some (-1, s)
  else None.

(** The new value of byte [k] of a [pmpcfg] register: a locked byte is kept. *)
Definition pmpcfg_byte (orig val k : Z) : Z :=
  let cfg := (orig >> (k * 8)) .& 255 in
  let cfg := if (cfg .& PMPCFG_L) =? 0 then (val >> (k * 8)) .& 255 else cfg in
  cfg .&~ PMPCFG_RES.

Definition pmpcfg_merge (orig val : Z) : Z :=
  for_up (fun k new_val => new_val .| (pmpcfg_byte orig val k << (k * 8))) 8 0 0.

Definition csr_write_pmp (s : RISCVCPUState) (csr val : Z) : option (Z * RISCVCPUState) :=
  if (csr =? CSR_PMPCFG 0) || (csr =? CSR_PMPCFG 2) then
    let c := csr - CSR_PMPCFG 0 in
    if PMP_N <=? c / 2 * 8 then ok_with s
    else
      let new_val := pmpcfg_merge (aget 0 (csr_pmpcfg s) c) val in
      ok_with (unpack_pmpaddrs (set_csr_pmpcfg (aset (csr_pmpcfg s) c new_val) s))
  else if (CSR_PMPADDR 0 <=? csr) && (csr <=? CSR_PMPADDR 15) then
    let n := csr - CSR_PMPADDR 0 in
    if PMP_N <=? n then ok_with s
    else
      let cfg := aget 0 (csr_pmpcfg s) (n / 8) >> (n * 8) in
      if cfg has PMPCFG_L then ok_with s
      else
        let cfg := cfg >> 8 in
        if ((cfg .& PMPCFG_A_MASK) =? PMPCFG_A_TOR) && (cfg has PMPCFG_L) then ok_with s
        else
          ok_with (unpack_pmpaddrs
            (set_csr_pmpaddr (aset (csr_pmpaddr s) n (val .& PMPADDR_MASK)) s))
  else None.

Definition csr_write_counters (s : RISCVCPUState) (csr val : Z) : option (Z * RISCVCPUState) :=
  if csr =? 0xb00 then ok_with (set_mcycle val s)
  else if csr =? 0xb02 then ok_with (set_minstret val s)
  else if (0xb03 <=? csr) && (csr <=? 0xb1f) then ok_with s
  else None.

(** The simulation point CSR, [0x8C2]. *)
Definition csr_write_simpoint (st : St) (val : Z) : St :=
  if (val .& 3) =? 3 then with_mach (set_maxinsns (val >> 2) (mach st)) st
  else if (val .& 3) =? 2 then
    with_cpu (set_terminate_simulation true (set_benchmark_exit_code (val >> 2) (cpu st))) st
  else if (val has 1) && simpoint_roi (mach st) then st
  else if ((val .& 1) =? 0) && simpoint_roi (mach st) then
    with_mach (set_simpoint_roi false (mach st)) st
  else if ((val .& 1) =? 0) && negb (simpoint_roi (mach st)) then st
  else if simpoint_en_bbv (mach st) then with_mach (set_simpoint_roi true (mach st)) st
  else st.

Definition csr_write_switch (s : RISCVCPUState) (csr val : Z) : option (Z * RISCVCPUState) :=
  or_else (csr_write_fp_vec s csr val)
  (or_else (csr_write_s s csr val)
  (or_else (csr_write_m s csr val)
  (or_else (csr_write_debug s csr val)
  (or_else (csr_write_pmp s csr val)
           (csr_write_counters s csr val))))).

(** The [switch] of [csr_write]. *)
Definition csr_write_st (csr val : Z) (st : St) : St * Z :=
  match csr_write_switch (cpu st) csr val with
  | Some (code, s) => (with_cpu s st, code)
  | None => if csr =? 0x8C2 then (csr_write_simpoint st val, 0) else (st, -1)
  end.

Section WithHooks.
Context `{CsrHooks}.

Definition csr_write (funct3 csr val : Z) : M Z := fun st =>
  match hook_csr_write with
  | Some h =>
      match h funct3 csr val (cpu st, mach st) with
      | (c, m, true) => (mkSt c m (lc st), inl 0)
      | (c, m, false) =>
          let '(st', code) := csr_write_st csr val (mkSt c m (lc st)) in (st', inl code)
      end
  | None => let '(st', code) := csr_write_st csr val st in (st', inl code)
  end.

End WithHooks.

(** ** Properties of the PMP CSRs *)

Lemma some_pair_inv {A B} (a a' : A) (b b' : B) : Some (a, b) = Some (a', b') -> a' = a /\ b' = b.
Proof. intros H; injection H; auto. Qed.

(** Case on the CSR number of a group of cases and keep the outcome. *)
Ltac csr_cases H :=
  repeat match type of H with
  | (if ?b then _ else _) = Some _ => destruct b eqn:?
  | ok_with _ = Some _ => apply some_pair_inv in H as [-> ->]
  | Some _ = Some _ => apply some_pair_inv in H as [-> ->]
  | None = Some _ => discriminate H
  end.

Lemma set_mstatus_pmps s val : pmps (set_mstatus s val) = pmps s.
Proof. unfold set_mstatus. destruct (mstatus_flushes s val); reflexivity. Qed.

(** Only the PMP group writes the PMP registers. *)
Lemma csr_write_pmps s csr val code s' :
  csr_write_switch s csr val = Some (code, s') ->
  pmps s' = pmps s \/ csr_write_pmp s csr val = Some (code, s').
Proof.
  unfold csr_write_switch, or_else. intros H.
  destruct (csr_write_fp_vec s csr val) as [[c1 s1]|] eqn:E1.
  { apply some_pair_inv in H as [-> ->]. unfold csr_write_fp_vec in E1. csr_cases E1; left; reflexivity. }
  destruct (csr_write_s s csr val) as [[c1 s1]|] eqn:E2.
  { apply some_pair_inv in H as [-> ->]. unfold csr_write_s in E2.
    cbv zeta in E2; csr_cases E2; left; first [apply set_mstatus_pmps | repeat case_goal; reflexivity]. }
  destruct (csr_write_m s csr val) as [[c1 s1]|] eqn:E3.
  { apply some_pair_inv in H as [-> ->]. unfold csr_write_m in E3.
    csr_cases E3; left; first [apply set_mstatus_pmps | reflexivity]. }
  destruct (csr_write_debug s csr val) as [[c1 s1]|] eqn:E4.
  { apply some_pair_inv in H as [-> ->]. unfold csr_write_debug in E4. cbv zeta in E4.
    csr_cases E4; left; reflexivity. }
  destruct (csr_write_pmp s csr val) as [[c1 s1]|] eqn:E5; [right; exact H|].
  unfold csr_write_counters in H. csr_cases H; left; reflexivity.
Qed.

(** Bytes put together by shifting and or-ing. *)
Lemma concat_bytes_bit (f : Z -> Z) n p :
  (forall k, 0 <= k -> in_u 8 (f k)) -> 0 <= p ->
  Z.testbit (for_up (fun k acc => acc .| (f k << (k * 8))) n 0 0) p =
  (p <? 8 * Z.of_nat n) && Z.testbit (f (p / 8)) (p mod 8).
Proof.
  intros Hf Hp.
  pose proof (for_up_ind
    (fun m acc => Z.testbit acc p = (p <? 8 * m) && Z.testbit (f (p / 8)) (p mod 8))
    (fun k acc => acc .| (f k << (k * 8))) n 0 0) as H.
  cbv beta in H. rewrite Z.add_0_l in H. apply H; clear H.
  - rewrite Z.bits_0. destruct (Z.ltb_spec p (8 * 0)); [lia|reflexivity].
  - intros k acc Hk IH. rewrite Z.lor_spec, IH.
    pose proof (Z.div_mod p 8 ltac:(lia)). pose proof (Z.mod_pos_bound p 8 ltac:(lia)).
    destruct (Z.ltb_spec p (8 * k)).
    + rewrite Z.shiftl_spec_low by lia. rewrite orb_false_r.
      destruct (Z.ltb_spec p (8 * (k + 1))); [reflexivity|lia].
    + cbn [andb orb]. rewrite Z.shiftl_spec by lia.
      destruct (Z.ltb_spec p (8 * (k + 1))).
      * assert (p / 8 = k) as -> by (symmetry; apply (Z.div_unique p 8 k (p - 8 * k)); lia).
        replace (p mod 8) with (p - k * 8); [reflexivity|].
        apply (Z.mod_unique p 8 k (p - k * 8)); lia.
      * destruct (proj1 (in_u_testbit 8 (f k) ltac:(lia)) (Hf k ltac:(lia))) as [_ Hb].
        rewrite Hb by lia. reflexivity.
Qed.

Lemma pmpcfg_byte_range orig val k : in_u 8 (pmpcfg_byte orig val k).
Proof.
  unfold pmpcfg_byte. apply in_u_ldiff. destruct (_ =? 0);
    change 255 with (Z.ones 8); rewrite Z.land_ones by lia; apply u_range; lia.
Qed.

(** Byte [k] of the merged register. *)
Lemma pmpcfg_merge_byte orig val k : 0 <= k < 8 ->
  u8 (pmpcfg_merge orig val >> (k * 8)) = pmpcfg_byte orig val k.
Proof.
  intros Hk. apply Z.bits_inj'; intros n Hn. rewrite u_testbit, Z.shiftr_spec by lia.
  unfold pmpcfg_merge. rewrite concat_bytes_bit by (intros; apply pmpcfg_byte_range || lia).
  destruct (Z.ltb_spec n 8).
  - replace ((n + k * 8) / 8) with k by (apply (Z.div_unique (n + k * 8) 8 k n); lia).
    replace ((n + k * 8) mod 8) with n by (apply (Z.mod_unique (n + k * 8) 8 k n); lia).
    destruct (Z.ltb_spec (n + k * 8) (8 * Z.of_nat 8)); [reflexivity|lia].
  - destruct (proj1 (in_u_testbit 8 _ ltac:(lia)) (pmpcfg_byte_range orig val k)) as [_ Hb].
    rewrite Hb by lia. reflexivity.
Qed.

(** A locked byte without reserved bits is kept. *)
Lemma pmpcfg_byte_locked orig val k :
  u8 (orig >> (k * 8)) has PMPCFG_L = true -> u8 (orig >> (k * 8)) .& PMPCFG_RES = 0 ->
  pmpcfg_byte orig val k = u8 (orig >> (k * 8)).
Proof.
  unfold pmpcfg_byte, uN. intros HL HR.
  change 255 with (Z.ones 8). rewrite !Z.land_ones by lia.
  unfold nz in HL. destruct (_ =? 0); [discriminate|].
  apply Z.bits_inj'; intros n Hn. rewrite Z.ldiff_spec.
  apply (f_equal (fun z => Z.testbit z n)) in HR. rewrite Z.land_spec, Z.bits_0 in HR.
  destruct (Z.testbit (_ mod _) n), (Z.testbit PMPCFG_RES n); try reflexivity; discriminate.
Qed.

(** [has] of a byte is [has] of the word it comes from, for a mask below 256. *)
Lemma u8_land x m : in_u 8 m -> u8 x .& m = x .& m.
Proof.
  intros Hm. apply Z.bits_inj'; intros n Hn. rewrite !Z.land_spec, u_testbit by lia.
  destruct (Z.ltb_spec n 8); [reflexivity|].
  destruct (proj1 (in_u_testbit 8 m ltac:(lia)) Hm) as [_ Hb]. rewrite Hb by lia.
  rewrite !andb_false_r. reflexivity.
Qed.

Lemma tlb_flush_pmps s : pmps (tlb_flush_all s) = pmps s.
Proof. reflexivity. Qed.

(** Unpacking leaves the CSRs it reads alone. *)
Lemma unpack_pmpaddrs_csrs (t : RISCVCPUState) :
  csr_pmpcfg (unpack_pmpaddrs t) = csr_pmpcfg t /\ csr_pmpaddr (unpack_pmpaddrs t) = csr_pmpaddr t.
Proof.
  unfold unpack_pmpaddrs. rewrite (tlb_flush_pmps (for_up unpack_one 16 0 (set_pmp_n 0 t))).
  refine (for_up_ind (fun _ (u : RISCVCPUState) =>
    csr_pmpcfg u = csr_pmpcfg t /\ csr_pmpaddr u = csr_pmpaddr t)
    unpack_one 16 0 (set_pmp_n 0 t) (conj eq_refl eq_refl) _).
  intros j v _ [H1 H2].
  destruct (unpack_one_frame j v) as (F1 & F2 & _). rewrite F1, F2. split; assumption.
Qed.

(** A [pmpaddr] write reaches register [n] only when neither entry [n] nor a
    TOR entry [n + 1] is locked. *)
Lemma csr_write_pmp_cases s csr val code s' :
  csr_write_pmp s csr val = Some (code, s') ->
  (csr_pmpcfg s' = csr_pmpcfg s /\ csr_pmpaddr s' = csr_pmpaddr s) \/
  (csr_pmpaddr s' = csr_pmpaddr s /\
   csr_pmpcfg s' = aset (csr_pmpcfg s) 0 (pmpcfg_merge (aget 0 (csr_pmpcfg s) 0) val)) \/
  (exists n, 0 <= n < 8 /\ csr = CSR_PMPADDR n /\ csr_pmpcfg s' = csr_pmpcfg s /\
     csr_pmpaddr s' = aset (csr_pmpaddr s) n (val .& PMPADDR_MASK) /\
     (aget 0 (csr_pmpcfg s) 0 >> (n * 8)) has PMPCFG_L = false /\
     let next := (aget 0 (csr_pmpcfg s) 0 >> (n * 8)) >> 8 in
     ((next .& PMPCFG_A_MASK) =? PMPCFG_A_TOR) && (next has PMPCFG_L) = false).
Proof.
  pose proof unpack_pmpaddrs_csrs as Hu.
  unfold csr_write_pmp. cbv zeta. intros H. csr_cases H; try (left; split; reflexivity).
  - right; left. destruct (Hu (set_csr_pmpcfg (aset (csr_pmpcfg s) (csr - CSR_PMPCFG 0)
      (pmpcfg_merge (aget 0 (csr_pmpcfg s) (csr - CSR_PMPCFG 0)) val)) s)) as [-> ->].
    assert (csr - CSR_PMPCFG 0 = 0) as ->.
    { unfold CSR_PMPCFG, PMP_N in *. apply orb_true_iff in Heqb as [Hc|Hc]; bool_hyps; subst; [reflexivity|].
      vm_compute in Heqb0. discriminate. }
    split; reflexivity.
  - right; right. exists (csr - CSR_PMPADDR 0). unfold CSR_PMPADDR, PMP_N in *. bool_hyps.
    destruct (Hu (set_csr_pmpaddr (aset (csr_pmpaddr s) (csr - (944 + 0)) (val .& PMPADDR_MASK)) s))
      as [-> ->].
    rewrite Z.div_small in * by lia.
    repeat split; try lia; assumption.
Qed.

Lemma pmp_cfg_low s k : k < 8 -> pmp_cfg s k = u8 (aget 0 (csr_pmpcfg s) 0 >> (k * 8)).
Proof. intros. unfold pmp_cfg. destruct (Z.ltb_spec k 8); [reflexivity|lia]. Qed.

(** C17. A locked PMP entry is immutable: no CSR write, whatever its number and
    value, changes the configuration or the address range of a locked entry;
    for a top-of-range entry that includes the address register below it. *)
Theorem locked_pmp_entry_immutable (s : RISCVCPUState) (csr val code : Z) (s' : RISCVCPUState) (k : Z) :
  length (csr_pmpcfg s) = 4%nat -> 0 <= k < 8 ->
  pmp_cfg s k has PMPCFG_L = true -> pmp_cfg s k .& PMPCFG_RES = 0 ->
  csr_write_switch s csr val = Some (code, s') ->
  pmp_cfg s' k = pmp_cfg s k /\ pmp_region s' k = pmp_region s k.
Proof.
  intros Hlen Hk HL HR H. apply csr_write_pmps in H as [H|H].
  { unfold pmp_region, pmp_cfg. rewrite H. split; reflexivity. }
  apply csr_write_pmp_cases in H as [[H1 H2]|[[H2 H1]|(n & Hn & -> & H1 & H2 & HnL & Hnext)]].
  - unfold pmp_region, pmp_cfg. rewrite H1, H2. split; reflexivity.
  - assert (Hc : pmp_cfg s' k = pmp_cfg s k).
    { rewrite !pmp_cfg_low in * by lia. rewrite H1, aget_aset_eq by lia.
      rewrite pmpcfg_merge_byte by lia. apply pmpcfg_byte_locked; assumption. }
    split; [exact Hc|]. unfold pmp_region. rewrite Hc, H2. reflexivity.
  - assert (Hc : pmp_cfg s' k = pmp_cfg s k) by (unfold pmp_cfg; rewrite H1; reflexivity).
    split; [exact Hc|]. rewrite pmp_cfg_low in HL by lia.
    rewrite u8_land in HL by (split; [discriminate|reflexivity]).
    assert (n <> k) by (intros ->; congruence).
    unfold pmp_region. rewrite Hc, H2, (aget_aset_ne 0 _ n k) by lia.
    destruct (pmp_cfg s k .& PMPCFG_A_MASK =? PMPCFG_A_TOR) eqn:ET; [|reflexivity].
    destruct (Z.eqb_spec k 0) as [->|Hk0]; [reflexivity|].
    destruct (Z.eq_dec n (k - 1)) as [->|]; [|rewrite aget_aset_ne by lia; reflexivity].
    exfalso. rewrite pmp_cfg_low, u8_land in ET by (lia || (split; [discriminate|reflexivity])).
    cbv zeta in Hnext. rewrite Z.shiftr_shiftr in Hnext by lia.
    replace ((k - 1) * 8 + 8) with (k * 8) in Hnext by lia. rewrite ET, HL in Hnext. discriminate.
Qed.

Lemma locked_pmp_entry_immutable_witness :
  exists s', csr_write_switch pmp_example (CSR_PMPADDR 0) 0x1234 = Some (0, s') /\
    pmp_region s' 0 = Some (0x80000000, 0x80002000).
Proof.
  eexists. split; [vm_compute; reflexivity|].
  etransitivity;
    [exact (proj2 (locked_pmp_entry_immutable pmp_example (CSR_PMPADDR 0) 0x1234 0 _ 0 eq_refl
       ltac:(lia) eq_refl eq_refl ltac:(vm_compute; reflexivity)))|vm_compute; reflexivity].
Defined.

(** ** Properties of mstatus and sstatus *)

Lemma status_field_bit f sh n : in_u 2 f -> 0 <= sh -> 0 <= n ->
  Z.testbit (f << sh) n = (sh <=? n) && (n <? sh + 2) && Z.testbit f (n - sh).
Proof.
  intros Hf Hs Hn. rewrite Z.shiftl_spec by lia.
  destruct (Z.leb_spec sh n); [|rewrite Z.testbit_neg_r by lia; reflexivity].
  destruct (Z.ltb_spec n (sh + 2)); [reflexivity|].
  apply in_u_testbit in Hf as [_ Hf]; [|lia]. rewrite Hf by lia. reflexivity.
Qed.

Lemma get_mstatus_bit (s : RISCVCPUState) mask n : in_u 2 (fs s) -> in_u 2 (vs s) -> 0 <= n < 63 ->
  Z.testbit (get_mstatus s mask) n =
  Z.testbit mask n &&
  (Z.testbit (mstatus s) n
   || (13 <=? n) && (n <? 15) && Z.testbit (fs s) (n - 13)
   || (9 <=? n) && (n <? 11) && Z.testbit (vs s) (n - 9)).
Proof.
  intros Hf Hv Hn. unfold get_mstatus. cbv zeta.
  assert (Hb : Z.testbit ((mstatus s .| fs s << MSTATUS_FS_SHIFT .| vs s << MSTATUS_VS_SHIFT) .& mask) n =
    Z.testbit mask n && (Z.testbit (mstatus s) n
     || (13 <=? n) && (n <? 15) && Z.testbit (fs s) (n - 13)
     || (9 <=? n) && (n <? 11) && Z.testbit (vs s) (n - 9))).
  { rewrite Z.land_spec, !Z.lor_spec, !status_field_bit by (assumption || (vm_compute; discriminate) || lia).
    rewrite andb_comm. reflexivity. }
  match goal with |- context [if ?b then _ else _] => destruct b end; [|exact Hb].
  rewrite Z.lor_spec, Hb, Z.shiftl_1_l, Z.pow2_bits_false by lia. apply orb_false_r.
Qed.

Lemma masked_bit old val mask n :
  Z.testbit (masked old val mask) n = if Z.testbit mask n then Z.testbit val n else Z.testbit old n.
Proof.
  unfold masked. rewrite Z.lor_spec, Z.ldiff_spec, Z.land_spec.
  destruct (Z.testbit mask n), (Z.testbit val n), (Z.testbit old n); reflexivity.
Qed.

Lemma set_mstatus_fields (s : RISCVCPUState) val :
  mstatus (set_mstatus s val) = masked (mstatus s) val set_mstatus_mask /\
  fs (set_mstatus s val) = (val >> MSTATUS_FS_SHIFT) .& 3 /\
  vs (set_mstatus s val) = (val >> MSTATUS_VS_SHIFT) .& 3.
Proof. unfold set_mstatus. destruct (mstatus_flushes s val); repeat split. Qed.

Lemma land3_bit x sh n : 0 <= sh -> 0 <= n ->
  Z.testbit ((x >> sh) .& 3) n = (n <? 2) && Z.testbit x (n + sh).
Proof.
  intros Hs Hn. change 3 with (Z.ones 2). rewrite Z.land_spec, Z.shiftr_spec, Z.testbit_ones by lia.
  rewrite andb_comm. destruct (Z.leb_spec 0 n); [reflexivity|lia].
Qed.

Lemma land3_range x : in_u 2 (x .& 3).
Proof. change 3 with (Z.ones 2). rewrite Z.land_ones by lia. apply u_range; lia. Qed.

(** The bits software can change through [sstatus] (0x100) and [mstatus]
    (0x300): [UXL] and [SXL] are read-only. *)
Definition status_wmask (csr : Z) : Z :=
  (if csr =? 0x100 then SSTATUS_MASK else MSTATUS_MASK) .&~ (MSTATUS_UXL_MASK .| MSTATUS_SXL_MASK).

(** The [FS] and [VS] fields of the stored word are empty: the hart keeps them
    in [fs] and [vs]. *)
Definition status_ok (s : RISCVCPUState) : Prop :=
  mstatus s .& (MSTATUS_FS .| MSTATUS_VS) = 0 /\ in_u 2 (fs s) /\ in_u 2 (vs s).

(** Check a boolean fact of every bit number below 63. *)
Lemma bits63 (p : Z -> bool) :
  forallb p (map Z.of_nat (seq 0 63)) = true -> forall n, 0 <= n < 63 -> p n = true.
Proof.
  intros H n Hn. rewrite forallb_forall in H. apply H, in_map_iff.
  exists (Z.to_nat n). rewrite in_seq. lia.
Qed.

(** How the masks split the bits: [FS], [VS], the stored writable bits. *)
Lemma status_masks n : 0 <= n < 63 ->
  let isfs := (13 <=? n) && (n <? 15) in
  let isvs := (9 <=? n) && (n <? 11) in
  Z.testbit (status_wmask 0x300) n = Z.testbit set_mstatus_mask n || isfs || isvs /\
  Z.testbit (MSTATUS_FS .| MSTATUS_VS) n = isfs || isvs /\
  Z.testbit set_mstatus_mask n && (isfs || isvs) = false /\
  Z.testbit (u64 (-1)) n = true /\
  Z.testbit (status_wmask 0x100) n =
    Z.testbit (status_wmask 0x300) n && Z.testbit SSTATUS_MASK n /\
  (isfs || isvs) && negb (Z.testbit SSTATUS_MASK n) = false.
Proof.
  intros Hn. cbv zeta.
  repeat split; apply eqb_prop; revert n Hn; apply bits63; vm_compute; reflexivity.
Qed.

Lemma set_mstatus_view (s : RISCVCPUState) val n : status_ok s -> 0 <= n < 63 ->
  Z.testbit (get_mstatus (set_mstatus s val) (u64 (-1))) n =
  if Z.testbit (status_wmask 0x300) n then Z.testbit val n
  else Z.testbit (get_mstatus s (u64 (-1))) n.
Proof.
  intros (Hm & Hf & Hv) Hn. destruct (set_mstatus_fields s val) as (E1 & E2 & E3).
  rewrite !get_mstatus_bit by (assumption || lia || (rewrite ?E2, ?E3; apply land3_range)).
  rewrite E1, E2, E3, masked_bit.
  pose proof (f_equal (fun z => Z.testbit z n) Hm) as Hmn. cbv beta in Hmn.
  rewrite Z.land_spec, Z.bits_0 in Hmn.
  destruct (status_masks n Hn) as (M1 & M2 & M3 & M4 & _ & _). rewrite M1, M4. rewrite M2 in Hmn.
  destruct ((13 <=? n) && (n <? 15)) eqn:B1, ((9 <=? n) && (n <? 11)) eqn:B2;
    destruct (Z.testbit set_mstatus_mask n); try discriminate; bool_hyps; try lia;
    cbn [andb orb] in *; rewrite ?orb_false_r; try reflexivity.
  - rewrite andb_true_r in Hmn. rewrite Hmn, land3_bit by (lia || (vm_compute; discriminate)).
    change MSTATUS_FS_SHIFT with 13. replace (n - 13 + 13) with n by lia.
    destruct (Z.ltb_spec (n - 13) 2); [|lia]. reflexivity.
  - rewrite andb_true_r in Hmn. rewrite Hmn, land3_bit by (lia || (vm_compute; discriminate)).
    change MSTATUS_VS_SHIFT with 9. replace (n - 9 + 9) with n by lia.
    destruct (Z.ltb_spec (n - 9) 2); [|lia]. reflexivity.
Qed.

(** C18. Status writes are confined to their writable fields and read back: after
    a write of [val] to [sstatus] (0x100) or [mstatus] (0x300), the bits of the
    full [mstatus] view that the register exposes as writable are those of
    [val], and every other bit below the summary bit [SD] is unchanged.  So
    supervisor software cannot touch machine-level status through [sstatus]. *)
Theorem status_write_confined (s s' : RISCVCPUState) (csr val code n : Z) :
  csr = 0x100 \/ csr = 0x300 -> status_ok s -> 0 <= n < 63 ->
  csr_write_switch s csr val = Some (code, s') ->
  Z.testbit (get_mstatus s' (u64 (-1))) n =
  if Z.testbit (status_wmask csr) n then Z.testbit val n
  else Z.testbit (get_mstatus s (u64 (-1))) n.
Proof.
  intros Hc Hok Hn H. destruct (status_masks n Hn) as (_ & _ & _ & M4 & M5 & M6).
  destruct Hc as [-> | ->]; apply some_pair_inv in H as [_ ->];
    rewrite set_mstatus_view by assumption; [|reflexivity].
  rewrite masked_bit, M5. destruct (Z.testbit (status_wmask 768) n) eqn:Ew; [|reflexivity].
  destruct (Z.testbit SSTATUS_MASK n); [reflexivity|]. cbn [andb negb] in *.
  destruct Hok as (Hm & Hf & Hv). rewrite get_mstatus_bit by assumption. rewrite M4.
  rewrite andb_true_r in M6. apply orb_false_iff in M6 as [-> ->].
  cbn [andb]. rewrite !orb_false_r. reflexivity.
Qed.

Lemma status_write_confined_witness :
  exists s', csr_write_switch (set_fs 1 zero_hart) 0x100 (u64 (-1)) = Some (0, s') /\
    Z.testbit (get_mstatus s' (u64 (-1))) 14 = true /\
    Z.testbit (get_mstatus s' (u64 (-1))) 3 = false.
Proof.
  assert (Hok : status_ok (set_fs 1 zero_hart))
    by (split; [|split; split]; vm_compute; (reflexivity || discriminate)).
  eexists. split; [vm_compute; reflexivity|]. split.
  - rewrite (status_write_confined (set_fs 1 zero_hart) _ 0x100 (u64 (-1)) 0 14);
      [vm_compute; reflexivity|left; reflexivity|exact Hok|lia|vm_compute; reflexivity].
  - rewrite (status_write_confined (set_fs 1 zero_hart) _ 0x100 (u64 (-1)) 0 3);
      [vm_compute; reflexivity|left; reflexivity|exact Hok|lia|vm_compute; reflexivity].
Defined.

(** ** Access control of CSR reads *)

(** Rule out the cases whose number [lia] shows to differ from [csr]. *)
Ltac skip_cases csr :=
  repeat match goal with
  | |- context [csr =? ?k] => destruct (Z.eqb_spec csr k); [exfalso; lia|]
  end.


(** A machine in user mode with the cycle counter enabled. *)
Definition counter_example : St :=
  mkSt (set_mcycle 7 (set_scounteren 1 zero_hart)) zero_machine (mkLocals 0 0 0 0 0 0 0).


(** The counter check of user mode consults [scounteren] alone, also when
    [mcounteren] withholds the counter from every mode below machine mode. *)
Remark counter_check_ignores_mcounteren :
  counter_access_ok (set_mcounteren 0 (set_scounteren 1 zero_hart)) 0xc00 = true.
Proof. reflexivity. Qed.
