(* ===== verification/Trap.v ===== *)
(** * Traps, returns and interrupts; hart creation and accessors

    [set_priv], [raise_exception2], [raise_exception], [handle_sret],
    [handle_mret], [handle_dret], the interrupt selection and
    [raise_interrupt], [riscv_cpu_set_mip]/[riscv_cpu_reset_mip],
    [riscv_cpu_init] and the small accessors of [src/riscv_cpu.cpp]. *)

From S2P Require Import Prelude RiscvDefs State Tlb Pmp Csr.
Open Scope Z_scope.
Open Scope c_scope.
Open Scope m_scope.

Definition set_priv (s : RISCVCPUState) (p : Z) : RISCVCPUState :=
  if negb (priv s =? p) then put_priv p (tlb_flush_all s) else s.

(** ** Exceptions *)

(** Is the trap delegated to supervisor mode? *)
Definition trap_deleg (s : RISCVCPUState) (cause : Z) : bool :=
  if priv s <=? PRV_S then
    if cause has CAUSE_INTERRUPT
    then nz ((mideleg s >> (cause .& 63)) .& 1)
    else nz ((medeleg s >> cause) .& 1)
  else false.

(** The supervisor half of [raise_exception2]. *)
Definition enter_s (s : RISCVCPUState) (cause tval : Z) : RISCVCPUState :=
  let s := set_scause cause s in
  let s := set_sepc (CANONICAL_S49 (pc s)) s in
  let s := set_stval (CANONICAL_S49 tval) s in
  let s := put_mstatus
    (mstatus s .&~ MSTATUS_SPIE .| (Z.b2z (mstatus s has MSTATUS_SIE) << MSTATUS_SPIE_SHIFT)) s in
  let s := put_mstatus (mstatus s .&~ MSTATUS_SPP .| (priv s << MSTATUS_SPP_SHIFT)) s in
  let s := put_mstatus (mstatus s .&~ MSTATUS_SIE) s in
  set_priv s PRV_S.

(** The machine half of [raise_exception2]. *)
Definition enter_m (s : RISCVCPUState) (cause tval : Z) : RISCVCPUState :=
  let s := set_mcause cause s in
  let s := set_mepc (CANONICAL_S49 (pc s)) s in
  let s := set_mtval (CANONICAL_S49 tval) s in
  let s := put_mstatus
    (mstatus s .&~ MSTATUS_MPIE .| (Z.b2z (mstatus s has MSTATUS_MIE) << MSTATUS_MPIE_SHIFT)) s in
  let s := put_mstatus (mstatus s .&~ MSTATUS_MPP .| (priv s << MSTATUS_MPP_SHIFT)) s in
  let s := put_mstatus (mstatus s .&~ MSTATUS_MIE) s in
  set_priv s PRV_M.

(** Where a trap with vector [tvec] goes. *)
Definition trap_target (tvec cause : Z) : Z :=
  let base := tvec .&~ 3 in
  if ((tvec .& 3) =? 1) && (cause has CAUSE_INTERRUPT)
  then u64 (base + 4 * (cause .&~ CAUSE_INTERRUPT)) else base.

Definition raise_exception2 (s : RISCVCPUState) (cause tval : Z) : RISCVCPUState :=
  if trap_deleg s cause then
    let s := enter_s s cause tval in
    set_pc (trap_target (stvec s) cause) s
  else
    let s := enter_m s cause tval in
    set_pc (trap_target (mtvec s) cause) s.

Definition raise_exception (s : RISCVCPUState) (cause : Z) : RISCVCPUState :=
  raise_exception2 s cause 0.

(** ** Returns *)

Definition handle_sret (s : RISCVCPUState) : RISCVCPUState :=
  let s := put_mstatus (mstatus s .&~ MSTATUS_SIE) s in
  let s := put_mstatus (mstatus s .| ((mstatus s >> 4) .& MSTATUS_SIE)) s in
  let s := put_mstatus (mstatus s .| MSTATUS_SPIE) s in
  let spp := (mstatus s .& MSTATUS_SPP) >> MSTATUS_SPP_SHIFT in
  let s := put_mstatus (mstatus s .&~ MSTATUS_SPP) s in
  let s := set_priv s spp in
  set_pc (sepc s) s.

Definition handle_mret (s : RISCVCPUState) : RISCVCPUState :=
  let s := put_mstatus (mstatus s .&~ MSTATUS_MIE) s in
  let s := put_mstatus (mstatus s .| ((mstatus s >> 4) .& MSTATUS_MIE)) s in
  let s := put_mstatus (mstatus s .| MSTATUS_MPIE) s in
  let mpp := (mstatus s .& MSTATUS_MPP) >> MSTATUS_MPP_SHIFT in
  let s := put_mstatus (mstatus s .&~ MSTATUS_MPP) s in
  let s := set_priv s mpp in
  set_pc (mepc s) s.

Definition handle_dret (s : RISCVCPUState) : RISCVCPUState :=
  let s := set_stop_the_counter false s in
  let s := set_debug_mode false s in
  let s := set_priv s (dcsr s .& 3) in
  set_pc (dpc s) s.

(** ** Interrupts *)

Definition get_pending_irq_mask (s : RISCVCPUState) : Z :=
  let pending_ints := mip s .& mie s in
  if pending_ints =? 0 then 0
  else
    let enabled_ints :=
      if priv s =? PRV_M then
        if mstatus s has MSTATUS_MIE then u32 (Z.lnot (mideleg s)) else 0
      else if priv s =? PRV_S then
        let e := u32 (Z.lnot (mideleg s)) in
        if mstatus s has MSTATUS_SIE then e .| mideleg s else e
      else u32 (-1) in
    pending_ints .& enabled_ints.

(** [for (int8_t i = 31; i > 0; --i) if ((local_ints >> i) & 1) return i;] *)
Fixpoint irq_search_down (local_ints : Z) (n : nat) : Z :=
  match n with
  | O => -1
  | S n' =>
      if nz ((local_ints >> Z.of_nat n) .& 1) then Z.of_nat n else irq_search_down local_ints n'
  end.

Definition get_irq_platspecific (mask : Z) : Z :=
  irq_search_down (mask .& u32 (0xFFFFFFFF << 12)) 31.

Definition irq_priorities : list Z := [11; 3; 7; 10; 2; 6; 9; 1; 5; 8; 0; 4].

Fixpoint irq_first (mask : Z) (l : list Z) : Z :=
  match l with
  | [] => -1
  | p :: l' => if nz ((mask >> p) .& 1) then p else irq_first mask l'
  end.

Definition get_irq_num (mask : Z) : Z :=
  if (1 << 12) <=? mask then get_irq_platspecific mask else irq_first mask irq_priorities.

(** [None] when no interrupt is taken ([return 0]). *)
Definition raise_interrupt (s : RISCVCPUState) : option RISCVCPUState :=
  let mask := get_pending_irq_mask s in
  if mask =? 0 then None
  else Some (raise_exception s (u64 (get_irq_num mask .| CAUSE_INTERRUPT))).

Definition riscv_cpu_set_mip (m : RISCVMachine) (mask : Z) (s : RISCVCPUState) : RISCVCPUState :=
  let s := set_mip (mip s .| mask) s in
  if power_down_flag s && nz (mip s .& mie s)
     && (negb (pending_interrupt m =? -1) || negb (cosim m))
  then set_power_down_flag false s else s.

Definition riscv_cpu_reset_mip (mask : Z) (s : RISCVCPUState) : RISCVCPUState :=
  set_mip (mip s .&~ mask) s.

(** ** Creation *)

Definition INIT_MISA : Z :=
  MCPUID_SUPER .| MCPUID_USER .| MCPUID_I .| MCPUID_M .| MCPUID_A
  .| MCPUID_F .| MCPUID_D .| MCPUID_V .| MCPUID_C.

(** [riscv_cpu_init]; [reset_vector], [custom_extension] and [clear_ids] are the
    fields of the machine it reads. *)
Definition riscv_cpu_init (reset_vector : Z) (custom_extension clear_ids : bool) (hartid : Z)
  : RISCVCPUState :=
  let s := zero_hart in
  let s := set_pc reset_vector s in
  let s := put_priv PRV_M s in
  let s := put_mstatus ((2 << MSTATUS_UXL_SHIFT) .| (2 << MSTATUS_SXL_SHIFT)
                        .| (3 << MSTATUS_MPP_SHIFT)) s in
  let s := set_plic_enable_irq [0; 0] s in
  let s := set_most_recently_written_reg (-1) s in
  let s := set_most_recently_written_fp_reg (-1) s in
  let s := set_most_recently_written_vregs (repeat false 32) s in
  let s := set_misa (misa s .| INIT_MISA) s in
  let s := if custom_extension then set_misa (misa s .| MCPUID_X) s else s in
  let s := if clear_ids then set_mimpid 0 (set_marchid 0 (set_mvendorid 0 s))
           else set_mimpid 1 (set_marchid ((1 << 63) .| 2) (set_mvendorid (11 * 128 + 101) s)) in
  let s := set_mhartid hartid s in
  let s := set_tselect 0 s in
  let s := set_tdata1 [MCONTROL_TYPE_AD_MATCH .| MCONTROL_MAXMASK_4] s in
  let s := set_tdata2 [u64 (-1)] s in
  let s := set_dcsr ((1 << 30) + 3) s in
  let s := tlb_init s in
  set_benchmark_exit_code 0 s.

(** ** Accessors *)

Definition riscv_set_pc (s : RISCVCPUState) (val : Z) : RISCVCPUState := set_pc (epc_align s val) s.

(** [None] when the [assert] on the register number fails. *)
Definition riscv_get_reg (s : RISCVCPUState) (rn : Z) : option Z :=
  if (0 <=? rn) && (rn <? 32) then Some (aget 0 (reg s) rn) else None.

Definition riscv_get_reg_previous (s : RISCVCPUState) (rn : Z) : option Z :=
  if (0 <=? rn) && (rn <? 32) then Some (aget 0 (reg_prior s) rn) else None.

Definition riscv_get_fpreg (s : RISCVCPUState) (rn : Z) : option Z :=
  if (0 <=? rn) && (rn <? 32) then Some (aget 0 (fp_reg s) rn) else None.

Definition riscv_set_reg (s : RISCVCPUState) (rn val : Z) : option RISCVCPUState :=
  if (0 <? rn) && (rn <? 32) then Some (set_reg (aset (reg s) rn val) s) else None.

Definition riscv_repair_csr (s : RISCVCPUState) (reg_num csr_num csr_val : Z) : RISCVCPUState :=
  let n := csr_num .& 0xFFF in
  if (n =? 0xb00) || (n =? 0xc00) then
    set_reg (aset (reg s) reg_num csr_val) (set_mcycle csr_val s)
  else if (n =? 0xb02) || (n =? 0xc02) then
    set_reg (aset (reg s) reg_num csr_val) (set_minstret csr_val s)
  else s.

Definition riscv_cpu_sync_regs (s : RISCVCPUState) : RISCVCPUState :=
  set_reg_prior
    (for_up (fun k rp => aset rp k (aget 0 (reg s) k)) 31 1 (reg_prior s)) s.

Definition riscv_cpu_get_mstatus (s : RISCVCPUState) : Z := get_mstatus s MSTATUS_MASK.

Definition riscv_stf_reset (s : RISCVCPUState) : RISCVCPUState :=
  set_stf_mem_writes [] (set_stf_mem_reads [] (set_stf_write_fp_regs []
  (set_stf_read_fp_regs [] (set_stf_write_regs [] (set_stf_read_regs [] s))))).

Definition riscv_set_debug_mode (s : RISCVCPUState) (on : bool) : RISCVCPUState :=
  set_debug_mode on s.

(** ** Properties of trap entry *)

Lemma set_priv_fields (s : RISCVCPUState) p :
  priv (set_priv s p) = p /\ mcsr (set_priv s p) = mcsr s /\ scsr (set_priv s p) = scsr s /\
  pc (set_priv s p) = pc s /\ reg (set_priv s p) = reg s.
Proof.
  unfold set_priv. destruct (Z.eqb_spec (priv s) p) as [E|E]; cbn [negb]; repeat split; exact E.
Qed.

(** Replacing the [w]-bit field at [sh] of a word. *)
Lemma put_field_bit x v sh w n : 0 <= sh -> 0 < w -> in_u w v -> 0 <= n ->
  Z.testbit (x .&~ (Z.ones w << sh) .| (v << sh)) n =
  if (sh <=? n) && (n <? sh + w) then Z.testbit v (n - sh) else Z.testbit x n.
Proof.
  intros Hs Hw Hv Hn. rewrite Z.lor_spec, Z.ldiff_spec, !Z.shiftl_spec by lia.
  destruct (Z.leb_spec sh n).
  - rewrite Z.testbit_ones by lia.
    destruct (Z.leb_spec 0 (n - sh)); [|lia].
    destruct (Z.ltb_spec (n - sh) w), (Z.ltb_spec n (sh + w)); cbn [andb negb]; try lia.
    + rewrite andb_false_r. reflexivity.
    + apply in_u_testbit in Hv as [_ Hv]; [|lia]. rewrite Hv by lia.
      rewrite andb_true_r, orb_false_r. reflexivity.
  - rewrite !(Z.testbit_neg_r _ (n - sh)) by lia. cbn [andb negb]. rewrite andb_true_r, orb_false_r. reflexivity.
Qed.

(** The status word a trap into supervisor mode leaves. *)
Definition s_entry_bit (m p n : Z) : bool :=
  if n =? 1 then false else if n =? 5 then Z.testbit m 1
  else if n =? 8 then Z.testbit p 0 else Z.testbit m n.

(** The status word a trap into machine mode leaves. *)
Definition m_entry_bit (m p n : Z) : bool :=
  if n =? 3 then false else if n =? 7 then Z.testbit m 3
  else if (11 <=? n) && (n <? 13) then Z.testbit p (n - 11) else Z.testbit m n.

Lemma b2z_bit_0 b n : Z.testbit (Z.b2z b) n = b && (n =? 0).
Proof.
  unfold Z.b2z. destruct b; cbn [andb]; [|apply Z.bits_0].
  destruct (Z.eqb_spec n 0) as [->|]; [reflexivity|].
  destruct (Z.ltb_spec n 0); [apply Z.testbit_neg_r; lia|]. apply Z.bits_above_log2; [lia|cbn; lia].
Qed.

Lemma enter_s_bits (s : RISCVCPUState) cause tval n : 0 <= priv s <= 1 -> 0 <= n ->
  Z.testbit (mstatus (enter_s s cause tval)) n = s_entry_bit (mstatus s) (priv s) n.
Proof.
  intros Hp Hn. unfold enter_s. cbv zeta.
  match goal with |- context [mstatus (mcsr (set_priv ?t ?p))] =>
    destruct (set_priv_fields t p) as (_ & -> & _) end. cbn.
  change MSTATUS_SIE with (Z.ones 1 << 1). change MSTATUS_SPIE with (Z.ones 1 << 5).
  change MSTATUS_SPP with (Z.ones 1 << 8). change MSTATUS_SPIE_SHIFT with 5.
  change MSTATUS_SPP_SHIFT with 8.
  rewrite Z.ldiff_spec, !put_field_bit by (lia || (apply in_u_b2z; lia) || (unfold in_u; lia)).
  change (Z.ones 1 << 1) with (2 ^ 1). rewrite has_pow2, b2z_bit_0, Z.pow2_bits_eqb by lia.
  unfold s_entry_bit.
  destruct (Z.eqb_spec n 1), (Z.eqb_spec 1 n), (Z.eqb_spec n 5), (Z.eqb_spec n 8),
    (Z.leb_spec 8 n), (Z.ltb_spec n (8 + 1)), (Z.leb_spec 5 n), (Z.ltb_spec n (5 + 1)),
    (Z.eqb_spec (n - 5) 0); cbn [andb negb]; subst; try lia;
    rewrite ?andb_true_r, ?andb_false_r; try reflexivity.
Qed.

Lemma enter_m_bits (s : RISCVCPUState) cause tval n : 0 <= priv s <= 3 -> 0 <= n ->
  Z.testbit (mstatus (enter_m s cause tval)) n = m_entry_bit (mstatus s) (priv s) n.
Proof.
  intros Hp Hn. unfold enter_m. cbv zeta.
  match goal with |- context [mstatus (mcsr (set_priv ?t ?p))] =>
    destruct (set_priv_fields t p) as (_ & -> & _) end. cbn.
  change MSTATUS_MIE with (Z.ones 1 << 3). change MSTATUS_MPIE with (Z.ones 1 << 7).
  change MSTATUS_MPP with (Z.ones 2 << 11). change MSTATUS_MPIE_SHIFT with 7.
  change MSTATUS_MPP_SHIFT with 11.
  rewrite Z.ldiff_spec, !put_field_bit by (lia || (apply in_u_b2z; lia) || (unfold in_u; lia)).
  change (Z.ones 1 << 3) with (2 ^ 3). rewrite has_pow2, b2z_bit_0, Z.pow2_bits_eqb by lia.
  unfold m_entry_bit.
  destruct (Z.eqb_spec n 3), (Z.eqb_spec 3 n), (Z.eqb_spec n 7),
    (Z.leb_spec 11 n), (Z.ltb_spec n (11 + 2)), (Z.ltb_spec n 13), (Z.leb_spec 7 n),
    (Z.ltb_spec n (7 + 1)), (Z.eqb_spec (n - 7) 0); cbn [andb negb]; subst; try lia;
    rewrite ?andb_true_r, ?andb_false_r; reflexivity.
Qed.

Lemma raise_exception2_spec (s : RISCVCPUState) (cause tval n : Z) :
  0 <= priv s <= 3 -> 0 <= n ->
  let s' := raise_exception2 s cause tval in
  priv s <= priv s' /\ reg s' = reg s /\
  if trap_deleg s cause then
    priv s' = PRV_S /\ scause s' = cause /\ sepc s' = CANONICAL_S49 (pc s) /\
    stval s' = CANONICAL_S49 tval /\ pc s' = trap_target (stvec s) cause /\
    Z.testbit (mstatus s') n = s_entry_bit (mstatus s) (priv s) n /\
    mepc s' = mepc s /\ mcause s' = mcause s /\ mtval s' = mtval s
  else
    priv s' = PRV_M /\ mcause s' = cause /\ mepc s' = CANONICAL_S49 (pc s) /\
    mtval s' = CANONICAL_S49 tval /\ pc s' = trap_target (mtvec s) cause /\
    Z.testbit (mstatus s') n = m_entry_bit (mstatus s) (priv s) n /\
    scsr s' = scsr s.
Proof.
  intros Hp Hn. cbv zeta. unfold raise_exception2. destruct (trap_deleg s cause) eqn:Ed.
  - assert (Hp1 : 0 <= priv s <= 1).
    { unfold trap_deleg, PRV_S in Ed. destruct (Z.leb_spec (priv s) 1); [lia|discriminate]. }
    pose proof (enter_s_bits s cause tval n Hp1 Hn) as Hb. revert Hb. unfold enter_s. cbv zeta.
    match goal with |- context [set_priv ?t ?p] =>
      destruct (set_priv_fields t p) as (F1 & F2 & F3 & F4 & F5); revert F1 F2 F3 F4 F5;
      generalize (set_priv t p) end.
    intros u F1 F2 F3 F4 F5 Hb. cbn. rewrite F1, F2, F3, F5. rewrite F2 in Hb.
    repeat split; (exact Hb || (unfold PRV_S; lia)).
  - pose proof (enter_m_bits s cause tval n Hp Hn) as Hb. revert Hb. unfold enter_m. cbv zeta.
    match goal with |- context [set_priv ?t ?p] =>
      destruct (set_priv_fields t p) as (F1 & F2 & F3 & F4 & F5); revert F1 F2 F3 F4 F5;
      generalize (set_priv t p) end.
    intros u F1 F2 F3 F4 F5 Hb. cbn. rewrite F1, F2, F3, F5. rewrite F2 in Hb.
    repeat split; (exact Hb || (unfold PRV_M; lia)).
Qed.


(** ** Returning from a trap *)

Definition s_return_bit (m n : Z) : bool :=
  if n =? 1 then Z.testbit m 5 else if n =? 5 then true
  else if n =? 8 then false else Z.testbit m n.

Definition m_return_bit (m n : Z) : bool :=
  if n =? 3 then Z.testbit m 7 else if n =? 7 then true
  else if (11 <=? n) && (n <? 13) then false else Z.testbit m n.

(** The privilege field a return reads. *)
Lemma pp_field m sh w : 0 <= sh -> 0 < w ->
  (m .& (Z.ones w << sh)) >> sh = uN w (m >> sh).
Proof.
  intros Hs Hw. apply Z.bits_inj'; intros n Hn.
  rewrite Z.shiftr_spec, Z.land_spec, u_testbit, Z.shiftl_spec, Z.shiftr_spec, Z.testbit_ones by lia.
  replace (n + sh - sh) with n by lia. destruct (Z.leb_spec 0 n); [|lia].
  rewrite andb_comm. reflexivity.
Qed.

(** [m & ~(1 << a) | ((m >> k) & (1 << a)) | (1 << (a + k))]: the enable is
    restored from the stacked one, which is set. *)
Lemma unstack_bit m a k n : 0 <= a -> 0 < k -> 0 <= n ->
  Z.testbit (m .&~ (2 ^ a) .| (((m .&~ (2 ^ a)) >> k) .& 2 ^ a) .| 2 ^ (a + k)) n =
  if n =? a then Z.testbit m (a + k) else if n =? a + k then true else Z.testbit m n.
Proof.
  intros Ha Hk Hn.
  rewrite !Z.lor_spec, Z.land_spec, Z.shiftr_spec, !Z.ldiff_spec, !Z.pow2_bits_eqb by lia.
  replace (a =? n) with (n =? a) by apply Z.eqb_sym.
  replace (a + k =? n) with (n =? a + k) by apply Z.eqb_sym.
  destruct (Z.eqb_spec n a) as [Ha'|Ha'], (Z.eqb_spec n (a + k)) as [Hk'|Hk'],
    (Z.eqb_spec a (n + k)) as [Hb|Hb]; try (exfalso; lia);
    cbn [andb orb negb]; rewrite ?andb_true_r, ?andb_false_r, ?orb_false_r, ?orb_true_r;
    cbn [andb orb]; try reflexivity; f_equal; lia.
Qed.

Lemma handle_mret_fields (s : RISCVCPUState) :
  let s' := handle_mret s in
  pc s' = mepc s /\ priv s' = uN 2 (mstatus s >> 11) /\ reg s' = reg s /\
  forall n, 0 <= n -> Z.testbit (mstatus s') n = m_return_bit (mstatus s) n.
Proof.
  cbv zeta. unfold handle_mret. cbv zeta.
  match goal with |- context [set_priv ?t ?p] =>
    destruct (set_priv_fields t p) as (F1 & F2 & F3 & F4 & F5); revert F1 F2 F3 F4 F5;
    generalize (set_priv t p) end.
  intros u F1 F2 F3 F4 F5. cbn [pc set_pc with_hr hr priv reg mcsr].
  rewrite F1, F2, F5. cbn. split; [reflexivity|].
  change MSTATUS_MIE with (2 ^ 3). change MSTATUS_MPIE with (2 ^ (3 + 4)).
  change MSTATUS_MPP with (Z.ones 2 << 11). change MSTATUS_MPP_SHIFT with 11.
  split; [|split; [reflexivity|]].
  - rewrite pp_field by lia. apply Z.bits_inj'; intros n Hn.
    rewrite !u_testbit, !Z.shiftr_spec, unstack_bit by lia.
    destruct (Z.ltb_spec n 2); [|reflexivity].
    destruct (Z.eqb_spec (n + 11) 3), (Z.eqb_spec (n + 11) (3 + 4)); try lia. reflexivity.
  - intros n Hn. rewrite Z.ldiff_spec, unstack_bit by lia. unfold m_return_bit.
    rewrite Z.shiftl_spec by lia.
    destruct (Z.leb_spec 11 n).
    + rewrite Z.testbit_ones by lia.
      destruct (Z.leb_spec 0 (n - 11)), (Z.ltb_spec (n - 11) 2), (Z.ltb_spec n 13),
        (Z.eqb_spec n 3), (Z.eqb_spec n 7), (Z.eqb_spec n (3 + 4)); try lia; cbn [andb negb];
        rewrite ?andb_false_r, ?andb_true_r; reflexivity.
    + rewrite (Z.testbit_neg_r _ (n - 11)) by lia. cbn [negb andb].
      rewrite andb_true_r. reflexivity.
Qed.

Lemma handle_sret_fields (s : RISCVCPUState) :
  let s' := handle_sret s in
  pc s' = sepc s /\ priv s' = uN 1 (mstatus s >> 8) /\ reg s' = reg s /\
  forall n, 0 <= n -> Z.testbit (mstatus s') n = s_return_bit (mstatus s) n.
Proof.
  cbv zeta. unfold handle_sret. cbv zeta.
  match goal with |- context [set_priv ?t ?p] =>
    destruct (set_priv_fields t p) as (F1 & F2 & F3 & F4 & F5); revert F1 F2 F3 F4 F5;
    generalize (set_priv t p) end.
  intros u F1 F2 F3 F4 F5. cbn [pc set_pc with_hr hr priv reg mcsr].
  rewrite F1, F2, F3, F5. cbn. split; [reflexivity|].
  change MSTATUS_SIE with (2 ^ 1). change MSTATUS_SPIE with (2 ^ (1 + 4)).
  change MSTATUS_SPP with (Z.ones 1 << 8). change MSTATUS_SPP_SHIFT with 8.
  split; [|split; [reflexivity|]].
  - rewrite pp_field by lia. apply Z.bits_inj'; intros n Hn.
    rewrite !u_testbit, !Z.shiftr_spec, unstack_bit by lia.
    destruct (Z.ltb_spec n 1); [|reflexivity].
    destruct (Z.eqb_spec (n + 8) 1), (Z.eqb_spec (n + 8) (1 + 4)); try lia. reflexivity.
  - intros n Hn. rewrite Z.ldiff_spec, unstack_bit by lia. unfold s_return_bit.
    change (Z.ones 1 << 8) with (2 ^ 8). rewrite Z.pow2_bits_eqb by lia.
    destruct (Z.eqb_spec n 1), (Z.eqb_spec n (1 + 4)), (Z.eqb_spec n 5), (Z.eqb_spec 8 n),
      (Z.eqb_spec n 8); try lia; cbn [andb negb]; rewrite ?andb_true_r, ?andb_false_r; reflexivity.
Qed.

(** C14. Returning undoes trap entry: [sret] after a trap into supervisor mode
    and [mret] after a trap into machine mode resume at the interrupted pc (in
    its canonical form) with the interrupted privilege and the interrupt enable
    of the handling mode as it was; only the previous-enable and
    previous-privilege fields of that mode differ from before the trap. *)
Theorem trap_return_roundtrip (s : RISCVCPUState) (cause tval n : Z) :
  0 <= priv s <= 3 -> 0 <= n ->
  let t := raise_exception2 s cause tval in
  let s' := if trap_deleg s cause then handle_sret t else handle_mret t in
  pc s' = CANONICAL_S49 (pc s) /\ priv s' = priv s /\ reg s' = reg s /\
  (if trap_deleg s cause
   then n <> 5 -> n <> 8 -> Z.testbit (mstatus s') n = Z.testbit (mstatus s) n
   else n <> 7 -> n <> 11 -> n <> 12 -> Z.testbit (mstatus s') n = Z.testbit (mstatus s) n).
Proof.
  intros Hp Hn. cbv zeta.
  destruct (raise_exception2_spec s cause tval 0 Hp ltac:(lia)) as (_ & Hr & _).
  assert (Hent := fun n (Hn : 0 <= n) => proj2 (proj2 (raise_exception2_spec s cause tval n Hp Hn))).
  cbv beta zeta in Hent. destruct (trap_deleg s cause) eqn:Ed.
  - assert (Hp1 : 0 <= priv s <= 1).
    { unfold trap_deleg, PRV_S in Ed. destruct (Z.leb_spec (priv s) 1); [lia|discriminate]. }
    destruct (handle_sret_fields (raise_exception2 s cause tval)) as (R1 & R2 & R3 & R4).
    destruct (Hent 0 ltac:(lia)) as (_ & _ & He & _). rewrite R1, R3, He. split; [reflexivity|].
    split; [|split; [exact Hr|]].
    + rewrite R2. apply Z.bits_inj'; intros k Hk. rewrite u_testbit, Z.shiftr_spec by lia.
      destruct (Hent (k + 8) ltac:(lia)) as (_ & _ & _ & _ & _ & -> & _). unfold s_entry_bit.
      destruct (Z.ltb_spec k 1).
      * replace k with 0 by lia. reflexivity.
      * symmetry. assert (Hu : in_u 1 (priv s)) by (unfold in_u; lia).
        apply in_u_testbit in Hu as [_ Hu]; [|lia]. apply Hu; lia.
    + intros H5 H8. rewrite R4 by lia. unfold s_return_bit.
      destruct (Z.eqb_spec n 5), (Z.eqb_spec n 8); try lia.
      destruct (Z.eqb_spec n 1) as [->|]; [destruct (Hent 5 ltac:(lia)) as (_ & _ & _ & _ & _ & -> & _)|
        destruct (Hent n Hn) as (_ & _ & _ & _ & _ & -> & _)]; unfold s_entry_bit; [reflexivity|].
      destruct (Z.eqb_spec n 1), (Z.eqb_spec n 5), (Z.eqb_spec n 8); (reflexivity || lia).
  - destruct (handle_mret_fields (raise_exception2 s cause tval)) as (R1 & R2 & R3 & R4).
    destruct (Hent 0 ltac:(lia)) as (_ & _ & He & _). rewrite R1, R3, He. split; [reflexivity|].
    split; [|split; [exact Hr|]].
    + rewrite R2. apply Z.bits_inj'; intros k Hk. rewrite u_testbit, Z.shiftr_spec by lia.
      destruct (Hent (k + 11) ltac:(lia)) as (_ & _ & _ & _ & _ & -> & _). unfold m_entry_bit.
      destruct (Z.ltb_spec k 2).
      * destruct (Z.eqb_spec (k + 11) 3), (Z.eqb_spec (k + 11) 7), (Z.leb_spec 11 (k + 11)),
          (Z.ltb_spec (k + 11) 13); try lia. cbn [andb]. f_equal; lia.
      * symmetry. assert (Hu : in_u 2 (priv s)) by (unfold in_u; lia).
        apply in_u_testbit in Hu as [_ Hu]; [|lia]. apply Hu; lia.
    + intros H7 H11 H12. rewrite R4 by lia. unfold m_return_bit.
      destruct (Z.eqb_spec n 3) as [->|]; [destruct (Hent 7 ltac:(lia)) as (_ & _ & _ & _ & _ & -> & _)|
        destruct (Hent n Hn) as (_ & _ & _ & _ & _ & -> & _)]; unfold m_entry_bit; [reflexivity|].
      destruct (Z.eqb_spec n 3), (Z.eqb_spec n 7), (Z.leb_spec 11 n), (Z.ltb_spec n 13);
        (reflexivity || lia).
Qed.

(** A user-mode hart that takes a delegated page fault. *)
Definition trap_example : RISCVCPUState :=
  set_stvec 0x80000100 (set_medeleg 0xB109 (put_mstatus 2 (set_pc 0x1234 zero_hart))).


Lemma trap_return_roundtrip_witness :
  let t := raise_exception2 trap_example CAUSE_FETCH_PAGE_FAULT 0x1234 in
  pc (handle_sret t) = 0x1234 /\ Z.testbit (mstatus (handle_sret t)) 1 = true.
Proof.
  destruct (trap_return_roundtrip trap_example CAUSE_FETCH_PAGE_FAULT 0x1234 1) as (H1 & _ & _ & H2);
    [vm_compute; split; discriminate|lia|].
  split; [exact H1|]. exact (H2 ltac:(lia) ltac:(lia)).
Defined.

(** ** Interrupt selection *)

(** Priority: platform interrupts (12 and up) by number, then the standard
    ones in the order external, software, timer for each of the modes machine,
    hypervisor, supervisor, user. *)
Definition irq_rank (p : Z) : Z :=
  if 12 <=? p then p else aget 0 [1; 4; 7; 10; 0; 3; 6; 9; 2; 5; 8; 11] p.

Lemma irq_rank_low p : 0 <= p < 12 -> irq_rank p <= 11.
Proof.
  intros Hp. unfold irq_rank. destruct (Z.leb_spec 12 p); [lia|].
  assert (p = 0 \/ p = 1 \/ p = 2 \/ p = 3 \/ p = 4 \/ p = 5 \/ p = 6 \/ p = 7 \/ p = 8 \/ p = 9
          \/ p = 10 \/ p = 11) as H12 by lia.
  repeat (destruct H12 as [-> | H12]; [vm_compute; discriminate|]). subst. vm_compute; discriminate.
Qed.

Lemma bit_and_1 x n : 0 <= n -> nz ((x >> n) .& 1) = Z.testbit x n.
Proof.
  intros Hn. replace ((x >> n) .& 1) with ((x >> n) .& 2 ^ 0) by reflexivity.
  rewrite has_pow2, Z.shiftr_spec by lia. rewrite Z.add_0_l. reflexivity.
Qed.

Lemma irq_search_down_spec x n :
  let p := irq_search_down x n in
  (1 <= p <= Z.of_nat n /\ Z.testbit x p = true /\
   forall q, p < q <= Z.of_nat n -> Z.testbit x q = false) \/
  (p = -1 /\ forall q, 1 <= q <= Z.of_nat n -> Z.testbit x q = false).
Proof.
  induction n as [|n IH]; cbv zeta in *; [right; split; [reflexivity|lia]|].
  cbn [irq_search_down]. rewrite bit_and_1 by lia.
  destruct (Z.testbit x (Z.of_nat (S n))) eqn:E; [left; repeat split; (lia || exact E)|].
  destruct IH as [(Hp & Hb & Hq)|[Hp Hq]]; [left|right].
  - repeat split; try lia; try exact Hb. intros q Hlt.
    destruct (Z.eq_dec q (Z.of_nat (S n))) as [->|]; [exact E|]. apply Hq; lia.
  - split; [exact Hp|]. intros q Hlt.
    destruct (Z.eq_dec q (Z.of_nat (S n))) as [->|]; [exact E|]. apply Hq; lia.
Qed.

(** The table order of the standard interrupts, checked on every mask. *)
Definition irq_table_ok (mask : Z) : bool :=
  (mask =? 0) ||
  let p := irq_first mask irq_priorities in
  (0 <=? p) && (p <? 12) && Z.testbit mask p &&
  forallb (fun q => negb (Z.testbit mask q) || (irq_rank q <=? irq_rank p))
    (map Z.of_nat (seq 0 12)).

Lemma irq_table_all : forallb irq_table_ok (map Z.of_nat (seq 0 4096)) = true.
Proof. vm_compute. reflexivity. Qed.

Lemma irq_first_max mask : 0 < mask < 4096 ->
  let p := irq_first mask irq_priorities in
  0 <= p < 12 /\ Z.testbit mask p = true /\
  forall q, 0 <= q < 12 -> Z.testbit mask q = true -> irq_rank q <= irq_rank p.
Proof.
  intros Hm. pose proof irq_table_all as H. rewrite forallb_forall in H.
  specialize (H mask). rewrite in_map_iff in H.
  specialize (H ltac:(exists (Z.to_nat mask); rewrite in_seq; lia)).
  unfold irq_table_ok in H. destruct (Z.eqb_spec mask 0); [lia|]. cbn [orb] in H. cbv zeta in *.
  apply andb_true_iff in H as [H Hall]. bool_hyps. repeat split; try lia; try assumption.
  intros q Hq Hbq. rewrite forallb_forall in Hall. specialize (Hall q). rewrite in_map_iff in Hall.
  specialize (Hall ltac:(exists (Z.to_nat q); rewrite in_seq; lia)).
  rewrite Hbq in Hall. cbn [negb orb] in Hall. lia.
Qed.

(** The interrupt [get_irq_num] picks is in the mask and has the highest
    priority; in particular a non-empty mask always yields one. *)
Lemma get_irq_num_max mask : in_u 32 mask -> mask <> 0 ->
  let p := get_irq_num mask in
  0 <= p < 32 /\ Z.testbit mask p = true /\
  forall q, 0 <= q -> Z.testbit mask q = true -> irq_rank q <= irq_rank p.
Proof.
  intros Hm Hnz. cbv zeta. unfold get_irq_num. change (1 << 12) with 4096.
  pose proof (proj2 (proj1 (in_u_testbit 32 mask ltac:(lia)) Hm)) as Hhi.
  destruct (Z.leb_spec 4096 mask) as [Hbig|Hsmall].
  - unfold get_irq_platspecific. set (x := mask .& _).
    assert (Hx : forall n, 0 <= n -> Z.testbit x n = (12 <=? n) && Z.testbit mask n).
    { intros n Hn. unfold x. change (u32 (0xFFFFFFFF << 12)) with (Z.ones 20 << 12).
      rewrite Z.land_spec, Z.shiftl_spec by lia. destruct (Z.leb_spec 12 n).
      - rewrite Z.testbit_ones by lia. destruct (Z.leb_spec 0 (n - 12)); [|lia].
        destruct (Z.ltb_spec (n - 12) 20); cbn [andb]; rewrite ?andb_true_r; [reflexivity|].
        rewrite Hhi by lia. reflexivity.
      - rewrite (Z.testbit_neg_r _ (n - 12)) by lia. apply andb_false_r. }
    destruct (irq_search_down_spec x 31) as [(Hp & Hb & Hq)|[Hp Hq]]; cbv zeta in *.
    + rewrite Hx in Hb by lia. bool_hyps. repeat split; try lia; try assumption.
      intros q Hq0 Hbq. unfold irq_rank at 2. destruct (Z.leb_spec 12 (irq_search_down x 31)); [|lia].
      destruct (Z.leb_spec 12 q).
      * unfold irq_rank. destruct (Z.leb_spec 12 q); [|lia].
        destruct (Z.leb_spec q (irq_search_down x 31)); [assumption|].
        assert (q < 32) by (destruct (Z.ltb_spec q 32); [assumption|rewrite Hhi in Hbq by lia; discriminate]).
        specialize (Hq q ltac:(lia)). rewrite Hx, Hbq in Hq by lia.
        destruct (Z.leb_spec 12 q); [discriminate|lia].
      * pose proof (irq_rank_low q ltac:(lia)). lia.
    + exfalso. assert (Hz : mask >> 12 = 0).
      { apply Z.bits_inj'; intros n Hn. rewrite Z.shiftr_spec, Z.bits_0 by lia.
        destruct (Z.ltb_spec (n + 12) 32); [|apply Hhi; lia].
        specialize (Hq (n + 12) ltac:(lia)). rewrite Hx in Hq by lia.
        destruct (Z.leb_spec 12 (n + 12)); [exact Hq|lia]. }
      rewrite Z.shiftr_div_pow2 in Hz by lia. change (2 ^ 12) with 4096 in Hz.
      pose proof (Z.div_str_pos mask 4096 ltac:(lia)). lia.
  - assert (Hr : 0 < mask < 4096) by (unfold in_u in Hm; lia).
    destruct (irq_first_max mask Hr) as (H1 & H2 & H3). repeat split; try lia; try assumption.
    intros q Hq Hbq. destruct (Z.ltb_spec q 12); [apply H3; [lia|assumption]|].
    assert (Hs : in_u 12 mask) by (unfold in_u; change (2 ^ 12) with 4096; lia).
    apply in_u_testbit in Hs as [_ Hs]; [|lia]. rewrite Hs in Hbq by lia. discriminate.
Qed.

(** Interrupt [q] is pending, enabled in [mie] and not masked in the current
    mode: machine mode takes only undelegated interrupts and only with [MIE];
    supervisor mode takes delegated ones only with [SIE]. *)
Definition irq_takeable (s : RISCVCPUState) (q : Z) : bool :=
  Z.testbit (mip s) q && Z.testbit (mie s) q &&
  (if priv s =? PRV_M then negb (Z.testbit (mideleg s) q) && Z.testbit (mstatus s) 3
   else if priv s =? PRV_S then negb (Z.testbit (mideleg s) q) || Z.testbit (mstatus s) 1
   else true).

Lemma u32_not_bit x q : 0 <= q -> Z.testbit (u32 (Z.lnot x)) q = (q <? 32) && negb (Z.testbit x q).
Proof. intros Hq. rewrite u_testbit, Z.lnot_spec by lia. reflexivity. Qed.

Lemma pending_mask_bit (s : RISCVCPUState) q : in_u 32 (mip s) -> 0 <= q ->
  Z.testbit (get_pending_irq_mask s) q = irq_takeable s q.
Proof.
  intros Hm Hq. unfold get_pending_irq_mask, irq_takeable.
  assert (Hhi : 32 <= q -> Z.testbit (mip s) q = false) by (apply in_u_testbit in Hm; [apply Hm|lia]).
  rewrite <- Z.land_spec.
  destruct (Z.eqb_spec (mip s .& mie s) 0) as [->|_]; [rewrite !Z.bits_0; reflexivity|].
  change MSTATUS_MIE with (2 ^ 3). change MSTATUS_SIE with (2 ^ 1). rewrite !has_pow2 by lia.
  rewrite Z.land_spec. destruct (Z.testbit (mip s .& mie s) q) eqn:E; [|reflexivity].
  assert (Hlt : q < 32).
  { destruct (Z.ltb_spec q 32); [assumption|]. rewrite Z.land_spec, Hhi in E by lia. discriminate. }
  cbn [andb]. destruct (priv s =? PRV_M).
  - destruct (Z.testbit (mstatus s) 3); [|rewrite andb_false_r; apply Z.bits_0].
    rewrite u32_not_bit by lia. destruct (Z.ltb_spec q 32); [|lia]. rewrite andb_true_r. reflexivity.
  - destruct (priv s =? PRV_S).
    + destruct (Z.testbit (mstatus s) 1); rewrite ?Z.lor_spec, u32_not_bit by lia;
        (destruct (Z.ltb_spec q 32); [|lia]); destruct (Z.testbit (mideleg s) q); reflexivity.
    + rewrite u_testbit, Z.bits_m1 by lia. destruct (Z.ltb_spec q 32); [reflexivity|lia].
Qed.

Lemma in_u_bits_ext w x : 0 <= w -> 0 <= x -> (forall n, w <= n -> Z.testbit x n = false) -> in_u w x.
Proof. intros. apply in_u_testbit; auto. Qed.

(** C15. [raise_interrupt] takes an interrupt exactly when one may be taken, takes
    the one of highest priority, and enters the trap with its number and the
    interrupt flag as the cause; the privilege never drops. *)
Theorem interrupt_taken (s : RISCVCPUState) :
  in_u 32 (mip s) -> in_u 32 (mie s) -> 0 <= priv s <= 3 ->
  match raise_interrupt s with
  | None => forall q, 0 <= q -> irq_takeable s q = false
  | Some s' => exists p, 0 <= p < 32 /\ irq_takeable s p = true /\
      (forall q, 0 <= q -> irq_takeable s q = true -> irq_rank q <= irq_rank p) /\
      s' = raise_exception2 s (2 ^ 63 + p) 0 /\ priv s <= priv s'
  end.
Proof.
  intros Hm He Hp. unfold raise_interrupt. cbv zeta.
  destruct (Z.eqb_spec (get_pending_irq_mask s) 0) as [Hz|Hnz].
  - intros q Hq. rewrite <- pending_mask_bit, Hz by assumption. apply Z.bits_0.
  - assert (Hmask : in_u 32 (get_pending_irq_mask s)).
    { apply in_u_bits_ext; [lia| |].
      - unfold get_pending_irq_mask. cbv zeta. destruct (_ =? 0); [lia|].
        apply Z.land_nonneg; left. apply Z.land_nonneg; left. apply Hm.
      - intros n Hn. rewrite pending_mask_bit by (assumption || lia). unfold irq_takeable.
        apply in_u_testbit in Hm as [_ Hm]; [|lia]. rewrite Hm by lia. reflexivity. }
    destruct (get_irq_num_max _ Hmask Hnz) as (H1 & H2 & H3).
    exists (get_irq_num (get_pending_irq_mask s)). set (p := get_irq_num _) in *.
    rewrite pending_mask_bit in H2 by (assumption || lia).
    split; [exact H1|]. split; [exact H2|]. split.
    { intros q Hq. rewrite <- pending_mask_bit by assumption. apply H3; assumption. }
    assert (Hc : u64 (p .| CAUSE_INTERRUPT) = 2 ^ 63 + p).
    { rewrite Z.lor_comm. change CAUSE_INTERRUPT with (1 * 2 ^ 63). rewrite lor_low_high by lia.
      apply u_small. unfold in_u. lia. }
    unfold raise_exception. rewrite Hc. split; [reflexivity|].
    apply (raise_exception2_spec s (2 ^ 63 + p) 0 0 Hp ltac:(lia)).
Qed.

Definition irq_example : RISCVCPUState := set_mie 0xaaa (set_mip 0x888 trap_example).

Lemma interrupt_taken_witness :
  exists p, irq_takeable irq_example p = true /\
    raise_interrupt irq_example = Some (raise_exception2 irq_example (2 ^ 63 + p) 0).
Proof.
  pose proof (interrupt_taken irq_example ltac:(split; vm_compute; (reflexivity || discriminate))
    ltac:(split; vm_compute; (reflexivity || discriminate))
    ltac:(vm_compute; split; discriminate)) as H.
  remember (raise_interrupt irq_example) as r eqn:E.
  destruct r as [t|]; [|vm_compute in E; discriminate].
  destruct H as (p & _ & Hp & _ & -> & _). exists p. split; [exact Hp|reflexivity].
Defined.
