(* ===== verification/Alu.v ===== *)
(** * Integer helpers of the interpreter

    The arithmetic and bit-manipulation helpers of
    [include/majordomo_template.h] for [XLEN = 64], and [sext], [get_field1]
    and [ctf_compute_hint] of [src/riscv_cpu.cpp].  An operation the C
    standard leaves undefined answers [None]; the builtins
    [__builtin_popcount], [__builtin_ctz] and [std::countl_zero] are their
    documented meaning. *)

From S2P Require Import Prelude RiscvDefs State.
Open Scope Z_scope.
Open Scope c_scope.

Definition XLEN := 64.

Definition shift_mask : Z := if XLEN =? 64 then 0x3f else 0x1f.

(** ** Zbb *)

Definition orc_b64 (rs : Z) : Z :=
  le_value (map (fun b => if b =? 0 then 0 else 255) (le_bytes 8 rs)).

Definition rev8_64 (rs : Z) : Z :=
  for_up (fun k rd => rd .| (((rs >> (k * 8)) .& 0xFF) << ((8 - 1 - k) * 8))) 8 0 0.

(** [rs1 >> (XLEN - shift)] is undefined for [shift = 0]. *)
Definition rol64 (rs1 rs2 : Z) : option Z :=
  let shift := rs2 mod XLEN in
  if XLEN <=? XLEN - shift then None
  else Some (u64 (rs1 << shift) .| (rs1 >> (XLEN - shift))).

Definition rolw64 (rs1 rs2 : Z) : Z :=
  let mask := 32 - 1 in
  let shamt := u32 (rs2 .& mask) in
  let v1 := u32 rs1 in
  let res32 := u32 (v1 << shamt) .| (v1 >> ((32 - shamt) .& mask)) in
  u64 (i32 res32).

Definition ror64 (rs1 rs2 : Z) : Z :=
  let shamt := u32 (rs2 .& shift_mask) in
  (rs1 >> shamt) .| u64 (rs1 << ((XLEN - shamt) .& shift_mask)).

Definition rori64 (rd rs1 shamt : Z) : Z :=
  if XLEN - 1 <? shamt then rd
  else (rs1 >> shamt) .| u64 (rs1 << ((XLEN - shamt) .& shift_mask)).

Definition roriw64 (rs1 shamt5 : Z) : Z :=
  let mask := 32 - 1 in
  let v := u32 ((rs1 >> shamt5) .| u64 (rs1 << (u64 (32 - shamt5) .& mask))) in
  u64 (i32 v).

Definition rorw64 (rs1 rs2 : Z) : Z :=
  let mask := 32 - 1 in
  let shamt := u32 (rs2 .& mask) in
  let v1 := u32 rs1 in
  let res32 := (v1 >> shamt) .| u32 (v1 << ((32 - shamt) .& mask)) in
  u64 (i32 res32).

(** ** Division; the arguments are the signed or unsigned values the C
    parameters hold. *)

Definition div32 (a b : Z) : Z :=
  if b =? 0 then -1
  else if (a =? i32 (1 << 31)) && (b =? -1) then a
  else Z.quot a b.

Definition div64 (a b : Z) : Z :=
  if b =? 0 then -1
  else if (a =? i64 (1 << 63)) && (b =? -1) then a
  else Z.quot a b.

Definition divu32 (a b : Z) : Z := if b =? 0 then u32 (-1) else a / b.
Definition divu64 (a b : Z) : Z := if b =? 0 then u64 (-1) else a / b.

Definition rem32 (a b : Z) : Z :=
  if b =? 0 then a
  else if (a =? i32 (1 << 31)) && (b =? -1) then 0
  else Z.rem a b.

Definition rem64 (a b : Z) : Z :=
  if b =? 0 then a
  else if (a =? i64 (1 << 63)) && (b =? -1) then 0
  else Z.rem a b.

Definition remu32 (a b : Z) : Z := if b =? 0 then a else a mod b.
Definition remu64 (a b : Z) : Z := if b =? 0 then a else a mod b.

(** ** Carry-less multiplication *)

Definition clmul64 (v1 v2 : Z) : Z :=
  for_up (fun k val => if (v2 >> k) has 1 then val .^ u64 (v1 << k) else val) 64 0 0.

Definition clmulh64 (v1 v2 : Z) : Z :=
  for_up (fun k val => if (v2 >> k) has 1 then val .^ (v1 >> (XLEN - k)) else val) 63 1 0.

Definition clmulr64 (v1 v2 : Z) : Z :=
  for_up (fun k val => if (v2 >> k) has 1 then val .^ (v1 >> (XLEN - k - 1)) else val) 64 0 0.

(** ** Counting *)

(** Number of set bits among the low [n]. *)
Definition popcount (n : nat) (v : Z) : Z :=
  for_up (fun k c => c + Z.b2z (Z.testbit v k)) n 0 0.

(** [__builtin_ctz]: index of the lowest set bit; undefined on zero. *)
Definition builtin_ctz (n : nat) (v : Z) : option Z := find_up (Z.testbit v) n 0.

(** [std::countl_zero] on an [n]-bit value. *)
Definition countl_zero (n v : Z) : Z := if v =? 0 then n else n - 1 - Z.log2 v.

Definition cpop64 (val : Z) : Z := popcount 64 val.
Definition cpopw64 (val : Z) : Z := popcount 32 (u32 val).
Definition ctz_64 (val : Z) : option Z := if val =? 0 then Some XLEN else builtin_ctz 64 val.
Definition ctzw64 (val : Z) : option Z := if val =? 0 then Some 32 else builtin_ctz 32 (u32 val).
Definition clz64 (val : Z) : Z := countl_zero 64 val.
Definition clzw64 (val : Z) : Z := countl_zero 32 (u32 val).

Definition sext_h64 (val : Z) : Z := i64 (u64 (val << (XLEN - 16))) >> (XLEN - 16).
Definition sext_b64 (val : Z) : Z := i64 (u64 (val << (XLEN - 8))) >> (XLEN - 8).

(** ** High products *)

(** With [HAVE_INT128]: the 128-bit product, then its high half. *)
Definition mulh64 (a b : Z) : Z := u64 (i128 (a * b) >> 64).
Definition mulhsu64 (a b : Z) : Z := u64 (i128 (a * b) >> 64).
Definition mulhu64 (a b : Z) : Z := u64 (i128 (a * b) >> 64).

(** The portable versions, used when the compiler has no 128-bit type. *)
Module Portable.

Definition mulhu64 (a b : Z) : Z :=
  let a0 := u32 a in
  let a1 := u32 (a >> 32) in
  let b0 := u32 b in
  let b1 := u32 (b >> 32) in
  let r00 := u64 (a0 * b0) in
  let r01 := u64 (a0 * b1) in
  let r10 := u64 (a1 * b0) in
  let r11 := u64 (a1 * b1) in
  let c := u64 ((r00 >> 32) + u32 r01 + u32 r10) in
  let c := u64 ((c >> 32) + (r01 >> 32) + (r10 >> 32) + u32 r11) in
  let r2 := u32 c in
  let r3 := u32 ((c >> 32) + (r11 >> 32)) in
  u64 (r3 << 32) .| r2.

Definition mulh64 (a b : Z) : Z :=
  let r1 := mulhu64 (u64 a) (u64 b) in
  let r1 := if a <? 0 then u64 (r1 - a) else r1 in
  if b <? 0 then u64 (r1 - b) else r1.

Definition mulhsu64 (a b : Z) : Z :=
  let r1 := mulhu64 (u64 a) b in
  if a <? 0 then u64 (r1 - a) else r1.

End Portable.

(** ** Immediate helpers (src/riscv_cpu.cpp) *)

(** [(val << (32 - n)) >> (32 - n)] on [int32_t]. *)
Definition sext (val n : Z) : Z := i32 (val << (32 - n)) >> (32 - n).

(** Move the field of [val] that starts at [src_pos] to
    [[dst_pos; dst_pos_max]]; every call has [dst_pos <= dst_pos_max], which
    the C [assert]s. *)
Definition get_field1 (val src_pos dst_pos dst_pos_max : Z) : Z :=
  let mask := u32 (((1 << (dst_pos_max - dst_pos + 1)) - 1) << dst_pos) in
  if src_pos <=? dst_pos
  then u32 (val << (dst_pos - src_pos)) .& mask
  else (val >> (src_pos - dst_pos)) .& mask.

Definition ctf_of_jalr (k : Z) : RISCVCTFInfo :=
  if k =? 0 then ctf_taken_jalr
  else if k =? 1 then ctf_taken_jalr_pop
  else if k =? 2 then ctf_taken_jalr_push
  else ctf_taken_jalr_pop_push.

Definition ctf_compute_hint (rd rs1 : Z) : RISCVCTFInfo :=
  let rd_link := Z.b2z ((rd =? 1) || (rd =? 5)) in
  let rs1_link := Z.b2z ((rs1 =? 1) || (rs1 =? 5)) in
  let k := ctf_of_jalr (rd_link * 2 + rs1_link) in
  if bool_decide (k = ctf_taken_jalr_pop_push) && (rs1 =? rd) then ctf_taken_jalr_push else k.

(** ** Lemmas *)

(** Dropping low bits commutes with two's-complement wrap-around. *)
Lemma high_half_wrap x : u64 (i128 x >> 64) = u64 (x >> 64).
Proof.
  unfold sN. set (v := x mod 2 ^ 128).
  assert (Hv : u64 (v >> 64) = u64 (x >> 64)).
  { apply Z.bits_inj'; intros n Hn. rewrite !u_testbit by lia.
    rewrite !Z.shiftr_spec by lia. subst v. rewrite Z.testbit_mod_pow2 by lia.
    destruct (Z.ltb_spec n 64); [|reflexivity].
    destruct (Z.ltb_spec (n + 64) 128); [reflexivity|lia]. }
  destruct (_ <? _); [exact Hv|]. rewrite <- Hv.
  rewrite !Z.shiftr_div_pow2 by lia.
  replace (v - 2 ^ 128) with (v + (- 2 ^ 64) * 2 ^ 64) by lia.
  rewrite Z.div_add by lia. unfold uN.
  replace (v / 2 ^ 64 + - 2 ^ 64) with (v / 2 ^ 64 + (-1) * 2 ^ 64) by lia.
  apply Z.mod_add; lia.
Qed.

(** Signed, mixed and unsigned high products: the three multiply-high
    helpers return bits 64..127 of the exact product of their operands, for
    every operand. *)
Theorem mulh_high_product a b :
  mulh64 a b = u64 (a * b >> 64) /\ mulhsu64 a b = u64 (a * b >> 64) /\
  mulhu64 a b = u64 (a * b >> 64).
Proof. repeat split; apply high_half_wrap. Qed.

Lemma u64_split x : in_u 64 x -> x = u32 x + 2 ^ 32 * u32 (x >> 32).
Proof.
  intros Hx. rewrite Z.shiftr_div_pow2 by lia. rewrite (u_small 32 (x / 2 ^ 32)).
  - unfold uN. pose proof (Z.div_mod x (2 ^ 32) ltac:(lia)). lia.
  - unfold in_u in *. split; [apply Z.div_pos; lia|].
    apply Z.div_lt_upper_bound; [lia|]. change (2 ^ 32 * 2 ^ 32) with (2 ^ 64). lia.
Qed.

Lemma mul32_bound x y : in_u 32 x -> in_u 32 y -> 0 <= x * y <= (2 ^ 32 - 1) * (2 ^ 32 - 1).
Proof. unfold in_u; intros; nia. Qed.

(** Adding up the partial products of two base-[2^32] numbers, with no loss. *)
Lemma schoolbook_high p00 p01 p10 p11 :
  let B := 2 ^ 32 in
  0 <= p00 <= (B - 1) * (B - 1) -> 0 <= p01 <= (B - 1) * (B - 1) ->
  0 <= p10 <= (B - 1) * (B - 1) -> 0 <= p11 <= (B - 1) * (B - 1) ->
  let c1 := p00 / B + p01 mod B + p10 mod B in
  let c2 := c1 / B + p01 / B + p10 / B + p11 mod B in
  (p00 + B * p01 + B * p10 + B * B * p11) / (B * B) =
    (c2 / B + p11 / B) * B + c2 mod B /\
  0 <= c1 < 2 ^ 64 /\ 0 <= c2 < 2 ^ 64 /\ 0 <= c2 / B + p11 / B < B.
Proof.
  intros B H00 H01 H10 H11 c1 c2.
  assert (HB : B = 4294967296) by reflexivity. clearbody B. subst B.
  pose proof (Z.div_mod p00 4294967296 ltac:(lia)).
  pose proof (Z.div_mod p01 4294967296 ltac:(lia)).
  pose proof (Z.div_mod p10 4294967296 ltac:(lia)).
  pose proof (Z.div_mod p11 4294967296 ltac:(lia)).
  pose proof (Z.div_mod c1 4294967296 ltac:(lia)).
  pose proof (Z.div_mod c2 4294967296 ltac:(lia)).
  pose proof (Z.mod_pos_bound p00 4294967296 ltac:(lia)).
  pose proof (Z.mod_pos_bound p01 4294967296 ltac:(lia)).
  pose proof (Z.mod_pos_bound p10 4294967296 ltac:(lia)).
  pose proof (Z.mod_pos_bound p11 4294967296 ltac:(lia)).
  pose proof (Z.mod_pos_bound c1 4294967296 ltac:(lia)).
  pose proof (Z.mod_pos_bound c2 4294967296 ltac:(lia)).
  split; [|subst c1 c2; repeat split; lia].
  symmetry; apply Z.div_unique with
    (r := p00 mod 4294967296 + 4294967296 * (c1 mod 4294967296)); [left; lia|].
  subst c1 c2. lia.
Qed.

(** The portable schoolbook high product agrees with the 128-bit one on
    every pair of unsigned 64-bit operands: no carry is lost. *)
Theorem mulhu_portable_equiv a b :
  in_u 64 a -> in_u 64 b -> Portable.mulhu64 a b = mulhu64 a b.
Proof.
  intros Ha Hb. unfold mulhu64. rewrite high_half_wrap.
  rewrite (u64_split a Ha) at 2. rewrite (u64_split b Hb) at 2.
  unfold Portable.mulhu64.
  set (a0 := u32 a). set (a1 := u32 (a >> 32)). set (b0 := u32 b). set (b1 := u32 (b >> 32)).
  assert (in_u 32 a0 /\ in_u 32 a1 /\ in_u 32 b0 /\ in_u 32 b1) as (Ha0 & Ha1 & Hb0 & Hb1)
    by (repeat split; apply u_range; lia).
  pose proof (mul32_bound _ _ Ha0 Hb0) as H00. pose proof (mul32_bound _ _ Ha0 Hb1) as H01.
  pose proof (mul32_bound _ _ Ha1 Hb0) as H10. pose proof (mul32_bound _ _ Ha1 Hb1) as H11.
  replace ((a0 + 2 ^ 32 * a1) * (b0 + 2 ^ 32 * b1))
    with (a0 * b0 + 2 ^ 32 * (a0 * b1) + 2 ^ 32 * (a1 * b0) + 2 ^ 32 * 2 ^ 32 * (a1 * b1)) by ring.
  set (p00 := a0 * b0) in *. set (p01 := a0 * b1) in *.
  set (p10 := a1 * b0) in *. set (p11 := a1 * b1) in *.
  clearbody p00 p01 p10 p11.
  rewrite !(u_small 64 p00), !(u_small 64 p01), !(u_small 64 p10), !(u_small 64 p11)
    by (unfold in_u; lia).
  destruct (schoolbook_high p00 p01 p10 p11) as (Hq & Hc1 & Hc2 & Hh); try assumption.
  rewrite !Z.shiftr_div_pow2 by lia.
  change (u32 p01) with (p01 mod 2 ^ 32). change (u32 p10) with (p10 mod 2 ^ 32).
  change (u32 p11) with (p11 mod 2 ^ 32).
  rewrite (u_small 64 (p00 / 2 ^ 32 + _ + _)) by exact Hc1.
  rewrite (u_small 64 (_ / 2 ^ 32 + p01 / 2 ^ 32 + _ + _)) by exact Hc2.
  change (2 ^ 64) with (2 ^ 32 * 2 ^ 32). rewrite Hq.
  set (c2 := _ / 2 ^ 32 + p01 / 2 ^ 32 + p10 / 2 ^ 32 + p11 mod 2 ^ 32) in *.
  rewrite (u_small 32 (c2 / 2 ^ 32 + p11 / 2 ^ 32)) by exact Hh.
  rewrite Z.shiftl_mul_pow2 by lia. set (h := c2 / 2 ^ 32 + p11 / 2 ^ 32) in *.
  pose proof (Z.mod_pos_bound c2 (2 ^ 32) ltac:(lia)).
  rewrite (u_small 64 (h * 2 ^ 32)) by (unfold in_u; lia).
  unfold uN. rewrite lor_low_high by lia. symmetry; apply Z.mod_small. lia.
Qed.

Lemma mulhu_portable_equiv_witness :
  Portable.mulhu64 (u64 (-1)) (u64 (-3)) = mulhu64 (u64 (-1)) (u64 (-3)).
Proof. apply mulhu_portable_equiv; apply u_range; lia. Defined.

(** The fallback's signed high product subtracts the wrong operand; see
    [include/majordomo_template.h] lines 443-459. *)
Remark mulh_portable_differs : Portable.mulh64 (-1) 2 <> mulh64 (-1) 2.
Proof. vm_compute. discriminate. Qed.

Lemma divrem_spec w a b q r : 1 < w ->
  - 2 ^ (w - 1) <= a < 2 ^ (w - 1) -> - 2 ^ (w - 1) <= b < 2 ^ (w - 1) ->
  q = (if b =? 0 then -1 else if (a =? - 2 ^ (w - 1)) && (b =? -1) then a else Z.quot a b) ->
  r = (if b =? 0 then a else if (a =? - 2 ^ (w - 1)) && (b =? -1) then 0 else Z.rem a b) ->
  (- 2 ^ (w - 1) <= q < 2 ^ (w - 1)) /\ (- 2 ^ (w - 1) <= r < 2 ^ (w - 1)) /\
  (b = 0 -> q = -1 /\ r = a) /\
  (b <> 0 -> uN w (b * q + r) = uN w a /\ Z.abs r < Z.abs b /\ 0 <= r * a).
Proof.
  intros Hw Ha Hb -> ->.
  assert (Hp : 2 ^ w = 2 * 2 ^ (w - 1)) by (rewrite <- Z.pow_succ_r by lia; f_equal; lia).
  pose proof (Z.pow_le_mono_r 2 1 (w - 1) ltac:(lia) ltac:(lia)) as Hone. change (2 ^ 1) with 2 in Hone.
  destruct (Z.eqb_spec b 0) as [->|Hb0]; [repeat split; lia|].
  destruct (_ && _) eqn:E; bool_hyps.
  - subst. repeat split; try lia. unfold uN.
    rewrite <- (Z.mod_add (-1 * - 2 ^ (w - 1) + 0) (-1)) by lia. f_equal; lia.
  - pose proof (Z.quot_rem' a b). pose proof (Z.rem_bound_abs a b Hb0).
    pose proof (Z.rem_sign_nz a b Hb0) as Hs.
    assert (Hn : a <> - 2 ^ (w - 1) \/ b <> -1)
      by (apply andb_false_iff in E as [E|E]; bool_hyps; auto).
    repeat split; try lia; try nia. (* b = 0 *)
    + unfold uN; f_equal; lia.
Qed.

(** Division and remainder, signed: for every pair of 64-bit (32-bit)
    operands quotient and remainder are in range; a zero divisor gives [-1] and
    the dividend; any other divisor gives [b * q + r = a] modulo the width
    (exactly, but for the overflow case), [|r| < |b|] and a remainder whose
    sign is the dividend's. *)
Theorem div_rem_signed a b :
  (- 2 ^ 63 <= a < 2 ^ 63 -> - 2 ^ 63 <= b < 2 ^ 63 ->
   (- 2 ^ 63 <= div64 a b < 2 ^ 63) /\ (- 2 ^ 63 <= rem64 a b < 2 ^ 63) /\
   (b = 0 -> div64 a b = -1 /\ rem64 a b = a) /\
   (b <> 0 -> u64 (b * div64 a b + rem64 a b) = u64 a /\
              Z.abs (rem64 a b) < Z.abs b /\ 0 <= rem64 a b * a)) /\
  (- 2 ^ 31 <= a < 2 ^ 31 -> - 2 ^ 31 <= b < 2 ^ 31 ->
   (- 2 ^ 31 <= div32 a b < 2 ^ 31) /\ (- 2 ^ 31 <= rem32 a b < 2 ^ 31) /\
   (b = 0 -> div32 a b = -1 /\ rem32 a b = a) /\
   (b <> 0 -> u32 (b * div32 a b + rem32 a b) = u32 a /\
              Z.abs (rem32 a b) < Z.abs b /\ 0 <= rem32 a b * a)).
Proof.
  split; intros Ha Hb.
  - apply (divrem_spec 64 a b); (lia || assumption || reflexivity).
  - apply (divrem_spec 32 a b); (lia || assumption || reflexivity).
Qed.

Lemma div_rem_signed_witness :
  Z.abs (rem64 (-7) 2) < Z.abs 2 /\ u32 (-1 * div32 (-2 ^ 31) (-1) + rem32 (-2 ^ 31) (-1)) = u32 (-2 ^ 31).
Proof.
  split.
  - apply (div_rem_signed (-7) 2); lia.
  - apply (div_rem_signed (-2 ^ 31) (-1)); lia.
Defined.

(** Bit [n] of a [w]-bit value rotated right by [k]. *)
Lemma rotr_bit w x k n : 0 < w -> in_u w x -> 0 <= k < w -> 0 <= n < w ->
  Z.testbit ((x >> k) .| uN w (x << (w - k))) n = Z.testbit x ((n + k) mod w).
Proof.
  intros Hw Hx Hk Hn. apply in_u_testbit in Hx as [_ Hx]; [|lia].
  rewrite Z.lor_spec, u_testbit, Z.shiftr_spec by lia.
  destruct (Z.ltb_spec n w); [|lia]. simpl.
  destruct (Z.ltb_spec (n + k) w).
  - rewrite Z.shiftl_spec_low, orb_false_r, Z.mod_small by lia. reflexivity.
  - rewrite Hx by lia. rewrite Z.shiftl_spec by lia. simpl. f_equal.
    rewrite <- (Z.mod_add (n + k) (-1)) by lia. rewrite Z.mod_small; lia.
Qed.

Lemma rot_amount w e k : w = 2 ^ e -> 0 <= e -> 0 <= k < w ->
  ((w - k) .& (w - 1)) = if k =? 0 then 0 else w - k.
Proof.
  intros -> He Hk. replace (2 ^ e - 1) with (Z.ones e) by (rewrite Z.ones_equiv; lia).
  rewrite Z.land_ones by lia. destruct (Z.eqb_spec k 0) as [->|].
  - rewrite Z.sub_0_r. apply Z_mod_same_full.
  - apply Z.mod_small; lia.
Qed.

Lemma ror_bit w e x k n : w = 2 ^ e -> 0 <= e -> in_u w x -> 0 <= k < w -> 0 <= n < w ->
  Z.testbit ((x >> k) .| uN w (x << ((w - k) .& (w - 1)))) n = Z.testbit x ((n + k) mod w).
Proof.
  intros He He0 Hx Hk Hn. rewrite (rot_amount w e k) by assumption.
  destruct (Z.eqb_spec k 0) as [->|]; [|apply rotr_bit; assumption || lia].
  rewrite Z.shiftr_0_r, Z.shiftl_0_r, u_small, Z.lor_diag, Z.add_0_r, Z.mod_small by assumption.
  reflexivity.
Qed.

(** Rotate right ([ror], [rori]): bit [n] of the result is bit [n + shift]
    modulo 64 of the operand, for a shift amount taken modulo 64; the immediate
    form agrees for an amount below 64 and leaves the destination value alone
    otherwise. *)
Theorem rotate_right_bits x y d n :
  in_u 64 x -> 0 <= n < 64 ->
  Z.testbit (ror64 x y) n = Z.testbit x ((n + y mod 64) mod 64) /\
  (0 <= y < 64 -> rori64 d x y = ror64 x y) /\
  (64 <= y -> rori64 d x y = d).
Proof.
  intros Hx Hn. unfold ror64, rori64. change shift_mask with (XLEN - 1).
  assert (Hy : u32 (y .& (XLEN - 1)) = y mod 64).
  { change (XLEN - 1) with (Z.ones 6). rewrite Z.land_ones by lia. apply u_small.
    change (2 ^ 6) with 64. pose proof (Z.mod_pos_bound y 64 ltac:(lia)). unfold in_u. lia. }
  rewrite Hy. repeat split.
  - apply (ror_bit 64 6); try assumption; try lia. apply Z.mod_pos_bound; lia.
  - intros. rewrite (Z.mod_small y 64) by lia.
    destruct (Z.ltb_spec (XLEN - 1) y); [unfold XLEN in *; lia|reflexivity].
  - intros. destruct (Z.ltb_spec (XLEN - 1) y); [reflexivity|unfold XLEN in *; lia].
Qed.

(** Bits of a value sign-extended from 32 to 64 bits. *)
Lemma sext32_bit v n : in_u 32 v -> 0 <= n < 64 ->
  Z.testbit (u64 (i32 v)) n = Z.testbit v (Z.min n 31).
Proof.
  intros Hv Hn. rewrite u_testbit by lia. destruct (Z.ltb_spec n 64); [|lia]. rewrite andb_true_l.
  assert (E : Z.testbit v 31 = negb (v <? 2 ^ 31)).
  { destruct (Z.ltb_spec v (2 ^ 31)); cbn [negb].
    - assert (in_u 31 v) as Hs by (unfold in_u in *; lia).
      apply in_u_testbit in Hs as [_ Hs]; [|lia]. apply Hs; lia.
    - rewrite Z.testbit_true by lia. unfold in_u in Hv.
      assert (v / 2 ^ 31 = 1) as -> by (symmetry; apply (Z.div_unique _ _ _ (v - 2 ^ 31)); lia).
      reflexivity. }
  unfold sN. rewrite Z.mod_small by exact Hv. change (2 ^ (32 - 1)) with (2 ^ 31).
  destruct (v <? 2 ^ 31) eqn:Es; cbn [negb] in E.
  - destruct (Z.ltb_spec n 32).
    + destruct (Z.eq_dec n 31) as [->|]; [reflexivity|]. rewrite Z.min_l by lia. reflexivity.
    + rewrite Z.min_r, E by lia. apply in_u_testbit in Hv as [_ Hv]; [|lia]. apply Hv; lia.
  - replace (v - 2 ^ 32) with (-1 * 2 ^ 32 + v) by lia.
    rewrite <- lor_low_high by exact Hv || lia.
    rewrite Z.lor_spec, <- Z.shiftl_mul_pow2 by lia.
    destruct (Z.ltb_spec n 32).
    + rewrite Z.shiftl_spec_low by lia. simpl. rewrite Z.min_l by lia. reflexivity.
    + rewrite Z.shiftl_spec, Z.bits_m1 by lia. rewrite Z.min_r, E by lia. reflexivity.
Qed.

(** Rotate word ([rorw], [rolw]): the low 32 bits are the rotated low word
    of the operand and the upper half repeats bit 31. *)
Theorem rotate_word_bits x y n :
  0 <= n < 64 ->
  Z.testbit (rorw64 x y) n = Z.testbit (u32 x) ((Z.min n 31 + y mod 32) mod 32) /\
  Z.testbit (rolw64 x y) n = Z.testbit (u32 x) ((Z.min n 31 - y mod 32) mod 32).
Proof.
  intros Hn. unfold rorw64, rolw64.
  assert (Hy : u32 (y .& (32 - 1)) = y mod 32).
  { change (32 - 1) with (Z.ones 5). rewrite Z.land_ones by lia. apply u_small.
    change (2 ^ 5) with 32. pose proof (Z.mod_pos_bound y 32 ltac:(lia)). unfold in_u. lia. }
  rewrite Hy. pose proof (Z.mod_pos_bound y 32 ltac:(lia)) as Hk. set (k := y mod 32) in *.
  assert (Hu : in_u 32 (u32 x)) by (apply u_range; lia). set (v := u32 x) in *.
  split.
  - rewrite sext32_bit; [|auto with range|lia].
    apply (ror_bit 32 5); try assumption; lia.
  - rewrite sext32_bit; [|apply in_u_lor; [apply u_range; lia|apply in_u_shiftr; [|exact Hu]]|lia].
    2:{ rewrite (rot_amount 32 5 k) by lia. destruct (Z.eqb_spec k 0); lia. }
    rewrite Z.lor_comm.
    replace (v >> ((32 - k) .& (32 - 1)) .| u32 (v << k))
      with ((v >> ((32 - k) .& (32 - 1))) .|
            u32 (v << ((32 - (32 - k) .& (32 - 1)) .& (32 - 1)))).
    + rewrite (ror_bit 32 5); try assumption; try lia; rewrite (rot_amount 32 5) by lia.
      * f_equal. destruct (Z.eqb_spec k 0) as [->|]; [rewrite Z.sub_0_r, Z.add_0_r; reflexivity|].
        rewrite <- (Z.mod_add (Z.min n 31 - k) 1) by lia. f_equal; lia.
      * destruct (Z.eqb_spec k 0); lia.
    + rewrite (rot_amount 32 5 k) by lia. f_equal. f_equal. f_equal.
      destruct (Z.eqb_spec k 0) as [->|]; [reflexivity|].
      rewrite (rot_amount 32 5) by lia. destruct (Z.eqb_spec (32 - k) 0); lia.
Qed.

(** The exact carry-less product of [v1] and the low 64 bits of [v2]. *)
Definition clmul_exact (v1 v2 : Z) : Z :=
  for_up (fun k val => if (v2 >> k) has 1 then val .^ (v1 << k) else val) 64 0 0.

(** An XOR-linear map can be pushed through an XOR accumulation. *)
Lemma for_up_xor_linear (g : Z -> Z) (c : Z -> bool) (f : Z -> Z) n lo v :
  (forall x y, g (x .^ y) = g x .^ g y) ->
  g (for_up (fun k val => if c k then val .^ f k else val) n lo v) =
  for_up (fun k val => if c k then val .^ g (f k) else val) n lo (g v).
Proof.
  intros Hg. revert lo v; induction n as [|n IH]; intros lo v; [reflexivity|].
  cbn [for_up]. rewrite IH. f_equal. destruct (c lo); [apply Hg|reflexivity].
Qed.

(** Carry-less multiplication: [clmul], [clmulh] and [clmulr] are the low
    half, the high half and bits 63..126 of the exact carry-less product. *)
Theorem clmul_halves v1 v2 : in_u 64 v1 ->
  clmul64 v1 v2 = u64 (clmul_exact v1 v2) /\
  clmulh64 v1 v2 = clmul_exact v1 v2 >> 64 /\
  clmulr64 v1 v2 = clmul_exact v1 v2 >> 63.
Proof.
  intros Hv. unfold clmul_exact. repeat split.
  - rewrite (for_up_xor_linear (uN 64)) by (intros; apply u_lxor; lia). reflexivity.
  - rewrite (for_up_xor_linear (fun x => x >> 64)) by (intros; apply Z.shiftr_lxor).
    rewrite Z.shiftr_0_l. unfold clmulh64.
    rewrite (for_up_step _ 63 0 0). cbv beta.
    assert ((v1 << 0) >> 64 = 0) as ->.
    { rewrite Z.shiftl_0_r, Z.shiftr_div_pow2 by lia. apply Z.div_small, Hv. }
    rewrite Z.lxor_0_r. destruct (_ has _);
      apply for_up_ext; intros; rewrite shl_shr by lia; reflexivity.
  - rewrite (for_up_xor_linear (fun x => x >> 63)) by (intros; apply Z.shiftr_lxor).
    rewrite Z.shiftr_0_l. apply for_up_ext; intros k b Hk. rewrite shl_shr by lia.
    unfold XLEN. replace (64 - k - 1) with (63 - k) by lia. reflexivity.
Qed.

(** [rev8] reverses the eight bytes of its operand. *)
Theorem rev8_bytes x : rev8_64 x = le_value (rev (le_bytes 8 x)).
Proof.
  unfold rev8_64. cbn [for_up le_bytes rev app le_value].
  change 0xFF with (Z.ones 8). rewrite !Z.land_ones by lia.
  rewrite !Z.shiftl_lor, !Z.shiftl_shiftl, !Z.shiftr_shiftr by lia.
  cbv [Z.mul Z.add Z.sub Z.opp Pos.mul Pos.add Pos.succ Z.pos_sub Pos.pred_double Z.double Z.succ_double Z.pred_double Pos.add_carry].
  rewrite Z.shiftr_0_r, !Z.shiftl_0_r, !Z.shiftl_0_l, !Z.lor_0_r, !Z.lor_0_l.
  unfold uN.
  apply Z.bits_inj'; intros n _. rewrite !Z.lor_spec.
  repeat match goal with |- context [Z.testbit ?a n] => generalize (Z.testbit a n); intro end.
  btauto.
Qed.

Lemma rotate_right_bits_witness :
  Z.testbit (ror64 1 (64 + 3)) 61 = true /\ rori64 7 1 3 = ror64 1 3 /\ rori64 7 1 64 = 7.
Proof.
  pose proof (fun n (H : 0 <= n < 64) => rotate_right_bits 1 (64 + 3) 7 n ltac:(split; reflexivity || lia) H) as H1.
  pose proof (rotate_right_bits 1 3 7 0 ltac:(split; reflexivity || lia) ltac:(lia)) as H2.
  pose proof (rotate_right_bits 1 64 7 0 ltac:(split; reflexivity || lia) ltac:(lia)) as H3.
  split; [rewrite (proj1 (H1 61 ltac:(lia))); reflexivity|].
  split; [apply H2; lia|apply H3; lia].
Defined.

Lemma rotate_word_bits_witness : Z.testbit (rorw64 1 1) 40 = true.
Proof. rewrite (proj1 (rotate_word_bits 1 1 40 ltac:(lia))). reflexivity. Defined.

Lemma clmul_halves_witness :
  clmulh64 (2 ^ 63) 6 = clmul_exact (2 ^ 63) 6 >> 64 /\ clmul_exact (2 ^ 63) 6 >> 64 = 3.
Proof.
  split; [apply (clmul_halves (2 ^ 63) 6); split; reflexivity || lia|reflexivity].
Defined.
