(* ===== verification/SoftFp.v ===== *)
(** * Software floating point

    [include/softfp_template.h], [include/softfp_template_icvt.h] and
    [src/softfp.cpp].  The template is instantiated for [F_SIZE = 32] and
    [F_SIZE = 64]; a format [F] carries its parameters.  [HAVE_INT128] is
    defined, so [F_ULONG] is the double-width type.  The accrued exception
    flags, [*pfflags], are threaded through the monad [FP]; a failing [assert]
    is [None]. *)

From S2P Require Import Prelude Alu.
Open Scope Z_scope.
Open Scope c_scope.

Definition FP (A : Type) : Type := Z -> option (A * Z).
Definition fret {A} (a : A) : FP A := fun fl => Some (a, fl).
Definition fbind {A B} (m : FP A) (k : A -> FP B) : FP B := fun fl =>
  match m fl with Some (a, fl') => k a fl' | None => None end.
(** [*pfflags |= m] *)
Definition raise_flag (m : Z) : FP unit := fun fl => Some (tt, fl .| m).
Definition raise_if (b : bool) (m : Z) : FP unit := if b then raise_flag m else fret tt.
Definition fassert (b : bool) : FP unit := fun fl => if b then Some (tt, fl) else None.

Declare Scope fp_scope.
Delimit Scope fp_scope with fp.
Notation "'do!' x ':=' m 'in' k" := (fbind m (fun x => k))
  (at level 10, x pattern, m at level 100, k at level 200) : fp_scope.
Notation "m ;; k" := (fbind m (fun _ => k)) (at level 100, k at level 200, right associativity) : fp_scope.
Open Scope fp_scope.

(** [RoundingModeEnum] (include/softfp.h); the instruction's value is kept as
    an integer, as the C casts it. *)
Definition RM_RNE := 0.
Definition RM_RTZ := 1.
Definition RM_RDN := 2.
Definition RM_RUP := 3.
Definition RM_RMM := 4.

Definition FFLAG_INVALID_OP := 1 << 4.
Definition FFLAG_DIVIDE_ZERO := 1 << 3.
Definition FFLAG_OVERFLOW := 1 << 2.
Definition FFLAG_UNDERFLOW := 1 << 1.
Definition FFLAG_INEXACT := 1 << 0.

Definition FCLASS_NINF := 1 << 0.
Definition FCLASS_NNORMAL := 1 << 1.
Definition FCLASS_NSUBNORMAL := 1 << 2.
Definition FCLASS_NZERO := 1 << 3.
Definition FCLASS_PZERO := 1 << 4.
Definition FCLASS_PSUBNORMAL := 1 << 5.
Definition FCLASS_PNORMAL := 1 << 6.
Definition FCLASS_PINF := 1 << 7.
Definition FCLASS_SNAN := 1 << 8.
Definition FCLASS_QNAN := 1 << 9.

(** The parameters the template is included with. *)
Record fmt := mkFmt { F_SIZE : Z; MANT_SIZE : Z; EXP_SIZE : Z }.
Definition sf32 : fmt := mkFmt 32 23 8.
Definition sf64 : fmt := mkFmt 64 52 11.

(** [clz32], [clz64] of src/softfp.cpp: [n] for zero. *)
Definition clz (n a : Z) : Z := if a =? 0 then n else n - 1 - Z.log2 a.

Section Template.
Variable F : fmt.

Definition EXP_MASK : Z := (1 << EXP_SIZE F) - 1.
Definition MANT_MASK : Z := (1 << MANT_SIZE F) - 1.
Definition SIGN_MASK : Z := 1 << (F_SIZE F - 1).
Definition IMANT_SIZE : Z := F_SIZE F - 2.
Definition RND_SIZE : Z := IMANT_SIZE - MANT_SIZE F.
Definition QNAN_MASK : Z := 1 << (MANT_SIZE F - 1).
Definition F_QNAN : Z := (EXP_MASK << MANT_SIZE F) .| (1 << (MANT_SIZE F - 1)).

(** Truncation to [F_UINT]. *)
Definition fu (x : Z) : Z := uN (F_SIZE F) x.

Definition pack_sf (a_sign a_exp a_mant : Z) : Z :=
  fu (a_sign << (F_SIZE F - 1)) .| fu (a_exp << MANT_SIZE F) .| (a_mant .& MANT_MASK).

(** The fields [unpack_sf] extracts. *)
Definition sign_of (a : Z) : Z := a >> (F_SIZE F - 1).
Definition exp_of (a : Z) : Z := (a >> MANT_SIZE F) .& EXP_MASK.
Definition mant_of (a : Z) : Z := a .& MANT_MASK.
Definition unpack_sf (a : Z) : Z * Z * Z := (sign_of a, exp_of a, mant_of a).

Definition rshift_rnd (a d : Z) : Z :=
  if negb (d =? 0) then
    if F_SIZE F <=? d then Z.b2z (nz a)
    else
      let mask := (1 << d) - 1 in
      (a >> d) .| Z.b2z (nz (a .& mask))
  else a.

(** The amount added before the low bits are dropped. *)
Definition rnd_addend (a_sign rm : Z) : Z :=
  if (rm =? RM_RNE) || (rm =? RM_RMM) then 1 << (RND_SIZE - 1)
  else if rm =? RM_RTZ then 0
  else if nz (a_sign .^ (rm .& 1)) then (1 << RND_SIZE) - 1 else 0.

(** The rounding step shared by [round_pack_sf] and the conversions to
    integers: add, drop [RND_SIZE] bits, ties to even. *)
Definition rnd_mant (a_mant addend rnd_bits rm : Z) : Z :=
  let m := fu (a_mant + addend) >> RND_SIZE in
  if (rm =? RM_RNE) && (rnd_bits =? (1 << (RND_SIZE - 1))) then m .&~ 1 else m.

(** The tail of [round_pack_sf], from [if (rnd_bits != 0)] on. *)
Definition round_finish (a_sign a_exp a_mant addend rnd_bits rm : Z) : FP Z :=
  raise_if (nz rnd_bits) FFLAG_INEXACT ;;
  let a_mant := rnd_mant a_mant addend rnd_bits rm in
  let a_exp := a_exp + (a_mant >> (MANT_SIZE F + 1)) in
  if a_mant <=? MANT_MASK then fret (pack_sf a_sign 0 a_mant)
  else if EXP_MASK <=? a_exp then
    raise_flag (FFLAG_OVERFLOW .| FFLAG_INEXACT) ;;
    (if addend =? 0 then fret (pack_sf a_sign (EXP_MASK - 1) MANT_MASK)
     else fret (pack_sf a_sign EXP_MASK 0))
  else fret (pack_sf a_sign a_exp a_mant).

Definition round_pack_sf (a_sign a_exp a_mant rm : Z) : FP Z :=
  let addend := rnd_addend a_sign rm in
  if a_exp <=? 0 then
    let is_subnormal := (a_exp <? 0) || (fu (a_mant + addend) <? (1 << (F_SIZE F - 1))) in
    let diff := 1 - a_exp in
    let a_mant := rshift_rnd a_mant diff in
    let rnd_bits := a_mant .& ((1 << RND_SIZE) - 1) in
    raise_if (is_subnormal && nz rnd_bits) FFLAG_UNDERFLOW ;;
    round_finish a_sign 1 a_mant addend rnd_bits rm
  else round_finish a_sign a_exp a_mant addend (a_mant .& ((1 << RND_SIZE) - 1)) rm.

Definition normalize_sf (a_sign a_exp a_mant rm : Z) : FP Z :=
  let shift := clz (F_SIZE F) a_mant - (F_SIZE F - 1 - IMANT_SIZE) in
  fassert (0 <=? shift) ;;
  round_pack_sf a_sign (a_exp - shift) (fu (a_mant << shift)) rm.

Definition normalize2_sf (a_sign a_exp a_mant1 a_mant0 rm : Z) : FP Z :=
  let l := if a_mant1 =? 0 then F_SIZE F + clz (F_SIZE F) a_mant0 else clz (F_SIZE F) a_mant1 in
  let shift := l - (F_SIZE F - 1 - IMANT_SIZE) in
  fassert (0 <=? shift) ;;
  let a_exp := a_exp - shift in
  let m :=
    if shift =? 0 then a_mant1 .| Z.b2z (nz a_mant0)
    else if shift <? F_SIZE F then
      fu (a_mant1 << shift) .| (a_mant0 >> (F_SIZE F - shift)) .| Z.b2z (nz (fu (a_mant0 << shift)))
    else fu (a_mant0 << (shift - F_SIZE F)) in
  round_pack_sf a_sign a_exp m rm.

Definition issignan_sf (a : Z) : bool :=
  let a_exp1 := (a >> (MANT_SIZE F - 1)) .& ((1 << (EXP_SIZE F + 1)) - 1) in
  (a_exp1 =? 2 * EXP_MASK) && nz (mant_of a).

Definition isnan_sf (a : Z) : bool := (exp_of a =? EXP_MASK) && nz (mant_of a).

(** [*pfflags |= FFLAG_INVALID_OP; return F_QNAN;] *)
Definition invalid : FP Z := raise_flag FFLAG_INVALID_OP ;; fret F_QNAN.

(** A NaN result; a signalling operand raises the invalid flag. *)
Definition nan_result (sig : bool) : FP Z := raise_if sig FFLAG_INVALID_OP ;; fret F_QNAN.

(** ** Addition *)

(** [add_sf] once [abs(a) >= abs(b)]. *)
Definition add_ordered (a b rm : Z) : FP Z :=
  let a_sign := sign_of a in
  let b_sign := sign_of b in
  let a_exp := exp_of a in
  let b_exp := exp_of b in
  let a_mant := fu (mant_of a << 3) in
  let b_mant := fu (mant_of b << 3) in
  if a_exp =? EXP_MASK then
    if nz a_mant then nan_result (negb (a_mant has (QNAN_MASK << 3)) || issignan_sf b)
    else if (b_exp =? EXP_MASK) && negb (a_sign =? b_sign) then invalid
    else fret a
  else
    let a_mant := if a_exp =? 0 then a_mant else a_mant .| (1 << (MANT_SIZE F + 3)) in
    let a_exp := if a_exp =? 0 then 1 else a_exp in
    let b_mant := if b_exp =? 0 then b_mant else b_mant .| (1 << (MANT_SIZE F + 3)) in
    let b_exp := if b_exp =? 0 then 1 else b_exp in
    let b_mant := rshift_rnd b_mant (a_exp - b_exp) in
    let r_mant := if a_sign =? b_sign then fu (a_mant + b_mant) else fu (a_mant - b_mant) in
    let r_sign :=
      if negb (a_sign =? b_sign) && (r_mant =? 0) then Z.b2z (rm =? RM_RDN) else a_sign in
    normalize_sf r_sign (a_exp + (RND_SIZE - 3)) r_mant rm.

Definition add_sf (a b rm : Z) : FP Z :=
  if (a .&~ SIGN_MASK) <? (b .&~ SIGN_MASK) then add_ordered b a rm else add_ordered a b rm.

Definition sub_sf (a b rm : Z) : FP Z := add_sf a (b .^ SIGN_MASK) rm.

(** Exponent and mantissa of a non-zero subnormal, normalised. *)
Definition normalize_subnormal_sf (a_mant : Z) : Z * Z :=
  let shift := MANT_SIZE F - (F_SIZE F - 1 - clz (F_SIZE F) a_mant) in
  (1 - shift, fu (a_mant << shift)).

(** The exponent and mantissa of a finite non-zero operand. *)
Definition norm_operand (a_exp a_mant : Z) : Z * Z :=
  if a_exp =? 0 then normalize_subnormal_sf a_mant
  else (a_exp, a_mant .| (1 << MANT_SIZE F)).

(** ** Multiplication *)

(** High and low words of the double-width product. *)
Definition mul_u (a b : Z) : Z * Z :=
  let r := uN (2 * F_SIZE F) (a * b) in (r >> F_SIZE F, fu r).

Definition is_zero (e m : Z) : bool := (e =? 0) && (m =? 0).

Definition mul_sf (a b rm : Z) : FP Z :=
  let r_sign := sign_of a .^ sign_of b in
  let a_exp := exp_of a in
  let b_exp := exp_of b in
  let a_mant := mant_of a in
  let b_mant := mant_of b in
  if (a_exp =? EXP_MASK) || (b_exp =? EXP_MASK) then
    if isnan_sf a || isnan_sf b then nan_result (issignan_sf a || issignan_sf b)
    else if (a_exp =? EXP_MASK) && is_zero b_exp b_mant
            || (b_exp =? EXP_MASK) && is_zero a_exp a_mant then invalid
    else fret (pack_sf r_sign EXP_MASK 0)
  else if is_zero a_exp a_mant then fret (pack_sf r_sign 0 0)
  else
    let '(a_exp, a_mant) := norm_operand a_exp a_mant in
    if is_zero b_exp b_mant then fret (pack_sf r_sign 0 0)
    else
      let '(b_exp, b_mant) := norm_operand b_exp b_mant in
      let r_exp := a_exp + b_exp - (1 << (EXP_SIZE F - 1)) + 2 in
      let '(hi, lo) := mul_u (fu (a_mant << RND_SIZE)) (fu (b_mant << (RND_SIZE + 1))) in
      normalize_sf r_sign r_exp (hi .| Z.b2z (nz lo)) rm.

(** ** Fused multiply-add *)

(** The right shift of the smaller operand's double word. *)
Definition shift_double (m1 m0 shift : Z) : Z * Z :=
  if 2 * F_SIZE F <=? shift then (0, Z.b2z (nz (m0 .| m1)))
  else if F_SIZE F + 1 <=? shift then (0, rshift_rnd m1 (shift - F_SIZE F))
  else if shift =? F_SIZE F then (0, m1 .| Z.b2z (nz m0))
  else if negb (shift =? 0) then
    let mask := (1 << shift) - 1 in
    (m1 >> shift,
     fu (m1 << (F_SIZE F - shift)) .| (m0 >> shift) .| Z.b2z (nz (m0 .& mask)))
  else (m1, m0).

(** Add or subtract two aligned double words and normalise. *)
Definition fma_combine (r_sign r_exp r_mant1 r_mant0 c_sign c_mant1 c_mant0 rm : Z) : FP Z :=
  if r_sign =? c_sign then
    let m0 := fu (r_mant0 + c_mant0) in
    let m1 := fu (r_mant1 + (c_mant1 + Z.b2z (m0 <? c_mant0))) in
    normalize2_sf r_sign r_exp m1 m0 rm
  else
    let m0 := fu (r_mant0 - c_mant0) in
    let m1 := fu (r_mant1 - c_mant1 - Z.b2z (r_mant0 <? m0)) in
    let r_sign := if (m0 .| m1) =? 0 then Z.b2z (rm =? RM_RDN) else r_sign in
    normalize2_sf r_sign r_exp m1 m0 rm.

(** The sum of the exact product [r] and a normalised non-zero [c]. *)
Definition fma_add (r_sign r_exp r_mant1 r_mant0 c_sign c_exp c_mant rm : Z) : FP Z :=
  let c_exp := c_exp + 1 in
  let c_mant1 := fu (c_mant << (RND_SIZE - 1)) in
  if (c_exp <? r_exp) || ((r_exp =? c_exp) && (c_mant1 <=? r_mant1)) then
    let '(c1, c0) := shift_double c_mant1 0 (r_exp - c_exp) in
    fma_combine r_sign r_exp r_mant1 r_mant0 c_sign c1 c0 rm
  else
    let '(r1, r0) := shift_double r_mant1 r_mant0 (c_exp - r_exp) in
    fma_combine c_sign c_exp c_mant1 0 r_sign r1 r0 rm.

(** The branch of [fma_sf] for an infinite or NaN operand. *)
Definition fma_special (a b c : Z) : FP Z :=
  let r_sign := sign_of a .^ sign_of b in
  let inf x := exp_of x =? EXP_MASK in
  let zero x := is_zero (exp_of x) (mant_of x) in
  if zero a && inf b && (mant_of b =? 0) || zero b && inf a && (mant_of a =? 0) then invalid
  else if isnan_sf a || isnan_sf b || isnan_sf c
  then nan_result (issignan_sf a || issignan_sf b || issignan_sf c)
  else if inf a && zero b || inf b && zero a
          || (inf a || inf b) && (inf c && negb (r_sign =? sign_of c)) then invalid
  else if inf c then fret (pack_sf (sign_of c) EXP_MASK 0)
  else fret (pack_sf r_sign EXP_MASK 0).

Definition fma_sf (a b c rm : Z) : FP Z :=
  let r_sign := sign_of a .^ sign_of b in
  if (exp_of a =? EXP_MASK) || (exp_of b =? EXP_MASK) || (exp_of c =? EXP_MASK)
  then fma_special a b c
  else if is_zero (exp_of a) (mant_of a) || is_zero (exp_of b) (mant_of b) then
    if is_zero (exp_of c) (mant_of c)
    then fret (pack_sf (if negb (sign_of c =? r_sign) then Z.b2z (rm =? RM_RDN) else r_sign) 0 0)
    else fret c
  else
    let '(a_exp, a_mant) := norm_operand (exp_of a) (mant_of a) in
    let '(b_exp, b_mant) := norm_operand (exp_of b) (mant_of b) in
    let r_exp := a_exp + b_exp - (1 << (EXP_SIZE F - 1)) + 3 in
    let '(m1, m0) := mul_u (fu (a_mant << RND_SIZE)) (fu (b_mant << RND_SIZE)) in
    let small := m1 <? (1 << (F_SIZE F - 3)) in
    let r_mant1 := if small then fu (m1 << 1) .| (m0 >> (F_SIZE F - 1)) else m1 in
    let r_mant0 := if small then fu (m0 << 1) else m0 in
    let r_exp := if small then r_exp - 1 else r_exp in
    if is_zero (exp_of c) (mant_of c)
    then normalize_sf r_sign r_exp (r_mant1 .| Z.b2z (nz r_mant0)) rm
    else
      let '(c_exp, c_mant) := norm_operand (exp_of c) (mant_of c) in
      fma_add r_sign r_exp r_mant1 r_mant0 (sign_of c) c_exp c_mant rm.

(** ** Division *)

(** Quotient (truncated to [F_UINT]) and remainder of the double word [ah:al]. *)
Definition divrem_u (ah al b : Z) : Z * Z :=
  let a := (ah << F_SIZE F) .| al in (fu (a / b), fu (a mod b)).

Definition div_sf (a b rm : Z) : FP Z :=
  let r_sign := sign_of a .^ sign_of b in
  let a_exp := exp_of a in
  let b_exp := exp_of b in
  let a_mant := mant_of a in
  let b_mant := mant_of b in
  if a_exp =? EXP_MASK then
    if nz a_mant || isnan_sf b then nan_result (issignan_sf a || issignan_sf b)
    else if b_exp =? EXP_MASK then invalid
    else fret (pack_sf r_sign EXP_MASK 0)
  else if b_exp =? EXP_MASK then
    if nz b_mant then nan_result (issignan_sf a || issignan_sf b)
    else fret (pack_sf r_sign 0 0)
  else if is_zero b_exp b_mant then
    if is_zero a_exp a_mant then invalid
    else raise_flag FFLAG_DIVIDE_ZERO ;; fret (pack_sf r_sign EXP_MASK 0)
  else
    let '(b_exp, b_mant) := norm_operand b_exp b_mant in
    if is_zero a_exp a_mant then fret (pack_sf r_sign 0 0)
    else
      let '(a_exp, a_mant) := norm_operand a_exp a_mant in
      let r_exp := a_exp - b_exp + (1 << (EXP_SIZE F - 1)) - 1 in
      let '(q, r) := divrem_u a_mant 0 (fu (b_mant << 2)) in
      normalize_sf r_sign r_exp (if nz r then q .| 1 else q) rm.

(** ** Square root *)

(** [for (;;) { s = u; u = ((a / s) + s) / 2; if (u >= s) break; }]; the result
    is the final [s], [None] when [fuel] runs out. *)
Fixpoint newton (fuel : nat) (a u : Z) : option Z :=
  match fuel with
  | O => None
  | S k =>
      let s := u in
      let u := uN (2 * F_SIZE F) ((a / s) + s) / 2 in
      if s <=? u then Some s else newton k a u
  end.

(** The square root of [ah:al] and whether it is inexact; [F_SIZE + 2]
    iterations are enough ([sqrtrem_correct]). *)
Definition sqrtrem_u (ah al : Z) : option (Z * bool) :=
  if (ah =? 0) && (al =? 0) then Some (0, false)
  else
    let l := if negb (ah =? 0) then 2 * F_SIZE F - clz (F_SIZE F) (ah - 1)
             else F_SIZE F - clz (F_SIZE F) (al - 1) in
    let a := (ah << F_SIZE F) .| al in
    match newton (Z.to_nat (F_SIZE F + 2)) a (1 << ((l + 1) / 2)) with
    | Some s => Some (fu s, nz (uN (2 * F_SIZE F) (a - s * s)))
    | None => None
    end.

Definition sqrt_sf (a rm : Z) : FP Z :=
  let a_sign := sign_of a in
  let a_exp := exp_of a in
  let a_mant := mant_of a in
  if a_exp =? EXP_MASK then
    if nz a_mant then nan_result (issignan_sf a)
    else if nz a_sign then invalid
    else fret a
  else if nz a_sign then
    if is_zero a_exp a_mant then fret a else invalid
  else if is_zero a_exp a_mant then fret (pack_sf 0 0 0)
  else
    let '(a_exp, a_mant) := norm_operand a_exp a_mant in
    let a_exp := a_exp - EXP_MASK / 2 in
    let odd := nz (a_exp .& 1) in
    let a_mant := if odd then fu (a_mant << 1) else a_mant in
    let a_exp := if odd then a_exp - 1 else a_exp in
    let a_exp := (a_exp >> 1) + EXP_MASK / 2 in
    let a_mant := fu (a_mant << (F_SIZE F - 4 - MANT_SIZE F)) in
    match sqrtrem_u a_mant 0 with
    | Some (r, inexact) => normalize_sf a_sign a_exp (if inexact then r .| 1 else r) rm
    | None => fun _ => None
    end.

(** ** Comparisons *)

(** The NaN half of [min_sf] and [max_sf]. *)
Definition minmax_nan (a b : Z) : FP Z :=
  raise_if (issignan_sf a || issignan_sf b) FFLAG_INVALID_OP ;;
  fret (if isnan_sf a then if isnan_sf b then F_QNAN else b else a).

Definition min_sf (a b : Z) : FP Z :=
  if isnan_sf a || isnan_sf b then minmax_nan a b
  else if negb (sign_of a =? sign_of b) then fret (if nz (sign_of a) then a else b)
  else fret (if xorb (a <? b) (nz (sign_of a)) then a else b).

Definition max_sf (a b : Z) : FP Z :=
  if isnan_sf a || isnan_sf b then minmax_nan a b
  else if negb (sign_of a =? sign_of b) then fret (if nz (sign_of a) then b else a)
  else fret (if xorb (a <? b) (nz (sign_of a)) then b else a).

(** [(F_UINT)((a | b) << 1) == 0]: both are zeros. *)
Definition both_zero (a b : Z) : bool := fu ((a .| b) << 1) =? 0.

Definition eq_quiet_sf (a b : Z) : FP bool :=
  if isnan_sf a || isnan_sf b
  then raise_if (issignan_sf a || issignan_sf b) FFLAG_INVALID_OP ;; fret false
  else if both_zero a b then fret true
  else fret (a =? b).

Definition le_sf (a b : Z) : FP bool :=
  if isnan_sf a || isnan_sf b then raise_flag FFLAG_INVALID_OP ;; fret false
  else if negb (sign_of a =? sign_of b) then fret (nz (sign_of a) || both_zero a b)
  else if nz (sign_of a) then fret (b <=? a)
  else fret (a <=? b).

Definition lt_sf (a b : Z) : FP bool :=
  if isnan_sf a || isnan_sf b then raise_flag FFLAG_INVALID_OP ;; fret false
  else if negb (sign_of a =? sign_of b) then fret (nz (sign_of a) && negb (both_zero a b))
  else if nz (sign_of a) then fret (b <? a)
  else fret (a <? b).

Definition fclass_sf (a : Z) : Z :=
  let neg := nz (sign_of a) in
  if exp_of a =? EXP_MASK then
    if nz (mant_of a) then if mant_of a has QNAN_MASK then FCLASS_QNAN else FCLASS_SNAN
    else if neg then FCLASS_NINF else FCLASS_PINF
  else if exp_of a =? 0 then
    if mant_of a =? 0 then if neg then FCLASS_NZERO else FCLASS_PZERO
    else if neg then FCLASS_NSUBNORMAL else FCLASS_PSUBNORMAL
  else if neg then FCLASS_NNORMAL else FCLASS_PNORMAL.

(** ** Conversions to and from [w]-bit integers *)

(** [internal_cvt_sf##F_SIZE##_i##w]; the result is an unsigned [w]-bit value. *)
Definition internal_cvt_sf_i (w a rm : Z) (is_unsigned : bool) : FP Z :=
  let a_exp := exp_of a in
  let a_mant := mant_of a in
  let a_sign := if (a_exp =? EXP_MASK) && nz a_mant then 0 else sign_of a in
  let a_mant := if a_exp =? 0 then a_mant else a_mant .| (1 << MANT_SIZE F) in
  let a_exp := if a_exp =? 0 then 1 else a_exp in
  let a_mant := fu (a_mant << RND_SIZE) in
  let a_exp := a_exp - EXP_MASK / 2 - MANT_SIZE F in
  let r_max := if is_unsigned then uN w (a_sign - 1)
               else uN w ((1 << (w - 1)) - (a_sign .^ 1)) in
  let overflow := raise_flag FFLAG_INVALID_OP ;; fret r_max in
  let signed r := if nz a_sign then uN w (- r) else r in
  if 0 <=? a_exp then
    if a_exp <=? w - 1 - MANT_SIZE F then
      let r := uN w (uN w (a_mant >> RND_SIZE) << a_exp) in
      if r_max <? r then overflow else fret (signed r)
    else overflow
  else
    let a_mant := rshift_rnd a_mant (- a_exp) in
    let addend := rnd_addend a_sign rm in
    let rnd_bits := a_mant .& ((1 << RND_SIZE) - 1) in
    let m := rnd_mant a_mant addend rnd_bits rm in
    if r_max <? m then overflow
    else raise_if (nz rnd_bits) FFLAG_INEXACT ;; fret (signed (uN w m)).

Definition cvt_sf_i (w a rm : Z) : FP Z := internal_cvt_sf_i w a rm false.
Definition cvt_sf_u (w a rm : Z) : FP Z := internal_cvt_sf_i w a rm true.

(** [internal_cvt_i##w##_sf##F_SIZE]; [a] is the signed value of the argument. *)
Definition internal_cvt_i_sf (w a rm : Z) (is_unsigned : bool) : FP Z :=
  let neg := negb is_unsigned && (a <? 0) in
  let a_sign := Z.b2z neg in
  let r := uN w (if neg then - a else a) in
  let a_exp := EXP_MASK / 2 + F_SIZE F - 2 in
  let l := w - clz w r - (F_SIZE F - 1) in
  let r' := if 0 <? l
            then (r >> l) .| Z.b2z (nz (r .& (r .& ((1 << l) - 1)))) else r in
  let a_exp := if 0 <? l then a_exp + l else a_exp in
  normalize_sf a_sign a_exp (fu r') rm.

Definition cvt_i_sf (w a rm : Z) : FP Z := internal_cvt_i_sf w (sN w a) rm false.
Definition cvt_u_sf (w a rm : Z) : FP Z := internal_cvt_i_sf w (sN w a) rm true.

End Template.

(** ** Conversions between the two formats *)

Definition cvt_sf32_sf64 (a : Z) : FP Z :=
  let '(a_sign, a_exp, a_mant) := unpack_sf sf32 a in
  if a_exp =? 0xff then
    if nz a_mant then raise_if (issignan_sf sf32 a) FFLAG_INVALID_OP ;; fret (F_QNAN sf64)
    else fret (pack_sf sf64 a_sign (EXP_MASK sf64) 0)
  else if is_zero a_exp a_mant then fret (pack_sf sf64 a_sign 0 0)
  else
    let '(a_exp, a_mant) :=
      if a_exp =? 0 then normalize_subnormal_sf sf32 a_mant else (a_exp, a_mant) in
    let a_exp := a_exp - 0x7f + EXP_MASK sf64 / 2 in
    fret (pack_sf sf64 a_sign a_exp (u64 (a_mant << (MANT_SIZE sf64 - 23)))).

(** The mantissa [normalize_subnormal_sf] returns is dropped, as in the C. *)
Definition cvt_sf64_sf32 (a rm : Z) : FP Z :=
  let '(a_sign, a_exp, a_mant) := unpack_sf sf64 a in
  if a_exp =? EXP_MASK sf64 then
    if nz a_mant then raise_if (issignan_sf sf64 a) FFLAG_INVALID_OP ;; fret (F_QNAN sf32)
    else fret (pack_sf sf32 a_sign 0xff 0)
  else if is_zero a_exp a_mant then fret (pack_sf sf32 a_sign 0 0)
  else
    let '(a_exp, a_mant) :=
      if a_exp =? 0 then (fst (normalize_subnormal_sf sf64 a_mant), a_mant)
      else (a_exp, a_mant .| (1 << MANT_SIZE sf64)) in
    let a_exp := a_exp - EXP_MASK sf64 / 2 + 0x7f in
    let a_mant := rshift_rnd sf64 a_mant (MANT_SIZE sf64 - (32 - 2)) in
    normalize_sf sf32 a_sign a_exp (u32 a_mant) rm.
