(* ===== verification/FpRound.v ===== *)
(** * Correct rounding of the software floating point

    A reference semantics for the arithmetic of [include/softfp_template.h]: a
    finite operand is an integer number of units of the least subnormal
    ([fval]), an operation is the exact operation on these numbers, and
    [fround] rounds an exact positive rational to the format with its exception
    flags.  The theorems say that the routines, which work on truncated
    mantissas with sticky bits, compute exactly that.

    The bridge is [agree]: a truncated mantissa and the exact value compare
    alike with every multiple of a power of two that is below the rounding
    position. *)

From S2P Require Import Prelude Alu SoftFp.
Open Scope Z_scope.
Open Scope c_scope.
Open Scope fp_scope.

(** The formats the template is used with satisfy this. *)
Record wf_fmt (F : fmt) : Prop := {
  wf_size : F_SIZE F = 1 + EXP_SIZE F + MANT_SIZE F;
  wf_exp : 5 <= EXP_SIZE F;
  wf_mant : EXP_SIZE F <= MANT_SIZE F
}.

Lemma sf32_wf : wf_fmt sf32. Proof. split; cbn; lia. Qed.
Lemma sf64_wf : wf_fmt sf64. Proof. split; cbn; lia. Qed.

(** ** Reference definitions *)

(** The integer [n / d] rounds to in mode [rm], for a value of sign [s]. *)
Definition round_int (rm s n d : Z) : Z :=
  let q := n / d in
  let r := n mod d in
  let up :=
    if rm =? RM_RNE then (d <? 2 * r) || ((2 * r =? d) && Z.odd q)
    else if rm =? RM_RMM then d <=? 2 * r
    else if rm =? RM_RDN then negb (r =? 0) && (s =? 1)
    else if rm =? RM_RUP then negb (r =? 0) && (s =? 0)
    else false in
  if up then q + 1 else q.

Section Spec.
Variable F : fmt.

Definition bias : Z := EXP_MASK F / 2.

(** [n / d * 2 ^ (be - bias)] in units of the last place of a significand with
    biased exponent [e], as a numerator and a denominator. *)
Definition ulps (n d be e : Z) : Z * Z :=
  let t := be - e + MANT_SIZE F in (n * 2 ^ Z.max t 0, d * 2 ^ Z.max (- t) 0).

(** Overflow stops at the largest finite number. *)
Definition to_max (rm s : Z) : bool :=
  (rm =? RM_RTZ) || ((rm =? RM_RDN) && (s =? 0)) || ((rm =? RM_RUP) && (s =? 1)).

(** The number [n / d * 2 ^ (be - bias)] of sign [s], rounded to the format:
    the encoding and the flags raised. *)
Definition fround (rm s n d be : Z) : Z * Z :=
  let X := Z.log2 (n / d) + be in
  let e := Z.max X 1 in
  let '(num, den) := ulps n d be e in
  let q := round_int rm s num den in
  let inexact := negb (num mod den =? 0) in
  let tiny := (X <? 0) || (X =? 0) &&
                let '(num', den') := ulps n d be X in
                round_int rm s num' den' <? 2 ^ (MANT_SIZE F + 1) in
  let e := e + (if 2 ^ (MANT_SIZE F + 1) <=? q then 1 else 0) in
  let flags := (if inexact then FFLAG_INEXACT else 0) .| (if tiny && inexact then FFLAG_UNDERFLOW else 0) in
  if q <? 2 ^ MANT_SIZE F then (pack_sf F s 0 q, flags)
  else if EXP_MASK F <=? e then
    (if to_max rm s then pack_sf F s (EXP_MASK F - 1) (MANT_MASK F) else pack_sf F s (EXP_MASK F) 0,
     flags .| FFLAG_OVERFLOW .| FFLAG_INEXACT)
  else (pack_sf F s e q, flags).

(** The magnitude of a finite number, in units of the least subnormal. *)
Definition fmag (a : Z) : Z :=
  (if exp_of F a =? 0 then mant_of F a else 2 ^ MANT_SIZE F + mant_of F a) * 2 ^ (Z.max (exp_of F a) 1 - 1).

Definition fval (a : Z) : Z := if nz (sign_of F a) then - fmag a else fmag a.

Definition finite (a : Z) : bool := negb (exp_of F a =? EXP_MASK F).

End Spec.

(** ** Rounding to an integer *)

Lemma div_mod_eq n d : 0 < d -> n = d * (n / d) + n mod d /\ 0 <= n mod d < d.
Proof. intros Hd. split; [apply Z.div_mod; lia|apply Z.mod_pos_bound; lia]. Qed.

(** The rounding depends on the quotient only. *)
Lemma div_mod_cross n d n' d' : 0 < d -> 0 < d' -> n * d' = n' * d ->
  n / d = n' / d' /\ n mod d * d' = n' mod d' * d.
Proof.
  intros Hd Hd' H. destruct (div_mod_eq n d Hd) as [E1 R1], (div_mod_eq n' d' Hd') as [E2 R2].
  assert (Hq : n / d = n' / d').
  { rewrite <- (Z.div_mul_cancel_r n d d') by lia. rewrite H, Z.mul_comm, (Z.mul_comm d d').
    rewrite Z.mul_comm, (Z.mul_comm n' d), (Z.mul_comm d' d). apply Z.div_mul_cancel_l; lia. }
  split; [exact Hq|]. rewrite Hq in E1. nia.
Qed.

Lemma round_int_cross rm s n d n' d' : 0 < d -> 0 < d' -> n * d' = n' * d ->
  round_int rm s n d = round_int rm s n' d'.
Proof.
  intros Hd Hd' H. destruct (div_mod_cross n d n' d' Hd Hd' H) as [Hq Hr]. unfold round_int. rewrite Hq.
  assert (H1 : (d <? 2 * (n mod d)) = (d' <? 2 * (n' mod d'))).
  { destruct (Z.ltb_spec d (2 * (n mod d))), (Z.ltb_spec d' (2 * (n' mod d'))); try reflexivity; nia. }
  assert (H2 : (2 * (n mod d) =? d) = (2 * (n' mod d') =? d')).
  { destruct (Z.eqb_spec (2 * (n mod d)) d), (Z.eqb_spec (2 * (n' mod d')) d'); try reflexivity; nia. }
  assert (H3 : (d <=? 2 * (n mod d)) = (d' <=? 2 * (n' mod d'))).
  { destruct (Z.leb_spec d (2 * (n mod d))), (Z.leb_spec d' (2 * (n' mod d'))); try reflexivity; nia. }
  assert (H4 : (n mod d =? 0) = (n' mod d' =? 0)).
  { destruct (Z.eqb_spec (n mod d) 0), (Z.eqb_spec (n' mod d') 0); try reflexivity; nia. }
  rewrite H1, H2, H3, H4. reflexivity.
Qed.

(** ** Truncated values *)

(** [x] compares with the multiples of [2 ^ g] as [n / d] does. *)
Definition agree (g x n d : Z) : Prop := forall c, (x ?= c * 2 ^ g) = (n ?= c * 2 ^ g * d).

Lemma compare_scale x y d : 0 < d -> (x ?= y) = (x * d ?= y * d).
Proof.
  intros Hd. destruct (Z.compare_spec x y) as [-> | H | H]; symmetry;
    [apply Z.compare_refl|apply Z.compare_lt_iff; nia|apply Z.compare_gt_iff; nia].
Qed.

Lemma agree_exact g x d : 0 < d -> agree g x (x * d) d.
Proof. intros Hd c. apply compare_scale, Hd. Qed.

Lemma agree_weaken g g' x n d : 0 <= g <= g' -> agree g x n d -> agree g' x n d.
Proof.
  intros Hg H c. replace g' with (g' - g + g) by lia. rewrite Z.pow_add_r, Z.mul_assoc by lia. apply H.
Qed.

Lemma agree_shiftl g s x n d : 0 <= g -> 0 <= s -> agree g x n d -> agree (g + s) (x * 2 ^ s) (n * 2 ^ s) d.
Proof.
  intros Hg Hs H c. rewrite Z.pow_add_r by lia.
  replace (c * (2 ^ g * 2 ^ s)) with (c * 2 ^ g * 2 ^ s) by ring.
  replace (c * 2 ^ g * 2 ^ s * d) with (c * 2 ^ g * d * 2 ^ s) by ring.
  rewrite <- !compare_scale by (apply pow2_pos; lia). apply H.
Qed.

(** The integer part with a sticky bit. *)
Definition sticky (n d : Z) : Z := (n / d) .| Z.b2z (negb (n mod d =? 0)).

Lemma lor_one x b : x <= x .| Z.b2z b <= x + 1 /\ (b = false -> x .| Z.b2z b = x) /\
  (b = true -> Z.odd (x .| Z.b2z b) = true).
Proof.
  destruct b; [change (Z.b2z true) with 1|change (Z.b2z false) with 0; rewrite Z.lor_0_r; repeat split; try lia; discriminate].
  assert (H : x .| 1 = 2 * (x / 2) + 1).
  { change (x / 2) with (x / 2 ^ 1). rewrite <- Z.shiftr_div_pow2 by lia. apply Z.bits_inj'; intros k Hk.
    rewrite Z.lor_spec. destruct (Z.eq_dec k 0) as [->|].
    - rewrite Z.testbit_odd_0, orb_true_r. reflexivity.
    - replace k with (Z.succ (k - 1)) by lia. rewrite Z.testbit_odd_succ, Z.shiftr_spec by lia.
      change (Z.testbit 1 (Z.succ (k - 1))) with (Z.testbit (2 * 0 + 1) (Z.succ (k - 1))).
      rewrite Z.testbit_odd_succ, Z.bits_0, orb_false_r by lia. f_equal; lia. }
  pose proof (Z.div_mod x 2 ltac:(lia)). pose proof (Z.mod_pos_bound x 2 ltac:(lia)).
  split; [lia|]. split; [discriminate|]. intros _. rewrite H, Z.add_comm, Z.odd_add_mul_2. reflexivity.
Qed.

Lemma agree_sticky n d : 0 < d -> agree 1 (sticky n d) n d.
Proof.
  intros Hd c. unfold sticky. destruct (div_mod_eq n d Hd) as [E R].
  destruct (lor_one (n / d) (negb (n mod d =? 0))) as (L1 & L2 & L3).
  set (x := n / d .| _) in *. change (2 ^ 1) with 2.
  destruct (Z.eqb_spec (n mod d) 0) as [E0|E0]; cbn [negb] in *.
  - rewrite L2 by reflexivity. replace n with (n / d * d) at 2 by lia. apply compare_scale, Hd.
  - specialize (L3 eq_refl). rewrite Z.odd_spec in L3. destruct L3 as [k Hk].
    destruct (Z.compare_spec x (c * 2)) as [H | H | H]; [lia| |]; symmetry.
    + apply Z.compare_lt_iff. nia.
    + apply Z.compare_gt_iff. nia.
Qed.

(** Shifting right with a sticky bit keeps the agreement. *)
Lemma agree_shiftr g h k x n d : 1 <= h -> 0 <= g <= k + h -> 0 <= k -> 0 < d -> agree g x n d ->
  agree h (sticky x (2 ^ k)) n (d * 2 ^ k).
Proof.
  intros Hh Hg Hk Hd H c.
  rewrite (agree_weaken 1 h _ _ _ ltac:(lia) (agree_sticky x (2 ^ k) (pow2_pos k Hk)) c).
  assert (Hs : 2 ^ (k + h - g) * 2 ^ g = 2 ^ h * 2 ^ k).
  { rewrite <- !Z.pow_add_r by lia. f_equal. lia. }
  replace (c * 2 ^ h * 2 ^ k) with (c * 2 ^ (k + h - g) * 2 ^ g) by (rewrite <- Z.mul_assoc, Hs; ring).
  rewrite H. f_equal. rewrite <- (Z.mul_assoc c _ (2 ^ g)), Hs. ring.
Qed.

(** Quotient, exactness and rounding at position [k] are those of the exact
    value. *)
Lemma agree_div g k x n d : 0 <= g <= k -> 0 < d -> agree g x n d ->
  x / 2 ^ k = n / (d * 2 ^ k) /\ (x mod 2 ^ k =? 0) = (n mod (d * 2 ^ k) =? 0).
Proof.
  intros Hg Hd H. pose proof (pow2_pos k ltac:(lia)) as Hp. assert (Hdp : 0 < d * 2 ^ k) by nia.
  apply (agree_weaken g k) in H; [|lia].
  destruct (div_mod_eq x (2 ^ k) Hp) as [E R], (div_mod_eq n (d * 2 ^ k) Hdp) as [E' R'].
  assert (Hq : x / 2 ^ k = n / (d * 2 ^ k)).
  { set (q := n / (d * 2 ^ k)) in *. symmetry. apply (Z.div_unique_pos x (2 ^ k) q (x - 2 ^ k * q)); [|lia].
    pose proof (H q) as H0. pose proof (H (q + 1)) as H1.
    assert (Hn1 : n < (q + 1) * 2 ^ k * d) by nia. assert (Hn0 : q * 2 ^ k * d <= n) by nia.
    assert (Hx1 : x < (q + 1) * 2 ^ k) by (unfold Z.lt; rewrite H1; exact Hn1).
    assert (Hx0 : q * 2 ^ k <= x).
    { apply Z.nlt_ge. unfold Z.lt. rewrite H0. apply Z.le_ngt in Hn0. exact Hn0. }
    lia. }
  split; [exact Hq|]. rewrite Hq in E. set (q := n / (d * 2 ^ k)) in *.
  pose proof (H q) as H0. destruct (Z.eqb_spec (x mod 2 ^ k) 0) as [E0|E0], (Z.eqb_spec (n mod (d * 2 ^ k)) 0) as [E1|E1]; try reflexivity; exfalso.
  - assert (Hx : (x ?= q * 2 ^ k) = Eq) by (apply Z.compare_eq_iff; lia). rewrite Hx in H0. symmetry in H0.
    apply Z.compare_eq_iff in H0. nia.
  - assert (Hx : (n ?= q * 2 ^ k * d) = Eq) by (apply Z.compare_eq_iff; nia). rewrite Hx in H0.
    apply Z.compare_eq_iff in H0. nia.
Qed.

Lemma agree_half g k x n d : 0 <= g <= k - 1 -> 0 < d -> agree g x n d ->
  (2 * (x mod 2 ^ k) ?= 2 ^ k) = (2 * (n mod (d * 2 ^ k)) ?= d * 2 ^ k).
Proof.
  intros Hg Hd H. destruct (agree_div g k x n d ltac:(lia) Hd H) as [Hq _].
  apply (agree_weaken g (k - 1)) in H; [|lia]. specialize (H (2 * (x / 2 ^ k) + 1)).
  assert (Hp : 2 ^ k = 2 * 2 ^ (k - 1)) by (rewrite <- Z.pow_succ_r by lia; f_equal; lia).
  pose proof (pow2_pos (k - 1) ltac:(lia)) as Hpos.
  destruct (div_mod_eq x (2 ^ k) ltac:(lia)) as [E R], (div_mod_eq n (d * 2 ^ k) ltac:(nia)) as [E' R'].
  rewrite <- Hq in E'. set (q := x / 2 ^ k) in *.
  assert (H1 : forall a b c, 0 < c -> (a ?= b) = (c * a ?= c * b)).
  { intros a b c Hc. rewrite !(Z.mul_comm c). apply compare_scale, Hc. }
  assert (H2 : forall a b c, (a ?= b) = (a + c ?= b + c)) by (intros; rewrite !(Z.add_comm _ c); symmetry; apply Z.add_compare_mono_l).
  rewrite (H2 (2 * (x mod 2 ^ k)) _ (2 * (2 ^ k * q))), (H2 (2 * (n mod (d * 2 ^ k))) _ (2 * (d * 2 ^ k * q))).
  replace (2 * (x mod 2 ^ k) + 2 * (2 ^ k * q)) with (2 * x) by lia.
  replace (2 * (n mod (d * 2 ^ k)) + 2 * (d * 2 ^ k * q)) with (2 * n) by lia.
  replace (2 ^ k + 2 * (2 ^ k * q)) with (2 * ((2 * q + 1) * 2 ^ (k - 1))) by lia.
  replace (d * 2 ^ k + 2 * (d * 2 ^ k * q)) with (2 * ((2 * q + 1) * 2 ^ (k - 1) * d)) by (rewrite Hp; ring).
  rewrite <- !(H1 _ _ 2) by lia. exact H.
Qed.

(** A rounding by comparisons. *)
Lemma round_int_compare rm s n d : 0 < d -> round_int rm s n d =
  let q := n / d in
  let c := 2 * (n mod d) ?= d in
  let up :=
    if rm =? RM_RNE then match c with Gt => true | Eq => Z.odd q | Lt => false end
    else if rm =? RM_RMM then match c with Lt => false | _ => true end
    else if rm =? RM_RDN then negb (n mod d =? 0) && (s =? 1)
    else if rm =? RM_RUP then negb (n mod d =? 0) && (s =? 0)
    else false in
  if up then q + 1 else q.
Proof.
  intros Hd. unfold round_int. cbv zeta.
  destruct (Z.compare_spec (2 * (n mod d)) d) as [E | E | E];
    destruct (Z.ltb_spec d (2 * (n mod d))); try lia; destruct (Z.eqb_spec (2 * (n mod d)) d); try lia;
    destruct (Z.leb_spec d (2 * (n mod d))); try lia; reflexivity.
Qed.

Lemma agree_round rm s g k x n d : 0 <= g <= k - 1 -> 0 < d -> agree g x n d ->
  round_int rm s x (2 ^ k) = round_int rm s n (d * 2 ^ k).
Proof.
  intros Hg Hd H. pose proof (pow2_pos k ltac:(lia)) as Hp.
  destruct (agree_div g k x n d ltac:(lia) Hd H) as [Hq He].
  rewrite !round_int_compare by nia. cbv zeta. rewrite (agree_half g k x n d Hg Hd H), Hq, He. reflexivity.
Qed.

(** ** The rounding step of the program *)

Section Format.
Variable F : fmt.
Hypothesis HF : wf_fmt F.

Lemma rnd_size : RND_SIZE F = EXP_SIZE F - 1 /\ 4 <= RND_SIZE F /\ IMANT_SIZE F = MANT_SIZE F + RND_SIZE F /\
  F_SIZE F = MANT_SIZE F + RND_SIZE F + 2 /\ 5 <= MANT_SIZE F.
Proof. destruct HF. unfold RND_SIZE, IMANT_SIZE in *. lia. Qed.

Lemma low_bits x k : 0 <= k -> x .& ((1 << k) - 1) = x mod 2 ^ k.
Proof.
  intros Hk. rewrite Z.shiftl_1_l, <- Z.sub_1_r || rewrite Z.shiftl_1_l.
  replace (2 ^ k - 1) with (Z.ones k) by (rewrite Z.ones_equiv; lia). apply Z.land_ones, Hk.
Qed.

Lemma clear_low x : x .&~ 1 = 2 * (x / 2).
Proof.
  change 1 with (Z.ones 1) at 1. rewrite Z.ldiff_ones_r, Z.shiftl_mul_pow2, Z.shiftr_div_pow2 by lia.
  change (2 ^ 1) with 2. ring.
Qed.

Lemma div_step m a R : 0 < R -> 0 <= a < R -> (m + a) / R = m / R + (if R <=? m mod R + a then 1 else 0).
Proof.
  intros HR Ha. destruct (div_mod_eq m R HR) as [E Hr]. symmetry.
  destruct (Z.leb_spec R (m mod R + a)).
  - apply (Z.div_unique_pos _ _ _ (m mod R + a - R)); lia.
  - apply (Z.div_unique_pos _ _ _ (m mod R + a)); lia.
Qed.

Lemma rnd_addend_cases s rm : 0 <= rm <= 4 -> s = 0 \/ s = 1 ->
  let R := 2 ^ RND_SIZE F in
  rnd_addend F s rm =
    if (rm =? RM_RNE) || (rm =? RM_RMM) then R / 2
    else if ((rm =? RM_RDN) && (s =? 1)) || ((rm =? RM_RUP) && (s =? 0)) then R - 1 else 0.
Proof.
  intros Hrm Hs. cbv zeta. unfold rnd_addend. destruct rnd_size as (_ & HR & _).
  rewrite !Z.shiftl_1_l.
  replace (2 ^ (RND_SIZE F - 1)) with (2 ^ RND_SIZE F / 2).
  - assert (rm = 0 \/ rm = 1 \/ rm = 2 \/ rm = 3 \/ rm = 4) as [-> | [-> | [-> | [-> | ->]]]] by lia;
      destruct Hs as [-> | ->]; reflexivity.
  - replace (RND_SIZE F) with (Z.succ (RND_SIZE F - 1)) at 1 by lia. rewrite Z.pow_succ_r, Z.mul_comm, Z.div_mul by lia. reflexivity.
Qed.

Lemma addend_range s rm : 0 <= rm <= 4 -> s = 0 \/ s = 1 ->
  0 <= rnd_addend F s rm < 2 ^ RND_SIZE F.
Proof.
  intros Hrm Hs. rewrite rnd_addend_cases by assumption. pose proof (pow2_pos (RND_SIZE F)) as Hp.
  destruct rnd_size as (_ & HR & _). specialize (Hp ltac:(lia)).
  assert (0 <= 2 ^ RND_SIZE F / 2 < 2 ^ RND_SIZE F) by (split; [apply Z.div_pos; lia|apply Z.div_lt; lia]).
  destruct (_ || _); [lia|]. destruct (_ || _); lia.
Qed.

Lemma rnd_mant_spec s rm m : 0 <= rm <= 4 -> s = 0 \/ s = 1 -> 0 <= m < 2 ^ (F_SIZE F - 1) ->
  rnd_mant F m (rnd_addend F s rm) (m .& ((1 << RND_SIZE F) - 1)) rm = round_int rm s m (2 ^ RND_SIZE F).
Proof.
  intros Hrm Hs Hm. destruct rnd_size as (_ & HR & _ & HS & HM). pose proof (addend_range s rm Hrm Hs) as Ha.
  unfold rnd_mant. rewrite low_bits by lia.
  assert (Hhalf : 2 ^ RND_SIZE F = 2 * 2 ^ (RND_SIZE F - 1)) by (rewrite <- Z.pow_succ_r by lia; f_equal; lia).
  assert (Hpow : 2 ^ (F_SIZE F - 1) + 2 ^ RND_SIZE F <= 2 ^ F_SIZE F).
  { assert (2 ^ F_SIZE F = 2 * 2 ^ (F_SIZE F - 1)) by (rewrite <- Z.pow_succ_r by lia; f_equal; lia).
    assert (2 ^ RND_SIZE F <= 2 ^ (F_SIZE F - 1)) by (apply Z.pow_le_mono_r; lia). lia. }
  unfold fu. rewrite u_small by (unfold in_u; lia).
  rewrite Z.shiftr_div_pow2, Z.shiftl_1_l by lia.
  pose proof (pow2_pos (RND_SIZE F - 1) ltac:(lia)) as Hp.
  rewrite div_step by lia. rewrite rnd_addend_cases in * by assumption.
  replace (2 ^ RND_SIZE F / 2) with (2 ^ (RND_SIZE F - 1)) in * by (rewrite Hhalf, Z.mul_comm, Z.div_mul by lia; reflexivity).
  unfold round_int. set (R := 2 ^ RND_SIZE F) in *. set (h := 2 ^ (RND_SIZE F - 1)) in *.
  destruct (div_mod_eq m R ltac:(lia)) as [E Hr]. set (q := m / R) in *. set (r := m mod R) in *.
  assert (rm = 0 \/ rm = 1 \/ rm = 2 \/ rm = 3 \/ rm = 4) as [-> | [-> | [-> | [-> | ->]]]] by lia; cbn [Z.eqb RM_RNE RM_RMM RM_RTZ RM_RDN RM_RUP Pos.eqb orb andb].
  - (* nearest even *)
    destruct (Z.eqb_spec r h) as [Eh|Eh].
    + replace (2 * r =? R) with true by (symmetry; apply Z.eqb_eq; lia).
      replace (R <? 2 * r) with false by (symmetry; apply Z.ltb_ge; lia).
      replace (R <=? r + h) with true by (symmetry; apply Z.leb_le; lia). cbn [orb andb].
      rewrite clear_low. pose proof (Z.div_mod (q + 1) 2 ltac:(lia)) as D. rewrite Zmod_odd in D.
      rewrite Z.odd_add in D. change (Z.odd 1) with true in D. destruct (Z.odd q); cbn [xorb] in D; lia.
    + replace (2 * r =? R) with false by (symmetry; apply Z.eqb_neq; lia). cbn [andb]. rewrite orb_false_r.
      destruct (Z.leb_spec R (r + h)), (Z.ltb_spec R (2 * r)); try lia.
  - (* to zero *) destruct (Z.leb_spec R (r + 0)); lia.
  - (* down *) destruct Hs as [-> | ->]; cbn [Z.eqb Pos.eqb andb orb]; rewrite ?andb_false_r, ?andb_true_r.
    + destruct (Z.leb_spec R (r + 0)); lia.
    + destruct (Z.leb_spec R (r + (R - 1))), (Z.eqb_spec r 0); cbn [negb]; lia.
  - (* up *) destruct Hs as [-> | ->]; cbn [Z.eqb Pos.eqb andb orb]; rewrite ?andb_false_r, ?andb_true_r.
    + destruct (Z.leb_spec R (r + (R - 1))), (Z.eqb_spec r 0); cbn [negb]; lia.
    + destruct (Z.leb_spec R (r + 0)); lia.
  - (* nearest, ties away *) destruct (Z.leb_spec R (r + h)), (Z.leb_spec R (2 * r)); lia.
Qed.

(** Shifting right with rounding is taking the integer part with a sticky bit. *)
Lemma rshift_rnd_sticky m k : 0 <= m < 2 ^ F_SIZE F -> 0 <= k -> rshift_rnd F m k = sticky m (2 ^ k).
Proof.
  intros Hm Hk. unfold rshift_rnd, sticky. destruct (Z.eqb_spec k 0) as [->|Hk0]; cbn [negb].
  - change (2 ^ 0) with 1. rewrite Z.div_1_r, Z.mod_1_r. cbn. rewrite Z.lor_0_r. reflexivity.
  - destruct (Z.leb_spec (F_SIZE F) k).
    + assert (2 ^ F_SIZE F <= 2 ^ k) by (apply Z.pow_le_mono_r; lia).
      rewrite Z.div_small, Z.mod_small by lia. cbn. reflexivity.
    + rewrite low_bits, Z.shiftr_div_pow2 by lia. reflexivity.
Qed.

Lemma pow2_S k : 0 <= k -> 2 ^ (k + 1) = 2 * 2 ^ k.
Proof. intros. rewrite Z.add_1_r. apply Z.pow_succ_r. assumption. Qed.

Lemma mask_le x k : 0 <= k -> (x <=? (1 << k) - 1) = (x <? 2 ^ k).
Proof. intros. rewrite Z.shiftl_1_l. destruct (Z.leb_spec x (2 ^ k - 1)), (Z.ltb_spec x (2 ^ k)); (reflexivity || lia). Qed.

Lemma addend_zero s rm : 0 <= rm <= 4 -> s = 0 \/ s = 1 -> (rnd_addend F s rm =? 0) = to_max rm s.
Proof.
  intros Hrm Hs. rewrite rnd_addend_cases by assumption. destruct rnd_size as (_ & HR & _).
  assert (Hh : 2 ^ RND_SIZE F = 2 * 2 ^ (RND_SIZE F - 1)) by (rewrite <- Z.pow_succ_r by lia; f_equal; lia).
  assert (H1 : 1 < 2 ^ (RND_SIZE F - 1)) by (apply Z.pow_gt_1; lia).
  assert (Hd : 2 ^ RND_SIZE F / 2 = 2 ^ (RND_SIZE F - 1)) by (rewrite Hh, Z.mul_comm, Z.div_mul by lia; reflexivity).
  rewrite Hd.
  assert (rm = 0 \/ rm = 1 \/ rm = 2 \/ rm = 3 \/ rm = 4) as [-> | [-> | [-> | [-> | ->]]]] by lia;
    destruct Hs as [-> | ->]; cbn [Z.eqb Pos.eqb orb andb to_max RM_RNE RM_RTZ RM_RDN RM_RUP RM_RMM];
    try reflexivity; (apply Z.eqb_neq || apply Z.eqb_eq); lia.
Qed.

Lemma round_int_le rm s n d b : 0 < d -> n <= b * d -> round_int rm s n d <= b.
Proof.
  intros Hd Hn. unfold round_int. destruct (div_mod_eq n d Hd) as [E R].
  assert (n / d <= b) by (apply Z.div_le_upper_bound; lia). destruct (Z.eq_dec (n / d) b) as [Eb|]; [|destruct (if rm =? RM_RNE then _ else _); lia].
  rewrite Eb in E. assert (n mod d = 0) as -> by lia. rewrite Z.mul_0_r, Z.eqb_refl. cbn [negb andb].
  destruct (Z.ltb_spec d 0); [lia|]. destruct (Z.eqb_spec 0 d); [lia|]. destruct (Z.leb_spec d 0); [lia|].
  rewrite Eb. destruct (rm =? RM_RNE), (rm =? RM_RMM), (rm =? RM_RDN), (rm =? RM_RUP); cbn [andb orb]; lia.
Qed.

(** The exponent, overflow and packing of a rounded significand [q]. *)
Definition finish (rm s e q fl : Z) : Z * Z :=
  let e' := e + (if 2 ^ (MANT_SIZE F + 1) <=? q then 1 else 0) in
  if q <? 2 ^ MANT_SIZE F then (pack_sf F s 0 q, fl)
  else if EXP_MASK F <=? e' then
    (if to_max rm s then pack_sf F s (EXP_MASK F - 1) (MANT_MASK F) else pack_sf F s (EXP_MASK F) 0,
     fl .| (FFLAG_OVERFLOW .| FFLAG_INEXACT))
  else (pack_sf F s e' q, fl).

Lemma round_finish_spec s e m rm fl : 0 <= rm <= 4 -> s = 0 \/ s = 1 -> 0 <= m < 2 ^ (F_SIZE F - 1) ->
  round_finish F s e m (rnd_addend F s rm) (m .& ((1 << RND_SIZE F) - 1)) rm fl =
  Some (finish rm s e (round_int rm s m (2 ^ RND_SIZE F))
          (fl .| (if negb (m mod 2 ^ RND_SIZE F =? 0) then FFLAG_INEXACT else 0))).
Proof.
  intros Hrm Hs Hm. destruct rnd_size as (_ & HR & _ & HS & HM). unfold round_finish, fbind, raise_if.
  rewrite rnd_mant_spec, addend_zero, low_bits by (assumption || lia). unfold nz at 1.
  set (q := round_int rm s m (2 ^ RND_SIZE F)).
  assert (Hq : q <= 2 ^ (MANT_SIZE F + 1)).
  { apply round_int_le; [apply pow2_pos; lia|]. rewrite <- Z.pow_add_r by lia.
    replace (MANT_SIZE F + 1 + RND_SIZE F) with (F_SIZE F - 1) by lia. lia. }
  assert (Hq0 : 0 <= q).
  { unfold q, round_int. pose proof (Z.div_pos m (2 ^ RND_SIZE F) ltac:(lia) (pow2_pos (RND_SIZE F) ltac:(lia))).
    destruct (if rm =? RM_RNE then _ else _); lia. }
  assert (Hsh : q >> (MANT_SIZE F + 1) = if 2 ^ (MANT_SIZE F + 1) <=? q then 1 else 0).
  { rewrite Z.shiftr_div_pow2 by lia. destruct (Z.leb_spec (2 ^ (MANT_SIZE F + 1)) q).
    - replace q with (2 ^ (MANT_SIZE F + 1)) by lia. apply Z.div_same. lia.
    - apply Z.div_small. lia. }
  unfold MANT_MASK at 1. rewrite mask_le, Hsh by lia. unfold finish. fold (MANT_MASK F).
  assert (Hfl : fl .| 0 = fl) by apply Z.lor_0_r.
  destruct (negb (m mod 2 ^ RND_SIZE F =? 0)); unfold raise_flag, fret; rewrite ?Hfl;
    (destruct (q <? 2 ^ MANT_SIZE F); [reflexivity|]); (destruct (EXP_MASK F <=? _); [|reflexivity]);
    destruct (to_max rm s); reflexivity.
Qed.

Lemma finish_flags rm s e q fl f :
  Some (finish rm s e q (fl .| f)) = let '(r, f') := finish rm s e q f in Some (r, fl .| f').
Proof. unfold finish. cbv zeta. destruct (q <? _); [reflexivity|]. destruct (_ <=? _); [|reflexivity]. rewrite <- Z.lor_assoc. reflexivity. Qed.

(** [fround] with the fraction of each position named. *)
Definition at_exp (rm s n d be e : Z) : Z := let '(num, den) := ulps F n d be e in round_int rm s num den.
Definition exact_at (n d be e : Z) : bool := let '(num, den) := ulps F n d be e in num mod den =? 0.

Lemma fround_finish rm s n d be : let X := Z.log2 (n / d) + be in
  let inexact := negb (exact_at n d be (Z.max X 1)) in
  let tiny := (X <? 0) || (X =? 0) && (at_exp rm s n d be X <? 2 ^ (MANT_SIZE F + 1)) in
  fround F rm s n d be = finish rm s (Z.max X 1) (at_exp rm s n d be (Z.max X 1))
    ((if inexact then FFLAG_INEXACT else 0) .| (if tiny && inexact then FFLAG_UNDERFLOW else 0)).
Proof.
  cbv zeta. unfold fround, finish, at_exp, exact_at, ulps. cbv zeta. rewrite Z.lor_assoc. reflexivity.
Qed.

(** Tininess, decided before and after dropping the low bits. *)
Lemma tiny_spec s rm m : 0 <= rm <= 4 -> s = 0 \/ s = 1 -> 0 <= m < 2 ^ (F_SIZE F - 1) ->
  (fu F (m + rnd_addend F s rm) <? (1 << (F_SIZE F - 1))) =
  (round_int rm s m (2 ^ RND_SIZE F) <? 2 ^ (MANT_SIZE F + 1)).
Proof.
  intros Hrm Hs Hm. rewrite <- rnd_mant_spec by assumption. destruct rnd_size as (_ & HR & _ & HS & HM).
  unfold rnd_mant. rewrite low_bits, !Z.shiftl_1_l, Z.shiftr_div_pow2 by lia. set (v := fu F _).
  assert (Hpow : 2 ^ (F_SIZE F - 1) = 2 ^ (MANT_SIZE F + 1) * 2 ^ RND_SIZE F) by (rewrite <- Z.pow_add_r by lia; f_equal; lia).
  pose proof (pow2_pos (RND_SIZE F) ltac:(lia)) as Hp. destruct (div_mod_eq v (2 ^ RND_SIZE F) Hp) as [E R].
  rewrite pow2_S in * by lia. rewrite Hpow. set (q := v / 2 ^ RND_SIZE F) in *.
  assert (Hc : q .&~ 1 = q \/ q .&~ 1 = q - 1 /\ Z.odd q = true).
  { rewrite clear_low. pose proof (Z.div_mod q 2 ltac:(lia)) as D. rewrite Zmod_odd in D. destruct (Z.odd q); [right|left]; lia. }
  assert (Ho : Z.odd q = true -> q <> 2 * 2 ^ MANT_SIZE F).
  { intros Ho ->. rewrite Z.odd_mul in Ho. discriminate. }
  match goal with |- (v <? ?a) = ((if ?b then ?c else ?e) <? ?f) => destruct b end;
    repeat match goal with |- context [?x <? ?y] => destruct (Z.ltb_spec x y) end; try reflexivity; exfalso;
    try destruct Hc as [Hc | [Hc Hodd]]; try specialize (Ho Hodd); nia.
Qed.

Lemma log2_div n d l : 0 < d -> 0 <= l -> d * 2 ^ l <= n < d * 2 ^ (l + 1) -> Z.log2 (n / d) = l.
Proof.
  intros Hd Hl [H1 H2]. apply Z.log2_unique; [exact Hl|]. rewrite <- Z.add_1_r. split.
  - apply Z.div_le_lower_bound; lia.
  - apply Z.div_lt_upper_bound; lia.
Qed.

Lemma agree_ge g x n d k : 0 <= g <= k -> 0 < d -> agree g x n d -> 2 ^ k <= x <-> d * 2 ^ k <= n.
Proof.
  intros Hg Hd H. specialize (H (2 ^ (k - g))).
  rewrite <- Z.pow_add_r in H by lia. replace (k - g + g) with k in H by lia.
  rewrite (Z.mul_comm d). rewrite !Z.le_ngt. unfold Z.lt. rewrite <- H. reflexivity.
Qed.

(** Rounding and packing a normalised mantissa. *)
Lemma round_pack_correct g s X m rm n d fl : 0 <= rm <= 4 -> s = 0 \/ s = 1 ->
  2 ^ IMANT_SIZE F <= m < 2 ^ (IMANT_SIZE F + 1) -> 0 < d -> 0 <= g <= RND_SIZE F - 1 -> agree g m n d ->
  round_pack_sf F s X m rm fl =
    let '(r, f) := fround F rm s n d (X - IMANT_SIZE F) in Some (r, fl .| f).
Proof.
  intros Hrm Hs Hm Hd Hg Ha. destruct rnd_size as (_ & HR & HI & HS & HM).
  assert (Hm' : 0 <= m < 2 ^ (F_SIZE F - 1)).
  { replace (F_SIZE F - 1) with (IMANT_SIZE F + 1) by lia. pose proof (pow2_pos (IMANT_SIZE F) ltac:(lia)). lia. }
  assert (Hlog : Z.log2 (n / d) = IMANT_SIZE F).
  { apply log2_div; [exact Hd|lia|]. pose proof (agree_ge g m n d (IMANT_SIZE F) ltac:(lia) Hd Ha).
    pose proof (agree_ge g m n d (IMANT_SIZE F + 1) ltac:(lia) Hd Ha). lia. }
  rewrite fround_finish. cbv zeta. rewrite Hlog. replace (IMANT_SIZE F + (X - IMANT_SIZE F)) with X by lia.
  assert (Hat : forall e, X <= e -> at_exp rm s n d (X - IMANT_SIZE F) e = round_int rm s n (d * 2 ^ (e - X) * 2 ^ RND_SIZE F) /\
            exact_at n d (X - IMANT_SIZE F) e = (n mod (d * 2 ^ (e - X) * 2 ^ RND_SIZE F) =? 0)).
  { intros e He. unfold at_exp, exact_at, ulps. cbv zeta.
    replace (X - IMANT_SIZE F - e + MANT_SIZE F) with (- (e - X + RND_SIZE F)) by lia.
    rewrite Z.max_r, Z.max_l, Z.opp_involutive, Z.pow_add_r, Z.mul_1_r, Z.mul_assoc by lia. split; reflexivity. }
  unfold round_pack_sf. destruct (Z.leb_spec X 0) as [HX|HX].
  - rewrite !Z.max_r by lia. destruct (Hat 1 ltac:(lia)) as [-> ->]. destruct (Hat X ltac:(lia)) as [-> _].
    rewrite Z.sub_diag, Z.mul_1_r. rewrite rshift_rnd_sticky by (assert (2 ^ (F_SIZE F - 1) <= 2 ^ F_SIZE F) by (apply Z.pow_le_mono_r; lia); lia).
    pose proof (agree_shiftr g (Z.max 1 (g - (1 - X))) (1 - X) m n d ltac:(lia) ltac:(lia) ltac:(lia) Hd Ha) as Hs1.
    set (m' := sticky m (2 ^ (1 - X))) in *. set (d' := d * 2 ^ (1 - X)) in *.
    assert (Hd' : 0 < d') by (pose proof (pow2_pos (1 - X) ltac:(lia)); nia).
    assert (Hr : 0 <= m' < 2 ^ (F_SIZE F - 1)).
    { unfold m', sticky. destruct (lor_one (m / 2 ^ (1 - X)) (negb (m mod 2 ^ (1 - X) =? 0))) as [H1 _].
      assert (2 <= 2 ^ (1 - X)) by (change 2 with (2 ^ 1) at 1; apply Z.pow_le_mono_r; lia).
      assert (0 <= m / 2 ^ (1 - X)) by (apply Z.div_pos; lia).
      assert (m / 2 ^ (1 - X) <= m / 2) by (apply Z.div_le_compat_l; lia).
      pose proof (Z.div_mod m 2 ltac:(lia)). pose proof (Z.mod_pos_bound m 2 ltac:(lia)).
      assert (1 < 2 ^ (IMANT_SIZE F)) by (apply Z.pow_gt_1; lia). lia. }
    rewrite <- (agree_round rm s (Z.max 1 (g - (1 - X))) (RND_SIZE F) m' n d' ltac:(lia) Hd' Hs1).
    destruct (agree_div (Z.max 1 (g - (1 - X))) (RND_SIZE F) m' n d' ltac:(lia) Hd' Hs1) as [_ <-].
    rewrite <- (agree_round rm s g (RND_SIZE F) m n d ltac:(lia) Hd Ha).
    rewrite (tiny_spec s rm m Hrm Hs Hm'). unfold fbind, raise_if.
    rewrite low_bits by lia. unfold nz at 1.
    replace ((X <? 0) || (X =? 0) && (round_int rm s m (2 ^ RND_SIZE F) <? 2 ^ (MANT_SIZE F + 1)))
      with ((X <? 0) || (round_int rm s m (2 ^ RND_SIZE F) <? 2 ^ (MANT_SIZE F + 1)))
      by (destruct (Z.ltb_spec X 0), (Z.eqb_spec X 0); cbn [orb andb]; (reflexivity || lia)).
    set (tiny := (X <? 0) || _). set (inex := negb (m' mod 2 ^ RND_SIZE F =? 0)).
    rewrite <- low_bits by lia.
    rewrite <- finish_flags. destruct (tiny && inex); unfold raise_flag, fret; rewrite round_finish_spec by assumption;
      fold inex; do 2 f_equal; rewrite ?Z.lor_0_r; [|reflexivity].
    rewrite <- Z.lor_assoc. f_equal. apply Z.lor_comm.
  - rewrite Z.max_l by lia. destruct (Hat X ltac:(lia)) as [-> ->]. rewrite Z.sub_diag, Z.mul_1_r.
    rewrite <- (agree_round rm s g (RND_SIZE F) m n d ltac:(lia) Hd Ha).
    destruct (agree_div g (RND_SIZE F) m n d ltac:(lia) Hd Ha) as [_ <-].
    destruct (Z.ltb_spec X 0); [lia|]. destruct (Z.eqb_spec X 0); [lia|]. cbn [orb andb].
    rewrite <- finish_flags, round_finish_spec by assumption. rewrite Z.lor_0_r. reflexivity.
Qed.

(** ** One number, several representations *)

Lemma pow_shift x y a b a' b' : 0 <= a -> 0 <= b -> 0 <= a' -> 0 <= b' -> a - b = a' - b' ->
  x * 2 ^ a = y * 2 ^ b -> x * 2 ^ a' = y * 2 ^ b'.
Proof.
  intros Ha Hb Ha' Hb' He H. destruct (Z_le_gt_dec a a') as [Hc|Hc].
  - replace a' with (a + (a' - a)) by lia. replace b' with (b + (a' - a)) by lia.
    rewrite !Z.pow_add_r, !Z.mul_assoc, H by lia. reflexivity.
  - replace a with (a' + (a - a')) in H by lia. replace b with (b' + (a - a')) in H by lia.
    rewrite !Z.pow_add_r, !Z.mul_assoc in H by lia. pose proof (pow2_pos (a - a') ltac:(lia)). nia.
Qed.

(** [n1 / d1 * 2 ^ be1 = n2 / d2 * 2 ^ be2] *)
Definition same_num (n1 d1 be1 n2 d2 be2 : Z) : Prop :=
  exists K, 0 <= be1 + K /\ 0 <= be2 + K /\ n1 * d2 * 2 ^ (be1 + K) = n2 * d1 * 2 ^ (be2 + K).

Lemma ulps_same n1 d1 be1 n2 d2 be2 e : 0 < d1 -> 0 < d2 -> same_num n1 d1 be1 n2 d2 be2 ->
  (ulps F n1 d1 be1 e).1 * (ulps F n2 d2 be2 e).2 = (ulps F n2 d2 be2 e).1 * (ulps F n1 d1 be1 e).2 /\
  0 < (ulps F n1 d1 be1 e).2 /\ 0 < (ulps F n2 d2 be2 e).2.
Proof.
  intros Hd1 Hd2 (K & H1 & H2 & H). unfold ulps. cbn [fst snd].
  set (t1 := be1 - e + MANT_SIZE F). set (t2 := be2 - e + MANT_SIZE F).
  pose proof (pow2_pos (Z.max (- t1) 0) ltac:(lia)). pose proof (pow2_pos (Z.max (- t2) 0) ltac:(lia)).
  split; [|split; nia].
  apply (pow_shift _ _ _ _ (Z.max t1 0 + Z.max (- t2) 0) (Z.max t2 0 + Z.max (- t1) 0)) in H; try lia.
  rewrite !Z.pow_add_r in H by lia.
  transitivity (n1 * d2 * (2 ^ Z.max t1 0 * 2 ^ Z.max (- t2) 0)); [ring|]. rewrite H. ring.
Qed.

Lemma log2_same n1 d1 be1 n2 d2 be2 : 0 < d1 <= n1 -> 0 < d2 <= n2 -> same_num n1 d1 be1 n2 d2 be2 ->
  Z.log2 (n1 / d1) + be1 = Z.log2 (n2 / d2) + be2.
Proof.
  assert (Hone : forall n1 d1 be1 n2 d2 be2, 0 < d1 <= n1 -> 0 < d2 <= n2 -> same_num n1 d1 be1 n2 d2 be2 ->
    Z.log2 (n1 / d1) + be1 <= Z.log2 (n2 / d2) + be2).
  { clear n1 d1 be1 n2 d2 be2. intros n1 d1 be1 n2 d2 be2 [Hd1 Hn1] [Hd2 Hn2] (K & HK1 & HK2 & H).
    assert (Hq1 : 0 < n1 / d1) by (apply Z.div_str_pos; lia). assert (Hq2 : 0 < n2 / d2) by (apply Z.div_str_pos; lia).
    destruct (Z.log2_spec _ Hq1) as [L1 _], (Z.log2_spec _ Hq2) as [_ L2].
    pose proof (Z.log2_nonneg (n1 / d1)). pose proof (Z.log2_nonneg (n2 / d2)).
    set (l1 := Z.log2 (n1 / d1)) in *. set (l2 := Z.log2 (n2 / d2)) in *.
    destruct (div_mod_eq n1 d1 Hd1) as [E1 R1], (div_mod_eq n2 d2 Hd2) as [E2 R2].
    assert (A : d1 * 2 ^ l1 <= n1) by nia. assert (B : n2 < d2 * 2 ^ Z.succ l2) by nia.
    apply Z.nlt_ge. intros Hlt.
    assert (P : 2 ^ (Z.succ l2 + (be2 + K)) <= 2 ^ (l1 + (be1 + K))) by (apply Z.pow_le_mono_r; lia).
    rewrite (Z.pow_add_r 2 (Z.succ l2)), (Z.pow_add_r 2 l1) in P by lia. pose proof (pow2_pos (be1 + K) HK1). pose proof (pow2_pos (be2 + K) HK2).
    set (p1 := 2 ^ (be1 + K)) in *. set (p2 := 2 ^ (be2 + K)) in *. set (x1 := 2 ^ l1) in *. set (x2 := 2 ^ Z.succ l2) in *.
    assert (Q1 : (d2 * p1) * (d1 * x1) <= (d2 * p1) * n1) by (apply Z.mul_le_mono_nonneg_l; nia).
    assert (Q2 : (d1 * p2) * n2 < (d1 * p2) * (d2 * x2)) by (apply Z.mul_lt_mono_pos_l; nia).
    assert (Q3 : (d1 * d2) * (x2 * p2) <= (d1 * d2) * (x1 * p1)) by (apply Z.mul_le_mono_nonneg_l; [nia|exact P]). lia. }
  intros H1 H2 H. apply Z.le_antisymm; apply Hone; try assumption.
  destruct H as (K & A & B & C). exists K. split; [exact B|]. split; [exact A|]. lia.
Qed.

Lemma fround_same rm s n1 d1 be1 n2 d2 be2 : 0 < d1 <= n1 -> 0 < d2 <= n2 -> same_num n1 d1 be1 n2 d2 be2 ->
  fround F rm s n1 d1 be1 = fround F rm s n2 d2 be2.
Proof.
  intros H1 H2 H. rewrite !fround_finish. cbv zeta. rewrite (log2_same n1 d1 be1 n2 d2 be2 H1 H2 H).
  set (X := Z.log2 (n2 / d2) + be2).
  assert (Hat : forall e, at_exp rm s n1 d1 be1 e = at_exp rm s n2 d2 be2 e /\ exact_at n1 d1 be1 e = exact_at n2 d2 be2 e).
  { intros e. destruct (ulps_same n1 d1 be1 n2 d2 be2 e ltac:(lia) ltac:(lia) H) as (Hc & P1 & P2).
    unfold at_exp, exact_at. destruct (ulps F n1 d1 be1 e) as [num1 den1], (ulps F n2 d2 be2 e) as [num2 den2].
    cbn [fst snd] in *. split; [apply round_int_cross; assumption|].
    destruct (div_mod_cross num1 den1 num2 den2 P1 P2 Hc) as [_ Hm].
    destruct (Z.eqb_spec (num1 mod den1) 0), (Z.eqb_spec (num2 mod den2) 0); try reflexivity; nia. }
  destruct (Hat X) as [-> _]. destruct (Hat (Z.max X 1)) as [-> ->]. reflexivity.
Qed.

(** ** Normalisation *)

Lemma normalize_correct g s e m rm n d fl : 0 <= rm <= 4 -> s = 0 \/ s = 1 ->
  0 < m < 2 ^ (IMANT_SIZE F + 1) -> 0 < d -> let sh := IMANT_SIZE F - Z.log2 m in
  0 <= g <= RND_SIZE F - 1 -> agree g (m * 2 ^ sh) (n * 2 ^ sh) d ->
  d <= n /\ normalize_sf F s e m rm fl =
    let '(r, f) := fround F rm s n d (e - IMANT_SIZE F) in Some (r, fl .| f).
Proof.
  intros Hrm Hs Hm Hd sh Hg Ha. destruct rnd_size as (_ & HR & HI & HS & HM).
  destruct (Z.log2_spec m ltac:(lia)) as [L1 L2]. pose proof (Z.log2_nonneg m) as L0.
  assert (Hl : Z.log2 m <= IMANT_SIZE F) by (apply Z.lt_succ_r, Z.log2_lt_pow2; [lia|rewrite <- Z.add_1_r; lia]).
  assert (Hsh : 0 <= sh) by (unfold sh; lia).
  assert (Hnorm : 2 ^ IMANT_SIZE F <= m * 2 ^ sh < 2 ^ (IMANT_SIZE F + 1)).
  { replace (IMANT_SIZE F) with (Z.log2 m + sh) by (unfold sh; lia).
    replace (Z.log2 m + sh + 1) with (Z.succ (Z.log2 m) + sh) by lia. rewrite !Z.pow_add_r by lia.
    pose proof (pow2_pos sh Hsh). nia. }
  assert (Hdn : d <= n).
  { apply (agree_ge g _ _ _ (IMANT_SIZE F)) in Ha; [|lia|exact Hd]. destruct Ha as [Ha _]. specialize (Ha ltac:(lia)).
    assert (2 ^ sh <= 2 ^ IMANT_SIZE F) by (apply Z.pow_le_mono_r; unfold sh; lia). pose proof (pow2_pos sh Hsh). nia. }
  split; [exact Hdn|]. unfold normalize_sf, clz. destruct (Z.eqb_spec m 0); [lia|].
  replace (F_SIZE F - 1 - Z.log2 m - (F_SIZE F - 1 - IMANT_SIZE F)) with sh by (unfold sh; lia).
  unfold fbind, fassert. destruct (Z.leb_spec 0 sh); [|lia]. rewrite Z.shiftl_mul_pow2 by lia. unfold fu.
  rewrite u_small.
  - rewrite (round_pack_correct g s (e - sh) (m * 2 ^ sh) rm (n * 2 ^ sh) d fl) by assumption.
    rewrite (fround_same rm s (n * 2 ^ sh) d (e - sh - IMANT_SIZE F) n d (e - IMANT_SIZE F)); [reflexivity| |lia|].
    + pose proof (pow2_pos sh Hsh). nia.
    + exists (IMANT_SIZE F + Z.abs e + sh). split; [lia|]. split; [lia|].
      replace (e - IMANT_SIZE F + (IMANT_SIZE F + Z.abs e + sh)) with (sh + (e - sh - IMANT_SIZE F + (IMANT_SIZE F + Z.abs e + sh))) by lia.
      rewrite (Z.pow_add_r 2 sh) by lia. ring.
  - split; [lia|]. apply (Z.lt_le_trans _ (2 ^ (IMANT_SIZE F + 1))); [lia|]. apply Z.pow_le_mono_r; lia.
Qed.

(** ** Operands *)

Lemma exp_range a : 0 <= exp_of F a <= EXP_MASK F.
Proof.
  unfold exp_of, EXP_MASK. rewrite low_bits by (destruct HF; lia).
  pose proof (Z.mod_pos_bound (a >> MANT_SIZE F) (2 ^ EXP_SIZE F) (pow2_pos (EXP_SIZE F) ltac:(destruct HF; lia))).
  rewrite Z.shiftl_1_l. lia.
Qed.

Lemma mant_range a : 0 <= mant_of F a < 2 ^ MANT_SIZE F.
Proof.
  unfold mant_of, MANT_MASK. rewrite low_bits by (destruct HF; lia).
  apply Z.mod_pos_bound, pow2_pos. destruct HF; lia.
Qed.

Lemma sign_range a : in_u (F_SIZE F) a -> sign_of F a = 0 \/ sign_of F a = 1.
Proof.
  intros Ha. unfold sign_of, in_u in *. destruct rnd_size as (_ & HR & _ & HS & HM).
  rewrite Z.shiftr_div_pow2 by lia. pose proof (pow2_pos (F_SIZE F - 1) ltac:(lia)) as Hp.
  assert (2 ^ F_SIZE F = 2 * 2 ^ (F_SIZE F - 1)) by (rewrite <- Z.pow_succ_r by lia; f_equal; lia).
  pose proof (Z.div_pos a (2 ^ (F_SIZE F - 1)) ltac:(lia) ltac:(lia)).
  assert (a / 2 ^ (F_SIZE F - 1) < 2) by (apply Z.div_lt_upper_bound; lia). lia.
Qed.

Lemma lor_bit m k : 0 <= k -> 0 <= m < 2 ^ k -> m .| (1 << k) = 2 ^ k + m.
Proof.
  intros Hk Hm. rewrite Z.shiftl_1_l, Z.lor_comm. pose proof (lor_low_high 1 m k Hk Hm) as H.
  rewrite !Z.mul_1_l in H. exact H.
Qed.

(** A non-zero finite operand, normalised. *)
Lemma norm_operand_spec a e m : norm_operand F (exp_of F a) (mant_of F a) = (e, m) -> fmag F a <> 0 ->
  2 ^ MANT_SIZE F <= m < 2 ^ (MANT_SIZE F + 1) /\ 1 - MANT_SIZE F <= e /\
  fmag F a * 2 ^ MANT_SIZE F = m * 2 ^ (e - 1 + MANT_SIZE F).
Proof.
  intros H Hz. destruct rnd_size as (_ & HR & HI & HS & HM). pose proof (mant_range a) as Hm. pose proof (exp_range a) as He.
  unfold norm_operand, normalize_subnormal_sf, fmag in *. rewrite pow2_S by lia.
  destruct (Z.eqb_spec (exp_of F a) 0) as [E|E].
  - rewrite E in *. change (2 ^ (Z.max 0 1 - 1)) with 1 in *. rewrite Z.mul_1_r in *.
    unfold clz in H. destruct (Z.eqb_spec (mant_of F a) 0); [contradiction|].
    destruct (Z.log2_spec (mant_of F a) ltac:(lia)) as [L1 L2]. pose proof (Z.log2_nonneg (mant_of F a)) as L0.
    set (l := Z.log2 (mant_of F a)) in *.
    assert (Hl : l < MANT_SIZE F) by (apply Z.log2_lt_pow2; lia).
    replace (F_SIZE F - 1 - (F_SIZE F - 1 - l)) with l in H by lia. injection H as <- <-.
    assert (Hp : 2 ^ MANT_SIZE F = 2 ^ l * 2 ^ (MANT_SIZE F - l)) by (rewrite <- Z.pow_add_r by lia; f_equal; lia).
    pose proof (pow2_pos (MANT_SIZE F - l) ltac:(lia)). pose proof (pow2_pos l L0).
    rewrite Z.pow_succ_r in L2 by lia.
    assert (Hb : 2 ^ MANT_SIZE F <= mant_of F a * 2 ^ (MANT_SIZE F - l) < 2 * 2 ^ MANT_SIZE F) by nia.
    unfold fu. rewrite Z.shiftl_mul_pow2, u_small by (try lia; unfold in_u; assert (2 ^ (MANT_SIZE F + 1) <= 2 ^ F_SIZE F) by (apply Z.pow_le_mono_r; lia); rewrite pow2_S in * by lia; lia).
    split; [exact Hb|]. split; [lia|]. replace (1 - (MANT_SIZE F - l) - 1 + MANT_SIZE F) with l by lia. rewrite Hp. ring.
  - injection H as <- <-. rewrite lor_bit by lia. split; [lia|]. split; [lia|].
    rewrite Z.max_l by lia. rewrite (Z.pow_add_r 2 (exp_of F a - 1)) by lia. ring.
Qed.

Lemma is_zero_fmag a : is_zero (exp_of F a) (mant_of F a) = (fmag F a =? 0).
Proof.
  unfold is_zero, fmag. pose proof (mant_range a) as Hm. pose proof (exp_range a) as He.
  pose proof (pow2_pos (MANT_SIZE F) ltac:(destruct HF; lia)). pose proof (pow2_pos (Z.max (exp_of F a) 1 - 1) ltac:(lia)).
  destruct (Z.eqb_spec (exp_of F a) 0) as [-> |E]; cbn [andb].
  - change (2 ^ (Z.max 0 1 - 1)) with 1. rewrite Z.mul_1_r. reflexivity.
  - symmetry. apply Z.eqb_neq. nia.
Qed.

Lemma fmag_nonneg a : 0 <= fmag F a.
Proof.
  unfold fmag. pose proof (mant_range a). pose proof (pow2_pos (MANT_SIZE F) ltac:(destruct HF; lia)).
  pose proof (pow2_pos (Z.max (exp_of F a) 1 - 1) ltac:(lia)). destruct (_ =? 0); nia.
Qed.

(** An exact magnitude of zero is a zero of the given sign, without flags. *)
Definition fround0 (rm s n d be : Z) : Z * Z :=
  if n =? 0 then (pack_sf F s 0 0, 0) else fround F rm s n d be.

Lemma bias_eq : bias F = 2 ^ (EXP_SIZE F - 1) - 1 /\ EXP_MASK F = 2 * bias F + 1.
Proof.
  unfold bias, EXP_MASK. rewrite Z.shiftl_1_l. destruct HF as [_ He _].
  assert (H : 2 ^ EXP_SIZE F = 2 * 2 ^ (EXP_SIZE F - 1)) by (rewrite <- Z.pow_succ_r by lia; f_equal; lia).
  assert (D : (2 ^ EXP_SIZE F - 1) / 2 = 2 ^ (EXP_SIZE F - 1) - 1).
  { symmetry. apply (Z.div_unique_pos _ _ _ 1); lia. }
  rewrite D. lia.
Qed.

Lemma xor_sign x y : x = 0 \/ x = 1 -> y = 0 \/ y = 1 -> x .^ y = 0 \/ x .^ y = 1.
Proof. intros [-> | ->] [-> | ->]; cbn; auto. Qed.

(** A quotient with a sticky bit that lacks at most one leading bit. *)
Lemma normalize_sticky s e rm n d fl : 0 <= rm <= 4 -> s = 0 \/ s = 1 -> 0 < d ->
  d * 2 ^ (F_SIZE F - 3) <= n < d * 2 ^ (F_SIZE F - 1) ->
  d <= n /\ normalize_sf F s e (sticky n d) rm fl =
    let '(r, f) := fround F rm s n d (e - IMANT_SIZE F) in Some (r, fl .| f).
Proof.
  intros Hrm Hs Hd Hn. destruct rnd_size as (HE & HR & HI & HS & HM).
  pose proof (agree_sticky n d Hd) as Hag.
  pose proof (agree_ge 1 _ _ _ (F_SIZE F - 3) ltac:(lia) Hd Hag) as G1.
  pose proof (agree_ge 1 _ _ _ (F_SIZE F - 1) ltac:(lia) Hd Hag) as G2.
  set (m := sticky n d) in *. set (lg := Z.log2 m). pose proof (pow2_pos (F_SIZE F - 3) ltac:(lia)) as Hp.
  assert (Hlg : F_SIZE F - 3 <= lg < F_SIZE F - 1) by (split; [apply Z.log2_le_pow2; lia|apply Z.log2_lt_pow2; lia]).
  apply (normalize_correct (1 + (IMANT_SIZE F - lg))); try assumption; try lia.
  - replace (IMANT_SIZE F + 1) with (F_SIZE F - 1) by lia. lia.
  - fold lg. apply agree_shiftl; (lia || assumption).
Qed.

(** The exponents of a normalised operand against its magnitude. *)
Lemma norm_mag a e m (H : fmag F a * 2 ^ MANT_SIZE F = m * 2 ^ (e - 1 + MANT_SIZE F)) (He : 1 - MANT_SIZE F <= e) K :
  0 <= K -> 0 <= e - 1 + K -> fmag F a * 2 ^ K = m * 2 ^ (e - 1 + K).
Proof. intros HK He'. refine (pow_shift _ _ _ _ _ _ _ _ _ _ _ H); destruct HF; lia. Qed.

(** ** Multiplication *)

(** The high word of the product with the low word as a sticky bit. *)
Lemma mul_sticky x y : 0 <= x < 2 ^ F_SIZE F -> 0 <= y < 2 ^ F_SIZE F ->
  let '(hi, lo) := mul_u F x y in hi .| Z.b2z (nz lo) = sticky (x * y) (2 ^ F_SIZE F).
Proof.
  intros Hx Hy. destruct rnd_size as (_ & HR & _ & HS & HM). unfold mul_u, fu.
  replace (uN (2 * F_SIZE F) (x * y)) with (x * y).
  - rewrite Z.shiftr_div_pow2 by lia. reflexivity.
  - symmetry. apply u_small. unfold in_u. replace (2 * F_SIZE F) with (F_SIZE F + F_SIZE F) by lia.
    rewrite Z.pow_add_r by lia. nia.
Qed.

(** The number the product of two normalised operands stands for. *)
Lemma same_product x y am bm ae be bi :
  1 - MANT_SIZE F <= ae -> 1 - MANT_SIZE F <= be ->
  x * 2 ^ MANT_SIZE F = am * 2 ^ (ae - 1 + MANT_SIZE F) -> y * 2 ^ MANT_SIZE F = bm * 2 ^ (be - 1 + MANT_SIZE F) ->
  same_num (am * bm * 2 ^ (2 * RND_SIZE F + 1)) (2 ^ F_SIZE F) (ae + be - (bi + 1) + 2 - IMANT_SIZE F)
    (x * y) 1 (2 - 2 * MANT_SIZE F - bi).
Proof.
  intros La Lb Va Vb. destruct rnd_size as (HE & HR & HI & HS & HM). set (M := MANT_SIZE F) in *. set (R := RND_SIZE F) in *.
  set (K := Z.abs ae + Z.abs be + Z.abs bi + 2 * M + 2 * R + 8). exists K. split; [lia|]. split; [lia|].
  apply (Z.mul_reg_r _ _ (2 ^ M * 2 ^ M)); [pose proof (pow2_pos M ltac:(lia)); nia|].
  transitivity (am * bm * 2 ^ (M + R + 2 + ae + be - bi + K)).
  - set (ex := ae + be - (bi + 1) + 2 - IMANT_SIZE F + K).
    replace (am * bm * 2 ^ (2 * R + 1) * 1 * 2 ^ ex * (2 ^ M * 2 ^ M)) with (am * bm * (2 ^ (2 * R + 1) * 2 ^ ex * 2 ^ M * 2 ^ M)) by ring.
    rewrite <- !Z.pow_add_r by (unfold ex; lia). do 2 f_equal. unfold ex. lia.
  - symmetry. replace (x * y * 2 ^ F_SIZE F * 2 ^ (2 - 2 * M - bi + K) * (2 ^ M * 2 ^ M))
      with ((x * 2 ^ M) * (y * 2 ^ M) * (2 ^ F_SIZE F * 2 ^ (2 - 2 * M - bi + K))) by ring.
    rewrite Va, Vb. replace (am * 2 ^ (ae - 1 + M) * (bm * 2 ^ (be - 1 + M)) * (2 ^ F_SIZE F * 2 ^ (2 - 2 * M - bi + K)))
      with (am * bm * (2 ^ (ae - 1 + M) * 2 ^ (be - 1 + M) * 2 ^ F_SIZE F * 2 ^ (2 - 2 * M - bi + K))) by ring.
    clear - La Lb HS HM HR. rewrite <- !Z.pow_add_r by lia. do 2 f_equal. lia.
Qed.

Lemma mul_finite_correct a b rm fl : 0 <= rm <= 4 -> in_u (F_SIZE F) a -> in_u (F_SIZE F) b ->
  finite F a = true -> finite F b = true ->
  mul_sf F a b rm fl =
    let '(r, f) := fround0 rm (sign_of F a .^ sign_of F b) (fmag F a * fmag F b) 1 (2 - 2 * MANT_SIZE F - bias F) in
    Some (r, fl .| f).
Proof.
  intros Hrm Ha Hb Hfa Hfb. unfold finite in *. apply negb_true_iff in Hfa, Hfb. unfold mul_sf. rewrite Hfa, Hfb.
  cbn [orb]. rewrite !is_zero_fmag. unfold fround0.
  pose proof (xor_sign _ _ (sign_range a Ha) (sign_range b Hb)) as Hs. set (s := sign_of F a .^ sign_of F b) in *.
  assert (Hz : Some (pack_sf F s 0 0, fl) = Some (pack_sf F s 0 0, fl .| 0)) by (rewrite Z.lor_0_r; reflexivity).
  destruct (Z.eqb_spec (fmag F a) 0) as [-> |Na]; [rewrite Z.mul_0_l; exact Hz|].
  destruct (norm_operand F (exp_of F a) (mant_of F a)) as [ae am] eqn:Ea.
  destruct (Z.eqb_spec (fmag F b) 0) as [-> |Nb]; [rewrite Z.mul_0_r; exact Hz|].
  destruct (norm_operand F (exp_of F b) (mant_of F b)) as [be bm] eqn:Eb.
  destruct (norm_operand_spec a ae am Ea Na) as (Ra & La & Va). destruct (norm_operand_spec b be bm Eb Nb) as (Rb & Lb & Vb).
  pose proof (fmag_nonneg a). pose proof (fmag_nonneg b). destruct (Z.eqb_spec (fmag F a * fmag F b) 0); [nia|].
  destruct rnd_size as (HE & HR & HI & HS & HM). rewrite !pow2_S in * by lia.
  set (M := MANT_SIZE F) in *. set (R := RND_SIZE F) in *.
  assert (Hx : fu F (am << R) = am * 2 ^ R /\ 0 <= am * 2 ^ R < 2 ^ F_SIZE F).
  { rewrite Z.shiftl_mul_pow2 by lia. pose proof (pow2_pos R ltac:(lia)). pose proof (pow2_pos M ltac:(lia)).
    assert (am * 2 ^ R < 2 ^ F_SIZE F) by (rewrite HS; replace (M + R + 2) with (M + (R + 2)) by lia; rewrite !Z.pow_add_r by lia; nia).
    split; [apply u_small; unfold in_u; nia|nia]. }
  assert (Hy : fu F (bm << (R + 1)) = bm * 2 ^ (R + 1) /\ 0 <= bm * 2 ^ (R + 1) < 2 ^ F_SIZE F).
  { rewrite Z.shiftl_mul_pow2 by lia. pose proof (pow2_pos R ltac:(lia)). pose proof (pow2_pos M ltac:(lia)).
    assert (bm * 2 ^ (R + 1) < 2 ^ F_SIZE F) by (rewrite HS; replace (M + R + 2) with (M + (R + 2)) by lia; rewrite !Z.pow_add_r by lia; nia).
    split; [apply u_small; unfold in_u; rewrite Z.pow_add_r in * by lia; nia|rewrite Z.pow_add_r in * by lia; nia]. }
  destruct Hx as [-> Hx], Hy as [-> Hy]. pose proof (mul_sticky _ _ Hx Hy) as Hst.
  set (P := am * 2 ^ R * (bm * 2 ^ (R + 1))) in *. destruct (mul_u F (am * 2 ^ R) (bm * 2 ^ (R + 1))) as [hi lo]. rewrite Hst.
  assert (EP : P = am * bm * 2 ^ (2 * R + 1)).
  { unfold P. replace (2 * R + 1) with (R + (R + 1)) by lia. rewrite (Z.pow_add_r 2 R (R + 1)) by lia. ring. }
  assert (HP : 2 ^ F_SIZE F * 2 ^ (F_SIZE F - 3) <= P < 2 ^ F_SIZE F * 2 ^ (F_SIZE F - 1)).
  { rewrite <- !Z.pow_add_r by lia. replace (F_SIZE F + (F_SIZE F - 3)) with (M + M + (2 * R + 1)) by lia.
    replace (F_SIZE F + (F_SIZE F - 1)) with (2 + (M + M + (2 * R + 1))) by lia. rewrite EP, !Z.pow_add_r by lia.
    pose proof (pow2_pos (2 * R) ltac:(lia)). pose proof (pow2_pos M ltac:(lia)). change (2 ^ 2) with 4. change (2 ^ 1) with 2.
    set (w := 2 ^ (2 * R) * 2). assert (0 < w) by (unfold w; lia). assert (2 ^ M * 2 ^ M <= am * bm < 4 * (2 ^ M * 2 ^ M)) by nia. nia. }
  destruct bias_eq as [Bq _]. rewrite Z.shiftl_1_l. replace (2 ^ (EXP_SIZE F - 1)) with (bias F + 1) by lia. set (bi := bias F) in *.
  destruct (normalize_sticky s (ae + be - (bi + 1) + 2) rm P (2 ^ F_SIZE F) fl Hrm Hs (pow2_pos (F_SIZE F) ltac:(lia)) HP) as [Hle ->].
  rewrite (fround_same rm s P (2 ^ F_SIZE F) _ (fmag F a * fmag F b) 1 (2 - 2 * M - bi)); [reflexivity| | |].
  - split; [apply pow2_pos; lia|exact Hle].
  - split; [lia|nia].
  - rewrite EP. apply same_product; assumption.
Qed.

(** ** Addition *)

(** Clearing the sign leaves exponent and mantissa as one number. *)
Lemma clear_sign a : in_u (F_SIZE F) a -> a .&~ SIGN_MASK F = exp_of F a * 2 ^ MANT_SIZE F + mant_of F a.
Proof.
  intros Ha. destruct rnd_size as (HE & HR & HI & HS & HM). unfold SIGN_MASK, exp_of, mant_of, EXP_MASK, MANT_MASK.
  assert (E : a .&~ (1 << (F_SIZE F - 1)) = a mod 2 ^ (F_SIZE F - 1)).
  { apply Z.bits_inj'; intros k Hk. rewrite Z.ldiff_spec, Z.shiftl_1_l, Z.pow2_bits_eqb, Z.testbit_mod_pow2 by lia.
    destruct (Z.eqb_spec (F_SIZE F - 1) k), (Z.ltb_spec k (F_SIZE F - 1)); cbn [negb andb]; try lia; rewrite ?andb_true_r, ?andb_false_r; try reflexivity.
    apply (in_u_testbit (F_SIZE F) a ltac:(lia)); [exact Ha|lia]. }
  rewrite E, !low_bits, Z.shiftr_div_pow2 by (destruct HF; lia).
  replace (F_SIZE F - 1) with (MANT_SIZE F + EXP_SIZE F) by (destruct HF; lia).
  rewrite Z.pow_add_r, Z.rem_mul_r by (destruct HF; try lia; apply pow2_pos; lia). ring.
Qed.

(** The significand of a finite number and the exponent of its units. *)
Definition signif (a : Z) : Z := if exp_of F a =? 0 then mant_of F a else 2 ^ MANT_SIZE F + mant_of F a.
Definition uexp (a : Z) : Z := Z.max (exp_of F a) 1.

Lemma signif_range a : 0 <= signif a < 2 ^ (MANT_SIZE F + 1) /\ 1 <= uexp a /\
  (1 < uexp a -> 2 ^ MANT_SIZE F <= signif a) /\ fmag F a = signif a * 2 ^ (uexp a - 1).
Proof.
  pose proof (mant_range a). pose proof (exp_range a). pose proof (pow2_pos (MANT_SIZE F) ltac:(destruct HF; lia)).
  unfold signif, uexp, fmag. rewrite pow2_S by (destruct HF; lia). destruct (Z.eqb_spec (exp_of F a) 0); lia.
Qed.

Lemma clear_sign_order a b : in_u (F_SIZE F) a -> in_u (F_SIZE F) b -> a .&~ SIGN_MASK F <= b .&~ SIGN_MASK F ->
  uexp a <= uexp b /\ fmag F a <= fmag F b.
Proof.
  intros Ha Hb. rewrite !clear_sign by assumption. intros H.
  pose proof (mant_range a). pose proof (mant_range b). pose proof (exp_range a). pose proof (exp_range b).
  pose proof (pow2_pos (MANT_SIZE F) ltac:(destruct HF; lia)) as Hp.
  assert (He : exp_of F a <= exp_of F b) by nia.
  assert (Hu : uexp a <= uexp b) by (unfold uexp; lia). split; [exact Hu|].
  destruct (signif_range a) as (Sa & Ua & Na & ->), (signif_range b) as (Sb & Ub & Nb & ->).
  rewrite pow2_S in * by (destruct HF; lia).
  destruct (Z.eq_dec (uexp a) (uexp b)) as [E|E].
  - rewrite E. assert (signif a <= signif b).
    { unfold signif. unfold uexp in E. destruct (Z.eqb_spec (exp_of F a) 0), (Z.eqb_spec (exp_of F b) 0); nia. }
    pose proof (pow2_pos (uexp b - 1) ltac:(lia)). nia.
  - replace (uexp b - 1) with (uexp a - 1 + (uexp b - uexp a)) by lia. rewrite Z.pow_add_r by lia.
    assert (2 <= 2 ^ (uexp b - uexp a)) by (change 2 with (2 ^ 1) at 1; apply Z.pow_le_mono_r; lia).
    pose proof (pow2_pos (uexp a - 1) ltac:(lia)). set (w := 2 ^ (uexp b - uexp a)) in *. set (u := 2 ^ (uexp a - 1)) in *.
    specialize (Nb ltac:(lia)). assert (signif a <= signif b * w) by nia. nia.
Qed.

(** Adding to, or subtracting from, an even number keeps the agreement. *)
Lemma agree_add x y n d : 0 < d -> agree 1 y n d -> agree 1 (2 * x + y) (2 * x * d + n) d.
Proof.
  intros Hd H c. specialize (H (c - x)). change (2 ^ 1) with 2 in *.
  rewrite <- (Z.add_compare_mono_l (- (2 * x)) (2 * x + y)), <- (Z.add_compare_mono_l (- (2 * x * d)) (2 * x * d + n)).
  replace (- (2 * x) + (2 * x + y)) with y by ring. replace (- (2 * x * d) + (2 * x * d + n)) with n by ring.
  replace (- (2 * x) + c * 2) with ((c - x) * 2) by ring. replace (- (2 * x * d) + c * 2 * d) with ((c - x) * 2 * d) by ring.
  exact H.
Qed.

Lemma agree_opp y n d : agree 1 y n d -> agree 1 (- y) (- n) d.
Proof.
  intros H c. specialize (H (- c)). change (2 ^ 1) with 2 in *.
  replace (c * 2) with (- (- c * 2)) by ring. replace (- (- c * 2) * d) with (- (- c * 2 * d)) by ring.
  rewrite !Z.compare_opp, (Z.compare_antisym y), (Z.compare_antisym n), H. reflexivity.
Qed.

(** An exact zero of sign [s]. *)
Lemma pack_zero s : s = 0 \/ s = 1 -> pack_sf F s 0 0 = if s =? 1 then SIGN_MASK F else 0.
Proof.
  intros Hs. destruct rnd_size as (_ & HR & _ & HS & HM). unfold pack_sf, fu, SIGN_MASK. rewrite !Z.shiftl_0_l, Z.land_0_l.
  change (uN (F_SIZE F) 0) with (0 mod 2 ^ F_SIZE F). rewrite Z.mod_0_l, !Z.lor_0_r by (pose proof (pow2_pos (F_SIZE F) ltac:(lia)); lia).
  destruct Hs as [-> | ->]; cbn [Z.eqb Pos.eqb].
  - rewrite Z.shiftl_0_l. apply Z.mod_0_l. pose proof (pow2_pos (F_SIZE F) ltac:(lia)). lia.
  - rewrite Z.shiftl_1_l. apply u_small. split; [apply Z.lt_le_incl, pow2_pos; lia|apply Z.pow_lt_mono_r; lia].
Qed.

Lemma normalize_zero s e rm fl : 0 <= rm <= 4 -> s = 0 \/ s = 1 ->
  normalize_sf F s e 0 rm fl = Some (pack_sf F s 0 0, fl).
Proof.
  intros Hrm Hs. destruct rnd_size as (_ & HR & HI & HS & HM). unfold normalize_sf, clz. cbn [Z.eqb].
  unfold fbind, fassert. replace (F_SIZE F - (F_SIZE F - 1 - IMANT_SIZE F)) with (IMANT_SIZE F + 1) by lia.
  destruct (Z.leb_spec 0 (IMANT_SIZE F + 1)); [|lia]. rewrite Z.shiftl_0_l.
  replace (fu F 0) with 0 by (symmetry; apply Z.mod_0_l; pose proof (pow2_pos (F_SIZE F) ltac:(lia)); lia).
  assert (H0 : forall x, round_finish F s x 0 (rnd_addend F s rm) (0 .& ((1 << RND_SIZE F) - 1)) rm fl = Some (pack_sf F s 0 0, fl)).
  { intros x. rewrite round_finish_spec by (assumption || (split; [lia|apply pow2_pos; lia])).
    pose proof (pow2_pos (RND_SIZE F) ltac:(lia)) as Hp. rewrite Z.mod_0_l by lia. cbn [Z.eqb negb]. rewrite Z.lor_0_r.
    assert (round_int rm s 0 (2 ^ RND_SIZE F) = 0) as ->.
    { unfold round_int. rewrite Z.div_0_l, Z.mod_0_l by lia. rewrite Z.mul_0_r, Z.eqb_refl. cbn [negb andb].
      destruct (Z.ltb_spec (2 ^ RND_SIZE F) 0); [lia|]. destruct (Z.eqb_spec 0 (2 ^ RND_SIZE F)); [lia|].
      destruct (Z.leb_spec (2 ^ RND_SIZE F) 0); [lia|]. cbn [orb andb].
      destruct (rm =? RM_RNE), (rm =? RM_RMM), (rm =? RM_RDN), (rm =? RM_RUP); reflexivity. }
    unfold finish. pose proof (pow2_pos (MANT_SIZE F) ltac:(lia)). destruct (Z.ltb_spec 0 (2 ^ MANT_SIZE F)); [reflexivity|lia]. }
  assert (Hr : forall k, rshift_rnd F 0 k = 0).
  { intros k. unfold rshift_rnd. rewrite Z.shiftr_0_l, Z.land_0_l. destruct (negb (k =? 0)); [|reflexivity]. destruct (_ <=? k); reflexivity. }
  unfold round_pack_sf. rewrite Hr, Z.land_0_l in *. change (nz 0) with false. rewrite andb_false_r.
  destruct (_ <=? 0); apply H0.
Qed.

Lemma lor_hidden a : (if exp_of F a =? 0 then fu F (mant_of F a << 3) else fu F (mant_of F a << 3) .| (1 << (MANT_SIZE F + 3)))
  = signif a * 8 /\ (if exp_of F a =? 0 then 1 else exp_of F a) = uexp a.
Proof.
  destruct rnd_size as (_ & HR & HI & HS & HM). pose proof (mant_range a) as Hm. pose proof (exp_range a).
  assert (Hp : 2 ^ (MANT_SIZE F + 3) = 2 ^ MANT_SIZE F * 8) by (rewrite Z.pow_add_r by lia; reflexivity).
  assert (2 ^ (MANT_SIZE F + 3) < 2 ^ F_SIZE F) by (apply Z.pow_lt_mono_r; lia).
  rewrite Z.shiftl_mul_pow2 by lia. change (2 ^ 3) with 8. unfold fu. rewrite u_small by (unfold in_u; lia).
  unfold signif, uexp. destruct (Z.eqb_spec (exp_of F a) 0); [lia|]. rewrite lor_bit by lia. lia.
Qed.

Lemma sticky_exact q d : 0 < d -> sticky (q * d) d = q.
Proof. intros Hd. unfold sticky. rewrite Z.div_mul, Z.mod_mul by lia. cbn. apply Z.lor_0_r. Qed.

(** The sum or difference of the aligned significands, three guard bits wide. *)
Definition add_mant (sub : bool) (x y k : Z) : Z :=
  let z := sticky (y * 8) (2 ^ k) in if sub then x * 8 - z else x * 8 + z.
Definition add_exact (sub : bool) (x y k : Z) : Z := if sub then x * 8 * 2 ^ k - y * 8 else x * 8 * 2 ^ k + y * 8.

Lemma add_mant_agree sub x y k : 0 <= k -> agree 1 (add_mant sub x y k) (add_exact sub x y k) (2 ^ k).
Proof.
  intros Hk. pose proof (agree_sticky (y * 8) (2 ^ k) (pow2_pos k Hk)) as H. unfold add_mant, add_exact.
  destruct sub; cbv zeta.
  - apply agree_opp, (agree_add (4 * x)) in H; [|apply pow2_pos, Hk].
    replace (x * 8 - sticky (y * 8) (2 ^ k)) with (2 * (4 * x) + - sticky (y * 8) (2 ^ k)) by ring.
    replace (x * 8 * 2 ^ k - y * 8) with (2 * (4 * x) * 2 ^ k + - (y * 8)) by ring. exact H.
  - apply (agree_add (4 * x)) in H; [|apply pow2_pos, Hk].
    replace (x * 8 + sticky (y * 8) (2 ^ k)) with (2 * (4 * x) + sticky (y * 8) (2 ^ k)) by ring.
    replace (x * 8 * 2 ^ k + y * 8) with (2 * (4 * x) * 2 ^ k + y * 8) by ring. exact H.
Qed.

Lemma add_mant_bounds sub x y k : 0 <= k -> 0 <= x < 2 ^ (MANT_SIZE F + 1) -> 0 <= y < 2 ^ (MANT_SIZE F + 1) ->
  0 <= add_exact sub x y k -> 0 <= add_mant sub x y k < 2 ^ (IMANT_SIZE F + 1).
Proof.
  intros Hk Hx Hy Hn. destruct rnd_size as (_ & HR & HI & HS & HM).
  pose proof (add_mant_agree sub x y k Hk 0) as H. rewrite !Z.mul_0_l in H. split.
  - destruct (Z.compare_spec (add_exact sub x y k) 0); [| lia |]; destruct (Z.compare_spec (add_mant sub x y k) 0); try discriminate; lia.
  - pose proof (pow2_pos k Hk). assert (Hz : 0 <= sticky (y * 8) (2 ^ k) <= y * 8 + 1).
    { unfold sticky. destruct (lor_one (y * 8 / 2 ^ k) (negb ((y * 8) mod 2 ^ k =? 0))) as [L _].
      assert (0 <= y * 8 / 2 ^ k) by (apply Z.div_pos; lia). assert (y * 8 / 2 ^ k <= y * 8) by (apply Z.div_le_upper_bound; nia). lia. }
    apply (Z.lt_le_trans _ (2 ^ (MANT_SIZE F + 1) * 16)).
    + unfold add_mant. destruct sub; lia.
    + change 16 with (2 ^ 4). rewrite <- Z.pow_add_r by lia. apply Z.pow_le_mono_r; lia.
Qed.

(** After normalisation the truncation stays below the rounding position: either
    nothing was lost, or the result has lost at most one leading bit. *)
Lemma add_mant_normal sub x y k : 0 <= k -> 0 <= x < 2 ^ (MANT_SIZE F + 1) -> 0 <= y < 2 ^ (MANT_SIZE F + 1) ->
  (0 < k -> 2 ^ MANT_SIZE F <= x) -> 0 <= add_exact sub x y k -> 0 < add_mant sub x y k ->
  let sh := IMANT_SIZE F - Z.log2 (add_mant sub x y k) in
  exists g, 0 <= g <= RND_SIZE F - 1 /\ agree g (add_mant sub x y k * 2 ^ sh) (add_exact sub x y k * 2 ^ sh) (2 ^ k).
Proof.
  intros Hk Hx Hy Hnorm Hn Hr sh. destruct rnd_size as (_ & HR & HI & HS & HM).
  pose proof (add_mant_agree sub x y k Hk) as Ha. pose proof (add_mant_bounds sub x y k Hk Hx Hy Hn) as Hb.
  pose proof (pow2_pos k Hk) as Hp. set (r := add_mant sub x y k) in *. set (n := add_exact sub x y k) in *.
  assert (Hsh : 0 <= sh).
  { unfold sh. assert (Z.log2 r < IMANT_SIZE F + 1) by (apply Z.log2_lt_pow2; lia). lia. }
  destruct (Z_le_gt_dec k 3) as [Hk3|Hk3].
  - exists 0. split; [lia|]. replace (n * 2 ^ sh) with (r * 2 ^ sh * 2 ^ k); [apply agree_exact; exact Hp|].
    assert (E : y * 8 = y * 2 ^ (3 - k) * 2 ^ k).
    { rewrite <- Z.mul_assoc, <- Z.pow_add_r by lia. replace (3 - k + k) with 3 by lia. reflexivity. }
    unfold r, n, add_mant, add_exact. cbv zeta. rewrite E, sticky_exact by exact Hp. destruct sub; ring.
  - exists (1 + sh). split; [|apply agree_shiftl; (lia || assumption)].
    assert (Hge : 2 ^ (MANT_SIZE F + 2) <= r).
    { apply (agree_ge 1 r n (2 ^ k) (MANT_SIZE F + 2) ltac:(lia) Hp Ha). specialize (Hnorm ltac:(lia)).
      assert (E : 2 ^ k = 2 ^ (k - 2) * 4) by (change 4 with (2 ^ 2); rewrite <- Z.pow_add_r by lia; f_equal; lia).
      assert (1 <= 2 ^ (k - 2)) by (pose proof (pow2_pos (k - 2) ltac:(lia)); lia).
      replace (MANT_SIZE F + 2) with (MANT_SIZE F + 1 + 1) by lia. rewrite !pow2_S in * by lia.
      unfold n, add_exact. destruct sub; nia. }
    assert (MANT_SIZE F + 2 <= Z.log2 r) by (apply Z.log2_le_pow2; lia). unfold sh. lia.
Qed.

(** The exact sum, rounded; an exact zero takes the common sign, or is negative
    only when rounding down. *)
Definition add_ref (rm a b : Z) : Z * Z :=
  let S := fval F a + fval F b in
  if S =? 0 then
    (pack_sf F (if sign_of F a =? sign_of F b then sign_of F a else Z.b2z (rm =? RM_RDN)) 0 0, 0)
  else fround F rm (Z.b2z (S <? 0)) (Z.abs S) 1 (1 - MANT_SIZE F).

Lemma add_ref_comm rm a b : add_ref rm a b = add_ref rm b a.
Proof.
  unfold add_ref. rewrite (Z.add_comm (fval F a)), (Z.eqb_sym (sign_of F a)).
  destruct (Z.eqb_spec (sign_of F b) (sign_of F a)) as [-> |]; reflexivity.
Qed.

(** The reference in terms of the magnitudes, the larger first. *)
Lemma add_ref_ordered rm a b : sign_of F a = 0 \/ sign_of F a = 1 -> sign_of F b = 0 \/ sign_of F b = 1 ->
  fmag F b <= fmag F a -> let T := if sign_of F a =? sign_of F b then fmag F a + fmag F b else fmag F a - fmag F b in
  0 <= T /\ add_ref rm a b =
    if T =? 0 then (pack_sf F (if sign_of F a =? sign_of F b then sign_of F a else Z.b2z (rm =? RM_RDN)) 0 0, 0)
    else fround F rm (sign_of F a) T 1 (1 - MANT_SIZE F).
Proof.
  intros Ha Hb Hm. pose proof (fmag_nonneg a). pose proof (fmag_nonneg b). unfold add_ref, fval.
  destruct Ha as [-> | ->], Hb as [-> | ->]; cbv zeta; unfold nz; cbn [Z.eqb Pos.eqb negb]; (split; [lia|]).
  - rewrite Z.abs_eq by lia. destruct (Z.eqb_spec (fmag F a + fmag F b) 0); [reflexivity|].
    destruct (Z.ltb_spec (fmag F a + fmag F b) 0); [lia|reflexivity].
  - replace (fmag F a + - fmag F b) with (fmag F a - fmag F b) by lia. rewrite Z.abs_eq by lia.
    destruct (Z.eqb_spec (fmag F a - fmag F b) 0); [reflexivity|]. destruct (Z.ltb_spec (fmag F a - fmag F b) 0); [lia|reflexivity].
  - replace (- fmag F a + fmag F b) with (- (fmag F a - fmag F b)) by lia. rewrite Z.abs_opp, Z.abs_eq by lia.
    destruct (Z.eqb_spec (- (fmag F a - fmag F b)) 0), (Z.eqb_spec (fmag F a - fmag F b) 0); try lia; [reflexivity|].
    destruct (Z.ltb_spec (- (fmag F a - fmag F b)) 0); [reflexivity|lia].
  - replace (- fmag F a + - fmag F b) with (- (fmag F a + fmag F b)) by lia. rewrite Z.abs_opp, Z.abs_eq by lia.
    destruct (Z.eqb_spec (- (fmag F a + fmag F b)) 0), (Z.eqb_spec (fmag F a + fmag F b) 0); try lia; [reflexivity|].
    destruct (Z.ltb_spec (- (fmag F a + fmag F b)) 0); [reflexivity|lia].
Qed.

(** The exact fraction of the aligned significands is eight times the sum, in
    units of the smaller operand. *)
Lemma add_exact_mag (sub : bool) a b : uexp b <= uexp a ->
  add_exact sub (signif a) (signif b) (uexp a - uexp b) * 2 ^ (uexp b - 1) =
  8 * (if sub then fmag F a - fmag F b else fmag F a + fmag F b).
Proof.
  intros H. destruct (signif_range a) as (_ & Ua & _ & ->), (signif_range b) as (_ & Ub & _ & ->).
  replace (uexp a - 1) with (uexp a - uexp b + (uexp b - 1)) by lia. rewrite Z.pow_add_r by lia.
  unfold add_exact. destruct sub; ring.
Qed.

Lemma add_ordered_correct a b rm fl : 0 <= rm <= 4 -> in_u (F_SIZE F) a -> in_u (F_SIZE F) b ->
  finite F a = true -> b .&~ SIGN_MASK F <= a .&~ SIGN_MASK F ->
  add_ordered F a b rm fl = let '(r, f) := add_ref rm a b in Some (r, fl .| f).
Proof.
  intros Hrm Ha Hb Hfa Hord. unfold finite in Hfa. apply negb_true_iff in Hfa. unfold add_ordered. rewrite Hfa.
  destruct (lor_hidden a) as [-> ->], (lor_hidden b) as [-> ->].
  pose proof (sign_range a Ha) as Sa. pose proof (sign_range b Hb) as Sb.
  destruct (clear_sign_order b a Hb Ha Hord) as [Hu Hmag].
  destruct (add_ref_ordered rm a b Sa Sb Hmag) as [HT ->].
  destruct rnd_size as (HE & HR & HI & HS & HM).
  destruct (signif_range a) as (Ra & Ua & Na & _), (signif_range b) as (Rb & Ub & _ & _).
  set (k := uexp a - uexp b) in *. set (sub := negb (sign_of F a =? sign_of F b)).
  pose proof (add_exact_mag sub a b Hu) as Hex. fold k in Hex.
  assert (Hbm : 0 <= signif b * 8 < 2 ^ F_SIZE F).
  { assert (2 ^ (MANT_SIZE F + 1) * 2 ^ 3 <= 2 ^ F_SIZE F) by (rewrite <- Z.pow_add_r by lia; apply Z.pow_le_mono_r; lia). lia. }
  assert (Hk0 : 0 <= k) by (unfold k; lia). rewrite (rshift_rnd_sticky _ k Hbm Hk0).
  pose proof (pow2_pos (uexp b - 1) ltac:(lia)) as Hp.
  set (T := if sign_of F a =? sign_of F b then fmag F a + fmag F b else fmag F a - fmag F b) in *.
  assert (HexT : add_exact sub (signif a) (signif b) k * 2 ^ (uexp b - 1) = 8 * T) by (rewrite Hex; unfold T, sub; destruct (sign_of F a =? sign_of F b); reflexivity).
  assert (Hn : 0 <= add_exact sub (signif a) (signif b) k) by nia.
  pose proof (add_mant_bounds sub _ _ k Hk0 Ra Rb Hn) as Hbd.
  assert (Hfu : (if sign_of F a =? sign_of F b then fu F (signif a * 8 + sticky (signif b * 8) (2 ^ k))
                 else fu F (signif a * 8 - sticky (signif b * 8) (2 ^ k))) = add_mant sub (signif a) (signif b) k).
  { assert (2 ^ (IMANT_SIZE F + 1) <= 2 ^ F_SIZE F) by (apply Z.pow_le_mono_r; lia).
    unfold add_mant, sub in *. destruct (sign_of F a =? sign_of F b); cbn [negb] in *; apply u_small; unfold in_u; lia. }
  rewrite Hfu. fold sub.
  pose proof (add_mant_agree sub (signif a) (signif b) k Hk0 0) as Hz. rewrite !Z.mul_0_l in Hz.
  destruct (Z.eqb_spec (add_mant sub (signif a) (signif b) k) 0) as [E0|E0].
  - rewrite E0 in *. symmetry in Hz. apply Z.compare_eq_iff in Hz. destruct (Z.eqb_spec T 0); [|nia].
    rewrite andb_true_r. unfold sub. rewrite Z.lor_0_r.
    destruct (sign_of F a =? sign_of F b); cbn [negb]; apply normalize_zero; try assumption. destruct (rm =? RM_RDN); auto.
  - rewrite andb_false_r.
    destruct (Z.eqb_spec T 0) as [ET|ET]; [exfalso; destruct (Z.compare_spec (add_mant sub (signif a) (signif b) k) 0), (Z.compare_spec (add_exact sub (signif a) (signif b) k) 0); try discriminate; nia|].
    destruct (add_mant_normal sub (signif a) (signif b) k Hk0 Ra Rb) as (g & Hg & Hag); try lia.
    destruct (normalize_correct g (sign_of F a) (uexp a + (RND_SIZE F - 3)) (add_mant sub (signif a) (signif b) k) rm
      (add_exact sub (signif a) (signif b) k) (2 ^ k) fl) as [Hle ->]; try assumption; try lia.
    rewrite (fround_same rm (sign_of F a) _ (2 ^ k) _ T 1 (1 - MANT_SIZE F)); [reflexivity|pose proof (pow2_pos k Hk0); lia|lia|].
    exists (uexp b + MANT_SIZE F + 4). split; [lia|]. split; [lia|]. rewrite Z.mul_1_r.
    apply (Z.mul_reg_r _ _ (2 ^ (uexp b - 1))); [lia|].
    replace (add_exact sub (signif a) (signif b) k * 2 ^ (uexp a + (RND_SIZE F - 3) - IMANT_SIZE F + (uexp b + MANT_SIZE F + 4)) * 2 ^ (uexp b - 1))
      with (add_exact sub (signif a) (signif b) k * 2 ^ (uexp b - 1) * 2 ^ (uexp a + (RND_SIZE F - 3) - IMANT_SIZE F + (uexp b + MANT_SIZE F + 4))) by ring.
    rewrite HexT. replace (8 * T) with (T * 2 ^ 3) by lia.
    replace (T * 2 ^ k * 2 ^ (1 - MANT_SIZE F + (uexp b + MANT_SIZE F + 4)) * 2 ^ (uexp b - 1))
      with (T * (2 ^ k * 2 ^ (1 - MANT_SIZE F + (uexp b + MANT_SIZE F + 4)) * 2 ^ (uexp b - 1))) by ring.
    rewrite <- Z.mul_assoc. f_equal. clear - HI Ua Ub Hk0 HM HR. rewrite <- !Z.pow_add_r by lia. f_equal. unfold k. lia.
Qed.

Lemma add_finite_correct a b rm fl : 0 <= rm <= 4 -> in_u (F_SIZE F) a -> in_u (F_SIZE F) b ->
  finite F a = true -> finite F b = true ->
  add_sf F a b rm fl = let '(r, f) := add_ref rm a b in Some (r, fl .| f).
Proof.
  intros Hrm Ha Hb Hfa Hfb. unfold add_sf. destruct (Z.ltb_spec (a .&~ SIGN_MASK F) (b .&~ SIGN_MASK F)).
  - rewrite add_ref_comm. apply add_ordered_correct; (assumption || lia).
  - apply add_ordered_correct; (assumption || lia).
Qed.

(** ** Division *)

(** The exact quotient of two non-zero magnitudes as [fround] takes it: the
    numerator is scaled so that it is not below the denominator. *)
Definition div_ref (rm s x y : Z) : Z * Z :=
  let k := Z.log2 y + 1 in fround F rm s (x * 2 ^ k) y (bias F - k).

Lemma divrem_sticky x y : 0 <= x -> 0 < y < 2 ^ F_SIZE F -> x * 2 ^ F_SIZE F < y * 2 ^ F_SIZE F ->
  let '(q, r) := divrem_u F x 0 y in (if nz r then q .| 1 else q) = sticky (x * 2 ^ F_SIZE F) y.
Proof.
  intros Hx Hy Hlt. destruct rnd_size as (HE & HR & HI & HS & HM). unfold divrem_u, sticky, fu.
  rewrite Z.lor_0_r, Z.shiftl_mul_pow2 by lia. pose proof (pow2_pos (F_SIZE F) ltac:(lia)) as Hp.
  pose proof (Z.mod_pos_bound (x * 2 ^ F_SIZE F) y ltac:(lia)).
  assert (0 <= x * 2 ^ F_SIZE F / y) by (apply Z.div_pos; nia).
  assert (x * 2 ^ F_SIZE F / y < 2 ^ F_SIZE F) by (apply Z.div_lt_upper_bound; lia).
  rewrite !u_small by (unfold in_u; lia). unfold nz. destruct (negb _); [reflexivity|]. cbn [Z.b2z]. rewrite Z.lor_0_r. reflexivity.
Qed.

(** The number the quotient of two normalised operands stands for. *)
Lemma same_quotient x y am bm ae be k :
  1 - MANT_SIZE F <= ae -> 1 - MANT_SIZE F <= be -> 0 <= k ->
  x * 2 ^ MANT_SIZE F = am * 2 ^ (ae - 1 + MANT_SIZE F) -> y * 2 ^ MANT_SIZE F = bm * 2 ^ (be - 1 + MANT_SIZE F) ->
  same_num (am * 2 ^ F_SIZE F) (bm * 2 ^ 2) (ae - be + bias F - IMANT_SIZE F) (x * 2 ^ k) y (bias F - k).
Proof.
  intros La Lb Hk Va Vb. destruct rnd_size as (HE & HR & HI & HS & HM). set (M := MANT_SIZE F) in *. set (bi := bias F).
  set (K := Z.abs ae + Z.abs be + Z.abs bi + 2 * M + RND_SIZE F + k + 8). exists K. split; [lia|]. split; [lia|].
  apply (Z.mul_reg_r _ _ (2 ^ M * 2 ^ M)); [pose proof (pow2_pos M ltac:(lia)); nia|].
  transitivity (am * bm * 2 ^ (ae - 1 + 2 * M + 2 + bi + K)).
  - set (ex := ae - be + bi - IMANT_SIZE F + K).
    replace (am * 2 ^ F_SIZE F * y * 2 ^ ex * (2 ^ M * 2 ^ M)) with ((y * 2 ^ M) * am * (2 ^ F_SIZE F * 2 ^ ex * 2 ^ M)) by ring.
    rewrite Vb. replace (bm * 2 ^ (be - 1 + M) * am * (2 ^ F_SIZE F * 2 ^ ex * 2 ^ M)) with (am * bm * (2 ^ (be - 1 + M) * 2 ^ F_SIZE F * 2 ^ ex * 2 ^ M)) by ring.
    rewrite <- !Z.pow_add_r by (unfold ex; lia). do 2 f_equal. unfold ex. lia.
  - symmetry. replace (x * 2 ^ k * (bm * 2 ^ 2) * 2 ^ (bi - k + K) * (2 ^ M * 2 ^ M))
      with ((x * 2 ^ M) * bm * (2 ^ k * 2 ^ 2 * 2 ^ (bi - k + K) * 2 ^ M)) by ring.
    rewrite Va. replace (am * 2 ^ (ae - 1 + M) * bm * (2 ^ k * 2 ^ 2 * 2 ^ (bi - k + K) * 2 ^ M))
      with (am * bm * (2 ^ (ae - 1 + M) * 2 ^ k * 2 ^ 2 * 2 ^ (bi - k + K) * 2 ^ M)) by ring.
    clear - La Lb HS HM HR Hk. rewrite <- !Z.pow_add_r by lia. do 2 f_equal. lia.
Qed.

Lemma div_finite_correct a b rm fl : 0 <= rm <= 4 -> in_u (F_SIZE F) a -> in_u (F_SIZE F) b ->
  finite F a = true -> finite F b = true -> fmag F a <> 0 -> fmag F b <> 0 ->
  div_sf F a b rm fl =
    let '(r, f) := div_ref rm (sign_of F a .^ sign_of F b) (fmag F a) (fmag F b) in Some (r, fl .| f).
Proof.
  intros Hrm Ha Hb Hfa Hfb Na Nb. unfold finite in *. apply negb_true_iff in Hfa, Hfb. unfold div_sf. rewrite Hfa, Hfb, !is_zero_fmag.
  destruct (Z.eqb_spec (fmag F b) 0); [contradiction|]. destruct (Z.eqb_spec (fmag F a) 0); [contradiction|].
  pose proof (xor_sign _ _ (sign_range a Ha) (sign_range b Hb)) as Hs. set (s := sign_of F a .^ sign_of F b) in *.
  destruct (norm_operand F (exp_of F b) (mant_of F b)) as [be bm] eqn:Eb.
  destruct (norm_operand F (exp_of F a) (mant_of F a)) as [ae am] eqn:Ea.
  destruct (norm_operand_spec a ae am Ea Na) as (Ra & La & Va). destruct (norm_operand_spec b be bm Eb Nb) as (Rb & Lb & Vb).
  pose proof (fmag_nonneg a). pose proof (fmag_nonneg b). destruct rnd_size as (HE & HR & HI & HS & HM). rewrite !pow2_S in * by lia.
  pose proof (pow2_pos (MANT_SIZE F) ltac:(lia)) as HpM. pose proof (pow2_pos (F_SIZE F) ltac:(lia)) as HpF.
  assert (H4 : fu F (bm << 2) = bm * 2 ^ 2 /\ 0 < bm * 2 ^ 2 < 2 ^ F_SIZE F).
  { rewrite Z.shiftl_mul_pow2 by lia. assert (2 ^ MANT_SIZE F * 2 ^ 3 <= 2 ^ F_SIZE F) by (rewrite <- Z.pow_add_r by lia; apply Z.pow_le_mono_r; lia).
    split; [apply u_small; unfold in_u|]; lia. }
  destruct H4 as [-> H4]. pose proof (divrem_sticky am (bm * 2 ^ 2) ltac:(lia) H4 ltac:(nia)) as Hst.
  destruct (divrem_u F am 0 (bm * 2 ^ 2)) as [q r]. rewrite Hst.
  destruct bias_eq as [Bq _]. rewrite Z.shiftl_1_l. replace (ae - be + 2 ^ (EXP_SIZE F - 1) - 1) with (ae - be + bias F) by lia.
  assert (HP : bm * 2 ^ 2 * 2 ^ (F_SIZE F - 3) <= am * 2 ^ F_SIZE F < bm * 2 ^ 2 * 2 ^ (F_SIZE F - 1)).
  { assert (E : 2 ^ F_SIZE F = 8 * 2 ^ (F_SIZE F - 3)) by (change 8 with (2 ^ 3); rewrite <- Z.pow_add_r by lia; f_equal; lia).
    assert (E1 : 2 ^ (F_SIZE F - 1) = 4 * 2 ^ (F_SIZE F - 3)) by (change 4 with (2 ^ 2); rewrite <- Z.pow_add_r by lia; f_equal; lia).
    rewrite E, E1. pose proof (pow2_pos (F_SIZE F - 3) ltac:(lia)). nia. }
  destruct (normalize_sticky s (ae - be + bias F) rm (am * 2 ^ F_SIZE F) (bm * 2 ^ 2) fl Hrm Hs ltac:(lia) HP) as [Hle ->].
  unfold div_ref. pose proof (Z.log2_nonneg (fmag F b)). set (k := Z.log2 (fmag F b) + 1).
  assert (Hk : fmag F b <= fmag F a * 2 ^ k).
  { destruct (Z.log2_spec (fmag F b) ltac:(lia)) as [_ L]. rewrite <- Z.add_1_r in L. fold k in L. pose proof (pow2_pos k ltac:(lia)). nia. }
  rewrite (fround_same rm s _ _ _ (fmag F a * 2 ^ k) (fmag F b) (bias F - k)); [reflexivity|lia|lia|].
  apply same_quotient; (assumption || lia).
Qed.

(** ** Comparisons *)

(** Encodings without the sign are ordered as the magnitudes. *)
Lemma clear_sign_strict a b : in_u (F_SIZE F) a -> in_u (F_SIZE F) b -> a .&~ SIGN_MASK F < b .&~ SIGN_MASK F ->
  fmag F a < fmag F b.
Proof.
  intros Ha Hb H. destruct (clear_sign_order a b Ha Hb ltac:(lia)) as [Hu _]. rewrite !clear_sign in H by assumption.
  pose proof (mant_range a). pose proof (mant_range b). pose proof (exp_range a). pose proof (exp_range b).
  pose proof (pow2_pos (MANT_SIZE F) ltac:(destruct HF; lia)) as Hp.
  destruct (signif_range a) as (Sa & Ua & Na & ->), (signif_range b) as (Sb & Ub & Nb & ->).
  rewrite pow2_S in * by (destruct HF; lia).
  destruct (Z.eq_dec (uexp a) (uexp b)) as [E|E].
  - rewrite E. assert (signif a < signif b).
    { unfold signif. unfold uexp in E. destruct (Z.eqb_spec (exp_of F a) 0), (Z.eqb_spec (exp_of F b) 0); nia. }
    pose proof (pow2_pos (uexp b - 1) ltac:(lia)). nia.
  - replace (uexp b - 1) with (uexp a - 1 + (uexp b - uexp a)) by lia. rewrite Z.pow_add_r by lia.
    assert (2 <= 2 ^ (uexp b - uexp a)) by (change 2 with (2 ^ 1) at 1; apply Z.pow_le_mono_r; lia).
    pose proof (pow2_pos (uexp a - 1) ltac:(lia)). set (w := 2 ^ (uexp b - uexp a)) in *. set (u := 2 ^ (uexp a - 1)) in *.
    specialize (Nb ltac:(lia)). assert (signif a < signif b * w) by nia. nia.
Qed.

Lemma clear_sign_compare a b : in_u (F_SIZE F) a -> in_u (F_SIZE F) b ->
  (fmag F a ?= fmag F b) = (a .&~ SIGN_MASK F ?= b .&~ SIGN_MASK F).
Proof.
  intros Ha Hb. destruct (Z.compare_spec (a .&~ SIGN_MASK F) (b .&~ SIGN_MASK F)) as [E | H | H].
  - apply Z.compare_eq_iff. destruct (clear_sign_order a b Ha Hb ltac:(lia)), (clear_sign_order b a Hb Ha ltac:(lia)). lia.
  - apply clear_sign_strict; assumption.
  - apply Z.compare_gt_iff, clear_sign_strict; assumption.
Qed.

Lemma with_sign a : in_u (F_SIZE F) a -> a = sign_of F a * 2 ^ (F_SIZE F - 1) + a .&~ SIGN_MASK F /\
  0 <= a .&~ SIGN_MASK F < 2 ^ (F_SIZE F - 1).
Proof.
  intros Ha. rewrite clear_sign by exact Ha. destruct rnd_size as (HE & HR & HI & HS & HM).
  pose proof (mant_range a). pose proof (exp_range a). unfold sign_of.
  assert (E : exp_of F a * 2 ^ MANT_SIZE F + mant_of F a = a mod 2 ^ (F_SIZE F - 1)).
  { unfold exp_of, mant_of, EXP_MASK, MANT_MASK. rewrite !low_bits, Z.shiftr_div_pow2 by (destruct HF; lia).
    replace (F_SIZE F - 1) with (MANT_SIZE F + EXP_SIZE F) by (destruct HF; lia).
    rewrite Z.pow_add_r, Z.rem_mul_r by (destruct HF; try lia; apply pow2_pos; lia). ring. }
  rewrite E, Z.shiftr_div_pow2 by lia. pose proof (pow2_pos (F_SIZE F - 1) ltac:(lia)) as Hp.
  destruct (div_mod_eq a (2 ^ (F_SIZE F - 1)) Hp). lia.
Qed.

Lemma fmag_zero a : in_u (F_SIZE F) a -> (fmag F a =? 0) = (a .&~ SIGN_MASK F =? 0).
Proof.
  intros Ha. rewrite <- is_zero_fmag, clear_sign by exact Ha. unfold is_zero. pose proof (mant_range a). pose proof (exp_range a).
  pose proof (pow2_pos (MANT_SIZE F) ltac:(destruct HF; lia)).
  destruct (Z.eqb_spec (exp_of F a) 0), (Z.eqb_spec (mant_of F a) 0), (Z.eqb_spec (exp_of F a * 2 ^ MANT_SIZE F + mant_of F a) 0);
    cbn [andb]; try reflexivity; nia.
Qed.

Lemma both_zero_spec a b : in_u (F_SIZE F) a -> in_u (F_SIZE F) b ->
  both_zero F a b = (fmag F a =? 0) && (fmag F b =? 0).
Proof.
  intros Ha Hb. rewrite !fmag_zero by assumption. destruct rnd_size as (HE & HR & HI & HS & HM). unfold both_zero, fu.
  assert (E : uN (F_SIZE F) ((a .| b) << 1) = (a .&~ SIGN_MASK F .| b .&~ SIGN_MASK F) << 1).
  { unfold SIGN_MASK. apply Z.bits_inj'; intros k Hk. rewrite u_testbit by lia. destruct (Z.eq_dec k 0) as [->|].
    - rewrite !Z.shiftl_spec_low by lia. apply andb_false_r.
    - rewrite !Z.shiftl_spec by lia. rewrite !Z.lor_spec, !Z.ldiff_spec, Z.shiftl_1_l, Z.pow2_bits_eqb by lia.
      destruct (Z.ltb_spec k (F_SIZE F)), (Z.eqb_spec (F_SIZE F - 1) (k - 1)); try lia; cbn [negb andb]; rewrite ?andb_true_r, ?andb_false_r; try reflexivity.
      symmetry. rewrite (proj2 (proj1 (in_u_testbit (F_SIZE F) a ltac:(lia)) Ha) (k - 1)) by lia.
      apply (in_u_testbit (F_SIZE F) b ltac:(lia)); [exact Hb|lia]. }
  rewrite E. destruct (with_sign a Ha) as [_ La], (with_sign b Hb) as [_ Lb].
  destruct (Z.eqb_spec (a .&~ SIGN_MASK F) 0) as [Za|Za], (Z.eqb_spec (b .&~ SIGN_MASK F) 0) as [Zb|Zb]; cbn [andb].
  - rewrite Za, Zb. reflexivity.
  - apply Z.eqb_neq. rewrite Z.shiftl_eq_0_iff, Z.lor_eq_0_iff by lia. tauto.
  - apply Z.eqb_neq. rewrite Z.shiftl_eq_0_iff, Z.lor_eq_0_iff by lia. tauto.
  - apply Z.eqb_neq. rewrite Z.shiftl_eq_0_iff, Z.lor_eq_0_iff by lia. tauto.
Qed.

(** The three relations on numbers, infinities included. *)
Lemma compare_numbers a b fl : in_u (F_SIZE F) a -> in_u (F_SIZE F) b -> isnan_sf F a = false -> isnan_sf F b = false ->
  eq_quiet_sf F a b fl = Some (fval F a =? fval F b, fl) /\
  lt_sf F a b fl = Some (fval F a <? fval F b, fl) /\ le_sf F a b fl = Some (fval F a <=? fval F b, fl).
Proof.
  intros Ha Hb Na Nb. unfold eq_quiet_sf, lt_sf, le_sf. rewrite Na, Nb. cbn [orb].
  rewrite (both_zero_spec a b Ha Hb).
  destruct (with_sign a Ha) as [Ea La], (with_sign b Hb) as [Eb Lb]. pose proof (clear_sign_compare a b Ha Hb) as Hc.
  pose proof (fmag_zero a Ha) as Za. pose proof (fmag_zero b Hb) as Zb. pose proof (fmag_nonneg a). pose proof (fmag_nonneg b).
  pose proof (sign_range a Ha) as Sa. pose proof (sign_range b Hb) as Sb. unfold fval, fret.
  set (x := a .&~ SIGN_MASK F) in *. set (y := b .&~ SIGN_MASK F) in *. set (P := 2 ^ (F_SIZE F - 1)) in *.
  destruct Sa as [Sa | Sa], Sb as [Sb | Sb]; rewrite Sa, Sb in *; unfold nz; cbn [Z.eqb Pos.eqb negb orb andb];
    destruct (Z.compare_spec (fmag F a) (fmag F b)), (Z.compare_spec x y); try discriminate Hc;
    repeat match goal with
    | |- context [?u =? ?v] => destruct (Z.eqb_spec u v)
    | |- context [?u <? ?v] => destruct (Z.ltb_spec u v)
    | |- context [?u <=? ?v] => destruct (Z.leb_spec u v)
    end; cbn [andb negb orb]; repeat split; try reflexivity; exfalso; lia.
Qed.

End Format.

(** ** The claims *)

(** C7. Multiplication is correctly rounded: for finite operands of either format
    and each of the five rounding modes, [mul_sf] returns the exact product of
    the two numbers rounded to the format (gradual underflow and overflow
    included, a zero when a factor is), and adds exactly the flags of that
    rounding to the accrued ones. *)
Theorem mul_correctly_rounded (F : fmt) (a b rm fl : Z) :
  wf_fmt F -> 0 <= rm <= 4 -> in_u (F_SIZE F) a -> in_u (F_SIZE F) b ->
  finite F a = true -> finite F b = true ->
  mul_sf F a b rm fl =
    let '(r, f) := fround0 F rm (sign_of F a .^ sign_of F b) (fmag F a * fmag F b) 1 (2 - 2 * MANT_SIZE F - bias F) in
    Some (r, fl .| f).
Proof. intros HF. apply mul_finite_correct, HF. Qed.

(** C6. Addition is correctly rounded: for finite operands [add_sf] returns the
    exact sum rounded to the format, with the flags of that rounding; an exact
    zero takes the common sign of the operands, and for operands of opposite
    signs is negative only when rounding down. *)
Theorem add_correctly_rounded (F : fmt) (a b rm fl : Z) :
  wf_fmt F -> 0 <= rm <= 4 -> in_u (F_SIZE F) a -> in_u (F_SIZE F) b ->
  finite F a = true -> finite F b = true ->
  add_sf F a b rm fl = let '(r, f) := add_ref F rm a b in Some (r, fl .| f).
Proof. intros HF. apply add_finite_correct, HF. Qed.

(** C8. Division is correctly rounded: for finite non-zero operands [div_sf]
    returns the exact quotient rounded to the format, with the flags of that
    rounding. *)
Theorem div_correctly_rounded (F : fmt) (a b rm fl : Z) :
  wf_fmt F -> 0 <= rm <= 4 -> in_u (F_SIZE F) a -> in_u (F_SIZE F) b ->
  finite F a = true -> finite F b = true -> fmag F a <> 0 -> fmag F b <> 0 ->
  div_sf F a b rm fl =
    let '(r, f) := div_ref F rm (sign_of F a .^ sign_of F b) (fmag F a) (fmag F b) in Some (r, fl .| f).
Proof. intros HF. apply div_finite_correct, HF. Qed.

(** 1.5 * 0.1, rounded up. *)
Lemma mul_correctly_rounded_witness :
  mul_sf sf64 0x3ff8000000000000 0x3fb999999999999a RM_RUP 0 = Some (0x3fc3333333333334, FFLAG_INEXACT).
Proof.
  rewrite (mul_correctly_rounded sf64 _ _ RM_RUP 0 sf64_wf); first [reflexivity | (split; vm_compute; congruence) | idtac].
Defined.

(** 1 + 2^-24 in single precision, to nearest even. *)
Lemma add_correctly_rounded_witness :
  add_sf sf32 0x3f800000 0x33800000 RM_RNE 0 = Some (0x3f800000, FFLAG_INEXACT).
Proof.
  rewrite (add_correctly_rounded sf32 _ _ RM_RNE 0 sf32_wf); first [reflexivity | (split; vm_compute; congruence) | idtac].
Defined.

(** 1 / 3 in single precision, towards zero. *)
Lemma div_correctly_rounded_witness :
  div_sf sf32 0x3f800000 0x40400000 RM_RTZ 0 = Some (0x3eaaaaaa, FFLAG_INEXACT).
Proof.
  rewrite (div_correctly_rounded sf32 _ _ RM_RTZ 0 sf32_wf);
    first [reflexivity | (split; vm_compute; congruence) | (vm_compute; discriminate) | idtac].
Defined.
