(* ===== verification/FpProps.v ===== *)
(** * Comparisons, exact numbers and the integer square root

    The relations of [include/softfp_template.h] against the order of the
    numbers the encodings stand for, the reference rounding on numbers that need
    none, and the Newton iteration of [sqrtrem_u]. *)

From S2P Require Import Prelude Alu SoftFp FpRound.
Open Scope Z_scope.
Open Scope c_scope.
Open Scope fp_scope.

(** C9. Comparisons decide the order of the numbers: on operands that are not NaN
    (infinities, both zeros and subnormals included) [eq_quiet_sf], [lt_sf] and
    [le_sf] answer whether the numbers are equal, less, less or equal, and raise
    nothing; with a NaN operand all three answer no, the two order relations
    raise the invalid flag, and equality raises it only for a signalling NaN. *)
Theorem comparisons_correct (F : fmt) (a b fl : Z) :
  wf_fmt F -> in_u (F_SIZE F) a -> in_u (F_SIZE F) b ->
  if isnan_sf F a || isnan_sf F b then
    lt_sf F a b fl = Some (false, fl .| FFLAG_INVALID_OP) /\ le_sf F a b fl = Some (false, fl .| FFLAG_INVALID_OP) /\
    eq_quiet_sf F a b fl = Some (false, if issignan_sf F a || issignan_sf F b then fl .| FFLAG_INVALID_OP else fl)
  else
    eq_quiet_sf F a b fl = Some (fval F a =? fval F b, fl) /\
    lt_sf F a b fl = Some (fval F a <? fval F b, fl) /\ le_sf F a b fl = Some (fval F a <=? fval F b, fl).
Proof.
  intros HF Ha Hb. destruct (isnan_sf F a || isnan_sf F b) eqn:En.
  - unfold lt_sf, le_sf, eq_quiet_sf, fbind, raise_if, raise_flag. rewrite En.
    split; [reflexivity|]. split; [reflexivity|].
    destruct (issignan_sf F a || issignan_sf F b); reflexivity.
  - apply orb_false_iff in En as [Na Nb]. apply compare_numbers; assumption.
Qed.

(** -0 = +0, and -infinity is below the least subnormal. *)
Lemma comparisons_correct_witness :
  eq_quiet_sf sf64 0x8000000000000000 0 0 = Some (true, 0) /\
  lt_sf sf64 0xfff0000000000000 0x0000000000000001 0 = Some (true, 0).
Proof.
  split.
  - destruct (comparisons_correct sf64 0x8000000000000000 0 0 sf64_wf) as (H & _); [split; vm_compute; congruence..|].
    rewrite H. vm_compute. reflexivity.
  - destruct (comparisons_correct sf64 0xfff0000000000000 0x0000000000000001 0 sf64_wf) as (_ & H & _); [split; vm_compute; congruence..|].
    rewrite H. vm_compute. reflexivity.
Defined.

(** ** Exact numbers *)

Section Exact.
Variable F : fmt.
Hypothesis HF : wf_fmt F.

Lemma pack_masked s e m : s = 0 \/ s = 1 -> 0 <= e <= EXP_MASK F -> 0 <= m ->
  pack_sf F s e m = s * 2 ^ (F_SIZE F - 1) + e * 2 ^ MANT_SIZE F + m mod 2 ^ MANT_SIZE F.
Proof.
  intros Hs He Hm. destruct (rnd_size F HF) as (HE & HR & HI & HS & HM). unfold pack_sf, MANT_MASK, fu.
  pose proof (pow2_pos (MANT_SIZE F) ltac:(lia)) as Hp.
  assert (Hex : EXP_MASK F = 2 ^ EXP_SIZE F - 1) by (unfold EXP_MASK; rewrite Z.shiftl_1_l; reflexivity).
  assert (Hsz : 2 ^ (F_SIZE F - 1) = 2 ^ EXP_SIZE F * 2 ^ MANT_SIZE F) by (rewrite <- Z.pow_add_r by (destruct HF; lia); f_equal; destruct HF; lia).
  assert (Hfs : 2 ^ F_SIZE F = 2 * 2 ^ (F_SIZE F - 1)) by (rewrite <- Z.pow_succ_r by lia; f_equal; lia).
  rewrite low_bits, !Z.shiftl_mul_pow2 by lia. pose proof (Z.mod_pos_bound m (2 ^ MANT_SIZE F) Hp) as Hr.
  rewrite !u_small by (unfold in_u; destruct Hs as [-> | ->]; nia).
  rewrite <- Z.lor_assoc, (lor_low_high e (m mod 2 ^ MANT_SIZE F) (MANT_SIZE F)) by lia.
  rewrite (lor_low_high s _ (F_SIZE F - 1)) by (try lia; rewrite Hsz; nia). ring.
Qed.

(** The fields make the encoding. *)
Lemma pack_unpack a : in_u (F_SIZE F) a ->
  pack_sf F (sign_of F a) (exp_of F a) (mant_of F a) = a.
Proof.
  intros Ha. pose proof (mant_range F HF a) as Hm.
  rewrite pack_masked, Z.mod_small by (try apply sign_range; try apply exp_range; (assumption || lia)).
  destruct (with_sign F HF a Ha) as [E _]. rewrite (clear_sign F HF a Ha) in E. lia.
Qed.

Lemma round_int_exact rm s q d : 0 < d -> round_int rm s (q * d) d = q.
Proof.
  intros Hd. unfold round_int. rewrite Z.div_mul, Z.mod_mul, Z.mul_0_r, Z.eqb_refl by lia. cbn [negb andb].
  destruct (Z.ltb_spec d 0); [lia|]. destruct (Z.eqb_spec 0 d); [lia|]. destruct (Z.leb_spec d 0); [lia|]. cbn [orb andb].
  destruct (rm =? RM_RNE), (rm =? RM_RMM), (rm =? RM_RDN), (rm =? RM_RUP); reflexivity.
Qed.

(** Numbers of the format need no rounding: unpacking a finite number and
    packing it again gives the number back, and the reference rounding of its
    exact value is the number itself, in every mode and without flags. *)
Theorem representable_unchanged (a rm : Z) :
  in_u (F_SIZE F) a -> finite F a = true -> 0 <= rm <= 4 ->
  (let '(s, e, m) := unpack_sf F a in pack_sf F s e m) = a /\
  fround0 F rm (sign_of F a) (fmag F a) 1 (1 - MANT_SIZE F) = (a, 0).
Proof.
  intros Ha Hfin Hrm. pose proof (pack_unpack a Ha) as Hpu. split; [exact Hpu|].
  destruct (rnd_size F HF) as (HE & HR & HI & HS & HM). pose proof (pow2_pos (MANT_SIZE F) ltac:(lia)) as Hp.
  pose proof (mant_range F HF a) as Hm. pose proof (exp_range F HF a) as He. pose proof (sign_range F HF a Ha) as Hs.
  unfold finite in Hfin. apply negb_true_iff, Z.eqb_neq in Hfin. unfold fround0.
  rewrite <- is_zero_fmag by exact HF. unfold is_zero. rewrite fround_finish. cbv zeta. rewrite Z.div_1_r.
  unfold fmag in *. destruct (Z.eqb_spec (exp_of F a) 0) as [E|E]; cbn [andb].
  - destruct (Z.eqb_spec (mant_of F a) 0) as [Em|Em]; [rewrite E, Em in Hpu; rewrite Hpu; reflexivity|].
    rewrite E. change (2 ^ (Z.max 0 1 - 1)) with 1. rewrite Z.mul_1_r.
    assert (Hl : Z.log2 (mant_of F a) < MANT_SIZE F) by (apply Z.log2_lt_pow2; lia).
    rewrite Z.max_r by lia. unfold exact_at, at_exp, ulps. replace (1 - MANT_SIZE F - 1 + MANT_SIZE F) with 0 by lia.
    change (2 ^ Z.max 0 0) with 1. change (2 ^ Z.max (- 0) 0) with 1. cbv beta iota zeta. rewrite !Z.mul_1_r, Z.mod_1_r.
    cbn [Z.eqb negb]. rewrite andb_false_r. cbn [Z.lor].
    pose proof (round_int_exact rm (sign_of F a) (mant_of F a) 1 ltac:(lia)) as Hq. rewrite Z.mul_1_r in Hq. rewrite Hq.
    unfold finish. destruct (Z.ltb_spec (mant_of F a) (2 ^ MANT_SIZE F)); [|lia]. rewrite E in Hpu. rewrite Hpu. reflexivity.
  - rewrite (Z.max_l (exp_of F a) 1) by lia. set (q := 2 ^ MANT_SIZE F + mant_of F a).
    assert (Hl : Z.log2 (q * 2 ^ (exp_of F a - 1)) = MANT_SIZE F + (exp_of F a - 1)).
    { rewrite Z.log2_mul_pow2, Z.add_comm by (unfold q; lia). f_equal. apply Z.log2_unique; [lia|]. rewrite Z.pow_succ_r by lia. unfold q. lia. }
    rewrite Hl. replace (MANT_SIZE F + (exp_of F a - 1) + (1 - MANT_SIZE F)) with (exp_of F a) by lia.
    rewrite (Z.max_l (exp_of F a) 1) by lia. unfold exact_at, at_exp, ulps.
    replace (1 - MANT_SIZE F - exp_of F a + MANT_SIZE F) with (- (exp_of F a - 1)) by lia.
    rewrite Z.max_r, Z.max_l, Z.opp_involutive, Z.mul_1_l, Z.mul_1_r by lia. cbv beta iota zeta.
    pose proof (pow2_pos (exp_of F a - 1) ltac:(lia)) as Hpe.
    rewrite Z.mod_mul, round_int_exact by lia. cbn [Z.eqb negb]. rewrite andb_false_r. cbn [Z.lor].
    unfold finish. rewrite pow2_S by lia. destruct (Z.leb_spec (2 * 2 ^ MANT_SIZE F) q); [unfold q in *; lia|].
    destruct (Z.ltb_spec q (2 ^ MANT_SIZE F)); [unfold q in *; lia|]. rewrite Z.add_0_r.
    destruct (Z.leb_spec (EXP_MASK F) (exp_of F a)); [lia|]. f_equal.
    rewrite pack_masked by (try assumption; unfold q; lia). rewrite pack_masked, (Z.mod_small (mant_of F a)) in Hpu by (try assumption; lia).
    replace (q mod 2 ^ MANT_SIZE F) with (mant_of F a); [exact Hpu|].
    unfold q. rewrite Z.add_comm, <- (Z.mul_1_l (2 ^ MANT_SIZE F)) at 1. rewrite Z.mod_add, Z.mod_small by lia. reflexivity.
Qed.
End Exact.

Lemma representable_unchanged_witness :
  fround0 sf64 RM_RUP 1 (fmag sf64 0xc000000000000001) 1 (1 - MANT_SIZE sf64) = (0xc000000000000001, 0).
Proof.
  apply (representable_unchanged sf64 sf64_wf 0xc000000000000001 RM_RUP);
    [split; vm_compute; congruence|reflexivity|split; vm_compute; congruence].
Defined.

(** ** The integer square root *)

Section Newton.
Variable F : fmt.
Hypothesis HF : wf_fmt F.

(** One step from above halves the distance to the root and stays above. *)
Lemma newton_step a s : 0 < a -> Z.sqrt a < s -> let u := (a / s + s) / 2 in
  Z.sqrt a <= u /\ u < s /\ 2 * (u - Z.sqrt a) <= s - Z.sqrt a.
Proof.
  intros Ha Hs u. pose proof (Z.sqrt_spec a ltac:(lia)) as [S1 S2]. pose proof (Z.sqrt_nonneg a) as S0.
  set (r := Z.sqrt a) in *.
  assert (Hq : a / s <= r).
  { apply Z.lt_succ_r. apply Z.div_lt_upper_bound; nia. }
  pose proof (Z.div_mod a s ltac:(lia)) as E. pose proof (Z.mod_pos_bound a s ltac:(lia)) as R.
  pose proof (Z.div_mod (a / s + s) 2 ltac:(lia)) as E2. pose proof (Z.mod_pos_bound (a / s + s) 2 ltac:(lia)) as R2. fold u in E2.
  assert (Hlow : 2 * r <= a / s + s).
  { assert (r * r <= s * (a / s) + (s - 1)) by lia. apply Z.nlt_ge. intros Hlt.
    assert (a / s <= 2 * r - 1 - s) by lia. assert (s * (a / s) <= s * (2 * r - 1 - s)) by (apply Z.mul_le_mono_nonneg_l; lia).
    assert (s * (2 * r - 1 - s) + (s - 1) < r * r) by nia. lia. }
  lia.
Qed.

(** At the root the iteration stops. *)
Lemma newton_fixed a : 0 < a -> Z.sqrt a <= (a / Z.sqrt a + Z.sqrt a) / 2.
Proof.
  intros Ha. pose proof (Z.sqrt_spec a ltac:(lia)) as [S1 S2]. assert (0 < Z.sqrt a) by (apply Z.sqrt_pos; lia).
  apply Z.div_le_lower_bound; [lia|]. assert (Z.sqrt a <= a / Z.sqrt a) by (apply Z.div_le_lower_bound; lia). lia.
Qed.

Lemma newton_correct a : 0 < a -> forall k u fuel, Z.sqrt a <= u <= 2 ^ F_SIZE F -> u - Z.sqrt a < 2 ^ Z.of_nat k ->
  a < 2 ^ (2 * F_SIZE F) -> (k < fuel)%nat -> newton F fuel a u = Some (Z.sqrt a).
Proof.
  intros Ha. destruct (rnd_size F HF) as (HE & HR & HI & HS & HM).
  assert (Hr : 0 < Z.sqrt a) by (apply Z.sqrt_pos; lia). pose proof (Z.sqrt_spec a ltac:(lia)) as [S1 S2].
  assert (Hbig : 2 ^ (2 * F_SIZE F) = 2 ^ F_SIZE F * 2 ^ F_SIZE F) by (rewrite <- Z.pow_add_r by lia; f_equal; lia).
  assert (H8 : 2 ^ 3 <= 2 ^ F_SIZE F) by (apply Z.pow_le_mono_r; lia). change (2 ^ 3) with 8 in H8.
  induction k as [|k IH]; intros u fuel Hu Hd Hm Hf; (destruct fuel as [|fuel]; [lia|]); cbn [newton].
  all: assert (Hq : 0 <= a / u <= Z.sqrt a + 2)
    by (split; [apply Z.div_pos; lia|apply Z.lt_succ_r, Z.div_lt_upper_bound; nia]).
  all: rewrite u_small by (unfold in_u; nia).
  - replace u with (Z.sqrt a) in * by (change (2 ^ Z.of_nat 0) with 1 in Hd; lia). pose proof (newton_fixed a Ha).
    destruct (Z.leb_spec (Z.sqrt a) ((a / Z.sqrt a + Z.sqrt a) / 2)); [reflexivity|lia].
  - destruct (Z.eq_dec u (Z.sqrt a)) as [-> |Hne].
    + pose proof (newton_fixed a Ha). destruct (Z.leb_spec (Z.sqrt a) ((a / Z.sqrt a + Z.sqrt a) / 2)); [reflexivity|lia].
    + destruct (newton_step a u Ha ltac:(lia)) as (H1 & H2 & H3). destruct (Z.leb_spec u ((a / u + u) / 2)); [lia|].
      apply IH; try lia. rewrite Nat2Z.inj_succ, Z.pow_succ_r in Hd by lia. lia.
Qed.

Lemma clz_pow x : 0 <= x < 2 ^ F_SIZE F -> 0 <= F_SIZE F - clz (F_SIZE F) x <= F_SIZE F /\ x < 2 ^ (F_SIZE F - clz (F_SIZE F) x) /\ (0 < x -> 2 ^ (F_SIZE F - clz (F_SIZE F) x) <= 2 * x).
Proof.
  intros Hx. destruct (rnd_size F HF) as (_ & HR & _ & HS & HM). unfold clz. destruct (Z.eqb_spec x 0) as [-> |].
  - rewrite Z.sub_diag. split; [lia|]. split; [reflexivity|lia].
  - replace (F_SIZE F - (F_SIZE F - 1 - Z.log2 x)) with (Z.succ (Z.log2 x)) by lia.
    destruct (Z.log2_spec x ltac:(lia)). pose proof (Z.log2_nonneg x).
    assert (Z.log2 x < F_SIZE F) by (apply Z.log2_lt_pow2; lia). rewrite Z.pow_succ_r in * by lia. lia.
Qed.

(** C10. The integer square root: for a double word whose low half is zero, which is
    how [sqrt_sf] calls it, [sqrtrem_u] ends and returns the integer square root
    of the double word and whether it is inexact. *)
Theorem sqrtrem_correct (ah : Z) :
  0 <= ah < 2 ^ F_SIZE F ->
  let a := ah * 2 ^ F_SIZE F in
  sqrtrem_u F ah 0 = Some (Z.sqrt a, negb (Z.sqrt a * Z.sqrt a =? a)).
Proof.
  intros Hah a. destruct (rnd_size F HF) as (HE & HR & HI & HS & HM). pose proof (pow2_pos (F_SIZE F) ltac:(lia)) as Hp.
  unfold sqrtrem_u. destruct (Z.eqb_spec ah 0) as [E0|E0]; cbn [andb negb Z.eqb].
  { assert (a = 0) as -> by (unfold a; rewrite E0; reflexivity). reflexivity. }
  rewrite Z.lor_0_r, Z.shiftl_mul_pow2 by lia. fold a.
  destruct (clz_pow (ah - 1) ltac:(lia)) as (Hb1 & Hb2 & _). set (bl := F_SIZE F - clz (F_SIZE F) (ah - 1)) in *.
  replace (2 * F_SIZE F - clz (F_SIZE F) (ah - 1)) with (F_SIZE F + bl) by (unfold bl; lia).
  set (h := (F_SIZE F + bl + 1) / 2).
  assert (Hh : F_SIZE F + bl <= 2 * h <= F_SIZE F + bl + 1).
  { unfold h. pose proof (Z.div_mod (F_SIZE F + bl + 1) 2 ltac:(lia)). pose proof (Z.mod_pos_bound (F_SIZE F + bl + 1) 2 ltac:(lia)). lia. }
  assert (Ha : 0 < a) by (unfold a; nia).
  assert (Hbig : a < 2 ^ (2 * F_SIZE F)).
  { replace (2 * F_SIZE F) with (F_SIZE F + F_SIZE F) by lia. rewrite Z.pow_add_r by lia. unfold a. nia. }
  assert (Hlow : a <= 2 ^ h * 2 ^ h).
  { rewrite <- Z.pow_add_r by lia. apply (Z.le_trans _ (2 ^ (F_SIZE F + bl))); [|apply Z.pow_le_mono_r; lia].
    rewrite Z.pow_add_r by lia. unfold a. nia. }
  assert (Hroot : Z.sqrt a <= 2 ^ h).
  { rewrite <- (Z.sqrt_square (2 ^ h)) by (apply Z.lt_le_incl, pow2_pos; lia). apply Z.sqrt_le_mono, Hlow. }
  assert (Hh2 : 2 ^ h <= 2 ^ F_SIZE F) by (apply Z.pow_le_mono_r; lia).
  assert (Hr : 0 < Z.sqrt a) by (apply Z.sqrt_pos; lia). pose proof (Z.sqrt_spec a ltac:(lia)) as [S1 S2].
  rewrite Z.shiftl_1_l, (newton_correct a Ha (Z.to_nat (F_SIZE F))); try lia.
  - assert (Hr2 : Z.sqrt a < 2 ^ F_SIZE F).
    { apply Z.nle_gt. intros Hge. replace (2 * F_SIZE F) with (F_SIZE F + F_SIZE F) in Hbig by lia. rewrite Z.pow_add_r in Hbig by lia. nia. }
    unfold fu. rewrite !u_small by (unfold in_u; nia). unfold nz. do 3 f_equal.
    destruct (Z.eqb_spec (a - Z.sqrt a * Z.sqrt a) 0), (Z.eqb_spec (Z.sqrt a * Z.sqrt a) a); (reflexivity || lia).
  - rewrite Z2Nat.id by lia. lia.
Qed.

End Newton.

Lemma sqrtrem_correct_witness : sqrtrem_u sf64 (2 ^ 62) 0 = Some (2 ^ 63, false).
Proof. rewrite (sqrtrem_correct sf64 sf64_wf (2 ^ 62)); [vm_compute; reflexivity|split; vm_compute; congruence]. Defined.

(** With a non-zero low half the starting point can lie below the root, and the
    iteration stops at once: the bound [2^l >= a] of the C comment fails. *)
Remark sqrtrem_low_half : sqrtrem_u sf32 1 0xffffffff = Some (65536, true) /\ Z.sqrt 0x1ffffffff = 92681.
Proof. split; vm_compute; reflexivity. Qed.
