(* ===== verification/Exec.v ===== *)
(** * Integer instructions of the interpreter

    The arms of the [switch (opcode)] of [riscv_cpu_interp64]
    ([include/majordomo_template.h], [XLEN = 64]) for the compressed, base,
    multiply, bit-manipulation, conditional-zero, atomic and system
    instructions.  Each arm is one definition in [M]; [goto illegal_insn],
    [goto mmu_exception], [goto exception], [goto done_interp] and [JUMP_INSN]
    are the constructors of [stop]. *)

From S2P Require Import Prelude RiscvDefs State IoMem Tlb Pmp Mmu Csr Trap Alu.
Open Scope Z_scope.
Open Scope c_scope.
Open Scope m_scope.

(** ** Register access macros (src/riscv_cpu.cpp) *)

Definition write_reg (x v : Z) : M unit := fun st =>
  let s := cpu st in
  let s := if stf_in_traceable_region (mach st)
           then set_stf_write_regs (stf_write_regs s ++ [x]) s else s in
  let s := set_most_recently_written_reg x s in
  let s := set_reg_prior (aset (reg_prior s) x (aget 0 (reg s) x)) s in
  (with_cpu (set_reg (aset (reg s) x (u64 v)) s) st, inl tt).

Definition read_reg (x : Z) : M Z := fun st =>
  let s := cpu st in
  let s := if stf_in_traceable_region (mach st)
           then set_stf_read_regs (stf_read_regs s ++ [x]) s else s in
  (with_cpu s st, inl (aget 0 (reg s) x)).

Definition write_fp_reg (x v : Z) : M unit := fun st =>
  let s := cpu st in
  let s := if stf_in_traceable_region (mach st)
           then set_stf_write_fp_regs (stf_write_fp_regs s ++ [x]) s else s in
  let s := set_most_recently_written_fp_reg x s in
  let s := set_fp_reg (aset (fp_reg s) x (u64 v)) s in
  (with_cpu (set_fs 3 s) st, inl tt).

Definition read_fp_reg (x : Z) : M Z := fun st =>
  let s := cpu st in
  let s := if stf_in_traceable_region (mach st)
           then set_stf_read_fp_regs (stf_read_fp_regs s ++ [x]) s else s in
  (with_cpu s st, inl (aget 0 (fp_reg s) x)).

(** ** Control-flow macros (include/majordomo_template.h) *)

(** [GET_PC()] *)
Definition pc_of (l : Locals) : Z := u64 (code_ptr l + code_to_pc_addend l).
Definition GET_PC : M Z := gets (fun st => pc_of (lc st)).

(** [GET_INSN_COUNTER()] *)
Definition GET_INSN_COUNTER : M Z :=
  gets (fun st => u64 (insn_counter_addend (lc st) - n_cycles (lc st))).

Definition C_NEXT_INSN : M unit := modl (fun l => set_code_ptr (u64 (code_ptr l + 2)) l).
Definition NEXT_INSN : M unit := modl (fun l => set_code_ptr (u64 (code_ptr l + 4)) l).

Definition JUMP_INSN (kind : RISCVCTFInfo) : M unit :=
  let! s := getc id in
  modl (fun l => set_code_to_pc_addend (pc s) (set_code_end 0 (set_code_ptr 0 l))) ;;
  modc (fun s => set_next_addr (pc s) (set_info kind s)) ;;
  throw (JumpInsn kind).

Definition illegal {A} : M A := throw IllegalInsn.

(** [s->pending_exception = cause; s->pending_tval = 0; goto exception;] *)
Definition except {A} (cause : Z) : M A :=
  modc (fun s => set_pending_tval 0 (set_pending_exception cause s)) ;; throw ExceptionStop.

(** ** Instruction fields *)

Definition f_opcode (insn : Z) : Z := insn .& 0x7f.
Definition f_rd (insn : Z) : Z := (insn >> 7) .& 0x1f.
Definition f_rs1 (insn : Z) : Z := (insn >> 15) .& 0x1f.
Definition f_rs2 (insn : Z) : Z := (insn >> 20) .& 0x1f.
Definition f_funct3 (insn : Z) : Z := (insn >> 12) .& 7.
(** [(int32_t)insn >> 20] *)
Definition f_imm12 (insn : Z) : Z := i32 insn >> 20.

(** ** A computed value, or the label the arm leaves through *)
Definition res : Type := Z + stop.
Definition lift (r : res) : M Z := match r with inl v => ret v | inr e => throw e end.
Definition of_option (o : option Z) : res := match o with Some v => inl v | None => inr Undefined end.

(** [if (rd != 0) write_reg(rd, val);] *)
Definition write_rd (rd v : Z) : M unit := when (nz rd) (write_reg rd v).

Section WithBus.
Context `{DeviceBus}.

(** ** Compressed instructions, quadrant 0 *)
Definition exec_c0 (insn : Z) : M unit :=
  let funct3 := (insn >> 13) .& 7 in
  let rd := ((insn >> 2) .& 7) .| 8 in
  let rs1 := ((insn >> 7) .& 7) .| 8 in
  let imm_w := get_field1 insn 10 3 5 .| get_field1 insn 6 2 2 .| get_field1 insn 5 6 6 in
  let imm_d := get_field1 insn 10 3 5 .| get_field1 insn 5 6 7 in
  (if funct3 =? 0 then (* c.addi4spn *)
     let imm := get_field1 insn 11 4 5 .| get_field1 insn 7 6 9 .| get_field1 insn 6 2 2
                .| get_field1 insn 5 3 3 in
     if imm =? 0 then illegal
     else let! sp := read_reg 2 in write_reg rd (sp + imm)
   else if funct3 =? 1 then (* c.fld *)
     let! s := getc id in
     if fs s =? 0 then illegal
     else
       let! b := read_reg rs1 in
       let! rval := target_read 3 (u64 (b + imm_d)) in
       write_fp_reg rd (rval .| F64_HIGH)
   else if funct3 =? 2 then (* c.lw *)
     let! b := read_reg rs1 in
     let! rval := target_read 2 (u64 (b + imm_w)) in
     write_reg rd (i32 rval)
   else if funct3 =? 3 then (* c.ld *)
     let! b := read_reg rs1 in
     let! rval := target_read 3 (u64 (b + imm_d)) in
     write_reg rd (i64 rval)
   else if funct3 =? 5 then (* c.fsd *)
     let! s := getc id in
     if fs s =? 0 then illegal
     else
       let! b := read_reg rs1 in
       let! v := read_fp_reg rd in
       target_write 3 (u64 (b + imm_d)) v
   else if funct3 =? 6 then (* c.sw *)
     let! b := read_reg rs1 in
     let! v := read_reg rd in
     target_write 2 (u64 (b + imm_w)) v
   else if funct3 =? 7 then (* c.sd *)
     let! b := read_reg rs1 in
     let! v := read_reg rd in
     target_write 3 (u64 (b + imm_d)) v
   else illegal) ;;
  C_NEXT_INSN.

(** ** Compressed instructions, quadrant 1 *)

Definition c_imm6 (insn : Z) : Z := sext (get_field1 insn 12 5 5 .| get_field1 insn 2 0 4) 6.

Definition c_imm_j (insn : Z) : Z :=
  sext (get_field1 insn 12 11 11 .| get_field1 insn 11 4 4 .| get_field1 insn 9 8 9
        .| get_field1 insn 8 10 10 .| get_field1 insn 7 6 6 .| get_field1 insn 6 7 7
        .| get_field1 insn 3 1 3 .| get_field1 insn 2 5 5) 12.

Definition c_imm_b (insn : Z) : Z :=
  sext (get_field1 insn 12 8 8 .| get_field1 insn 10 3 4 .| get_field1 insn 5 6 7
        .| get_field1 insn 3 1 2 .| get_field1 insn 2 5 5) 9.

Definition c_imm_lui (insn : Z) : Z :=
  sext (get_field1 insn 12 17 17 .| get_field1 insn 2 12 16) 18.

(** [case 4] of the quadrant: shifts, [c.andi] and the register-register group. *)
Definition exec_c1_alu (insn : Z) : M unit :=
  let funct3 := (insn >> 10) .& 3 in
  let rd := ((insn >> 7) .& 7) .| 8 in
  if (funct3 =? 0) || (funct3 =? 1) then
    let imm := get_field1 insn 12 5 5 .| get_field1 insn 2 0 4 in
    let! v := read_reg rd in
    write_reg rd (if funct3 =? 0 then v >> imm else i64 v >> imm)
  else if funct3 =? 2 then
    let! v := read_reg rd in write_reg rd (v .& u64 (c_imm6 insn))
  else
    let rs2 := ((insn >> 2) .& 7) .| 8 in
    let funct3 := ((insn >> 5) .& 3) .| ((insn >> (12 - 2)) .& 4) in
    if 6 <=? funct3 then illegal
    else
      let! a := read_reg rd in
      let! b := read_reg rs2 in
      write_reg rd
        (if funct3 =? 0 then a - b
         else if funct3 =? 1 then a .^ b
         else if funct3 =? 2 then a .| b
         else if funct3 =? 3 then a .& b
         else if funct3 =? 4 then i32 (a - b)
         else i32 (a + b)).

Definition exec_c1 (insn : Z) : M unit :=
  let funct3 := (insn >> 13) .& 7 in
  let rd := f_rd insn in
  (if funct3 =? 0 then (* c.addi / c.nop *)
     when (nz rd) (let! v := read_reg rd in write_reg rd (v + c_imm6 insn))
   else if funct3 =? 1 then (* c.addiw *)
     if rd =? 0 then illegal
     else let! v := read_reg rd in write_reg rd (i32 (v + c_imm6 insn))
   else if funct3 =? 2 then (* c.li *)
     when (nz rd) (write_reg rd (c_imm6 insn))
   else if funct3 =? 3 then
     if rd =? 2 then (* c.addi16sp *)
       let imm := sext (get_field1 insn 12 9 9 .| get_field1 insn 6 4 4 .| get_field1 insn 5 6 6
                        .| get_field1 insn 3 7 8 .| get_field1 insn 2 5 5) 10 in
       if imm =? 0 then illegal
       else let! sp := read_reg 2 in write_reg 2 (sp + imm)
     else if negb (rd =? 0) then (* c.lui *)
       if c_imm_lui insn =? 0 then illegal else write_reg rd (c_imm_lui insn)
     else if c_imm_lui insn =? 0 then illegal
     else ret tt
   else if funct3 =? 4 then exec_c1_alu insn
   else if funct3 =? 5 then (* c.j *)
     let! p := GET_PC in
     modc (set_pc (u64 (p + c_imm_j insn))) ;;
     JUMP_INSN ctf_taken_jump
   else (* c.beqz / c.bnez *)
     let rs1 := ((insn >> 7) .& 7) .| 8 in
     let! v := read_reg rs1 in
     when (if funct3 =? 6 then v =? 0 else negb (v =? 0))
       (let! p := GET_PC in
        modc (set_pc (u64 (p + c_imm_b insn))) ;;
        JUMP_INSN ctf_taken_branch)) ;;
  C_NEXT_INSN.

(** ** Compressed instructions, quadrant 2 *)

(** [case 4]: [c.jr], [c.mv], [c.ebreak], [c.jalr], [c.add]. *)
Definition exec_c2_jump (insn rd rs2 : Z) : M unit :=
  if ((insn >> 12) .& 1) =? 0 then
    if rs2 =? 0 then
      if rd =? 0 then illegal
      else
        let! t := read_reg rd in
        modc (set_pc (t .&~ 1)) ;; JUMP_INSN (ctf_compute_hint 0 rd)
    else when (nz rd) (let! v := read_reg rs2 in write_reg rd v)
  else if rs2 =? 0 then
    if rd =? 0 then except CAUSE_BREAKPOINT
    else
      let! p := GET_PC in
      let! t := read_reg rd in
      modc (set_pc (t .&~ 1)) ;;
      write_reg 1 (p + 2) ;;
      JUMP_INSN (ctf_compute_hint 1 rd)
  else when (nz rd) (let! a := read_reg rd in let! b := read_reg rs2 in write_reg rd (a + b)).

Definition exec_c2 (insn : Z) : M unit :=
  let funct3 := (insn >> 13) .& 7 in
  let rd := f_rd insn in
  let rs2 := (insn >> 2) .& 0x1f in
  let imm_lw := get_field1 insn 12 5 5 .| (rs2 .& (7 << 2)) .| get_field1 insn 2 6 7 in
  let imm_ld := get_field1 insn 12 5 5 .| (rs2 .& (3 << 3)) .| get_field1 insn 2 6 8 in
  let imm_sw := get_field1 insn 9 2 5 .| get_field1 insn 7 6 7 in
  let imm_sd := get_field1 insn 10 3 5 .| get_field1 insn 7 6 8 in
  (if funct3 =? 0 then (* c.slli *)
     let imm := get_field1 insn 12 5 5 .| rs2 in
     when (nz rd) (let! v := read_reg rd in write_reg rd (v << imm))
   else if funct3 =? 1 then (* c.fldsp *)
     let! s := getc id in
     if fs s =? 0 then illegal
     else
       let! sp := read_reg 2 in
       let! rval := target_read 3 (u64 (sp + imm_ld)) in
       write_fp_reg rd (rval .| F64_HIGH)
   else if funct3 =? 2 then (* c.lwsp *)
     if rd =? 0 then illegal
     else
       let! sp := read_reg 2 in
       let! rval := target_read 2 (u64 (sp + imm_lw)) in
       write_reg rd (i32 rval)
   else if funct3 =? 3 then (* c.ldsp *)
     if rd =? 0 then illegal
     else
       let! sp := read_reg 2 in
       let! rval := target_read 3 (u64 (sp + imm_ld)) in
       write_reg rd (i64 rval)
   else if funct3 =? 4 then exec_c2_jump insn rd rs2
   else if funct3 =? 5 then (* c.fsdsp *)
     let! s := getc id in
     if fs s =? 0 then illegal
     else
       let! sp := read_reg 2 in
       let! v := read_fp_reg rs2 in
       target_write 3 (u64 (sp + imm_sd)) v
   else if funct3 =? 6 then (* c.swsp *)
     let! sp := read_reg 2 in
     let! v := read_reg rs2 in
     target_write 2 (u64 (sp + imm_sw)) v
   else (* c.sdsp *)
     let! sp := read_reg 2 in
     let! v := read_reg rs2 in
     target_write 3 (u64 (sp + imm_sd)) v) ;;
  C_NEXT_INSN.

(** ** Upper immediates, jumps and branches *)

Definition exec_lui (insn : Z) : M unit :=
  write_rd (f_rd insn) (i32 (insn .& 0xfffff000)) ;; NEXT_INSN.

Definition exec_auipc (insn : Z) : M unit :=
  when (nz (f_rd insn))
    (let! p := GET_PC in write_reg (f_rd insn) (p + i32 (insn .& 0xfffff000))) ;;
  NEXT_INSN.

(** [if (!(s->misa & MCPUID_C) && (new_pc & 3) != 0) ... goto exception;] *)
Definition check_target (new_pc : Z) : M unit :=
  let! s := getc id in
  when (negb (misa s has MCPUID_C) && nz (new_pc .& 3)) (except CAUSE_MISALIGNED_FETCH).

Definition jal_imm (insn : Z) : Z :=
  let imm := ((insn >> (31 - 20)) .& (1 << 20)) .| ((insn >> (21 - 1)) .& 0x7fe)
             .| ((insn >> (20 - 11)) .& (1 << 11)) .| (insn .& 0xff000) in
  i32 (imm << 11) >> 11.

Definition exec_jal (insn : Z) : M unit :=
  let imm := jal_imm insn in
  let! p := GET_PC in
  check_target (u64 (p + imm)) ;;
  write_rd (f_rd insn) (p + 4) ;;
  modc (set_pc (u64 (p + imm))) ;;
  JUMP_INSN ctf_taken_jump.

Definition exec_jalr (insn : Z) : M unit :=
  let rd := f_rd insn in
  let rs1 := f_rs1 insn in
  if negb (f_funct3 insn =? 0) then illegal
  else
    let imm := f_imm12 insn in
    let! p := GET_PC in
    let! b := read_reg rs1 in
    check_target (u64 (b + imm) .&~ 1) ;;
    let! b := read_reg rs1 in
    modc (set_pc (u64 (b + imm) .&~ 1)) ;;
    write_rd rd (p + 4) ;;
    JUMP_INSN (ctf_compute_hint rd rs1).

Definition branch_imm (insn : Z) : Z :=
  let imm := ((insn >> (31 - 12)) .& (1 << 12)) .| ((insn >> (25 - 5)) .& 0x7e0)
             .| ((insn >> (8 - 1)) .& 0x1e) .| (u32 (insn << (11 - 7)) .& (1 << 11)) in
  i32 (imm << 19) >> 19.

Definition exec_branch (insn : Z) : M unit :=
  let funct3 := f_funct3 insn in
  let op := funct3 >> 1 in
  (if op =? 1 then illegal
   else
     let! a := read_reg (f_rs1 insn) in
     let! b := read_reg (f_rs2 insn) in
     let cond := if op =? 0 then a =? b else if op =? 2 then i64 a <? i64 b else a <? b in
     when (xorb cond (nz (funct3 .& 1)))
       (let! p := GET_PC in
        let new_pc := u64 (p + branch_imm insn) in
        check_target new_pc ;;
        modc (set_pc new_pc) ;;
        JUMP_INSN ctf_taken_branch)) ;;
  NEXT_INSN.

(** ** Loads and stores *)

Definition exec_load (insn : Z) : M unit :=
  let funct3 := f_funct3 insn in
  let! b := read_reg (f_rs1 insn) in
  let addr := u64 (b + f_imm12 insn) in
  let! val :=
    (if funct3 =? 0 then let! r := target_read 0 addr in ret (i8 r)
     else if funct3 =? 1 then let! r := target_read 1 addr in ret (i16 r)
     else if funct3 =? 2 then let! r := target_read 2 addr in ret (i32 r)
     else if funct3 =? 4 then target_read 0 addr
     else if funct3 =? 5 then target_read 1 addr
     else if funct3 =? 3 then let! r := target_read 3 addr in ret (i64 r)
     else if funct3 =? 6 then target_read 2 addr
     else illegal) in
  write_rd (f_rd insn) val ;;
  NEXT_INSN.

Definition store_imm (insn : Z) : Z :=
  let imm := f_rd insn .| ((insn >> (25 - 5)) .& 0xfe0) in
  i32 (imm << 20) >> 20.

Definition exec_store (insn : Z) : M unit :=
  let funct3 := f_funct3 insn in
  let! b := read_reg (f_rs1 insn) in
  let! val := read_reg (f_rs2 insn) in
  let addr := u64 (b + store_imm insn) in
  (if funct3 =? 0 then target_write 0 addr val
   else if funct3 =? 1 then target_write 1 addr val
   else if funct3 =? 2 then target_write 2 addr val
   else if funct3 =? 3 then target_write 3 addr val
   else illegal) ;;
  NEXT_INSN.

End WithBus.

(** ** Register-immediate arithmetic (opcode 0x13) *)

(** [(uintx_t)1 << (n & (XLEN - 1))] *)
Definition bit_at (n : Z) : Z := 1 << (n .& (XLEN - 1)).

(** [case 1]: shifts left, counts, sign extensions and single-bit operations. *)
Definition op_imm_sll (insn val1 : Z) : res :=
  let imm := f_imm12 insn in
  let funct12 := (insn >> 20) .& 0xFFF in
  let funct6 := (insn >> 26) .& 0x3F in
  let shamt := (insn >> 20) .& 0x3F in
  if funct12 =? 0x601 then of_option (ctz_64 val1)
  else if funct12 =? 0x600 then inl (clz64 val1)
  else if funct12 =? 0x602 then inl (cpop64 val1)
  else if funct12 =? 0x605 then inl (sext_h64 val1)
  else if funct12 =? 0x604 then inl (sext_b64 val1)
  else if funct6 =? 0x0A then inl (val1 .| bit_at shamt)
  else if funct6 =? 0x12 then inl (val1 .&~ bit_at shamt)
  else if funct6 =? 0x1A then inl (val1 .^ bit_at shamt)
  else if nz (imm .&~ (XLEN - 1)) then inr IllegalInsn
  else inl (val1 << (imm .& (XLEN - 1))).

(** [case 5]: shifts right, [orc.b], [rev8], [bexti], [rori]. *)
Definition op_imm_srl (insn vald val1 : Z) : res :=
  let imm := f_imm12 insn in
  let funct12 := (insn >> 20) .& 0xFFF in
  let funct6 := (insn >> 26) .& 0x3F in
  let shamt := (insn >> 20) .& 0x3F in
  if funct12 =? 0x287 then inl (orc_b64 val1)
  else if funct12 =? 0x6b8 then inl (rev8_64 val1)
  else if funct6 =? 0x12 then inl ((val1 >> (shamt .& (XLEN - 1))) .& 1)
  else if funct6 =? 0x18 then inl (rori64 vald val1 shamt)
  else if nz (imm .&~ ((XLEN - 1) .| 0x400)) then inr IllegalInsn
  else if imm has 0x400 then inl (i64 val1 >> (imm .& (XLEN - 1)))
  else inl (val1 >> (imm .& (XLEN - 1))).

Definition op_imm_value (insn vald val1 : Z) : res :=
  let funct3 := f_funct3 insn in
  let imm := f_imm12 insn in
  if funct3 =? 0 then inl (val1 + imm)
  else if funct3 =? 1 then op_imm_sll insn val1
  else if funct3 =? 2 then inl (Z.b2z (i64 val1 <? imm))
  else if funct3 =? 3 then inl (Z.b2z (val1 <? u64 imm))
  else if funct3 =? 4 then inl (val1 .^ u64 imm)
  else if funct3 =? 5 then op_imm_srl insn vald val1
  else if funct3 =? 6 then inl (val1 .| u64 imm)
  else inl (val1 .& u64 imm).

Definition exec_op_imm (insn : Z) : M unit :=
  let! vald := read_reg (f_rd insn) in
  let! val1 := read_reg (f_rs1 insn) in
  read_reg (f_rs2 insn) ;;
  let! val := lift (op_imm_value insn vald val1) in
  write_rd (f_rd insn) val ;;
  NEXT_INSN.

(** ** OP-IMM-32 (opcode 0x1b) *)
Definition op_imm_32_value (insn val1 : Z) : res :=
  let funct3 := f_funct3 insn in
  let imm := f_imm12 insn in
  let funct12 := (insn >> 20) .& 0xFFF in
  let funct7 := (insn >> 25) .& 0x7F in
  let funct6 := (insn >> 26) .& 0x3F in
  let shamt6 := (insn >> 20) .& 0x3F in
  let shamt5 := (insn >> 20) .& 0x1F in
  if funct3 =? 0 then inl (i32 (val1 + imm))
  else if funct3 =? 1 then
    if funct6 =? 0x2 then inl (u32 val1 << shamt6)
    else if funct12 =? 0x601 then of_option (ctzw64 val1)
    else if funct12 =? 0x602 then inl (cpopw64 val1)
    else if funct12 =? 0x600 then inl (clzw64 val1)
    else if nz (imm .&~ 31) then inr IllegalInsn
    else inl (i32 (val1 << (imm .& 31)))
  else if funct3 =? 5 then
    if funct7 =? 0x30 then inl (roriw64 val1 shamt5)
    else if nz (imm .&~ (31 .| 0x400)) then inr IllegalInsn
    else if imm has 0x400 then inl (i32 val1 >> (imm .& 31))
    else inl (i32 (u32 val1 >> (imm .& 31)))
  else inr IllegalInsn.

Definition exec_op_imm_32 (insn : Z) : M unit :=
  let! val1 := read_reg (f_rs1 insn) in
  let! val := lift (op_imm_32_value insn val1) in
  write_rd (f_rd insn) val ;;
  NEXT_INSN.

(** ** Register-register arithmetic (opcode 0x33) *)

(** The Zba, Zbb, Zbc, Zbs and Zicond tests; [None] falls through to the base
    and multiply instructions. *)
Definition op_ext_value (funct7 funct3 val1 val2 : Z) : option res :=
  let op f7 f3 := (funct7 =? f7) && (funct3 =? f3) in
  if funct7 =? 0x10 then
    Some (if funct3 =? 2 then inl (u64 (val1 << 1) + val2)
          else if funct3 =? 4 then inl (u64 (val1 << 2) + val2)
          else if funct3 =? 6 then inl (u64 (val1 << 3) + val2)
          else inr IllegalInsn)
  else if op 0x05 4 then Some (inl (if i64 val1 <? i64 val2 then val1 else val2))
  else if op 0x05 5 then Some (inl (if val1 <? val2 then val1 else val2))
  else if op 0x05 6 then Some (inl (if i64 val1 <? i64 val2 then val2 else val1))
  else if op 0x05 7 then Some (inl (if val1 <? val2 then val2 else val1))
  else if op 0x20 4 then Some (inl (Z.lnot (val1 .^ val2)))
  else if op 0x20 6 then Some (inl (val1 .| Z.lnot val2))
  else if op 0x20 7 then Some (inl (val1 .&~ val2))
  else if op 0x30 1 then Some (of_option (rol64 val1 val2))
  else if op 0x30 5 then Some (inl (ror64 val1 val2))
  else if op 0x05 1 then Some (inl (clmul64 val1 val2))
  else if op 0x05 2 then Some (inl (clmulr64 val1 val2))
  else if op 0x05 3 then Some (inl (clmulh64 val1 val2))
  else if op 0x14 1 then Some (inl (val1 .| bit_at val2))
  else if op 0x24 1 then Some (inl (val1 .&~ bit_at val2))
  else if op 0x24 5 then Some (inl ((val1 >> (val2 .& (XLEN - 1))) .& 1))
  else if op 0x34 1 then Some (inl (val1 .^ bit_at val2))
  else if op 0x07 5 then Some (inl (if val2 =? 0 then 0 else val1))
  else if op 0x07 7 then Some (inl (if negb (val2 =? 0) then 0 else val1))
  else None.

(** Multiply and divide ([imm == 1]). *)
Definition op_m_value (funct3 val1 val2 : Z) : res :=
  if funct3 =? 0 then inl (i64 val1 * i64 val2)
  else if funct3 =? 1 then inl (mulh64 (i64 val1) (i64 val2))
  else if funct3 =? 2 then inl (mulhsu64 (i64 val1) val2)
  else if funct3 =? 3 then inl (mulhu64 val1 val2)
  else if funct3 =? 4 then inl (div64 (i64 val1) (i64 val2))
  else if funct3 =? 5 then inl (divu64 val1 val2)
  else if funct3 =? 6 then inl (rem64 (i64 val1) (i64 val2))
  else inl (remu64 val1 val2).

(** The base instructions; [f4] is [funct3] with bit 30 as bit 3. *)
Definition op_base_value (imm f4 val1 val2 : Z) : res :=
  if nz (imm .&~ 0x20) then inr IllegalInsn
  else if f4 =? 0 then inl (val1 + val2)
  else if f4 =? 8 then inl (val1 - val2)
  else if f4 =? 1 then inl (val1 << (val2 .& (XLEN - 1)))
  else if f4 =? 2 then inl (Z.b2z (i64 val1 <? i64 val2))
  else if f4 =? 3 then inl (Z.b2z (val1 <? val2))
  else if f4 =? 4 then inl (val1 .^ val2)
  else if f4 =? 5 then inl (val1 >> (val2 .& (XLEN - 1)))
  else if f4 =? 13 then inl (i64 val1 >> (val2 .& (XLEN - 1)))
  else if f4 =? 6 then inl (val1 .| val2)
  else if f4 =? 7 then inl (val1 .& val2)
  else inr IllegalInsn.

(** [((insn >> 12) & 7) | ((insn >> (30 - 3)) & (1 << 3))] *)
Definition f_funct4 (insn : Z) : Z := ((insn >> 12) .& 7) .| ((insn >> (30 - 3)) .& (1 << 3)).

Definition op_value (insn val1 val2 : Z) : res :=
  let imm := insn >> 25 in
  match op_ext_value ((insn >> 25) .& 0x7F) (f_funct3 insn) val1 val2 with
  | Some r => r
  | None =>
      if imm =? 1 then op_m_value (f_funct3 insn) val1 val2
      else op_base_value imm (f_funct4 insn) val1 val2
  end.

Definition exec_op (insn : Z) : M unit :=
  let! val1 := read_reg (f_rs1 insn) in
  let! val2 := read_reg (f_rs2 insn) in
  let! val := lift (op_value insn val1 val2) in
  write_rd (f_rd insn) val ;;
  NEXT_INSN.

(** ** OP-32 (opcode 0x3b) *)
Definition op_32_value (insn val1 val2 : Z) : res :=
  let imm := insn >> 25 in
  let funct12 := (insn >> 20) .& 0xFFF in
  let funct7 := (insn >> 25) .& 0x7F in
  let funct3 := f_funct3 insn in
  let op f7 f3 := (funct7 =? f7) && (funct3 =? f3) in
  if op 0x10 2 then inl (u64 (u32 val1 << 1) + val2)
  else if op 0x10 4 then inl (u64 (u32 val1 << 2) + val2)
  else if op 0x10 6 then inl (u64 (u32 val1 << 3) + val2)
  else if op 0x04 0 then inl (u32 val1 + val2)
  else if (funct12 =? 0x080) && (funct3 =? 4) then inl (val1 .& 0xFFFF)
  else if op 0x30 1 then inl (rolw64 val1 val2)
  else if op 0x30 5 then inl (rorw64 val1 val2)
  else if imm =? 1 then
    if funct3 =? 0 then inl (i32 (i32 val1 * i32 val2))
    else if funct3 =? 4 then inl (div32 (i32 val1) (i32 val2))
    else if funct3 =? 5 then inl (i32 (divu32 (u32 val1) (u32 val2)))
    else if funct3 =? 6 then inl (rem32 (i32 val1) (i32 val2))
    else if funct3 =? 7 then inl (i32 (remu32 (u32 val1) (u32 val2)))
    else inr IllegalInsn
  else if nz (imm .&~ 0x20) then inr IllegalInsn
  else
    let f4 := f_funct4 insn in
    if f4 =? 0 then inl (i32 (val1 + val2))
    else if f4 =? 8 then inl (i32 (val1 - val2))
    else if f4 =? 1 then inl (i32 (u32 val1 << (val2 .& 31)))
    else if f4 =? 5 then inl (i32 (u32 val1 >> (val2 .& 31)))
    else if f4 =? 13 then inl (i32 val1 >> (val2 .& 31))
    else inr IllegalInsn.

Definition exec_op_32 (insn : Z) : M unit :=
  read_reg (f_rs1 insn) ;;
  let! val1 := read_reg (f_rs1 insn) in
  let! val2 := read_reg (f_rs2 insn) in
  let! val := lift (op_32_value insn val1 val2) in
  write_rd (f_rd insn) val ;;
  NEXT_INSN.

(** ** Custom opcodes *)

(** Opcode 0x5b reads [rs2] and is illegal on every path. *)
Definition exec_custom2 (insn : Z) : M unit :=
  read_reg (f_rs2 insn) ;; illegal.

(** Opcode 0x2b is illegal for [funct3 = 7] and a no-op otherwise. *)
Definition exec_custom_2b (insn : Z) : M unit :=
  if f_funct3 insn =? 7 then illegal else NEXT_INSN.

(** Opcode 0x0b is illegal for every [funct2]. *)
Definition exec_custom_0b (insn : Z) : M unit := illegal.

(** ** misc-mem (opcode 0x0f) *)
Definition exec_misc_mem (insn : Z) : M unit :=
  let funct3 := f_funct3 insn in
  if (funct3 =? 0) || (funct3 =? 1) then NEXT_INSN else illegal.

(** ** Counters *)

(** Bring [insn_counter], [mcycle] and [minstret] up to date. *)
Definition update_counters : M unit :=
  let! c := GET_INSN_COUNTER in
  modc (set_insn_counter c) ;;
  let! st := gets id in
  when (negb (stop_the_counter (cpu st)))
    (let delta := i32 (c - insn_counter_start (lc st)) in
     guard (0 <=? delta) AssertFail ;;
     modc (fun s => set_minstret (u64 (minstret s + delta))
                      (set_mcycle (u64 (mcycle s + delta)) s))).

(** ** System instructions (opcode 0x73) *)

Section System.
Context `{CsrHooks}.

(** What follows a successful [csr_write] with code [err]. *)
Definition csr_done (err : Z) : M unit :=
  if 0 <? err then
    let! p := GET_PC in
    modc (set_pc (u64 (p + 4))) ;;
    if err =? 2 then JUMP_INSN ctf_nop else throw DoneInterp
  else ret tt.

Definition csr_write_checked (funct3 csr val : Z) : M Z :=
  let! err := csr_write funct3 csr val in
  if err =? -2 then throw MmuException
  else if err <? 0 then illegal
  else ret err.

Definition exec_csrrw (insn csr val : Z) : M unit :=
  update_counters ;;
  let! r := csr_read 1 csr true in
  match r with
  | None => illegal
  | Some val2 =>
      let! err := csr_write_checked 1 csr val in
      write_rd (f_rd insn) val2 ;;
      let! s := getc id in
      modl (fun l => set_insn_counter_addend (u64 (insn_counter s + n_cycles l)) l) ;;
      csr_done err
  end.

(** [csrrs] ([funct3 = 2]) and [csrrc] ([funct3 = 3]). *)
Definition exec_csrrs (insn funct3 csr val : Z) : M unit :=
  update_counters ;;
  let! r := csr_read funct3 csr (nz (f_rs1 insn)) in
  match r with
  | None => illegal
  | Some val2 =>
      let! err :=
        (if nz (f_rs1 insn) then
           csr_write_checked funct3 csr (if funct3 =? 2 then val2 .| val else val2 .&~ val)
         else ret 0) in
      write_rd (f_rd insn) val2 ;;
      csr_done err
  end.

(** [if (insn & m) ILLEGAL_INSTR] *)
Definition no_bits (insn m : Z) : M unit := when (insn has m) illegal.

Definition exec_ecall (insn : Z) : M unit :=
  no_bits insn 0x000fff80 ;;
  modc (fun s => set_pending_tval 0 (set_pending_exception (CAUSE_USER_ECALL + priv s) s)) ;;
  let! s := getc id in
  when (negb (ignore_sbi_shutdown s) && (priv s =? PRV_M))
    (let! a := read_reg 0x17 in
     when (a =? SBI_SHUTDOWN) (modc (set_terminate_simulation true))) ;;
  throw ExceptionStop.

(** [s->pc = GET_PC(); handle(s); goto done_interp;] *)
Definition return_by (handle : RISCVCPUState -> RISCVCPUState) : M unit :=
  let! p := GET_PC in
  modc (fun s => handle (set_pc p s)) ;;
  throw DoneInterp.

Definition exec_sret (insn : Z) : M unit :=
  no_bits insn 0x000fff80 ;;
  let! s := getc id in
  if priv s <? PRV_S then illegal
  else if (priv s =? PRV_S) && (mstatus s has MSTATUS_TSR) then illegal
  else return_by handle_sret.

Definition exec_mret (insn : Z) : M unit :=
  no_bits insn 0x000fff80 ;;
  let! s := getc id in
  if priv s <? PRV_M then illegal else return_by handle_mret.

Definition exec_dret (insn : Z) : M unit :=
  let! s := getc id in
  if negb (debug_mode s) then illegal
  else
    no_bits insn 0x000fff80 ;;
    if priv s <? PRV_M then illegal else return_by handle_dret.

Definition exec_wfi (insn : Z) : M unit :=
  no_bits insn 0x00007f80 ;;
  let! st := gets id in
  let s := cpu st in
  if priv s =? PRV_U then illegal
  else if (priv s =? PRV_S) && (mstatus s has MSTATUS_TW) then illegal
  else
    when (((mip s .& mie s) =? 0) && (pending_interrupt (mach st) =? -1) || negb (cosim (mach st)))
      (let! p := GET_PC in
       modc (fun s => set_pc (u64 (p + 4)) (set_power_down_flag true s)) ;;
       throw DoneInterp).

Definition exec_sfence_vma (insn : Z) : M unit :=
  no_bits insn 0x00007f80 ;;
  let! s := getc id in
  if priv s =? PRV_U then illegal
  else if (priv s =? PRV_S) && (mstatus s has MSTATUS_TVM) then illegal
  else
    (if f_rs1 insn =? 0 then modc tlb_flush_all
     else let! v := read_reg (f_rs1 insn) in modc (fun s => tlb_flush_vaddr s v)) ;;
    let! p := GET_PC in
    modc (set_pc (u64 (p + 4))) ;;
    JUMP_INSN ctf_nop.

Definition exec_priv (insn imm : Z) : M unit :=
  if imm =? 0x000 then exec_ecall insn
  else if imm =? 0x001 then no_bits insn 0x000fff80 ;; except CAUSE_BREAKPOINT
  else if imm =? 0x102 then exec_sret insn
  else if imm =? 0x302 then exec_mret insn
  else if imm =? 0x7b2 then exec_dret insn
  else if imm =? 0x105 then exec_wfi insn
  else if (imm >> 5) =? 0x09 then exec_sfence_vma insn
  else illegal.

Definition exec_system (insn : Z) : M unit :=
  let funct3 := f_funct3 insn in
  let imm := insn >> 20 in
  let! val := (if funct3 has 4 then ret (f_rs1 insn) else read_reg (f_rs1 insn)) in
  let funct3 := funct3 .& 3 in
  (if funct3 =? 1 then exec_csrrw insn imm val
   else if (funct3 =? 2) || (funct3 =? 3) then exec_csrrs insn funct3 imm val
   else exec_priv insn imm) ;;
  NEXT_INSN.

End System.

(** ** Atomics (opcode 0x2f) *)

Section Atomics.
Context `{DeviceBus}.

(** The value an AMO stores, for [w]-bit operands: [val] was loaded, [val2] is
    the register operand. *)
Definition amo_value (w funct5 val val2 : Z) : option Z :=
  if funct5 =? 1 then Some val2
  else if funct5 =? 0 then Some (sN w (val + val2))
  else if funct5 =? 4 then Some (sN w (val .^ val2))
  else if funct5 =? 0xc then Some (sN w (val .& val2))
  else if funct5 =? 0x8 then Some (sN w (val .| val2))
  else if funct5 =? 0x10 then Some (if sN w val <? sN w val2 then sN w val else val2)
  else if funct5 =? 0x14 then Some (if sN w val2 <? sN w val then sN w val else val2)
  else if funct5 =? 0x18 then Some (if uN w val <? uN w val2 then sN w val else val2)
  else if funct5 =? 0x1c then Some (if uN w val2 <? uN w val then sN w val else val2)
  else None.

(** [s->pending_exception += 2] unless a breakpoint is pending. *)
Definition load_to_store_cause : M unit :=
  modc (fun s => if pending_exception s =? CAUSE_BREAKPOINT then s
                 else set_pending_exception (pending_exception s + 2) s).

(** [OP_A(size)] with [size = 8 << size_log2]; the result is [val]. *)
Definition exec_lr (size_log2 addr rs2 : Z) : M Z :=
  if nz rs2 then illegal
  else
    let! rval := target_read size_log2 addr in
    let! st := gets id in
    modc (fun s => set_load_res_memseqno (memseqno (mach st)) (set_load_res addr s)) ;;
    ret (sN (8 << size_log2) rval).

Definition exec_sc (size_log2 addr rs2 : Z) : M Z :=
  if nz (addr .& ((1 << size_log2) - 1)) then fault addr CAUSE_MISALIGNED_STORE
  else
    let! st := gets id in
    if (load_res (cpu st) =? addr) && (load_res_memseqno (cpu st) =? memseqno (mach st)) then
      let! v := read_reg rs2 in
      target_write size_log2 addr v ;;
      modc (fun s => set_load_res_memseqno 0 (set_load_res (u64 (-1)) s)) ;;
      ret 0
    else ret 1.

Definition exec_amo_rmw (size_log2 funct5 addr rs2 : Z) : M Z :=
  let w := 8 << size_log2 in
  match amo_value w funct5 0 0 with
  | None => illegal
  | Some _ =>
      let! rval := on_mmu_exception (target_read size_log2 addr) load_to_store_cause in
      let val := u64 (sN w rval) in
      let! val2 := read_reg rs2 in
      let! v := from_option IllegalInsn (amo_value w funct5 val val2) in
      target_write size_log2 addr (u64 v) ;;
      ret val
  end.

Definition exec_amo (insn : Z) : M unit :=
  let funct3 := f_funct3 insn in
  if negb ((funct3 =? 2) || (funct3 =? 3)) then illegal
  else
    let! addr := read_reg (f_rs1 insn) in
    let funct5 := insn >> 27 in
    let rs2 := f_rs2 insn in
    let! val :=
      (if funct5 =? 2 then exec_lr funct3 addr rs2
       else if funct5 =? 3 then exec_sc funct3 addr rs2
       else exec_amo_rmw funct3 funct5 addr rs2) in
    write_rd (f_rd insn) val ;;
    NEXT_INSN.

End Atomics.
