(* ===== verification/ExecFp.v ===== *)
(** * Floating-point instructions of the interpreter

    Opcodes 0x07 and 0x27 (scalar loads and stores), 0x43, 0x47, 0x4b, 0x4f
    (fused multiply-add) and 0x53 of [riscv_cpu_interp64], the per-format cases
    of [include/majordomo_fp_template.h], and the unboxing helpers of
    [src/riscv_cpu.cpp] and [include/majordomo_template.h]. *)

From S2P Require Import Prelude RiscvDefs State IoMem Tlb Pmp Mmu Csr Trap Alu SoftFp Exec.
Open Scope Z_scope.
Open Scope c_scope.
Open Scope m_scope.

(** Run a soft-float operation on the hart's [fflags]. *)
Definition fp_op {A} (f : FP A) : M A := fun st =>
  match f (fflags (cpu st)) with
  | Some (r, fl) => (with_cpu (set_fflags fl (cpu st)) st, inl r)
  | None => (st, inr AssertFail)
  end.

(** ** NaN boxing *)

Definition f_qnan32 : Z := 0x7fc00000.

Definition f_unbox32 (r : Z) : Z :=
  if negb ((r .& F32_HIGH) =? F32_HIGH) then f_qnan32 else r.

Definition f_unbox64 (r : Z) : Z := r.

Definition chkfp32 (a : Z) : Z :=
  if negb ((a .& 0xFFFFFFFF00000000) =? 0xFFFFFFFF00000000) then u32 (0xFFFFFFFF << 22) else u32 a.

(** The template parameters [unbox], [F_HIGH], [FSIGN_MASK] of one inclusion. *)
Record fp_template := mkTemplate {
  ft_fmt : fmt;
  ft_unbox : Z -> Z;
  ft_high : Z;
  ft_sign_mask : Z;
  ft_not_sign : Z
}.

(** [FSIGN_MASK32] is the [int] [1 << 31], sign-extended by the conversion to
    64 bits; its complement is [0x7fffffff]. *)
Definition template32 : fp_template :=
  mkTemplate sf32 f_unbox32 F32_HIGH (u64 (i32 (1 << 31))) 0x7fffffff.
Definition template64 : fp_template :=
  mkTemplate sf64 f_unbox64 F64_HIGH (1 << 63) (u64 (Z.lnot (1 << 63))).

(** ** Scalar loads and stores *)

Section Memory.
Context `{DeviceBus}.

(** [case 2] (flw) and [case 3] (fld) of opcode 0x07. *)
Definition exec_flw (rd addr : Z) : M unit :=
  let! s := getc id in
  if fs s =? 0 then illegal
  else let! rval := target_read 2 addr in write_fp_reg rd (rval .| F32_HIGH).

Definition exec_fld (rd addr : Z) : M unit :=
  let! s := getc id in
  if fs s =? 0 then illegal
  else let! rval := target_read 3 addr in write_fp_reg rd (rval .| F64_HIGH).

(** [case 2] (fsw) and [case 3] (fsd) of opcode 0x27. *)
Definition exec_fsw (rs2 addr : Z) : M unit :=
  let! s := getc id in
  if fs s =? 0 then illegal
  else let! v := read_fp_reg rs2 in target_write 2 addr v.

Definition exec_fsd (rs2 addr : Z) : M unit :=
  let! s := getc id in
  if fs s =? 0 then illegal
  else let! v := read_fp_reg rs2 in target_write 3 addr v.

End Memory.

(** ** Fused multiply-add *)

(** The four opcodes differ in the signs they flip: [neg_a] on the first
    factor, [neg_c] on the addend. *)
Definition exec_fma (neg_a neg_c : bool) (insn : Z) : M unit :=
  let! s := getc id in
  if fs s =? 0 then illegal
  else
    let funct2 := (insn >> 25) .& 3 in
    let rs3 := insn >> 27 in
    match get_insn_rm s ((insn >> 12) .& 7) with
    | None => illegal
    | Some rm =>
        let flip (b : bool) (m x : Z) := if b then x .^ m else x in
        if funct2 =? 0 then
          let! a := read_fp_reg (f_rs1 insn) in
          let! b := read_fp_reg (f_rs2 insn) in
          let! c := read_fp_reg rs3 in
          let! r := fp_op (fma_sf sf32 (flip neg_a (1 << 31) (chkfp32 a)) (chkfp32 b)
                             (flip neg_c (1 << 31) (chkfp32 c)) rm) in
          write_fp_reg (f_rd insn) (r .| F32_HIGH) ;;
          NEXT_INSN
        else if funct2 =? 1 then
          let! a := read_fp_reg (f_rs1 insn) in
          let! b := read_fp_reg (f_rs2 insn) in
          let! c := read_fp_reg rs3 in
          let! r := fp_op (fma_sf sf64 (flip neg_a (1 << 63) a) b (flip neg_c (1 << 63) c) rm) in
          write_fp_reg (f_rd insn) (r .| F64_HIGH) ;;
          NEXT_INSN
        else illegal
    end.

Definition exec_fmadd := exec_fma false false.
Definition exec_fmsub := exec_fma false true.
Definition exec_fnmsub := exec_fma true false.
Definition exec_fnmadd := exec_fma true true.

(** ** The per-format cases *)

Section Template.
Variable T : fp_template.
Let F := ft_fmt T.

(** The low [F_SIZE] bits of an unboxed operand, as the soft-float functions
    receive it. *)
Definition fp_arg (x : Z) : M Z := let! v := read_fp_reg x in ret (fu F (ft_unbox T v)).

Definition set_fs_dirty : M unit := modc (set_fs 3).

(** [rm = get_insn_rm(s, rm); if (rm < 0) goto illegal_insn;] *)
Definition dyn_rm (rm : Z) : M Z := let! s := getc id in from_option IllegalInsn (get_insn_rm s rm).

Definition fp_binary (op : Z -> Z -> Z -> FP Z) (rd rs1 rs2 rm : Z) : M unit :=
  let! rm := dyn_rm rm in
  let! a := fp_arg rs1 in
  let! b := fp_arg rs2 in
  let! r := fp_op (op a b rm) in
  write_fp_reg rd (r .| ft_high T) ;;
  set_fs_dirty.

Definition fp_sqrt (rd rs1 rs2 rm : Z) : M unit :=
  let! rm := dyn_rm rm in
  if nz rs2 then illegal
  else
    let! a := fp_arg rs1 in
    let! r := fp_op (sqrt_sf F a rm) in
    write_fp_reg rd (r .| ft_high T) ;;
    set_fs_dirty.

(** fsgnj, fsgnjn, fsgnjx *)
Definition fp_sgnj (rd rs1 rs2 rm : Z) : M unit :=
  if negb ((rm =? 0) || (rm =? 1) || (rm =? 2)) then illegal
  else
    let! v1 := read_fp_reg rs1 in
    let! v2 := read_fp_reg rs2 in
    let a := ft_unbox T v1 in
    let b := ft_unbox T v2 in
    let S := ft_sign_mask T in
    write_fp_reg rd
      (if rm =? 0 then (a .& ft_not_sign T) .| (b .& S) .| ft_high T
       else if rm =? 1 then (a .& ft_not_sign T) .| ((b .& S) .^ S) .| ft_high T
       else (a .^ (b .& S)) .| ft_high T) ;;
    set_fs_dirty.

Definition fp_minmax (rd rs1 rs2 rm : Z) : M unit :=
  if negb ((rm =? 0) || (rm =? 1)) then illegal
  else
    let! a := fp_arg rs1 in
    let! b := fp_arg rs2 in
    let! r := fp_op (if rm =? 0 then min_sf F a b else max_sf F a b) in
    write_fp_reg rd (r .| ft_high T) ;;
    set_fs_dirty.

(** fcvt.w, fcvt.wu, fcvt.l, fcvt.lu *)
Definition fp_to_int (rd rs1 rs2 rm : Z) : M unit :=
  let! rm := dyn_rm rm in
  if 4 <=? rs2 then illegal
  else
    let! a := fp_arg rs1 in
    let! val :=
      (if rs2 =? 0 then let! r := fp_op (cvt_sf_i F 32 a rm) in ret (i32 r)
       else if rs2 =? 1 then let! r := fp_op (cvt_sf_u F 32 a rm) in ret (i32 r)
       else if rs2 =? 2 then let! r := fp_op (cvt_sf_i F 64 a rm) in ret (i64 r)
       else let! r := fp_op (cvt_sf_u F 64 a rm) in ret (i64 r)) in
    write_rd rd val ;;
    set_fs_dirty.

(** fle, flt, feq *)
Definition fp_compare (rd rs1 rs2 rm : Z) : M unit :=
  if negb ((rm =? 0) || (rm =? 1) || (rm =? 2)) then illegal
  else
    let! a := fp_arg rs1 in
    let! b := fp_arg rs2 in
    let! r := fp_op (if rm =? 0 then le_sf F a b
                     else if rm =? 1 then lt_sf F a b else eq_quiet_sf F a b) in
    write_rd rd (Z.b2z r) ;;
    set_fs_dirty.

Definition fp_from_int (rd rs1 rs2 rm : Z) : M unit :=
  let! rm := dyn_rm rm in
  if 4 <=? rs2 then illegal
  else
    let! v := read_reg rs1 in
    let! r := fp_op (if rs2 =? 0 then cvt_i_sf F 32 v rm
                     else if rs2 =? 1 then cvt_u_sf F 32 v rm
                     else if rs2 =? 2 then cvt_i_sf F 64 v rm
                     else cvt_u_sf F 64 v rm) in
    write_fp_reg rd (r .| ft_high T) ;;
    set_fs_dirty.

(** fmv.x and fclass *)
Definition fp_move_class (rd rs1 rs2 rm : Z) : M unit :=
  if nz rs2 then illegal
  else if rm =? 0 then
    let! v := read_fp_reg rs1 in write_rd rd (sN (F_SIZE F) v)
  else if rm =? 1 then
    let! a := fp_arg rs1 in write_rd rd (fclass_sf F a)
  else illegal.

(** fmv.w.x and fmv.d.x *)
Definition fp_move_from (rd rs1 rs2 rm : Z) : M unit :=
  if nz rs2 || nz rm then illegal
  else
    let! v := read_reg rs1 in
    write_fp_reg rd (u64 (sN (F_SIZE F) v) .| ft_high T) ;;
    set_fs_dirty.

End Template.

(** fcvt.s.d ([opid = 0]) and fcvt.d.s ([opid = 1]) *)
Definition fp_cvt_format (opid rd rs1 rs2 rm : Z) : M unit :=
  let! rm := dyn_rm rm in
  if (opid =? 0) && (rs2 =? 1) then
    let! v := read_fp_reg rs1 in
    let! r := fp_op (cvt_sf64_sf32 v rm) in
    write_fp_reg rd (r .| F32_HIGH) ;; set_fs_dirty
  else if (opid =? 1) && (rs2 =? 0) then
    let! v := read_fp_reg rs1 in
    let v := if negb ((v .& F32_HIGH) =? F32_HIGH) then f_qnan32 else v in
    let! r := fp_op (cvt_sf32_sf64 (u32 v)) in
    write_fp_reg rd (r .| F64_HIGH) ;; set_fs_dirty
  else illegal.

(** The inner [switch (_funct7)]: [op] is the case number, [opid] the format. *)
Definition exec_fp_case (insn : Z) : M unit :=
  let funct7 := (insn >> 25) .& 0x7F in
  let opid := funct7 .& 3 in
  let op := funct7 >> 2 in
  let rm := (insn >> 12) .& 7 in
  let rd := f_rd insn in
  let rs1 := f_rs1 insn in
  let rs2 := f_rs2 insn in
  if negb ((opid =? 0) || (opid =? 1)) then illegal
  else
    let T := if opid =? 0 then template32 else template64 in
    let F := ft_fmt T in
    if op =? 0x00 then fp_binary T (add_sf F) rd rs1 rs2 rm
    else if op =? 0x01 then fp_binary T (sub_sf F) rd rs1 rs2 rm
    else if op =? 0x02 then fp_binary T (mul_sf F) rd rs1 rs2 rm
    else if op =? 0x03 then fp_binary T (div_sf F) rd rs1 rs2 rm
    else if op =? 0x0b then fp_sqrt T rd rs1 rs2 rm
    else if op =? 0x04 then fp_sgnj T rd rs1 rs2 rm
    else if op =? 0x05 then fp_minmax T rd rs1 rs2 rm
    else if op =? 0x18 then fp_to_int T rd rs1 rs2 rm
    else if op =? 0x14 then fp_compare T rd rs1 rs2 rm
    else if op =? 0x1a then fp_from_int T rd rs1 rs2 rm
    else if op =? 0x08 then fp_cvt_format opid rd rs1 rs2 rm
    else if op =? 0x1c then fp_move_class T rd rs1 rs2 rm
    else if op =? 0x1e then fp_move_from T rd rs1 rs2 rm
    else illegal.

(** The tests on [_funct7], [_funct12] and [_funct3] before the inner
    [switch]: [Some true] is an illegal instruction, [Some false] an
    instruction that is decoded but has no effect. *)
Definition fp_zfa (funct7 funct12 funct3 : Z) : option bool :=
  let f7 a b := (funct7 =? a) && (funct3 =? b) in
  if f7 0x59 0 || f7 0x5b 0 then Some true
  else if f7 0x52 4 || f7 0x50 4 || f7 0x51 4 then Some false
  else if f7 0x53 4 then Some true
  else if f7 0x52 5 || f7 0x50 5 || f7 0x51 5 then Some false
  else if f7 0x53 5 then Some true
  else if f7 0x16 3 || f7 0x14 3 || f7 0x15 3 then Some false
  else if f7 0x17 3 then Some true
  else if f7 0x16 2 || f7 0x14 2 || f7 0x15 2 then Some false
  else if f7 0x17 2 then Some true
  else if (funct12 =? 0x444) || (funct12 =? 0x404) || (funct12 =? 0x424) then Some false
  else if funct12 =? 0x464 then Some true
  else if (funct12 =? 0x445) || (funct12 =? 0x405) || (funct12 =? 0x425) then Some false
  else if funct12 =? 0x465 then Some true
  else if ((funct12 =? 0xf41) || (funct12 =? 0xf01) || (funct12 =? 0xf21)) && (funct3 =? 0)
  then Some false
  else if (funct12 =? 0xf61) && (funct3 =? 0) then Some true
  else if (funct12 =? 0xc28) && (funct3 =? 1) then Some false
  else None.

Definition exec_fp (insn : Z) : M unit :=
  let! s := getc id in
  if fs s =? 0 then illegal
  else
    match fp_zfa ((insn >> 25) .& 0x7F) ((insn >> 20) .& 0xFFF) ((insn >> 12) .& 7) with
    | Some true => illegal
    | Some false => NEXT_INSN
    | None => exec_fp_case insn ;; NEXT_INSN
    end.
