(* ===== verification/Vector.v ===== *)
(** * Vector instructions

    The vector helpers, [vmem_op] and [vectorize_arithmetic] of
    [src/riscv_cpu.cpp], the element operations of
    [include/vector_template.h] and opcode 0x57 of [riscv_cpu_interp64], for
    [VLEN = 128] and without [MASK_AGNOSTIC_FILL].  A pointer into [v_reg] is
    an offset into the [32 * 16] bytes of the register file; an access outside
    them is [Undefined]. *)

From S2P Require Import Prelude RiscvDefs State IoMem Tlb Pmp Mmu Csr Trap Alu Exec.
Open Scope Z_scope.
Open Scope c_scope.
Open Scope m_scope.

Definition SEW_SHIFT := 3.
Definition SEW_MASK := 7.
Definition LMUL_MASK := 7.
Definition LMUL_BOUNDARY := 1 << 2.
Definition VLENB := VLEN / 8.

(** ** The register file as bytes *)

Definition vbyte (s : RISCVCPUState) (off : Z) : Z :=
  aget 0 (aget [] (v_reg s) (off / VLENB)) (off mod VLENB).

Definition set_vbyte (off b : Z) (s : RISCVCPUState) : RISCVCPUState :=
  set_v_reg (aset (v_reg s) (off / VLENB)
    (aset (aget [] (v_reg s) (off / VLENB)) (off mod VLENB) b)) s.

Definition v_in_bounds (off n : Z) : bool := (0 <=? off) && (off + n <=? 32 * VLENB).

(** [*(uintN_t * )&v_reg[off]], [n] bytes. *)
Definition vread (s : RISCVCPUState) (off : Z) (n : nat) : Z :=
  le_value (map (fun k => vbyte s (off + Z.of_nat k)) (seq 0 n)).

Fixpoint vwrite_bytes (off : Z) (l : list Z) (s : RISCVCPUState) : RISCVCPUState :=
  match l with
  | [] => s
  | b :: l' => vwrite_bytes (off + 1) l' (set_vbyte off b s)
  end.

Definition vwrite (off : Z) (n : nat) (v : Z) (s : RISCVCPUState) : RISCVCPUState :=
  vwrite_bytes off (le_bytes n v) s.

(** ** Configuration *)

Definition clear_most_recently_written_vregs (s : RISCVCPUState) : RISCVCPUState :=
  set_most_recently_written_vregs (repeat false 32) s.

(** LMUL scaled by 8; [None] for the reserved encoding 4, where the C shifts by
    a negative amount. *)
Definition get_lmul (s : RISCVCPUState) : option Z :=
  let lmul := vtype s .& LMUL_MASK in
  if lmul has LMUL_BOUNDARY then
    if lmul - LMUL_BOUNDARY - 1 <? 0 then None else Some (1 << (lmul - LMUL_BOUNDARY - 1))
  else Some (1 << (lmul + 3)).

Definition get_sew (s : RISCVCPUState) : Z := 1 << (((vtype s >> SEW_SHIFT) .& SEW_MASK) + 3).

Definition get_vlmax (s : RISCVCPUState) : Z :=
  let vlmul := vtype s .& LMUL_MASK in
  if vlmul has LMUL_BOUNDARY then VLEN / get_sew s / (16 >> (vlmul - LMUL_BOUNDARY))
  else (1 << vlmul) * VLEN / get_sew s.

Definition v0_mask (s : RISCVCPUState) : bool :=
  nz ((vbyte s (vstart s / 8) >> (vstart s mod 8)) .& 1).

Definition inc_vstart (s : RISCVCPUState) : RISCVCPUState := set_vstart (u16 (vstart s + 1)) s.

(** ** Vector memory *)

Section Memory.
Context `{DeviceBus}.

(** [true] when the access raised an exception. *)
Definition try_mmu (m : M unit) : M bool := fun st =>
  match m st with
  | (st', inl _) => (st', inl false)
  | (st', inr MmuException) => (st', inl true)
  | (st', inr e) => (st', inr e)
  end.

(** [v_load_e##width] and [v_store_e##width] on the element at [off]. *)
Definition v_load (size_log2 addr off : Z) : M bool :=
  try_mmu (let! rval := target_read size_log2 addr in
           guard (v_in_bounds off (1 << size_log2)) Undefined ;;
           modc (vwrite off (Z.to_nat (1 << size_log2)) rval)).

Definition v_store (size_log2 addr off : Z) : M bool :=
  guard (v_in_bounds off (1 << size_log2)) Undefined ;;
  let! s := getc id in
  try_mmu (target_write size_log2 addr (vread s off (Z.to_nat (1 << size_log2)))).

(** What the front of [vmem_op] computes. *)
Record vmem_cfg := mkVmem {
  vm_ld : bool; vm_rd : Z; vm_rs1 : Z; vm_nf : Z; vm_emul : Z; vm_vec_size : Z;
  vm_advance : Z;        (* byte_advance *)
  vm_mem_advance : Z; vm_unmasked : bool; vm_fault_first : bool;
  vm_indexed : bool; vm_eew : Z; vm_index_vec_size : Z;
  vm_size_log2 : Z       (* of the element accessed *)
}.

Definition v_op (c : vmem_cfg) (addr off : Z) : M bool :=
  if vm_ld c then v_load (vm_size_log2 c) addr off else v_store (vm_size_log2 c) addr off.

(** The members of one segment: [None] goes on with the advanced address,
    [Some code] is [return code]. *)
Fixpoint vmem_members (c : vmem_cfg) (i j index_vstart scaled_emul : Z) (n : nat) (k addr : Z)
  : M (option Z * Z) :=
  match n with
  | O => ret (None, addr)
  | S n' =>
      let! s := getc id in
      if vm_indexed c then
        let index_vec := index_vstart / vm_index_vec_size c in
        let index_elm := index_vstart mod vm_index_vec_size c in
        let! failed :=
          (if vm_unmasked c || v0_mask s then
             let esz := vm_eew c / 8 in
             guard (v_in_bounds (u8 index_vec * VLENB + u8 index_elm * esz) esz) Undefined ;;
             let index := vread s (u8 index_vec * VLENB + u8 index_elm * esz) (Z.to_nat esz) in
             v_op c (u64 (addr + index + k * vm_advance c))
               ((vm_rd c + i + k * scaled_emul) * VLENB + j)
           else ret false) in
        if (failed : bool) then ret (Some 2, addr)
        else vmem_members c i j index_vstart scaled_emul n' (k + 1) addr
      else
        let! failed :=
          (if vm_unmasked c || v0_mask s
           then v_op c addr ((vm_rd c + i + k * (vm_nf c - 1)) * VLENB + j)
           else ret false) in
        if (failed : bool) then
          if negb (vm_fault_first c) then ret (Some 2, addr)
          else
            modc (fun s => set_vstart 0 (set_pending_exception (-1) (set_pending_tval 0
                             (set_vl (vstart s) s)))) ;;
            ret (Some 0, addr)
        else
          vmem_members c i j index_vstart scaled_emul n' (k + 1) (u64 (addr + vm_mem_advance c))
  end.

(** The elements of one register: [for (j = elm_start; ...; j += byte_advance)]. *)
Fixpoint vmem_elements (c : vmem_cfg) (i scaled_emul : Z) (n : nat) (j index_vstart addr : Z)
  : M (option Z * Z) :=
  match n with
  | O => ret (None, index_vstart)
  | S n' =>
      let! (r, addr') := vmem_members c i j index_vstart scaled_emul (Z.to_nat (vm_nf c)) 0 addr in
      match r with
      | Some code => ret (Some code, index_vstart)
      | None =>
          modc inc_vstart ;;
          vmem_elements c i scaled_emul n' (j + vm_advance c) (index_vstart + 1) addr'
      end
  end.

(** The registers of the group. *)
Fixpoint vmem_regs (c : vmem_cfg) (scaled_emul : Z) (n : nat) (i index_vstart : Z) : M Z :=
  match n with
  | O => modc (set_vstart 0) ;; ret 0
  | S n' =>
      let! s := getc id in
      let elm_start := vstart s - vm_vec_size c * i in
      if elm_start <? vm_vec_size c then
        let! b := read_reg (vm_rs1 c) in
        let addr := if vm_indexed c then b
                    else u64 (b + i32 (i32 (elm_start * vm_mem_advance c) + vm_nf c * i * VLEN / 8)) in
        let count := vm_vec_size c - elm_start in
        let! (r, index_vstart') :=
          vmem_elements c i scaled_emul (Z.to_nat count) (elm_start * vm_advance c) index_vstart addr in
        match r with
        | Some code => ret code
        | None => vmem_regs c scaled_emul n' (i + 1) index_vstart'
        end
      else vmem_regs c scaled_emul n' (i + 1) index_vstart
  end.

(** Mark the destination registers of a load. *)
Definition mark_vregs (rd scaled_emul nf : Z) (s : RISCVCPUState) : RISCVCPUState :=
  for_up (fun i (s : RISCVCPUState) =>
    for_up (fun j (s : RISCVCPUState) =>
      set_most_recently_written_vregs
        (aset (most_recently_written_vregs s) (rd + i + scaled_emul * (j - 1)) true) s)
      (Z.to_nat nf) 1 s) (Z.to_nat scaled_emul) 0 s.

Definition IS_PO2 (n : Z) : bool := nz n && ((n .& (n - 1)) =? 0).

(** The EMUL and register-number checks at the end of the front. *)
Definition emul_ok (emul nf r : Z) : bool :=
  negb ((emul =? 0) || (64 <? emul) || (64 <? emul * nf)
        || (32 <? r + nf * emul / 8) || (32 <? r + nf)
        || (8 <=? emul) && nz ((r * 8) mod emul)).

Definition log2_bytes (eew : Z) : Z :=
  if eew =? 8 then 0 else if eew =? 16 then 1 else if eew =? 32 then 2 else 3.

(** The loops of [vmem_op], with the fault-only-first probe before them. *)
Definition vmem_run (c : vmem_cfg) (index_vstart vl : Z) : M Z :=
  let! probe :=
    (if vm_fault_first c then
       let! s := getc id in
       if vstart s =? 0 then
         let! b := read_reg (vm_rs1 c) in
         (* the probe's buffer is one byte *)
         let! failed := try_mmu (let! v := target_read (vm_size_log2 c) b in
                                 guard (vm_size_log2 c =? 0) Undefined) in
         ret failed
       else ret false
     else ret false) in
  if (probe : bool) then ret 2
  else
    let scaled_emul := if vm_emul c <? 8 then 1 else vm_emul c / 8 in
    when (vm_ld c) (modc (mark_vregs (vm_rd c) scaled_emul (vm_nf c))) ;;
    let vec_size := if vl <? vm_vec_size c then vl else vm_vec_size c in
    let c := mkVmem (vm_ld c) (vm_rd c) (vm_rs1 c) (vm_nf c) (vm_emul c) vec_size (vm_advance c)
               (vm_mem_advance c) (vm_unmasked c) (vm_fault_first c) (vm_indexed c) (vm_eew c)
               (vm_index_vec_size c) (vm_size_log2 c) in
    vmem_regs c scaled_emul (Z.to_nat scaled_emul) 0 index_vstart.

(** The indexed addressing modes of [vmem_op]; [None] is [return 1]. *)
Definition vmem_indexed_cfg (s : RISCVCPUState) (ld vm : bool) (rd rs1 rs2 nf eew emul lmul : Z)
  : option (vmem_cfg * Z) :=
  if negb (emul_ok emul nf rs2) then None
  else
    let vs2_emul := if emul <? 8 then 1 else emul / 8 in
    let e := if lmul <? 8 then 1 else lmul / 8 in
    if ld && (1 <? nf)
       && ((rs2 <=? rd) && (rd <=? rs2 + (nf - 1) * vs2_emul)
           || (rs2 <=? rd + (nf - 1) * e)
              && (rd + (nf - 1) * e <=? rs2 + (nf - 1) * vs2_emul)) then None
    else
      Some (mkVmem ld rd rs1 nf lmul (VLEN / get_sew s) (get_sew s / 8) 0 vm false true eew
              (VLEN / eew) (log2_bytes (get_sew s)),
            rs2 * VLEN / eew + vstart s).

(** [vmem_op]: [0] on success, [1] for an illegal instruction, [2] for another
    exception. *)
Definition vmem_op (insn : Z) (ld : bool) : M Z :=
  let! s := getc id in
  let width := (insn >> 12) .& 7 in
  let rd := f_rd insn in
  let rs1 := f_rs1 insn in
  let rs2 := f_rs2 insn in
  let vm := nz ((insn >> 25) .& 1) in
  let mop := (insn >> 26) .& 3 in
  let nf := ((insn >> 29) .& 7) + 1 in
  let eew := if width =? 7 then 64 else if width =? 6 then 32 else if width =? 5 then 16 else 8 in
  let emul := 8 * get_vlmax s * eew / VLEN in
  let vl := i32 (vl s) in
  let base nf emul eew' mem_advance ff :=
    mkVmem ld rd rs1 nf emul (VLEN / eew) (eew / 8) mem_advance vm ff false eew 0 (log2_bytes eew') in
  let run c index vl := if emul_ok (vm_emul c) (vm_nf c) rd then vmem_run c index vl else ret 1 in
  if (negb (mop =? 0) || negb (rs2 =? 8)) && (vtype s =? VILL) then ret 1
  else if mop =? 0 then
    if rs2 =? 0 then run (base nf emul eew (eew / 8) false) 0 vl
    else if rs2 =? 8 then
      if negb ld && nz width || negb vm || negb (IS_PO2 nf) then ret 1
      else run (base 1 (nf * 8) eew (eew / 8) false) 0 vl
    else if rs2 =? 11 then
      run (base nf 8 8 (eew / 8) false) 0 (if vl <? 8 then 1 else Z.quot vl 8)
    else if rs2 =? 16 then
      if negb ld then ret 1 else run (base nf emul eew (eew / 8) true) 0 vl
    else ret 1
  else if mop =? 2 then
    let! stride := read_reg rs2 in
    run (base nf emul eew (i32 stride) false) 0 vl
  else
    let! lmul := from_option Undefined (get_lmul s) in
    match vmem_indexed_cfg s ld vm rd rs1 rs2 nf eew emul lmul with
    | None => ret 1
    | Some (c, index) =>
        if emul_ok (vm_emul c) nf rd then
          (* v_load_config answers NULL for an SEW that is no element width *)
          guard (get_sew s <=? 64) Undefined ;;
          vmem_run c index vl
        else ret 1
    end.

(** The vector cases of opcodes 0x07 and 0x27. *)
Definition exec_vmem (insn : Z) (ld : bool) : M unit :=
  let! s := getc id in
  if vs s =? 0 then illegal
  else
    let! r := vmem_op insn ld in
    if r =? 2 then throw MmuException
    else if r =? 1 then modc (set_vtype VILL) ;; illegal
    else ret tt.

End Memory.

(** ** Vector arithmetic *)

Inductive width_config := SINGLE_WIDTH | WIDEN_VD_VS2 | WIDEN_VD | WIDEN_VS2.

#[export] Instance width_config_eq_dec : EqDecision width_config.
Proof. solve_decision. Defined.

(** The element operations of include/vector_template.h. *)
Inductive v_int_op := v_add | vw_addu | vw_adduw | vw_add | vw_addw.

(** [OP##_config]: is the element width supported? *)
Definition v_op_supported (op : v_int_op) (sew : Z) : bool :=
  match op with
  | v_add => (sew =? 8) || (sew =? 16) || (sew =? 32) || (sew =? 64)
  | _ => (sew =? 8) || (sew =? 16) || (sew =? 32)
  end.

(** [a + b] where both have the C type of width [w]: [int] arithmetic below 32
    bits, arithmetic modulo [2^w] from there on. *)
Definition c_sum (w a b : Z) : Z := if w <? 32 then a + b else uN w (a + b).

(** The value stored at [vd], given the bytes at [vs2] and at [val_ptr] read as
    values of the widths the operation uses. *)
Definition v_op_result (op : v_int_op) (w vs2 val : Z) : Z :=
  match op with
  | v_add => uN w (vs2 + val)
  | vw_addu => uN (2 * w) (c_sum w vs2 val)
  | vw_adduw => uN (2 * w) (vs2 + val)
  | vw_add => uN (2 * w) (if w <? 32 then sN w vs2 + sN w val else sN w (sN w vs2 + sN w val))
  | vw_addw => uN (2 * w) (sN (2 * w) vs2 + sN w val)
  end.

(** Widths in bytes of the [vs2] and [vd] elements. *)
Definition v_op_vs2_bytes (op : v_int_op) (w : Z) : Z :=
  match op with vw_adduw | vw_addw => 2 * w / 8 | _ => w / 8 end.
Definition v_op_vd_bytes (op : v_int_op) (w : Z) : Z :=
  match op with v_add => w / 8 | _ => 2 * w / 8 end.

(** Offsets of the sources relative to [vd]: [(vs1_mod, vs1_elm_mod, vs2_mod,
    vs2_elm_mod)]. *)
Definition v_mods (cfg : width_config) (i j : Z) : Z * Z * Z * Z :=
  let m1 := - (i / 2 + i mod 2) in
  let e1 := if nz (i mod 2) then (VLENB >> 1) - (j >> 1) else Z.quot (- j) 2 in
  match cfg with
  | SINGLE_WIDTH => (0, 0, 0, 0)
  | WIDEN_VD_VS2 => (m1, e1, 0, 0)
  | WIDEN_VD => (m1, e1, m1, e1)
  | WIDEN_VS2 => (0, 0, 2 * j / VLENB, j)
  end.

(** One element: [src] is [Some vs1] for a vector operand, [None] for the
    scalar [scalar]. *)
Definition v_arith_elem (op : v_int_op) (cfg : width_config) (vm : bool)
    (w vd vs2 : Z) (src : option Z) (scalar i j : Z) : M unit :=
  let! s := getc id in
  let '(m1, e1, m2, e2) := v_mods cfg i j in
  let vd_off := (vd + i) * VLENB + j in
  let vs2_off := (vs2 + i + m2) * VLENB + (j + e2) in
  when (vm || v0_mask s)
    (guard (v_in_bounds vd_off (v_op_vd_bytes op w) &&
            v_in_bounds vs2_off (v_op_vs2_bytes op w)) Undefined ;;
     let! val :=
       match src with
       | Some vs1 =>
           let off := (vs1 + i + m1) * VLENB + (j + e1) in
           guard (v_in_bounds off (w / 8)) Undefined ;; ret (vread s off (Z.to_nat (w / 8)))
       | None => ret (uN w scalar)
       end in
     let b := vread s vs2_off (Z.to_nat (v_op_vs2_bytes op w)) in
     modc (vwrite vd_off (Z.to_nat (v_op_vd_bytes op w)) (v_op_result op w b val))) ;;
  modc inc_vstart.

Fixpoint v_arith_elems (op : v_int_op) (cfg : width_config) (vm : bool)
    (w vd vs2 : Z) (src : option Z) (scalar i byte_advance : Z) (n : nat) (j : Z) : M unit :=
  match n with
  | O => ret tt
  | S n' =>
      v_arith_elem op cfg vm w vd vs2 src scalar i j ;;
      v_arith_elems op cfg vm w vd vs2 src scalar i byte_advance n' (j + byte_advance)
  end.

Fixpoint v_arith_regs (op : v_int_op) (cfg : width_config) (vm : bool)
    (w vd vs2 : Z) (src : option Z) (scalar vec_size byte_advance : Z) (n : nat) (i : Z) : M unit :=
  match n with
  | O => modc (set_vstart 0)
  | S n' =>
      let! s := getc id in
      let elm_start := vstart s - vec_size * i in
      when (elm_start <? vec_size)
        (modc (fun s => set_most_recently_written_vregs
                          (aset (most_recently_written_vregs s) (vd + i) true) s) ;;
         v_arith_elems op cfg vm w vd vs2 src scalar i byte_advance
           (Z.to_nat (vec_size - elm_start)) (elm_start * byte_advance)) ;;
      v_arith_regs op cfg vm w vd vs2 src scalar vec_size byte_advance n' (i + 1)
  end.

(** The alignment checks of [vectorize_arithmetic] for an integral LMUL, with
    the LMUL and SEW of [vd]; [None] is [return true]. *)
Definition v_arith_align (cfg : width_config) (lmul sew vd vs2 : Z) (src : option Z)
  : option (Z * Z) :=
  if (match src with Some vs1 => nz (vs1 mod lmul) | None => false end) then None
  else
    match cfg with
    | SINGLE_WIDTH =>
        if nz (vd mod lmul) || nz (vs2 mod lmul) then None else Some (lmul, sew)
    | WIDEN_VS2 => if nz (vs2 mod (lmul * 2)) then None else Some (lmul, sew)
    | WIDEN_VD_VS2 =>
        if nz (vs2 mod (lmul * 2)) then None
        else if nz (vd mod (lmul * 2)) then None else Some (2 * lmul, 2 * sew)
    | WIDEN_VD => if nz (vd mod (lmul * 2)) then None else Some (2 * lmul, 2 * sew)
    end.

(** [vectorize_arithmetic]: [true] for an illegal instruction. *)
Definition vectorize_arithmetic (vs2 vd : Z) (src : option Z) (scalar : Z)
    (cfg : width_config) (vm : bool) (op : v_int_op) : M bool :=
  let! s := getc id in
  if vtype s =? VILL then ret true
  else
    let sew := get_sew s in
    if negb (v_op_supported op (u8 sew)) then ret true
    else
      let! lmul := from_option Undefined (get_lmul s) in
      let shape :=
        if lmul / 8 =? 0 then Some (1, sew) else v_arith_align cfg (lmul / 8) sew vd vs2 src in
      match shape with
      | None => ret true
      | Some (regs, sew') =>
          v_arith_regs op cfg vm sew vd vs2 src scalar (VLEN / sew') (sew' / 8) (Z.to_nat regs) 0 ;;
          ret false
      end.

(** [if (vectorize_arithmetic(...)) ILLEGAL_INSTR] *)
Definition v_arith (insn : Z) (vv : bool) (scalar : Z) (cfg : width_config) (op : v_int_op) : M unit :=
  let! bad := vectorize_arithmetic (f_rs2 insn) (f_rd insn)
                (if vv then Some (f_rs1 insn) else None) scalar cfg
                (nz ((insn >> 25) .& 1)) op in
  when bad illegal.

(** The widening additions, shared by OPMVV and OPMVX. *)
Definition v_widening (insn : Z) (vv : bool) (funct6 : Z) : M unit :=
  let run cfg op :=
    if vv then v_arith insn true 0 cfg op
    else let! v := read_reg (f_rs1 insn) in v_arith insn false v cfg op in
  if funct6 =? 0x30 then run WIDEN_VD vw_addu
  else if funct6 =? 0x31 then run WIDEN_VD vw_add
  else if funct6 =? 0x34 then run WIDEN_VD_VS2 vw_adduw
  else if funct6 =? 0x35 then run WIDEN_VD_VS2 vw_addw
  else illegal.

(** [vsetvli], [vsetvl], [vsetivli]. *)
Definition v_config (insn vl0 : Z) : M unit :=
  let rd := f_rd insn in
  let rs1 := f_rs1 insn in
  let vset := (insn >> 30) .& 3 in
  let pick_avl :=
    if nz rs1 then read_reg rs1 else if nz rd then ret (u64 (-1)) else ret vl0 in
  let! avl :=
    (if (vset =? 0) || (vset =? 1) then
       modc (set_vtype ((insn >> 20) .& 0x7ff)) ;; pick_avl
     else if vset =? 2 then
       if nz (f_rs2 insn) then
         let! vt := read_reg (f_rs2 insn) in
         if (0xff <? vt) || (vt has 0x20) || ((vt .& 0x4) =? 0x4)
         then modc (set_vtype VILL) ;; ret 0
         else modc (set_vtype vt) ;; pick_avl
       else pick_avl
     else
       modc (set_vtype ((insn >> 20) .& 0x3ff)) ;; ret ((insn >> 15) .& 0x1f)) in
  let! s := getc id in
  let! lmul := from_option Undefined (get_lmul s) in
  (if VLEN * lmul / 8 <=? get_sew s then modc (fun s => set_vl 0 (set_vtype VILL s))
   else if avl <=? get_vlmax s then modc (set_vl avl)
   else modc (fun s => set_vl (get_vlmax s) s)) ;;
  let! s := getc id in
  write_rd rd (vl s).

(** Opcode 0x57. *)
Definition exec_vector (insn : Z) : M unit :=
  let! s := getc id in
  if vs s =? 0 then illegal
  else
    modc (set_vs 3) ;;
    let vl0 := vl s in
    let funct3 := f_funct3 insn in
    let funct6 := (insn >> 26) .& 0x3F in
    (if funct3 =? 0 then
       if funct6 =? 0 then v_arith insn true 0 SINGLE_WIDTH v_add else illegal
     else if funct3 =? 2 then v_widening insn true funct6
     else if funct3 =? 3 then
       if funct6 =? 0 then v_arith insn false (u64 (sext (f_rs1 insn) 5)) SINGLE_WIDTH v_add
       else illegal
     else if funct3 =? 4 then
       if funct6 =? 0 then
         let! v := read_reg (f_rs1 insn) in v_arith insn false v SINGLE_WIDTH v_add
       else illegal
     else if funct3 =? 6 then v_widening insn false funct6
     else if funct3 =? 7 then v_config insn vl0
     else ret tt) ;;
    NEXT_INSN.
