(* ===== verification/Stf.v ===== *)
(** * STF tracing

    [src/majordomo_stf.cpp]: the start and stop triggers of the two tracing
    modes (macro opcodes and instruction numbers), opening and closing the trace,
    and the records of one traced instruction.  The trace writer is the list of
    the records written to it. *)

From S2P Require Import Prelude RiscvDefs State Trap.
Open Scope Z_scope.
Open Scope c_scope.
Open Scope m_scope.

Definition START_TRACE_OPC := 0x00004033.
Definition STOP_TRACE_OPC := 0x0010c033.

(** [stf_writer << r] *)
Definition stf_emit (rs : list stf_record) (m : RISCVMachine) : RISCVMachine :=
  set_stf_out (stf_out m ++ rs) m.

(** The address-space identifier as the tracer reads it, [(satp >> 4) & 0xFFFF]. *)
Definition stf_asid (s : RISCVCPUState) : Z := (satp s >> 4) .& 0xFFFF.

(** One record per register of a file. *)
Definition reg_records (fp : bool) (kind : stf_operand) (f : list Z) (regs : list Z) : list stf_record :=
  map (fun rn => InstRegRecord rn fp kind (aget 0 f rn)) regs.

Definition all_regs : list Z := map Z.of_nat (seq 0 32).

Definition stf_record_state (s : RISCVCPUState) (last_pc : Z) (m : RISCVMachine) : RISCVMachine :=
  stf_emit (ForcePCRecord last_pc ::
    if stf_trace_register_state m
    then reg_records false REG_STATE (reg s) all_regs ++ reg_records true REG_STATE (fp_reg s) all_regs
    else []) m.

(** The header calls of [stf_trace_open] are one record. *)
Definition stf_trace_open (s : RISCVCPUState) (p : Z) (m : RISCVMachine) : RISCVMachine :=
  let m := set_stf_prog_asid (stf_asid s) (set_stf_trace_open_flag true m) in
  let m := if stf_writer_open m then m else stf_emit [TraceHeader p] (set_stf_writer_open true m) in
  stf_record_state s p m.

Definition stf_trace_close (m : RISCVMachine) : RISCVMachine :=
  if stf_writer_open m then
    set_stf_writer_open false
    (set_stf_insn_tracing_active false
    (set_stf_macro_tracing_active false
    (set_stf_trace_open_flag false m)))
  else m.

(** What both triggers do when tracing stops. *)
Definition stf_stop (s : RISCVCPUState) (m : RISCVMachine) : RISCVCPUState * RISCVMachine :=
  let m := stf_trace_close m in
  if stf_exit_on_stop_opc m
  then (set_terminate_simulation true s, set_stf_has_exit_pending true m) else (s, m).

(** Macro mode: the opcodes start and stop the trace. *)
Definition stf_trace_trigger (p insn : Z) : M bool := fun st =>
  let m := mach st in
  if negb (stf_trace m) || stf_insn_num_tracing m then (st, inl false)
  else
    let m := set_stf_is_start_opc (insn =? START_TRACE_OPC) m in
    let m := set_stf_is_stop_opc (insn =? STOP_TRACE_OPC) m in
    let start := negb (stf_macro_tracing_active m) && stf_is_start_opc m in
    let stop := stf_macro_tracing_active m && stf_is_stop_opc m in
    let '(s, m) :=
      if start then (cpu st, stf_trace_open (cpu st) p (set_stf_macro_tracing_active true m))
      else if stop then stf_stop (cpu st) (set_stf_macro_tracing_active false m)
      else (cpu st, m) in
    (mkSt s m (lc st), inl (stf_macro_tracing_active m)).

(** Instruction-number mode: the executed count starts the trace, the traced
    count stops it. *)
Definition stf_trace_trigger_insn (s : RISCVCPUState) (p : Z) (m : RISCVMachine)
  : (RISCVCPUState * RISCVMachine) * bool :=
  if negb (stf_trace m) || negb (stf_insn_num_tracing m) then (s, m, false)
  else
    let start := negb (stf_insn_tracing_active m) && (num_executed m =? stf_insn_start m) in
    let stop := stf_insn_tracing_active m && (stf_num_traced m =? stf_insn_length m) in
    let '(s, m) :=
      if start then (s, stf_trace_open s p (set_stf_insn_tracing_active true m))
      else if stop then stf_stop s (set_stf_insn_tracing_active false m)
      else (s, m) in
    (s, m, stf_insn_tracing_active m).

(** ** One traced instruction *)

Definition mem_records (is_write : bool) (l : list stf_mem_access) : list stf_record :=
  flat_map (fun a => [InstMemAccessRecord (sm_vaddr a) (sm_size a) is_write;
                      InstMemContentRecord (sm_value a)]) l.

Definition clear_mem (s : RISCVCPUState) : RISCVCPUState := set_stf_mem_writes [] (set_stf_mem_reads [] s).

Definition stf_emit_memory_records (s : RISCVCPUState) : RISCVCPUState * list stf_record :=
  (clear_mem s, mem_records false (stf_mem_reads s) ++ mem_records true (stf_mem_writes s)).

(** The floating-point sources are read with [riscv_get_reg]. *)
Definition stf_emit_register_records (s : RISCVCPUState) : RISCVCPUState * list stf_record :=
  (set_stf_write_fp_regs [] (set_stf_write_regs [] (set_stf_read_fp_regs [] (set_stf_read_regs [] s))),
   reg_records false REG_SOURCE (reg s) (stf_read_regs s)
   ++ reg_records true REG_SOURCE (reg s) (stf_read_fp_regs s)
   ++ reg_records false REG_DEST (reg s) (stf_write_regs s)
   ++ reg_records true REG_DEST (fp_reg s) (stf_write_fp_regs s)).

(** [stf_trace_element] for hart [s]; [pc0] is the pc of hart 0, which the branch
    target record uses. *)
Definition stf_trace_element (priv0 last_pc insn_raw pc0 : Z) (s : RISCVCPUState) (m : RISCVMachine)
  : RISCVCPUState * RISCVMachine :=
  let '(s, m) :=
    if (priv0 <=? stf_highest_priv_mode m) && (pending_exception s =? -1)
       && (stf_prog_asid m =? stf_asid s) then
      let m := set_stf_num_traced (u64 (stf_num_traced m + 1)) m in
      let inst_width := if (insn_raw .& 3) =? 3 then 4 else 2 in
      let nop := bool_decide (info s = ctf_nop) in
      let m := if nop then m else stf_emit [InstPCTargetRecord pc0] m in
      let skip_record := nop && negb (pc s =? u64 (last_pc + inst_width)) in
      let '(s, m) :=
        if skip_record then (s, m)
        else
          let '(s, r1) :=
            if stf_disable_memory_records m then (s, []) else stf_emit_memory_records s in
          let '(s, r2) :=
            if stf_trace_register_state m then stf_emit_register_records s else (s, []) in
          let op := if inst_width =? 4 then InstOpcode32Record insn_raw
                    else InstOpcode16Record (insn_raw .& 0xFFFF) in
          (s, stf_emit (r1 ++ r2 ++ [op]) m) in
      (s, if pending_exception s =? -1 then m else stf_emit [EventRecord (pending_exception s)] m)
    else (s, m) in
  (clear_mem s, m).
