(* ===== verification/Interp.v ===== *)
(** * The interpreter loop

    [riscv_cpu_interp64] of [include/majordomo_template.h]: its prologue, the
    fetch, the [switch (opcode)], the trace hook after an instruction, the
    labels behind the loop and the accounting at [the_end]. *)

From S2P Require Import Prelude RiscvDefs State IoMem Tlb Pmp Mmu Csr Trap Alu SoftFp Exec ExecFp Vector Stf.
Open Scope Z_scope.
Open Scope c_scope.
Open Scope m_scope.

(** ** Macro tracing *)

(** What follows the label [jump_insn]. *)
Definition trace_hook (insn : Z) : M unit :=
  let! st := gets id in
  when (stf_trace (mach st) && negb (stf_insn_num_tracing (mach st)))
    (let! p := GET_PC in
     let! active := stf_trace_trigger p insn in
     when active
       (let! p := GET_PC in
        modc (set_pc p) ;;
        let! st := gets id in
        throw (if stf_has_exit_pending (mach st) then TheEnd else ReturnNow))).

(** ** Fetch *)

(** [((s->mip & s->mie) != 0) && (pending_interrupt != -1 || !cosim)] *)
Definition irq_allowed (st : St) : bool :=
  nz (mip (cpu st) .& mie (cpu st))
  && (negb (pending_interrupt (mach st) =? -1) || negb (cosim (mach st))).

(** The check of pending interrupts; [true] when one is taken. *)
Definition take_interrupt : M bool := fun st =>
  if irq_allowed st then
    match raise_interrupt (cpu st) with
    | Some s => (with_cpu s st, inl true)
    | None => (st, inl false)
    end
  else (st, inl false).

(** The TLB hit: point [code_ptr] and [code_end] into the host page. *)
Definition enter_page (e : TLBEntry) (addr : Z) (l : Locals) : Locals :=
  let ptr := u64 (te_mem_addend e + addr) in
  set_code_to_pc_addend (u64 (addr - ptr))
  (set_code_end (u64 (te_mem_addend e + ((addr .&~ PG_MASK) + PG_MASK - 1)))
  (set_code_ptr ptr l)).

Definition fetch : M Z :=
  let! l := gets lc in
  if code_end l <=? code_ptr l then
    let! taken := take_interrupt in
    if (taken : bool) then throw TheEnd
    else
      let! s := getc id in
      let addr := pc s in
      let e := tlb_get (tlb_code s) (tlb_index addr) in
      if te_vaddr e =? (addr .&~ PG_MASK) then
        modl (enter_page e addr) ;;
        let! l := gets lc in
        if code_end l <=? code_ptr l then
          let! insn := hload 2 (code_ptr l) in
          if (insn .& 3) =? 3 then
            let! insn_high := target_read_insn_u16 (u64 (addr + 2)) in
            ret (insn .| u32 (insn_high << 16))
          else ret insn
        else get_insn32 (code_ptr l)
      else target_read_insn_slow 32 addr
  else get_insn32 (code_ptr l).

(** ** The [switch (opcode)] *)

Section WithEnv.
Context {Bus : DeviceBus} {Hooks : CsrHooks}.

(** The widths of opcodes 0x07 and 0x27 that are vector accesses. *)
Definition is_vector_width (funct3 : Z) : bool :=
  (funct3 =? 0) || (funct3 =? 5) || (funct3 =? 6) || (funct3 =? 7).

Definition exec_fp_load (insn : Z) : M unit :=
  let funct3 := f_funct3 insn in
  let! b := read_reg (f_rs1 insn) in
  let addr := u64 (b + f_imm12 insn) in
  (if funct3 =? 2 then exec_flw (f_rd insn) addr
   else if funct3 =? 3 then exec_fld (f_rd insn) addr
   else if is_vector_width funct3 then exec_vmem insn true
   else illegal) ;;
  NEXT_INSN.

Definition exec_fp_store (insn : Z) : M unit :=
  let funct3 := f_funct3 insn in
  let! b := read_reg (f_rs1 insn) in
  let addr := u64 (b + store_imm insn) in
  (if funct3 =? 2 then exec_fsw (f_rs2 insn) addr
   else if funct3 =? 3 then exec_fsd (f_rs2 insn) addr
   else if is_vector_width funct3 then exec_vmem insn false
   else illegal) ;;
  NEXT_INSN.

Definition exec_insn (insn : Z) : M unit :=
  let opcode := f_opcode insn in
  let quadrant := insn .& 3 in
  if quadrant =? 0 then exec_c0 insn
  else if quadrant =? 1 then exec_c1 insn
  else if quadrant =? 2 then exec_c2 insn
  else if opcode =? 0x0b then exec_custom_0b insn
  else if opcode =? 0x2b then exec_custom_2b insn
  else if opcode =? 0x37 then exec_lui insn
  else if opcode =? 0x17 then exec_auipc insn
  else if opcode =? 0x6f then exec_jal insn
  else if opcode =? 0x67 then exec_jalr insn
  else if opcode =? 0x63 then exec_branch insn
  else if opcode =? 0x03 then exec_load insn
  else if opcode =? 0x23 then exec_store insn
  else if opcode =? 0x13 then exec_op_imm insn
  else if opcode =? 0x1b then exec_op_imm_32 insn
  else if opcode =? 0x5b then exec_custom2 insn
  else if opcode =? 0x33 then exec_op insn
  else if opcode =? 0x3b then exec_op_32 insn
  else if opcode =? 0x73 then exec_system insn
  else if opcode =? 0x0f then exec_misc_mem insn
  else if opcode =? 0x2f then exec_amo insn
  else if opcode =? 0x07 then exec_fp_load insn
  else if opcode =? 0x27 then exec_fp_store insn
  else if opcode =? 0x43 then exec_fmadd insn
  else if opcode =? 0x47 then exec_fmsub insn
  else if opcode =? 0x4b then exec_fnmsub insn
  else if opcode =? 0x4f then exec_fnmadd insn
  else if opcode =? 0x53 then exec_fp insn
  else if opcode =? 0x57 then exec_vector insn
  else illegal.

(** ** One iteration *)

(** [JUMP_INSN] continues at [jump_insn], inside the loop. *)
Definition catch_jump (m : M unit) : M unit := fun st =>
  match m st with
  | (st', inr (JumpInsn _)) => (st', inl tt)
  | r => r
  end.

Definition step : M unit :=
  let! p := GET_PC in
  modc (fun s => set_pc p (set_last_pc (pc s) s)) ;;
  modl (fun l => set_n_cycles (n_cycles l - 1) l) ;;
  let! l := gets lc in
  if n_cycles l =? 0 then throw TheEnd
  else
    modl (fun l => set_insn_executed (insn_executed l + 1) l) ;;
    check_triggers_m MCONTROL_EXECUTE p ExceptionStop ;;
    let! insn := fetch in
    catch_jump (exec_insn insn) ;;
    trace_hook insn.

(** The loop; [None] when the fuel runs out. *)
Fixpoint interp_loop (fuel : nat) (st : St) : option (St * stop) :=
  match fuel with
  | O => None
  | S f =>
      match step st with
      | (st', inl _) => interp_loop f st'
      | (st', inr e) => Some (st', e)
      end
  end.

(** ** The labels behind the loop *)

(** [exception:] *)
Definition on_exception : M unit :=
  let! p := GET_PC in
  modc (set_pc p) ;;
  let! s := getc id in
  let pe := pending_exception s in
  when (0 <=? pe)
    (when ((pe <? CAUSE_USER_ECALL) || (CAUSE_USER_ECALL + 3 <? pe))
       (modl (fun l => set_insn_executed (insn_executed l - 1)
                         (set_insn_counter_addend (u64 (insn_counter_addend l - 1)) l))) ;;
     modc (fun s => raise_exception2 s pe (pending_tval s))).

(** [done_interp:] *)
Definition done_interp : M unit := modl (fun l => set_n_cycles (n_cycles l - 1) l).

(** [the_end:] *)
Definition the_end : M Z :=
  update_counters ;;
  gets (fun st => insn_executed (lc st)).

(** Continue at the label the loop was left through. *)
Definition leave (e : stop) : M Z :=
  match e with
  | IllegalInsn =>
      modc (fun s => set_pending_tval 0 (set_pending_exception CAUSE_ILLEGAL_INSTRUCTION s)) ;;
      on_exception ;; done_interp ;; the_end
  | MmuException | ExceptionStop => on_exception ;; done_interp ;; the_end
  | DoneInterp => done_interp ;; the_end
  | TheEnd => the_end
  | ReturnNow => gets (fun st => insn_executed (lc st))
  | JumpInsn _ | AssertFail | Undefined => throw e
  end.

(** ** The whole function *)

(** The stores of the prologue before [if (n_cycles == 0)]. *)
Definition interp_reset (s : RISCVCPUState) : RISCVCPUState :=
  set_info ctf_nop
  (set_most_recently_written_fp_reg (-1)
  (set_most_recently_written_reg (-1)
  (clear_most_recently_written_vregs s))).

(** [riscv_cpu_interp64]; [None] when the loop runs out of fuel.  The fuel is
    the value [n_cycles] has when the loop is entered. *)
Definition riscv_cpu_interp64 (n : Z) (st : St) : option (St * (Z + stop)) :=
  let s := interp_reset (cpu st) in
  let l := mkLocals (insn_counter s) 0 n 0 0 0 0 in
  let st := mkSt s (mach st) l in
  if n =? 0 then Some (st, inl 0)
  else
    let st := with_lc (set_insn_counter_addend (u64 (insn_counter s + n)) l) st in
    let '(st, taken) := take_interrupt st in
    match taken with
    | inl true =>
        Some ((modl (fun l => set_insn_counter_addend (u64 (insn_counter_addend l - 1)) l) ;;
               done_interp ;; the_end) st)
    | _ =>
        let s := set_last_data_vaddr (u64 (-1)) (set_pending_exception (-1) (cpu st)) in
        let l := set_code_to_pc_addend (pc s) (set_n_cycles (n + 1) (lc st)) in
        match interp_loop (Z.to_nat (n + 1)) (mkSt s (mach st) l) with
        | None => None
        | Some (st', e) => Some (leave e st')
        end
    end.

End WithEnv.
