(* ===== verification/HartInv.v ===== *)
(** * The well-formedness invariant of a hart

    What every operation of the hart keeps true of its state: the register
    files have their size and width and [x0] is zero, the privilege and unit
    fields are in range, the WARL fields of the CSRs hold legal values, the TLB
    arrays have their size, and the unpacked PMP arrays agree with the PMP CSRs.
    The invariant is a conjunction over the groups of fields, so that an
    operation only has to argue about the groups it writes. *)

From S2P Require Import Prelude RiscvDefs State Tlb Pmp Csr Trap.
Open Scope Z_scope.
Open Scope c_scope.

Create HintDb wf.

(** ** The groups *)

Record wf_hr (h : HartRegs) : Prop := {
  wf_reg_len : length (reg h) = 32%nat;
  wf_x0 : aget 0 (reg h) 0 = 0;
  wf_reg : Forall (in_u 64) (reg h);
  wf_prior_len : length (reg_prior h) = 32%nat;
  wf_fp_len : length (fp_reg h) = 32%nat;
  wf_fp : Forall (in_u 64) (fp_reg h);
  wf_frm : in_u 3 (frm h);
  wf_priv : 0 <= priv h <= 3;
  wf_fs : in_u 2 (fs h);
  wf_vs : in_u 2 (vs h)
}.

Definition wf_vec (v : VecRegs) : Prop :=
  length (v_reg v) = 32%nat /\ Forall (fun r => length r = 16%nat) (v_reg v) /\
  length (most_recently_written_vregs v) = 32%nat.

(** The [UXL] and [SXL] fields say 64 bits, and no bit outside the implemented
    ones is set; [FS] and [VS] live in the hart's own fields. *)
Definition STATUS_FIXED : Z := (2 << MSTATUS_UXL_SHIFT) .| (2 << MSTATUS_SXL_SHIFT).

Record wf_m (m : MCsrs) : Prop := {
  wf_mstatus : mstatus m .&~ set_mstatus_mask = STATUS_FIXED;
  wf_medeleg : medeleg m .&~ 0xB109 = 0;
  wf_mideleg : mideleg m .&~ MIDELEG_WMASK = 0;
  wf_mie : mie m .&~ MIE_WMASK = 0;
  wf_mip : in_u 32 (mip m);
  wf_tselect : tselect m = 0;
  wf_tdata1 : length (tdata1 m) = 1%nat;
  wf_tdata2 : length (tdata2 m) = 1%nat;
  wf_hpm : length (mhpmevent m) = 32%nat
}.

(** Only the modes bare, Sv39 and Sv48 are ever installed. *)
Definition wf_s (s : SCsrs) : Prop :=
  let mode := (satp s >> 60) .& 15 in mode = 0 \/ mode = 8 \/ mode = 9.

(** The unpacked entries are exactly the enabled entries of the CSRs, and no
    reserved configuration bit is set. *)
Definition wf_pmps (p : Pmps) : Prop :=
  forall s : RISCVCPUState, pmps s = p ->
    pmp_csrs_ok s /\ length (csr_pmpcfg s) = 4%nat /\ unpacked s (enabled_upto s 16) /\
    forall k, 0 <= k < 8 -> pmp_cfg s k .& PMPCFG_RES = 0.

Record wf_tlbs (t : Tlbs) : Prop := {
  wf_tlb_read : length (tlb_read t) = 256%nat;
  wf_tlb_write : length (tlb_write t) = 256%nat;
  wf_tlb_code : length (tlb_code t) = 256%nat;
  wf_tlb_ra : length (tlb_read_paddr_addend t) = 256%nat;
  wf_tlb_wa : length (tlb_write_paddr_addend t) = 256%nat;
  wf_tlb_ca : length (tlb_code_paddr_addend t) = 256%nat
}.

Record wf_hart (s : RISCVCPUState) : Prop := {
  w_hr : wf_hr (hr s);
  w_vec : wf_vec (vec s);
  w_m : wf_m (mcsr s);
  w_s : wf_s (scsr s);
  w_pmps : wf_pmps (pmps s);
  w_tlbs : wf_tlbs (tlbs s)
}.

(** Show that an update keeps the invariant: untouched groups are assumptions,
    a touched group is taken apart. *)
Ltac wf_group :=
  match goal with
  | H : ?P |- ?P => exact H
  | H : wf_hr _ |- wf_hr _ => destruct H; constructor; cbn; try assumption
  | H : wf_m _ |- wf_m _ => destruct H; constructor; cbn; try assumption
  | H : wf_tlbs _ |- wf_tlbs _ => destruct H; constructor; cbn; rewrite ?length_map, ?aset_length; try assumption
  | |- _ => idtac
  end.

Ltac wf_tac := intros; match goal with H : wf_hart _ |- _ => destruct H as [?Hh ?Hv ?Hm ?Hs ?Hp ?Ht] end;
  constructor; cbn; wf_group; auto with wf range.

(** ** Pieces *)

Lemma wf_tlb_flush s : wf_hart s -> wf_hart (tlb_flush_all s).
Proof. wf_tac. Qed.

Lemma wf_set_priv s p : 0 <= p <= 3 -> wf_hart s -> wf_hart (set_priv s p).
Proof.
  intros Hr H. unfold set_priv. destruct (negb _); [|exact H].
  apply wf_tlb_flush in H. revert H. generalize (tlb_flush_all s). wf_tac.
Qed.

(** Bits of a masked update outside the mask. *)
Lemma masked_outside old val mask out :
  mask .&~ out = 0 -> masked old val mask .&~ out = old .&~ out.
Proof.
  intros Hm. apply Z.bits_inj'; intros n Hn. rewrite !Z.ldiff_spec, masked_bit.
  apply (f_equal (fun z => Z.testbit z n)) in Hm. rewrite Z.ldiff_spec, Z.bits_0 in Hm.
  destruct (Z.testbit mask n), (Z.testbit out n), (Z.testbit old n), (Z.testbit val n); cbn in *;
    (reflexivity || discriminate).
Qed.

Lemma wf_set_mstatus s val : wf_hart s -> wf_hart (set_mstatus s val).
Proof.
  intros H. unfold set_mstatus. cbv zeta.
  assert (H' : wf_hart (if mstatus_flushes s val then tlb_flush_all s else s))
    by (destruct (mstatus_flushes s val); [apply wf_tlb_flush|]; exact H).
  revert H'. generalize (if mstatus_flushes s val then tlb_flush_all s else s). clear s H. wf_tac.
  - apply land3_range.
  - apply land3_range.
  - fold (masked (mstatus r) val set_mstatus_mask). rewrite masked_outside; [assumption|reflexivity].
Qed.

Lemma wf_set_pc v s : wf_hart s -> wf_hart (set_pc v s).
Proof. wf_tac. Qed.

Lemma wf_trap_regs_s c e t s :
  wf_hart s -> wf_hart (set_stval t (set_sepc e (set_scause c s))).
Proof. wf_tac. Qed.

Lemma wf_trap_regs_m c e t s :
  wf_hart s -> wf_hart (set_mtval t (set_mepc e (set_mcause c s))).
Proof. wf_tac. Qed.

(** Status words that differ only in implemented bits. *)
Definition same_fixed (x y : Z) : Prop := x .&~ set_mstatus_mask = y .&~ set_mstatus_mask.

Lemma wf_put_mstatus x (s : RISCVCPUState) : wf_hart s -> same_fixed x (mstatus s) -> wf_hart (put_mstatus x s).
Proof. intros H Hx. revert H. wf_tac. rewrite Hx. assumption. Qed.

(** Clearing and setting implemented bits. *)
Lemma fixed_put m c v : c .&~ set_mstatus_mask = 0 -> v .&~ set_mstatus_mask = 0 ->
  same_fixed (m .&~ c .| v) m.
Proof.
  intros Hc Hv. apply Z.bits_inj'; intros n Hn. rewrite !Z.ldiff_spec, Z.lor_spec, Z.ldiff_spec.
  apply (f_equal (fun z => Z.testbit z n)) in Hc, Hv. rewrite Z.ldiff_spec, Z.bits_0 in Hc, Hv.
  destruct (Z.testbit set_mstatus_mask n), (Z.testbit c n), (Z.testbit v n), (Z.testbit m n);
    cbn in *; (reflexivity || discriminate).
Qed.

Lemma fixed_clear m c : c .&~ set_mstatus_mask = 0 -> same_fixed (m .&~ c) m.
Proof. intros Hc. rewrite <- (Z.lor_0_r (m .&~ c)). apply fixed_put; [exact Hc|reflexivity]. Qed.

Lemma fixed_set m v : v .&~ set_mstatus_mask = 0 -> same_fixed (m .| v) m.
Proof. intros Hv. rewrite <- (Z.ldiff_0_r m) at 1. apply fixed_put; [reflexivity|exact Hv]. Qed.

Lemma fixed_land x c : c .&~ set_mstatus_mask = 0 -> (x .& c) .&~ set_mstatus_mask = 0.
Proof.
  intros Hc. apply Z.bits_inj'; intros n Hn. rewrite Z.ldiff_spec, Z.land_spec, Z.bits_0.
  apply (f_equal (fun z => Z.testbit z n)) in Hc. rewrite Z.ldiff_spec, Z.bits_0 in Hc.
  rewrite <- andb_assoc, Hc. apply andb_false_r.
Qed.

Lemma wf_enter_s (s : RISCVCPUState) cause tval : 0 <= priv s <= 1 -> wf_hart s -> wf_hart (enter_s s cause tval).
Proof.
  intros Hp H. unfold enter_s. cbv zeta. apply wf_set_priv; [unfold PRV_S; lia|].
  apply wf_put_mstatus; [|apply fixed_clear; reflexivity].
  apply wf_put_mstatus.
  - apply wf_put_mstatus; [apply wf_trap_regs_s, H|].
    apply fixed_put; [reflexivity|]. destruct (_ has _); reflexivity.
  - apply fixed_put; [reflexivity|]. change (priv (put_mstatus _ _)) with (priv s).
    assert (priv s = 0 \/ priv s = 1) as [E|E] by lia;
      match goal with |- (?p << _) .&~ _ = 0 => change p with (priv s) end; rewrite E; reflexivity.
Qed.

Lemma wf_enter_m s cause tval : wf_hart s -> wf_hart (enter_m s cause tval).
Proof.
  intros H. assert (Hp : 0 <= priv s <= 3) by apply H.
  unfold enter_m. cbv zeta. apply wf_set_priv; [unfold PRV_M; lia|].
  apply wf_put_mstatus; [|apply fixed_clear; reflexivity].
  apply wf_put_mstatus.
  - apply wf_put_mstatus; [apply wf_trap_regs_m, H|].
    apply fixed_put; [reflexivity|]. destruct (_ has _); reflexivity.
  - apply fixed_put; [reflexivity|].
    assert (priv s = 0 \/ priv s = 1 \/ priv s = 2 \/ priv s = 3) as [E|[E|[E|E]]] by lia;
      match goal with |- (?p << _) .&~ _ = 0 => change p with (priv s) end; rewrite E; reflexivity.
Qed.

Lemma wf_raise_exception2 s cause tval : wf_hart s -> wf_hart (raise_exception2 s cause tval).
Proof.
  intros H. assert (Hp : 0 <= priv s <= 3) by apply H.
  unfold raise_exception2. destruct (trap_deleg s cause) eqn:Ed; cbv zeta; apply wf_set_pc.
  - apply wf_enter_s; [|exact H]. unfold trap_deleg, PRV_S in Ed.
    destruct (Z.leb_spec (priv s) 1); [lia|discriminate].
  - apply wf_enter_m, H.
Qed.

(** The status updates of a return. *)
Lemma wf_unstack (s : RISCVCPUState) ie pie x : ie .&~ set_mstatus_mask = 0 -> pie .&~ set_mstatus_mask = 0 ->
  x .&~ set_mstatus_mask = 0 -> wf_hart s ->
  let s := put_mstatus (mstatus s .&~ ie) s in
  let s := put_mstatus (mstatus s .| ((mstatus s >> 4) .& ie)) s in
  let s := put_mstatus (mstatus s .| pie) s in
  wf_hart (put_mstatus (mstatus s .&~ x) s).
Proof.
  intros Hi Hpi Hx H. cbv zeta.
  apply wf_put_mstatus; [|apply fixed_clear, Hx].
  apply wf_put_mstatus; [|apply fixed_set, Hpi].
  apply wf_put_mstatus; [|apply fixed_set, fixed_land, Hi].
  apply wf_put_mstatus; [exact H|apply fixed_clear, Hi].
Qed.

Lemma wf_handle_mret s : wf_hart s -> wf_hart (handle_mret s).
Proof.
  intros H. unfold handle_mret. cbv zeta. apply wf_set_pc, wf_set_priv.
  - change MSTATUS_MPP with (Z.ones 2 << MSTATUS_MPP_SHIFT).
    rewrite pp_field by (lia || (vm_compute; discriminate)).
    match goal with |- context [uN 2 ?x] => pose proof (u_range 2 x ltac:(lia)) as Hr end.
    unfold in_u in Hr. lia.
  - apply (wf_unstack s MSTATUS_MIE MSTATUS_MPIE MSTATUS_MPP); try reflexivity. exact H.
Qed.

Lemma wf_handle_sret s : wf_hart s -> wf_hart (handle_sret s).
Proof.
  intros H. unfold handle_sret. cbv zeta. apply wf_set_pc, wf_set_priv.
  - change MSTATUS_SPP with (Z.ones 1 << MSTATUS_SPP_SHIFT).
    rewrite pp_field by (lia || (vm_compute; discriminate)).
    match goal with |- context [uN 1 ?x] => pose proof (u_range 1 x ltac:(lia)) as Hr end.
    unfold in_u in Hr. lia.
  - apply (wf_unstack s MSTATUS_SIE MSTATUS_SPIE MSTATUS_SPP); try reflexivity. exact H.
Qed.

Lemma wf_handle_dret s : wf_hart s -> wf_hart (handle_dret s).
Proof.
  intros H. unfold handle_dret. cbv zeta. apply wf_set_pc, wf_set_priv.
  - match goal with |- context [?x .& 3] => pose proof (land3_range x) as Hr end.
    unfold in_u in Hr. lia.
  - revert H. wf_tac.
Qed.

(** ** PMP writes *)

Lemma unpack_one_groups k (s : RISCVCPUState) :
  hr (unpack_one k s) = hr s /\ vec (unpack_one k s) = vec s /\ mcsr (unpack_one k s) = mcsr s /\
  scsr (unpack_one k s) = scsr s /\ tlbs (unpack_one k s) = tlbs s.
Proof. unfold unpack_one. repeat case_goal; repeat split. Qed.

Lemma unpack_loop_groups (t : RISCVCPUState) :
  let u := for_up unpack_one 16 0 (set_pmp_n 0 t) in
  hr u = hr t /\ vec u = vec t /\ mcsr u = mcsr t /\ scsr u = scsr t /\ tlbs u = tlbs t.
Proof.
  cbv zeta.
  refine (for_up_ind (fun _ (u : RISCVCPUState) =>
    hr u = hr t /\ vec u = vec t /\ mcsr u = mcsr t /\ scsr u = scsr t /\ tlbs u = tlbs t)
    unpack_one 16 0 (set_pmp_n 0 t) _ _); [repeat split|].
  intros j u _ (H1 & H2 & H3 & H4 & H5).
  destruct (unpack_one_groups j u) as (-> & -> & -> & -> & ->). auto.
Qed.

(** Everything [wf_pmps] says depends on the PMP group alone. *)
Lemma wf_pmps_intro (s : RISCVCPUState) :
  pmp_csrs_ok s -> length (csr_pmpcfg s) = 4%nat -> unpacked s (enabled_upto s 16) ->
  (forall k, 0 <= k < 8 -> pmp_cfg s k .& PMPCFG_RES = 0) -> wf_pmps (pmps s).
Proof.
  intros [H1 H2 H3 H4] H5 H6 H7 s' Hs.
  assert (He : enabled_upto s' 16 = enabled_upto s 16).
  { apply enabled_upto_ext; rewrite Hs; reflexivity. }
  split; [constructor; rewrite Hs; assumption|].
  split; [rewrite Hs; assumption|]. rewrite He. split.
  - unfold unpacked, pmp_entry in *. rewrite Hs. exact H6.
  - intros k Hk. specialize (H7 k Hk). unfold pmp_cfg in *. rewrite Hs. exact H7.
Qed.

Lemma unpacked_flush u l : unpacked u l -> unpacked (tlb_flush_all u) l.
Proof. intros H; exact H. Qed.

Lemma wf_unpack (t : RISCVCPUState) :
  wf_hr (hr t) -> wf_vec (vec t) -> wf_m (mcsr t) -> wf_s (scsr t) -> wf_tlbs (tlbs t) ->
  pmp_csrs_ok t -> length (csr_pmpcfg t) = 4%nat ->
  (forall k, 0 <= k < 8 -> pmp_cfg t k .& PMPCFG_RES = 0) ->
  wf_hart (unpack_pmpaddrs t).
Proof.
  intros Hh Hv Hm Hs Ht Hok Hlen Hres.
  destruct (unpack_loop_groups t) as (G1 & G2 & G3 & G4 & G5). cbv zeta in *.
  pose proof (unpack_pmpaddrs_inv t Hok) as Hinv. unfold unpack_pmpaddrs.
  revert G1 G2 G3 G4 G5 Hinv. generalize (for_up unpack_one 16 0 (set_pmp_n 0 t)).
  intros u G1 G2 G3 G4 G5 (I1 & I2 & I3 & I4 & _ & _ & _ & I8).
  enough (Hu : wf_hart u) by (apply wf_tlb_flush, Hu).
  constructor; rewrite ?G1, ?G2, ?G3, ?G4, ?G5; try assumption.
  assert (He : enabled_upto u 16 = enabled_upto t 16).
  { apply enabled_upto_ext; assumption. }
  apply wf_pmps_intro.
  - destruct Hok. constructor; rewrite ?I1; assumption.
  - rewrite I2. exact Hlen.
  - rewrite He. exact I8.
  - intros k Hk. specialize (Hres k Hk). unfold pmp_cfg in *. rewrite I2. exact Hres.
Qed.

Lemma pmpcfg_byte_res orig val k : pmpcfg_byte orig val k .& PMPCFG_RES = 0.
Proof.
  unfold pmpcfg_byte. rewrite Z.land_comm. apply Z.bits_inj'; intros n Hn.
  rewrite Z.land_spec, Z.ldiff_spec, Z.bits_0. destruct (Z.testbit PMPCFG_RES n); [|reflexivity].
  apply andb_false_r.
Qed.

Lemma wf_csr_write_pmp s csr val code s' :
  csr_write_pmp s csr val = Some (code, s') -> wf_hart s -> wf_hart s'.
Proof.
  intros H [Hh Hv Hm Hs Hp Ht]. destruct (Hp s eq_refl) as ([P1 P2 P3 P4] & P5 & _ & P7).
  unfold csr_write_pmp in H. cbv zeta in H. csr_cases H; try (constructor; assumption).
  - apply wf_unpack; try assumption.
    + constructor; assumption.
    + cbn. rewrite aset_length. exact P5.
    + intros k Hk. assert (csr - CSR_PMPCFG 0 = 0) as Hc.
      { unfold CSR_PMPCFG, PMP_N in *. apply orb_true_iff in Heqb as [Hc|Hc]; bool_hyps; subst;
          [reflexivity|]. vm_compute in Heqb0. discriminate. }
      rewrite pmp_cfg_low by lia. cbn [csr_pmpcfg pmps set_csr_pmpcfg with_pmps]. rewrite Hc, aget_aset_eq, pmpcfg_merge_byte by lia.
      apply pmpcfg_byte_res.
  - apply wf_unpack; try assumption.
    constructor; cbn; rewrite ?aset_length; try assumption. apply Forall_aset; [assumption|].
    apply in_u_land_r. split; [discriminate|reflexivity].
Qed.

(** ** CSR writes *)

Lemma u32_ldiff_masked old val mask out :
  old .&~ out = 0 -> mask .&~ out = 0 -> u32 (masked old val mask) .&~ out = 0.
Proof.
  intros Ho Hm. apply Z.bits_inj'; intros n Hn. rewrite Z.ldiff_spec, u_testbit, Z.bits_0 by lia.
  rewrite <- andb_assoc, <- Z.ldiff_spec, masked_outside, Ho, Z.bits_0 by assumption.
  apply andb_false_r.
Qed.

Lemma ldiff_trans a b c : a .&~ b = 0 -> b .&~ c = 0 -> a .&~ c = 0.
Proof.
  intros H1 H2. apply Z.bits_inj'; intros n Hn. rewrite Z.ldiff_spec, Z.bits_0.
  apply (f_equal (fun z => Z.testbit z n)) in H1, H2. rewrite Z.ldiff_spec, Z.bits_0 in H1, H2.
  destruct (Z.testbit a n), (Z.testbit b n), (Z.testbit c n); cbn in *; (reflexivity || discriminate).
Qed.

Lemma land_range x m w : in_u w m -> in_u w (x .& m).
Proof. apply in_u_land_r. Qed.

Lemma wf_csr_write_fp_vec s csr val code s' :
  csr_write_fp_vec s csr val = Some (code, s') -> wf_hart s -> wf_hart s'.
Proof.
  intros H Hw. unfold csr_write_fp_vec in H. cbv zeta in H. csr_cases H; try exact Hw;
    revert Hw; wf_tac; try (split; [discriminate|reflexivity]).
  all: unfold uN; change 7 with (Z.ones 3); rewrite Z.land_ones by lia;
    change (2 ^ 8) with 256; rewrite Z.mod_small;
    match goal with |- context [?x mod 2 ^ 3] => pose proof (Z.mod_pos_bound x (2 ^ 3) ltac:(lia)) end;
    unfold in_u; lia.
Qed.

Lemma wf_csr_write_s s csr val code s' :
  csr_write_s s csr val = Some (code, s') -> wf_hart s -> wf_hart s'.
Proof.
  intros H Hw. unfold csr_write_s in H. cbv zeta in H. csr_cases H; try exact Hw;
    try (apply wf_set_mstatus, Hw).
  all: try (revert Hw; wf_tac; fail).
  - revert Hw; wf_tac. apply u32_ldiff_masked; [assumption|].
    apply (ldiff_trans _ MIDELEG_WMASK); [assumption|reflexivity].
  - apply wf_tlb_flush. destruct ((val >> 60 .& 15 =? 0) || (val >> 60 .& 15 =? 8) || (val >> 60 .& 15 =? 9)) eqn:E;
      [|exact Hw].
    revert Hw; wf_tac. unfold wf_s. cbn.
    replace ((val .& SATP_MASK) >> 60 .& 15) with (val >> 60 .& 15).
    + apply orb_true_iff in E as [E|E]; [apply orb_true_iff in E as [E|E]|]; bool_hyps; auto.
    + apply Z.bits_inj'; intros n Hn. rewrite !Z.land_spec, !Z.shiftr_spec, Z.land_spec by lia.
      destruct (Z.testbit 15 n) eqn:E15; [|rewrite !andb_false_r; reflexivity].
      destruct (Z.ltb_spec n 4).
      * assert (n = 0 \/ n = 1 \/ n = 2 \/ n = 3) as [-> | [-> | [-> | ->]]] by lia;
          rewrite !andb_true_r; reflexivity.
      * rewrite (Z.bits_above_log2 15) in E15 by (cbn; lia). discriminate.
Qed.

Lemma wf_csr_write_m s csr val code s' :
  csr_write_m s csr val = Some (code, s') -> wf_hart s -> wf_hart s'.
Proof.
  intros H Hw. unfold csr_write_m in H. csr_cases H; try exact Hw; try (apply wf_set_mstatus, Hw).
  all: revert Hw; wf_tac.
  all: first [apply u32_ldiff_masked; [assumption|reflexivity] | rewrite aset_length; assumption].
Qed.

Lemma wf_csr_write_debug s csr val code s' :
  csr_write_debug s csr val = Some (code, s') -> wf_hart s -> wf_hart s'.
Proof.
  intros H Hw. unfold csr_write_debug in H. cbv zeta in H. csr_cases H; try exact Hw;
    revert Hw; wf_tac; rewrite ?aset_length; try assumption.
  unfold MAX_TRIGGERS. apply Z.mod_1_r.
Qed.

(** Every CSR write keeps the invariant. *)
Lemma wf_csr_write_switch s csr val code s' :
  csr_write_switch s csr val = Some (code, s') -> wf_hart s -> wf_hart s'.
Proof.
  unfold csr_write_switch, or_else. intros H Hw.
  destruct (csr_write_fp_vec s csr val) as [[c1 s1]|] eqn:E1.
  { apply some_pair_inv in H as [-> ->]. exact (wf_csr_write_fp_vec _ _ _ _ _ E1 Hw). }
  destruct (csr_write_s s csr val) as [[c1 s1]|] eqn:E2.
  { apply some_pair_inv in H as [-> ->]. exact (wf_csr_write_s _ _ _ _ _ E2 Hw). }
  destruct (csr_write_m s csr val) as [[c1 s1]|] eqn:E3.
  { apply some_pair_inv in H as [-> ->]. exact (wf_csr_write_m _ _ _ _ _ E3 Hw). }
  destruct (csr_write_debug s csr val) as [[c1 s1]|] eqn:E4.
  { apply some_pair_inv in H as [-> ->]. exact (wf_csr_write_debug _ _ _ _ _ E4 Hw). }
  destruct (csr_write_pmp s csr val) as [[c1 s1]|] eqn:E5.
  { apply some_pair_inv in H as [-> ->]. exact (wf_csr_write_pmp _ _ _ _ _ E5 Hw). }
  unfold csr_write_counters in H. csr_cases H; try exact Hw; revert Hw; wf_tac.
Qed.

Lemma wf_csr_write_st csr val st : wf_hart (cpu st) -> wf_hart (cpu (fst (csr_write_st csr val st))).
Proof.
  intros Hw. unfold csr_write_st.
  destruct (csr_write_switch (cpu st) csr val) as [[c s]|] eqn:E; cbn.
  - exact (wf_csr_write_switch _ _ _ _ _ E Hw).
  - destruct (csr =? _); [|exact Hw]. cbn. unfold csr_write_simpoint.
    repeat case_goal; try exact Hw. revert Hw; wf_tac.
Qed.

#[export] Hint Resolve wf_tlb_flush wf_set_mstatus wf_raise_exception2 wf_handle_mret wf_handle_sret
  wf_handle_dret wf_set_pc : wf.

(** ** The initial hart *)

Lemma Forall_repeat_zero {A} (P : A -> Prop) x n : P x -> Forall P (repeat x n).
Proof. intros H. apply List.Forall_forall. intros y Hy. apply repeat_spec in Hy. subst. exact H. Qed.

Lemma zero_hart_groups :
  wf_hr (put_priv PRV_M zero_hart) /\ wf_vec (vec zero_hart) /\ wf_s (scsr zero_hart) /\
  wf_pmps (pmps zero_hart) /\ wf_tlbs (tlbs (tlb_init zero_hart)).
Proof.
  split; [|split; [|split; [|split]]].
  - assert (H0 : in_u 64 0) by (split; [discriminate|reflexivity]).
    constructor; [reflexivity|reflexivity|apply Forall_repeat_zero, H0|reflexivity|reflexivity
      |apply Forall_repeat_zero, H0|split; [discriminate|reflexivity]|split; discriminate
      |split; [discriminate|reflexivity]|split; [discriminate|reflexivity]].
  - split; [reflexivity|]. split; [|reflexivity]. apply Forall_repeat_zero. reflexivity.
  - left. reflexivity.
  - apply wf_pmps_intro.
    + constructor; [reflexivity|apply Forall_repeat_zero; split; [discriminate|reflexivity]
        |reflexivity|reflexivity].
    + reflexivity.
    + split; [reflexivity|]. intros j Hj.
      change (enabled_upto zero_hart 16) with (@nil (Z * pmp_addr)) in Hj. cbn in Hj. lia.
    + intros k Hk. assert (k = 0 \/ k = 1 \/ k = 2 \/ k = 3 \/ k = 4 \/ k = 5 \/ k = 6 \/ k = 7) as H8 by lia.
      repeat (destruct H8 as [-> | H8]; [reflexivity|]). subst. reflexivity.
  - constructor; reflexivity.
Qed.

Lemma riscv_cpu_init_wf_all (reset_vector : Z) (custom_extension clear_ids : bool) (hartid : Z) :
  wf_hart (riscv_cpu_init reset_vector custom_extension clear_ids hartid).
Proof.
  destruct zero_hart_groups as (Hh & Hv & Hs & Hp & Ht).
  unfold riscv_cpu_init. cbv zeta.
  destruct custom_extension, clear_ids;
    (constructor; [destruct Hh; constructor; assumption|exact Hv| |exact Hs|exact Hp|exact Ht];
     constructor; try reflexivity; split; vm_compute; (reflexivity || discriminate)).
Qed.

(** A freshly created hart satisfies the invariant, whatever the reset
    vector, the identity options and the hart number. *)
Theorem riscv_cpu_init_wf (reset_vector : Z) (custom_extension clear_ids : bool) (hartid : Z) :
  wf_hart (riscv_cpu_init reset_vector custom_extension clear_ids hartid).
Proof. apply riscv_cpu_init_wf_all. Qed.
