(* ===== verification/Frame.v ===== *)
(** * What every instruction keeps

    A frame relation between the state before and after an operation, proved
    for every arm of the interpreter by one traversal: the loop counters of
    [riscv_cpu_interp64] are not touched, the instruction-counter base is kept,
    and the well-formedness invariant of the hart ([HartInv]) survives,
    provided the devices and the CSR hooks keep it. *)

From S2P Require Import Prelude RiscvDefs State IoMem Tlb Pmp Mmu Csr Trap Alu SoftFp Exec ExecFp Vector Stf Interp HartInv.
Open Scope Z_scope.
Open Scope c_scope.
Open Scope m_scope.

(** ** What the environment promises *)

(** The invariant of a hart and of the machine's other harts. *)
Definition wf_cm (cm : RISCVCPUState * RISCVMachine) : Prop :=
  wf_hart (fst cm) /\ Forall wf_hart (cpu_state (snd cm)).

(** The device callbacks keep the invariant of the hart that accesses them and
    of the machine's other harts. *)
Class WfBus (Bus : DeviceBus) : Prop := {
  wf_dev_read : forall opaque off sz cm, wf_cm cm -> wf_cm (fst (dev_read opaque off sz cm));
  wf_dev_write : forall opaque off v sz cm, wf_cm cm -> wf_cm (fst (dev_write opaque off v sz cm))
}.

(** The CSR hooks keep the invariant. *)
Class WfHooks (Hooks : CsrHooks) : Prop := {
  wf_hook_read : forall h funct3 csr cm, hook_csr_read = Some h ->
    wf_cm cm -> wf_cm (fst (h funct3 csr cm));
  wf_hook_write : forall h funct3 csr v cm, hook_csr_write = Some h ->
    wf_cm cm -> wf_cm (fst (h funct3 csr v cm))
}.

(** The CSR hooks leave the simulator's instruction counter alone. *)
Class CounterHooks (Hooks : CsrHooks) : Prop := {
  cnt_hook_read : forall h funct3 csr (c : RISCVCPUState) m, hook_csr_read = Some h ->
    insn_counter (fst (fst (h funct3 csr (c, m)))) = insn_counter c;
  cnt_hook_write : forall h funct3 csr v (c : RISCVCPUState) m, hook_csr_write = Some h ->
    insn_counter (fst (fst (h funct3 csr v (c, m)))) = insn_counter c
}.

#[export] Instance no_hooks_wf : WfHooks no_hooks.
Proof. split; discriminate. Qed.
#[export] Instance no_hooks_counter : CounterHooks no_hooks.
Proof. split; discriminate. Qed.

(** The invariant in an execution state. *)
Definition wf_st (st : St) : Prop := wf_cm (cpu st, mach st).

(** The loop counters of the interpreter. *)
Definition cyc (l : Locals) : Z * Z * Z := (n_cycles l, insn_executed l, insn_counter_start l).

Section Frame.
Context {Bus : DeviceBus} {Hooks : CsrHooks}.

Record frame (st st' : St) : Prop := {
  fr_cyc : cyc (lc st') = cyc (lc st);
  fr_add : CounterHooks Hooks -> in_u 64 (insn_counter_addend (lc st)) ->
    insn_counter_addend (lc st') = insn_counter_addend (lc st);
  fr_wf : WfBus Bus -> WfHooks Hooks -> wf_st st -> wf_st st'
}.

Definition keeps {A} (m : M A) : Prop := forall st, frame st (fst (m st)).

Lemma frame_refl st : frame st st.
Proof. constructor; auto. Qed.

Lemma frame_trans a b c : frame a b -> frame b c -> frame a c.
Proof.
  intros [A1 A2 A3] [B1 B2 B3]. constructor; [congruence| |auto].
  intros Hc Ha. rewrite B2; auto. rewrite A2; auto.
Qed.

(** ** The combinators *)

Lemma keeps_ret {A} (a : A) : keeps (ret a).
Proof. intros st; apply frame_refl. Qed.
Lemma keeps_throw {A} e : keeps (throw e : M A).
Proof. intros st; apply frame_refl. Qed.
Lemma keeps_gets {A} (f : St -> A) : keeps (gets f).
Proof. intros st; apply frame_refl. Qed.
Lemma keeps_getc {A} (f : RISCVCPUState -> A) : keeps (getc f).
Proof. intros st; apply frame_refl. Qed.
Lemma keeps_bind {A B} (m : M A) (k : A -> M B) :
  keeps m -> (forall a, keeps (k a)) -> keeps (bind m k).
Proof.
  intros Hm Hk st. unfold bind. specialize (Hm st). destruct (m st) as [st1 [a|e]]; [|exact Hm].
  exact (frame_trans _ _ _ Hm (Hk a st1)).
Qed.
Lemma keeps_when b m : (b = true -> keeps m) -> keeps (when b m).
Proof. destruct b; intros H; [apply H; reflexivity|apply keeps_ret]. Qed.
Lemma keeps_guard b e : keeps (guard b e).
Proof. destruct b; [apply keeps_ret|apply keeps_throw]. Qed.
Lemma keeps_from_option {A} e (o : option A) : keeps (from_option e o).
Proof. destruct o; [apply keeps_ret|apply keeps_throw]. Qed.
Lemma keeps_lift r : keeps (lift r).
Proof. destruct r; [apply keeps_ret|apply keeps_throw]. Qed.

Lemma keeps_modc f : (forall s, wf_hart s -> wf_hart (f s)) -> keeps (modc f).
Proof. intros Hf st. constructor; cbn; auto. intros _ _ [H1 H2]. split; [apply Hf, H1|exact H2]. Qed.
Lemma keeps_modm f : (forall m, cpu_state (f m) = cpu_state m) -> keeps (modm f).
Proof.
  intros Hf st. constructor; cbn; auto. intros _ _ [H1 H2]. split; [exact H1|]. cbn. rewrite Hf. exact H2.
Qed.
Lemma keeps_modl f : (forall l, cyc (f l) = cyc l /\ insn_counter_addend (f l) = insn_counter_addend l) ->
  keeps (modl f).
Proof. intros Hf st. destruct (Hf (lc st)). constructor; cbn; auto. Qed.

Lemma keeps_on_mmu {A} (m : M A) h : keeps m -> keeps h -> keeps (on_mmu_exception m h).
Proof.
  intros Hm Hh st. unfold on_mmu_exception. specialize (Hm st).
  destruct (m st) as [st1 [a|[]]]; try exact Hm.
  specialize (Hh st1). destruct (h st1) as [st2 [u|e]]; exact (frame_trans _ _ _ Hm Hh).
Qed.
Lemma keeps_try_mmu m : keeps m -> keeps (try_mmu m).
Proof.
  intros Hm st. unfold try_mmu. specialize (Hm st). destruct (m st) as [st1 [a|[]]]; exact Hm.
Qed.
Lemma keeps_catch_jump m : keeps m -> keeps (catch_jump m).
Proof.
  intros Hm st. unfold catch_jump. specialize (Hm st). destruct (m st) as [st1 [a|[]]]; exact Hm.
Qed.

(** A step that changes the hart only. *)
Lemma frame_cpu st c : (wf_hart (cpu st) -> wf_hart c) -> frame st (with_cpu c st).
Proof. intros H. constructor; cbn; auto. intros _ _ [H1 H2]. split; [apply H, H1|exact H2]. Qed.
End Frame.

Create HintDb keeps.
#[export] Hint Resolve keeps_ret keeps_throw keeps_gets keeps_getc keeps_guard keeps_from_option
  keeps_lift : keeps.

(** A register number that is not zero. *)
Lemma land_mask_nonneg x m : 0 <= m -> 0 <= x .& m.
Proof. intros; apply Z.land_nonneg; right; assumption. Qed.

Lemma lor8_pos x : 0 <= x -> 0 < x .| 8.
Proof.
  intros Hx. assert (0 <= x .| 8) by (apply Z.lor_nonneg; lia).
  assert (x .| 8 <> 0) by (intros E; apply Z.lor_eq_0_iff in E; lia). lia.
Qed.

Lemma nz_pos x : 0 <= x -> nz x = true -> 0 < x.
Proof. intros H1 H2. apply nz_true in H2. lia. Qed.

Ltac pos_tac :=
  cbv zeta in *; unfold f_rd, f_rs1, f_rs2 in *;
  first
  [ lia
  | apply nz_pos; assumption
  | bool_hyps; lia
  | apply lor8_pos, land_mask_nonneg; lia
  | apply nz_pos; [apply land_mask_nonneg; lia|assumption]
  | match goal with |- 0 < ?x .& ?m => pose proof (land_mask_nonneg x m ltac:(lia)); bool_hyps; lia end ].

(** Walk through a definition in [M]. *)
Ltac keeps_tac :=
  repeat first
  [ solve [auto with keeps nocore]
  | apply keeps_bind; [|intros ?]
  | apply keeps_when; intros ?
  | match goal with
    | |- keeps (match ?x with _ => _ end) => destruct x eqn:?
    | |- keeps (modc _) => apply keeps_modc; solve [wf_tac | auto with wf]
    | |- keeps (modm _) => apply keeps_modm; reflexivity
    | |- keeps (modl _) => apply keeps_modl; intros []; split; reflexivity
    end
  | progress cbv zeta ].

(** ** Memory *)

Section Memory.
Context {Bus : DeviceBus} {Hooks : CsrHooks}.

Lemma keeps_track_write vaddr paddr data size b : keeps (track_write vaddr paddr data size b).
Proof.
  intros st. unfold track_write. cbv zeta. cbn [fst]. apply frame_cpu. intros H.
  destruct (_ && _); revert H; wf_tac.
Qed.
Lemma keeps_track_dread vaddr paddr data size b : keeps (track_dread vaddr paddr data size b).
Proof.
  intros st. unfold track_dread. cbv zeta. cbn [fst]. apply frame_cpu. intros H.
  destruct (_ && _); revert H; wf_tac.
Qed.
Hint Resolve keeps_track_write keeps_track_dread : keeps.

Lemma keeps_track_iread data size : keeps (track_iread data size).
Proof. unfold track_iread. keeps_tac. Qed.
Hint Resolve keeps_track_iread : keeps.

Lemma wf_check_triggers_from t_mctl addr n : forall (s : RISCVCPUState) k,
  wf_hart s -> wf_hart (snd (check_triggers_from s t_mctl addr n k)).
Proof.
  induction n as [|n IH]; intros s k H; [exact H|]. cbn [check_triggers_from].
  destruct (_ && _); [|apply IH, H]. destruct (_ && _); cbn [snd]; revert H; wf_tac.
Qed.
Lemma keeps_check_triggers_m t a e : keeps (check_triggers_m t a e).
Proof.
  intros st. unfold check_triggers_m, check_triggers.
  destruct (debug_mode (cpu st)); [apply frame_cpu; auto|].
  match goal with |- context [check_triggers_from ?s ?t ?a ?n ?k] =>
    pose proof (wf_check_triggers_from t a n s k) as H;
    destruct (check_triggers_from s t a n k) as [hit s'] end.
  apply frame_cpu, H.
Qed.
Hint Resolve keeps_check_triggers_m : keeps.

Lemma keeps_hload n a : keeps (hload n a).
Proof. unfold hload. keeps_tac. Qed.
Lemma keeps_hstore n a v : keeps (hstore n a v).
Proof. unfold hstore. keeps_tac. Qed.
Hint Resolve keeps_hload keeps_hstore : keeps.

Lemma keeps_fault {A} addr cause : keeps (fault addr cause : M A).
Proof. unfold fault. keeps_tac. Qed.
Hint Resolve keeps_fault : keeps.

Lemma keeps_phys_read n paddr : keeps (riscv_phys_read n paddr).
Proof.
  intros st. unfold riscv_phys_read. destruct (get_phys_mem_range_pmp _ _ _ _) as [[k|]|];
    try apply frame_refl.
  match goal with |- frame st (fst (?m st)) => cut (keeps m); [intros Hk; apply Hk|] end.
  keeps_tac.
Qed.
Hint Resolve keeps_phys_read : keeps.

Lemma keeps_walk_levels prv vaddr a n : forall pte_addr, keeps (walk_levels prv vaddr a n pte_addr).
Proof. induction n as [|n IH]; intros p; cbn [walk_levels]; keeps_tac. Qed.
Hint Resolve keeps_walk_levels : keeps.

Lemma keeps_get_phys_addr vaddr a : keeps (riscv_cpu_get_phys_addr vaddr a).
Proof. unfold riscv_cpu_get_phys_addr. keeps_tac. Qed.
Hint Resolve keeps_get_phys_addr : keeps.

Lemma keeps_dev_read_m opaque off sz : keeps (dev_read_m opaque off sz).
Proof.
  intros st. unfold dev_read_m. destruct (dev_read _ _ _ _) as [[c m] v] eqn:E.
  constructor; cbn; auto. intros Hb _ Hw.
  pose proof (wf_dev_read opaque (u32 off) sz _ Hw) as H. rewrite E in H. exact H.
Qed.
Lemma keeps_dev_write_m opaque off v sz : keeps (dev_write_m opaque off v sz).
Proof.
  intros st. unfold dev_write_m. destruct (dev_write _ _ _ _ _) as [[c m] r] eqn:E.
  constructor; cbn; auto. intros Hb _ Hw.
  pose proof (wf_dev_write opaque (u32 off) (u32 v) sz _ Hw) as H. rewrite E in H. exact H.
Qed.
Hint Resolve keeps_dev_read_m keeps_dev_write_m : keeps.

Lemma keeps_device_read pr paddr sz : keeps (device_read pr paddr sz).
Proof. unfold device_read. keeps_tac. Qed.
Lemma keeps_device_write pr paddr v sz : keeps (device_write pr paddr v sz).
Proof. unfold device_write. keeps_tac. Qed.
Lemma keeps_bump_memseqno : keeps bump_memseqno.
Proof. unfold bump_memseqno. keeps_tac. Qed.
Hint Resolve keeps_device_read keeps_device_write keeps_bump_memseqno : keeps.

Lemma wf_fill_tlb_read a p q s : wf_hart s -> wf_hart (fill_tlb_read a p q s).
Proof. unfold fill_tlb_read. wf_tac. Qed.
Lemma wf_fill_tlb_write a p q s : wf_hart s -> wf_hart (fill_tlb_write a p q s).
Proof. unfold fill_tlb_write. wf_tac. Qed.
Lemma wf_fill_tlb_code a p q s : wf_hart s -> wf_hart (fill_tlb_code a p q s).
Proof. unfold fill_tlb_code. wf_tac. Qed.
Hint Resolve wf_fill_tlb_read wf_fill_tlb_write wf_fill_tlb_code : wf.

Lemma keeps_read_memory addr sz : keeps (riscv_cpu_read_memory addr sz).
Proof. unfold riscv_cpu_read_memory. keeps_tac. Qed.
Lemma keeps_write_memory addr v sz : keeps (riscv_cpu_write_memory addr v sz).
Proof. unfold riscv_cpu_write_memory. keeps_tac. Qed.
Hint Resolve keeps_read_memory keeps_write_memory : keeps.

Lemma keeps_target_read sz addr : keeps (target_read sz addr).
Proof. unfold target_read. keeps_tac. Qed.
Lemma keeps_target_write sz addr v : keeps (target_write sz addr v).
Proof. unfold target_write. keeps_tac. Qed.
Lemma keeps_read_insn_slow sz addr : keeps (target_read_insn_slow sz addr).
Proof. unfold target_read_insn_slow. keeps_tac. Qed.
Hint Resolve keeps_target_read keeps_target_write keeps_read_insn_slow : keeps.
Lemma keeps_read_insn_u16 addr : keeps (target_read_insn_u16 addr).
Proof. unfold target_read_insn_u16. keeps_tac. Qed.
End Memory.

#[export] Hint Resolve keeps_track_write keeps_track_dread keeps_track_iread keeps_check_triggers_m
  keeps_hload keeps_hstore keeps_fault keeps_target_read keeps_target_write keeps_read_insn_slow
  keeps_read_insn_u16 : keeps.

(** ** Registers *)

Section Registers.
Context {Bus : DeviceBus} {Hooks : CsrHooks}.

(** Only a write to [x0] could break the register file. *)
Lemma wf_write_x x v r p (s : RISCVCPUState) : 0 < x -> wf_hart s ->
  wf_hart (set_reg (aset (reg s) x (u64 v)) (set_reg_prior (aset (reg_prior s) x p)
    (set_most_recently_written_reg r s))).
Proof.
  intros Hx. wf_tac; rewrite ?aset_length; try assumption.
  rewrite aget_aset_ne by lia. assumption.
Qed.

Lemma keeps_write_reg x v : 0 < x -> keeps (write_reg x v).
Proof.
  intros Hx st. unfold write_reg. cbv zeta. cbn [fst]. apply frame_cpu. intros H.
  match goal with |- context [if ?b then ?t else ?e] =>
    assert (Hs : wf_hart (if b then t else e)) by (destruct b; revert H; wf_tac);
    revert Hs; generalize (if b then t else e) end.
  intros s Hs. exact (wf_write_x x v x (aget 0 (reg s) x) s Hx Hs).
Qed.
Lemma keeps_read_reg x : keeps (read_reg x).
Proof.
  intros st. unfold read_reg. cbv zeta. cbn [fst]. apply frame_cpu. intros H.
  destruct (stf_in_traceable_region (mach st)); revert H; wf_tac.
Qed.
Lemma keeps_write_fp_reg x v : keeps (write_fp_reg x v).
Proof.
  intros st. unfold write_fp_reg. cbv zeta. cbn [fst]. apply frame_cpu. intros H.
  destruct (stf_in_traceable_region (mach st)); revert H; wf_tac; rewrite ?aset_length; assumption.
Qed.
Lemma keeps_read_fp_reg x : keeps (read_fp_reg x).
Proof.
  intros st. unfold read_fp_reg. cbv zeta. cbn [fst]. apply frame_cpu. intros H.
  destruct (stf_in_traceable_region (mach st)); revert H; wf_tac.
Qed.
Hint Resolve keeps_read_reg keeps_write_fp_reg keeps_read_fp_reg : keeps.

Lemma keeps_write_rd rd v : 0 <= rd -> keeps (write_rd rd v).
Proof.
  intros Hr. apply keeps_when. intros Hz. apply keeps_write_reg, nz_pos; assumption.
Qed.
Lemma keeps_write_field i v : keeps (write_rd (f_rd i) v).
Proof. apply keeps_write_rd, land_mask_nonneg. lia. Qed.
Hint Resolve keeps_write_field : keeps.

Lemma keeps_GET_PC : keeps GET_PC.
Proof. apply keeps_gets. Qed.
Lemma keeps_C_NEXT_INSN : keeps C_NEXT_INSN.
Proof. unfold C_NEXT_INSN. keeps_tac. Qed.
Lemma keeps_NEXT_INSN : keeps NEXT_INSN.
Proof. unfold NEXT_INSN. keeps_tac. Qed.
Lemma keeps_JUMP_INSN k : keeps (JUMP_INSN k).
Proof. unfold JUMP_INSN. keeps_tac. Qed.
Lemma keeps_illegal {A} : keeps (illegal : M A).
Proof. apply keeps_throw. Qed.
Lemma keeps_except {A} c : keeps (except c : M A).
Proof. unfold except. keeps_tac. Qed.
End Registers.

#[export] Hint Resolve keeps_read_reg keeps_write_fp_reg keeps_read_fp_reg keeps_write_field
  keeps_GET_PC keeps_C_NEXT_INSN keeps_NEXT_INSN keeps_JUMP_INSN keeps_illegal keeps_except : keeps.
#[export] Hint Extern 1 (keeps (write_reg _ _)) => apply keeps_write_reg; pos_tac : keeps.

(** ** Integer instructions *)

Section Integer.
Context {Bus : DeviceBus} {Hooks : CsrHooks}.

Lemma keeps_c0 i : keeps (exec_c0 i).
Proof. unfold exec_c0. keeps_tac. Qed.
Lemma keeps_c1_alu i : keeps (exec_c1_alu i).
Proof. unfold exec_c1_alu. keeps_tac. Qed.
Hint Resolve keeps_c1_alu : keeps.
Lemma keeps_c1 i : keeps (exec_c1 i).
Proof. unfold exec_c1. keeps_tac. Qed.
Lemma keeps_c2_jump i rd rs2 : 0 <= rd -> keeps (exec_c2_jump i rd rs2).
Proof. intros Hr. unfold exec_c2_jump. keeps_tac. Qed.
Lemma keeps_c2 i : keeps (exec_c2 i).
Proof. unfold exec_c2. keeps_tac. apply keeps_c2_jump, land_mask_nonneg. lia. Qed.
Lemma keeps_lui i : keeps (exec_lui i).
Proof. unfold exec_lui. keeps_tac. Qed.
Lemma keeps_auipc i : keeps (exec_auipc i).
Proof. unfold exec_auipc. keeps_tac. Qed.
Lemma keeps_check_target p : keeps (check_target p).
Proof. unfold check_target. keeps_tac. Qed.
Hint Resolve keeps_check_target : keeps.
Lemma keeps_jal i : keeps (exec_jal i).
Proof. unfold exec_jal. keeps_tac. Qed.
Lemma keeps_jalr i : keeps (exec_jalr i).
Proof. unfold exec_jalr. keeps_tac. Qed.
Lemma keeps_branch i : keeps (exec_branch i).
Proof. unfold exec_branch. keeps_tac. Qed.
Lemma keeps_load i : keeps (exec_load i).
Proof. unfold exec_load. keeps_tac. Qed.
Lemma keeps_store i : keeps (exec_store i).
Proof. unfold exec_store. keeps_tac. Qed.
Lemma keeps_op_imm i : keeps (exec_op_imm i).
Proof. unfold exec_op_imm. keeps_tac. Qed.
Lemma keeps_op_imm_32 i : keeps (exec_op_imm_32 i).
Proof. unfold exec_op_imm_32. keeps_tac. Qed.
Lemma keeps_op i : keeps (exec_op i).
Proof. unfold exec_op. keeps_tac. Qed.
Lemma keeps_op_32 i : keeps (exec_op_32 i).
Proof. unfold exec_op_32. keeps_tac. Qed.
Lemma keeps_custom2 i : keeps (exec_custom2 i).
Proof. unfold exec_custom2. keeps_tac. Qed.
Lemma keeps_custom_2b i : keeps (exec_custom_2b i).
Proof. unfold exec_custom_2b. keeps_tac. Qed.
Lemma keeps_custom_0b i : keeps (exec_custom_0b i).
Proof. unfold exec_custom_0b. keeps_tac. Qed.
Lemma keeps_misc_mem i : keeps (exec_misc_mem i).
Proof. unfold exec_misc_mem. keeps_tac. Qed.
Lemma keeps_amo i : keeps (exec_amo i).
Proof.
  unfold exec_amo, exec_lr, exec_sc, exec_amo_rmw, load_to_store_cause. keeps_tac.
  apply keeps_on_mmu; keeps_tac. apply keeps_modc. intros s Hs.
  case_goal; [exact Hs|]. revert Hs; wf_tac.
Qed.
End Integer.

#[export] Hint Resolve keeps_c0 keeps_c1 keeps_c2 keeps_lui keeps_auipc keeps_jal keeps_jalr
  keeps_branch keeps_load keeps_store keeps_op_imm keeps_op_imm_32 keeps_op keeps_op_32
  keeps_custom2 keeps_custom_2b keeps_custom_0b keeps_misc_mem keeps_amo : keeps.

(** ** System instructions *)

Section System.
Context {Bus : DeviceBus} {Hooks : CsrHooks}.

Lemma keeps_update_counters : keeps update_counters.
Proof. unfold update_counters, GET_INSN_COUNTER. keeps_tac. Qed.

(** A step that touches neither the locals nor the instruction counter. *)
Record quiet (st st' : St) : Prop := {
  q_frame : frame st st';
  q_lc : lc st' = lc st;
  q_cnt : CounterHooks Hooks -> insn_counter (cpu st') = insn_counter (cpu st)
}.

Lemma quiet_refl st : quiet st st.
Proof. constructor; auto. apply frame_refl. Qed.
Lemma quiet_trans a b c : quiet a b -> quiet b c -> quiet a c.
Proof.
  intros [A1 A2 A3] [B1 B2 B3]. constructor; [exact (frame_trans _ _ _ A1 B1)|congruence|].
  intros Hc. rewrite B3, A3; auto.
Qed.

Lemma quiet_cpu st c : (wf_hart (cpu st) -> wf_hart c) -> insn_counter c = insn_counter (cpu st) ->
  quiet st (with_cpu c st).
Proof. intros H E. constructor; [apply frame_cpu, H|reflexivity|intros _; exact E]. Qed.

(** No CSR write reaches the instruction counter. *)
Lemma tlb_flush_counter (s : RISCVCPUState) : insn_counter (tlb_flush_all s) = insn_counter s.
Proof. reflexivity. Qed.

Lemma unpack_counter (t : RISCVCPUState) : insn_counter (unpack_pmpaddrs t) = insn_counter t.
Proof.
  unfold unpack_pmpaddrs. rewrite (tlb_flush_counter (for_up unpack_one 16 0 (set_pmp_n 0 t))).
  refine (for_up_ind (fun _ (u : RISCVCPUState) => insn_counter u = insn_counter t)
    unpack_one 16 0 (set_pmp_n 0 t) eq_refl _).
  intros j u _ Hu. rewrite <- Hu. unfold unpack_one. repeat case_goal; reflexivity.
Qed.

Lemma set_mstatus_counter s val : insn_counter (set_mstatus s val) = insn_counter s.
Proof. unfold set_mstatus. destruct (mstatus_flushes s val); reflexivity. Qed.

Lemma csr_write_switch_counter s csr val code s' :
  csr_write_switch s csr val = Some (code, s') -> insn_counter s' = insn_counter s.
Proof.
  unfold csr_write_switch, or_else. intros H.
  assert (Hg : csr_write_fp_vec s csr val = Some (code, s') \/ csr_write_s s csr val = Some (code, s')
    \/ csr_write_m s csr val = Some (code, s') \/ csr_write_debug s csr val = Some (code, s')
    \/ csr_write_pmp s csr val = Some (code, s') \/ csr_write_counters s csr val = Some (code, s')).
  { destruct (csr_write_fp_vec _ _ _); [auto|]. destruct (csr_write_s _ _ _); [auto|].
    destruct (csr_write_m _ _ _); [auto|]. destruct (csr_write_debug _ _ _); [auto 7|].
    destruct (csr_write_pmp _ _ _); auto 8. }
  clear H. destruct Hg as [H|[H|[H|[H|[H|H]]]]].
  - unfold csr_write_fp_vec in H. cbv zeta in H. csr_cases H; reflexivity.
  - unfold csr_write_s in H. cbv zeta in H. csr_cases H;
      first [reflexivity | apply set_mstatus_counter | rewrite tlb_flush_counter; case_goal; reflexivity].
  - unfold csr_write_m in H. csr_cases H; try reflexivity; apply set_mstatus_counter.
  - unfold csr_write_debug in H. cbv zeta in H. csr_cases H; reflexivity.
  - unfold csr_write_pmp in H. cbv zeta in H. csr_cases H; rewrite ?unpack_counter; reflexivity.
  - unfold csr_write_counters in H. csr_cases H; reflexivity.
Qed.

Lemma quiet_csr_read f csr w st : quiet st (fst (csr_read f csr w st)).
Proof.
  unfold csr_read. destruct (_ && w); [apply quiet_refl|]. destruct (_ <? _); [apply quiet_refl|].
  destruct hook_csr_read as [h|] eqn:Eh; [|apply quiet_refl].
  destruct (h f csr (cpu st, mach st)) as [[c m] o] eqn:E.
  assert (Hq : quiet st (mkSt c m (lc st))).
  { constructor; [constructor; cbn; auto|reflexivity|].
    - intros _ Hk Hw. pose proof (wf_hook_read h f csr _ Eh Hw) as H. rewrite E in H. exact H.
    - intros Hc. pose proof (cnt_hook_read h f csr (cpu st) (mach st) Eh) as H. rewrite E in H. exact H. }
  destruct o; exact Hq.
Qed.

Lemma csr_write_st_harts csr val st :
  cpu_state (mach (fst (csr_write_st csr val st))) = cpu_state (mach st).
Proof.
  unfold csr_write_st. destruct (csr_write_switch _ _ _) as [[? ?]|]; [reflexivity|].
  destruct (csr =? _); [|reflexivity]. cbn [fst]. unfold csr_write_simpoint. repeat case_goal; reflexivity.
Qed.

Lemma quiet_csr_write_st csr val st : quiet st (fst (csr_write_st csr val st)).
Proof.
  assert (Hq : lc (fst (csr_write_st csr val st)) = lc st /\
    insn_counter (cpu (fst (csr_write_st csr val st))) = insn_counter (cpu st)).
  { unfold csr_write_st. destruct (csr_write_switch _ _ _) as [[? ?]|] eqn:E.
    - split; [reflexivity|]. exact (csr_write_switch_counter _ _ _ _ _ E).
    - destruct (csr =? _); [|split; reflexivity]. cbn [fst]. unfold csr_write_simpoint.
      repeat case_goal; split; reflexivity. }
  destruct Hq as [Hl Hc]. constructor; [constructor|exact Hl|auto].
  - rewrite Hl. reflexivity.
  - rewrite Hl. reflexivity.
  - intros _ _ [H1 H2]. split; [apply wf_csr_write_st, H1|]. cbn. rewrite csr_write_st_harts. exact H2.
Qed.

Lemma quiet_csr_write f csr val st : quiet st (fst (csr_write f csr val st)).
Proof.
  unfold csr_write. destruct hook_csr_write as [h|] eqn:Eh.
  - destruct (h f csr val (cpu st, mach st)) as [[c m] o] eqn:E.
    assert (Hq : quiet st (mkSt c m (lc st))).
    { constructor; [constructor; cbn; auto|reflexivity|].
      - intros _ Hk Hw. pose proof (wf_hook_write h f csr val _ Eh Hw) as H.
        rewrite E in H. exact H.
      - intros Hc. pose proof (cnt_hook_write h f csr val (cpu st) (mach st) Eh) as H.
        rewrite E in H. exact H. }
    destruct o; [exact Hq|].
    pose proof (quiet_csr_write_st csr val (mkSt c m (lc st))) as Hw.
    destruct (csr_write_st csr val (mkSt c m (lc st))). exact (quiet_trans _ _ _ Hq Hw).
  - pose proof (quiet_csr_write_st csr val st) as Hw. destruct (csr_write_st csr val st). exact Hw.
Qed.

Lemma keeps_csr_read f csr w : keeps (csr_read f csr w).
Proof. intros st. apply quiet_csr_read. Qed.
Lemma keeps_csr_write f csr val : keeps (csr_write f csr val).
Proof. intros st. apply quiet_csr_write. Qed.
Hint Resolve keeps_csr_read keeps_csr_write keeps_update_counters : keeps.

Lemma keeps_csr_write_checked f csr val : keeps (csr_write_checked f csr val).
Proof. unfold csr_write_checked. keeps_tac. Qed.
Lemma keeps_csr_done e : keeps (csr_done e).
Proof. unfold csr_done. keeps_tac. Qed.
Hint Resolve keeps_csr_write_checked keeps_csr_done : keeps.

Lemma quiet_csr_write_checked f csr val st : quiet st (fst (csr_write_checked f csr val st)).
Proof.
  unfold csr_write_checked, bind. pose proof (quiet_csr_write f csr val st) as H.
  destruct (csr_write f csr val st) as [st1 [e|e]]; [|exact H].
  destruct (e =? -2); [exact H|]. destruct (e <? 0); exact H.
Qed.

Lemma quiet_write_rd i v st : quiet st (fst (write_rd (f_rd i) v st)).
Proof.
  constructor; [apply keeps_write_field| |]; unfold write_rd, when; destruct (nz _); try reflexivity.
  intros _. unfold write_reg. cbv zeta. destruct (stf_in_traceable_region _); reflexivity.
Qed.

(** Compose with a first step whose end state is known. *)
Lemma frame_bind {A B} (m : M A) (k : A -> M B) st :
  frame st (fst (m st)) ->
  (forall a st1, m st = (st1, inl a) -> frame st (fst (k a st1))) -> frame st (fst (bind m k st)).
Proof.
  intros Hm Hk. unfold bind. destruct (m st) as [st1 [a|e]]; [|exact Hm]. apply Hk. reflexivity.
Qed.

(** Compose with a quiet step after [st0]. *)
Lemma frame_bind_quiet {A B} (m : M A) (k : A -> M B) st0 st :
  frame st0 st -> quiet st (fst (m st)) ->
  (forall a st1, quiet st st1 -> frame st0 (fst (k a st1))) -> frame st0 (fst (bind m k st)).
Proof.
  intros H0 Hm Hk. unfold bind. destruct (m st) as [st1 [a|e]]; [apply Hk, Hm|].
  exact (frame_trans _ _ _ H0 (q_frame _ _ Hm)).
Qed.

(** [update_counters] leaves the locals alone and stores the current count. *)
Lemma update_counters_count st st1 u : update_counters st = (st1, inl u) ->
  lc st1 = lc st /\ insn_counter (cpu st1) = u64 (insn_counter_addend (lc st) - n_cycles (lc st)).
Proof.
  unfold update_counters, GET_INSN_COUNTER, bind, gets, modc, when, guard. cbn.
  destruct (negb _); [destruct (0 <=? _)|]; intros H; inversion H; subst; split; reflexivity.
Qed.

(** Reloading the counter base from a synchronised counter changes nothing. *)
Lemma u64_resync a n : in_u 64 a -> u64 (u64 (a - n) + n) = a.
Proof.
  intros Ha. unfold uN. rewrite Zplus_mod_idemp_l. replace (a - n + n) with a by lia.
  apply Z.mod_small, Ha.
Qed.

Lemma frame_resync st st1 : frame st st1 -> lc st1 = lc st ->
  (CounterHooks Hooks -> insn_counter (cpu st1) = u64 (insn_counter_addend (lc st) - n_cycles (lc st))) ->
  frame st (with_lc (set_insn_counter_addend (u64 (insn_counter (cpu st1) + n_cycles (lc st1))) (lc st1)) st1).
Proof.
  intros [F1 F2 F3] Hl Hi. constructor; [exact F1| |exact F3].
  intros Hc Ha. cbn. rewrite (Hi Hc), Hl. apply u64_resync, Ha.
Qed.

Lemma keeps_csrrw i csr val : keeps (exec_csrrw i csr val).
Proof.
  intros st. unfold exec_csrrw. apply frame_bind; [apply keeps_update_counters|].
  intros u st1 Hu. pose proof (keeps_update_counters st) as F1. rewrite Hu in F1. cbn [fst] in F1.
  apply update_counters_count in Hu as [Hl Hi].
  apply frame_bind_quiet; [exact F1|apply quiet_csr_read|]. intros r st2 Q2.
  pose proof (frame_trans _ _ _ F1 (q_frame _ _ Q2)) as F2.
  destruct r as [val2|]; [|exact F2].
  apply frame_bind_quiet; [exact F2|apply quiet_csr_write_checked|]. intros err st3 Q3.
  pose proof (frame_trans _ _ _ F2 (q_frame _ _ Q3)) as F3.
  apply frame_bind_quiet; [exact F3|apply quiet_write_rd|]. intros u2 st4 Q4.
  pose proof (frame_trans _ _ _ F3 (q_frame _ _ Q4)) as F4.
  pose proof (quiet_trans _ _ _ (quiet_trans _ _ _ Q2 Q3) Q4) as [_ Q5 Q6].
  unfold bind at 1, getc, bind at 1, modl. eapply frame_trans; [|apply keeps_csr_done].
  apply frame_resync; [exact F4|congruence|]. intros Hc. rewrite Q6, Hi by exact Hc. reflexivity.
Qed.

Lemma keeps_csrrs i f csr val : keeps (exec_csrrs i f csr val).
Proof. unfold exec_csrrs. keeps_tac. Qed.
Hint Resolve keeps_csrrw keeps_csrrs : keeps.

Lemma keeps_no_bits i m : keeps (no_bits i m).
Proof. unfold no_bits. keeps_tac. Qed.
Hint Resolve keeps_no_bits : keeps.
Lemma keeps_return_by h : (forall s, wf_hart s -> wf_hart (h s)) -> keeps (return_by h).
Proof.
  intros Hh. unfold return_by. apply keeps_bind; [keeps_tac|intros p].
  apply keeps_bind; [|intros; keeps_tac]. apply keeps_modc. intros s Hs. apply Hh, wf_set_pc, Hs.
Qed.

Lemma keeps_priv i imm : keeps (exec_priv i imm).
Proof.
  unfold exec_priv, exec_ecall, exec_sret, exec_mret, exec_dret, exec_wfi, exec_sfence_vma, tlb_flush_vaddr.
  keeps_tac; apply keeps_return_by; auto with wf.
Qed.
Hint Resolve keeps_priv : keeps.

Lemma keeps_system i : keeps (exec_system i).
Proof. unfold exec_system. keeps_tac. Qed.
End System.

#[export] Hint Resolve keeps_system keeps_update_counters : keeps.
