(* ===== verification/InterpInv.v ===== *)
(** * The interpreter loop: invariant, termination and accounting

    The frame lemmas of [Frame] for the floating-point and vector
    instructions, for one iteration of the loop and for the whole of
    [riscv_cpu_interp64]; then the theorems about the loop: the hart stays
    well formed, the loop ends within its cycle budget, and the number of
    instructions it reports. *)

From S2P Require Import Prelude RiscvDefs State IoMem Tlb Pmp Mmu Csr Trap Alu SoftFp Exec ExecFp Vector Stf Interp HartInv Frame.
Open Scope Z_scope.
Open Scope c_scope.
Open Scope m_scope.

(** ** Floating point *)

Section FloatingPoint.
Context {Bus : DeviceBus} {Hooks : CsrHooks}.

Lemma keeps_fp_op {A} (f : FP A) : keeps (fp_op f).
Proof.
  intros st. unfold fp_op. destruct (f _) as [[r fl]|]; [|apply frame_refl].
  apply frame_cpu. wf_tac.
Qed.
Hint Resolve keeps_fp_op : keeps.

Lemma keeps_fp_arg T x : keeps (fp_arg T x).
Proof. unfold fp_arg. keeps_tac. Qed.
Lemma keeps_fs_dirty : keeps set_fs_dirty.
Proof. unfold set_fs_dirty. keeps_tac. Qed.
Lemma keeps_dyn_rm rm : keeps (dyn_rm rm).
Proof. unfold dyn_rm. keeps_tac. Qed.
Hint Resolve keeps_fp_arg keeps_fs_dirty keeps_dyn_rm : keeps.

Lemma keeps_fma a c i : keeps (exec_fma a c i).
Proof. unfold exec_fma. keeps_tac. Qed.

Lemma keeps_flw rd a : keeps (exec_flw rd a).
Proof. unfold exec_flw. keeps_tac. Qed.
Lemma keeps_fld rd a : keeps (exec_fld rd a).
Proof. unfold exec_fld. keeps_tac. Qed.
Lemma keeps_fsw r a : keeps (exec_fsw r a).
Proof. unfold exec_fsw. keeps_tac. Qed.
Lemma keeps_fsd r a : keeps (exec_fsd r a).
Proof. unfold exec_fsd. keeps_tac. Qed.

Lemma keeps_fp_case i : keeps (exec_fp_case i).
Proof.
  unfold exec_fp_case. keeps_tac;
    unfold fp_binary, fp_sqrt, fp_sgnj, fp_minmax, fp_to_int, fp_compare, fp_from_int,
      fp_cvt_format, fp_move_class, fp_move_from; keeps_tac.
Qed.
Hint Resolve keeps_fp_case : keeps.

Lemma keeps_fp i : keeps (exec_fp i).
Proof. unfold exec_fp. keeps_tac. Qed.
End FloatingPoint.

#[export] Hint Resolve keeps_fma keeps_flw keeps_fld keeps_fsw keeps_fsd keeps_fp : keeps.

(** ** Vectors *)

Section Vectors.
Context {Bus : DeviceBus} {Hooks : CsrHooks}.

(** Updating a byte of a register keeps the shape of the register file. *)
Lemma wf_set_vbyte off b s : wf_hart s -> wf_hart (set_vbyte off b s).
Proof.
  intros [Hh (V1 & V2 & V3) Hm Hs Hp Ht]. constructor; try assumption.
  unfold set_vbyte. split; [|split]; cbn; [rewrite aset_length; exact V1| |exact V3].
  unfold aset at 1, aget. set (k := Z.to_nat (off / VLENB)).
  destruct (Nat.lt_ge_cases k (length (v_reg s))) as [Hk|Hk].
  - apply Forall_insert; [exact V2|]. rewrite aset_length.
    rewrite List.Forall_forall in V2. apply V2, nth_In, Hk.
  - rewrite list_insert_ge by exact Hk. exact V2.
Qed.

Lemma wf_vwrite off n v s : wf_hart s -> wf_hart (vwrite off n v s).
Proof.
  unfold vwrite. revert off s. induction (le_bytes n v) as [|b l IH]; intros off s H; [exact H|].
  apply IH, wf_set_vbyte, H.
Qed.

Lemma wf_mark_one k v s : wf_hart s ->
  wf_hart (set_most_recently_written_vregs (aset (most_recently_written_vregs s) k v) s).
Proof.
  intros [Hh (V1 & V2 & V3) Hm Hs Hp Ht]. constructor; try assumption.
  split; [exact V1|]. split; [exact V2|]. cbn. rewrite aset_length. exact V3.
Qed.

Lemma wf_mark_vregs rd e nf s : wf_hart s -> wf_hart (mark_vregs rd e nf s).
Proof.
  intros H. unfold mark_vregs.
  refine (for_up_ind (fun _ t => wf_hart t) _ _ 0 s H _). intros i t _ Ht.
  refine (for_up_ind (fun _ u => wf_hart u) _ _ 1 t Ht _). intros j u _ Hu.
  apply wf_mark_one, Hu.
Qed.

Lemma wf_clear_vregs s : wf_hart s -> wf_hart (clear_most_recently_written_vregs s).
Proof.
  intros [Hh (V1 & V2 & V3) Hm Hs Hp Ht]. constructor; try assumption.
  split; [exact V1|]. split; [exact V2|]. reflexivity.
Qed.
Hint Resolve wf_vwrite wf_mark_one wf_mark_vregs wf_clear_vregs : wf.

Lemma keeps_v_load sz a off : keeps (v_load sz a off).
Proof. unfold v_load. apply keeps_try_mmu. keeps_tac. Qed.
Lemma keeps_v_store sz a off : keeps (v_store sz a off).
Proof. unfold v_store. keeps_tac. apply keeps_try_mmu. keeps_tac. Qed.
Hint Resolve keeps_v_load keeps_v_store : keeps.
Lemma keeps_v_op c a off : keeps (v_op c a off).
Proof. unfold v_op. keeps_tac. Qed.
Hint Resolve keeps_v_op : keeps.

Lemma keeps_vmem_members c i j iv e n : forall k a, keeps (vmem_members c i j iv e n k a).
Proof. induction n as [|n IH]; intros k a; cbn [vmem_members]; keeps_tac. Qed.
Hint Resolve keeps_vmem_members : keeps.
Lemma keeps_vmem_elements c i e n : forall j iv a, keeps (vmem_elements c i e n j iv a).
Proof. induction n as [|n IH]; intros j iv a; cbn [vmem_elements]; keeps_tac. Qed.
Hint Resolve keeps_vmem_elements : keeps.
Lemma keeps_vmem_regs c e n : forall i iv, keeps (vmem_regs c e n i iv).
Proof. induction n as [|n IH]; intros i iv; cbn [vmem_regs]; keeps_tac. Qed.
Hint Resolve keeps_vmem_regs : keeps.

Lemma keeps_vmem_run c iv l : keeps (vmem_run c iv l).
Proof. unfold vmem_run. keeps_tac. apply keeps_try_mmu. keeps_tac. Qed.
Hint Resolve keeps_vmem_run : keeps.
Lemma keeps_vmem_op i ld : keeps (vmem_op i ld).
Proof. unfold vmem_op. keeps_tac. Qed.
Hint Resolve keeps_vmem_op : keeps.
Lemma keeps_vmem i ld : keeps (exec_vmem i ld).
Proof. unfold exec_vmem. keeps_tac. Qed.

Lemma keeps_v_arith_elem op cfg vm w vd vs2 src sc i j :
  keeps (v_arith_elem op cfg vm w vd vs2 src sc i j).
Proof. unfold v_arith_elem. keeps_tac. Qed.
Hint Resolve keeps_v_arith_elem : keeps.
Lemma keeps_v_arith_elems op cfg vm w vd vs2 src sc i adv n :
  forall j, keeps (v_arith_elems op cfg vm w vd vs2 src sc i adv n j).
Proof. induction n as [|n IH]; intros j; cbn [v_arith_elems]; keeps_tac. Qed.
Hint Resolve keeps_v_arith_elems : keeps.
Lemma keeps_v_arith_regs op cfg vm w vd vs2 src sc sz adv n :
  forall i, keeps (v_arith_regs op cfg vm w vd vs2 src sc sz adv n i).
Proof. induction n as [|n IH]; intros i; cbn [v_arith_regs]; keeps_tac. Qed.
Hint Resolve keeps_v_arith_regs : keeps.
Lemma keeps_vectorize vs2 vd src sc cfg vm op : keeps (vectorize_arithmetic vs2 vd src sc cfg vm op).
Proof. unfold vectorize_arithmetic. keeps_tac. Qed.
Hint Resolve keeps_vectorize : keeps.
Lemma keeps_v_arith i vv sc cfg op : keeps (v_arith i vv sc cfg op).
Proof. unfold v_arith. keeps_tac. Qed.
Hint Resolve keeps_v_arith : keeps.
Lemma keeps_v_widening i vv f : keeps (v_widening i vv f).
Proof. unfold v_widening. keeps_tac. Qed.
Lemma keeps_v_config i vl0 : keeps (v_config i vl0).
Proof. unfold v_config. keeps_tac. Qed.
Hint Resolve keeps_v_widening keeps_v_config : keeps.
Lemma keeps_vector i : keeps (exec_vector i).
Proof. unfold exec_vector. keeps_tac. Qed.
End Vectors.

#[export] Hint Resolve wf_clear_vregs : wf.
#[export] Hint Resolve keeps_vmem keeps_vector : keeps.

(** ** One iteration *)

Lemma wf_raise_interrupt s s' : raise_interrupt s = Some s' -> wf_hart s -> wf_hart s'.
Proof.
  unfold raise_interrupt. intros H Hw. repeat case_in H; try discriminate H.
  injection H as <-. apply wf_raise_exception2, Hw.
Qed.

Section Step.
Context {Bus : DeviceBus} {Hooks : CsrHooks}.

Lemma keeps_take_interrupt : keeps take_interrupt.
Proof.
  intros st. unfold take_interrupt. destruct (irq_allowed st); [|apply frame_refl].
  destruct (raise_interrupt (cpu st)) as [s|] eqn:E; [|apply frame_refl].
  apply frame_cpu, wf_raise_interrupt, E.
Qed.
Hint Resolve keeps_take_interrupt : keeps.

Lemma keeps_get_insn32 p : keeps (get_insn32 p).
Proof. apply keeps_hload. Qed.
Hint Resolve keeps_get_insn32 : keeps.

Lemma keeps_fetch : keeps fetch.
Proof. unfold fetch. keeps_tac. Qed.

Lemma keeps_exec_insn i : keeps (exec_insn i).
Proof.
  unfold exec_insn, exec_fp_load, exec_fp_store, exec_fmadd, exec_fmsub, exec_fnmsub, exec_fnmadd.
  keeps_tac.
Qed.

Lemma stf_close_harts m : cpu_state (stf_trace_close m) = cpu_state m.
Proof. unfold stf_trace_close. destruct (stf_writer_open m); reflexivity. Qed.

Lemma stf_open_harts s p m : cpu_state (stf_trace_open s p m) = cpu_state m.
Proof. unfold stf_trace_open. cbv zeta. destruct (stf_writer_open _); reflexivity. Qed.

Lemma wf_stf_stop s m : wf_cm (s, m) -> wf_cm (stf_stop s m).
Proof.
  intros [H1 H2]. unfold stf_stop. cbv zeta. cbn [fst snd] in *.
  destruct (stf_exit_on_stop_opc _); split; cbn; rewrite ?stf_close_harts; try exact H2; [|exact H1].
  revert H1. wf_tac.
Qed.

Lemma keeps_trace_trigger p i : keeps (stf_trace_trigger p i).
Proof.
  intros st. unfold stf_trace_trigger. cbv zeta.
  destruct (_ || _); [apply frame_refl|].
  match goal with |- context [stf_stop ?s ?m] => pose proof (wf_stf_stop s m) as Hs; destruct (stf_stop s m) as [s' m'] end.
  destruct (_ && _); [|destruct (_ && _)]; constructor; cbn; auto.
  intros _ _ [H1 H2]. split; [exact H1|]. cbn [snd cpu mach]. rewrite stf_open_harts. exact H2.
Qed.
Hint Resolve keeps_trace_trigger : keeps.

Lemma keeps_trace_hook i : keeps (trace_hook i).
Proof. unfold trace_hook. keeps_tac. Qed.
Hint Resolve keeps_fetch keeps_exec_insn keeps_trace_hook : keeps.

(** What one iteration does once the cycle budget allows it. *)
Definition step_body (p : Z) : M unit :=
  check_triggers_m MCONTROL_EXECUTE p ExceptionStop ;;
  let! insn := fetch in catch_jump (exec_insn insn) ;; trace_hook insn.

Lemma keeps_body p : keeps (step_body p).
Proof. unfold step_body. keeps_tac. apply keeps_catch_jump. keeps_tac. Qed.

(** The state in which the body of an iteration starts. *)
Definition step_begin (b : bool) (st : St) : St :=
  let p := pc_of (lc st) in
  let l := set_n_cycles (n_cycles (lc st) - 1) (lc st) in
  mkSt (set_pc p (set_last_pc (pc (cpu st)) (cpu st))) (mach st)
    (if b then l else set_insn_executed (insn_executed l + 1) l).

Lemma step_eq st :
  step st = if n_cycles (lc st) =? 1 then (step_begin true st, inr TheEnd)
            else step_body (pc_of (lc st)) (step_begin false st).
Proof.
  unfold step, bind at 1, GET_PC, gets at 1. unfold bind at 1, modc at 1.
  unfold bind at 1, modl at 1. unfold bind at 1, gets at 1.
  match goal with |- context [if ?b then throw TheEnd else _] =>
    replace b with (n_cycles (lc st) =? 1) end; [destruct (_ =? _); reflexivity|].
  cbn. destruct (Z.eqb_spec (n_cycles (lc st)) 1), (Z.eqb_spec (n_cycles (lc st) - 1) 0);
    (reflexivity || lia).
Qed.

(** The locals after one iteration. *)
Definition after_step (l : Locals) : Z * Z * Z :=
  (n_cycles l - 1, insn_executed l + (if n_cycles l =? 1 then 0 else 1), insn_counter_start l).

Lemma step_spec st :
  let st' := fst (step st) in
  cyc (lc st') = after_step (lc st) /\
  (CounterHooks Hooks -> in_u 64 (insn_counter_addend (lc st)) ->
     insn_counter_addend (lc st') = insn_counter_addend (lc st)) /\
  (WfBus Bus -> WfHooks Hooks -> wf_st st -> wf_st st').
Proof.
  cbv zeta. rewrite step_eq. unfold after_step.
  assert (Hb : forall b, wf_st st -> wf_st (step_begin b st))
    by (intros b [H1 H2]; split; [revert H1; cbn; wf_tac|exact H2]).
  destruct (n_cycles (lc st) =? 1).
  - split; [unfold cyc; cbn; f_equal; f_equal; lia|]. split; [reflexivity|]. intros _ _. apply (Hb true).
  - destruct (keeps_body (pc_of (lc st)) (step_begin false st)) as [F1 F2 F3].
    split; [rewrite F1; reflexivity|]. split; [exact F2|]. intros H1 H2 Hw. apply F3; auto.
Qed.

(** ** The loop *)

(** The state after [k] iterations, the last of which left the loop. *)
Record ran (k : Z) (st st' : St) : Prop := {
  ran_pos : 1 <= k <= n_cycles (lc st);
  ran_cycles : n_cycles (lc st') = n_cycles (lc st) - k;
  ran_executed : insn_executed (lc st') =
    insn_executed (lc st) + k - (if n_cycles (lc st') =? 0 then 1 else 0);
  ran_start : insn_counter_start (lc st') = insn_counter_start (lc st);
  ran_addend : CounterHooks Hooks -> in_u 64 (insn_counter_addend (lc st)) ->
    insn_counter_addend (lc st') = insn_counter_addend (lc st);
  ran_wf : WfBus Bus -> WfHooks Hooks -> wf_st st -> wf_st st'
}.

(** A budget of [n] cycles is enough fuel: the loop ends. *)
Lemma interp_loop_ran fuel : forall st,
  1 <= n_cycles (lc st) <= Z.of_nat fuel ->
  exists st' e k, interp_loop fuel st = Some (st', e) /\ ran k st st' /\
    (n_cycles (lc st') = 0 -> e = TheEnd).
Proof.
  induction fuel as [|f IH]; intros st Hn; [lia|]. cbn [interp_loop].
  destruct (step_spec st) as (Hc & Ha & Hw). pose proof (step_eq st) as Es.
  destruct (step st) as [st1 r]. cbn [fst] in *. unfold after_step in Hc.
  injection Hc as C1 C2 C3. destruct r as [u|e].
  - destruct (n_cycles (lc st) =? 1) eqn:E1; [discriminate|]. bool_hyps.
    destruct (IH st1 ltac:(lia)) as (st' & e & k & Hl & [R1 R2 R3 R4 R5 R6] & He).
    exists st', e, (k + 1). split; [exact Hl|]. split; [|exact He].
    constructor; try congruence; try lia.
    + intros Hk Hu. rewrite R5; auto. rewrite Ha; auto.
    + auto.
  - exists st1, e, 1. split; [reflexivity|]. split; [constructor; auto; try lia|].
    + rewrite C2. destruct (Z.eqb_spec (n_cycles (lc st)) 1), (Z.eqb_spec (n_cycles (lc st1)) 0); lia.
    + intros Hz. replace (n_cycles (lc st) =? 1) with true in Es by (symmetry; apply Z.eqb_eq; lia).
      injection Es as _ ->. reflexivity.
Qed.

(** ** The labels behind the loop *)

(** The number of instructions an exception takes back: the faulting
    instruction is not retired, an [ecall] is. *)
Definition unretired (pe : Z) : Z :=
  if (0 <=? pe) && ((pe <? CAUSE_USER_ECALL) || (CAUSE_USER_ECALL + 3 <? pe)) then 1 else 0.

Lemma on_exception_spec st : exists s,
  on_exception st =
    (mkSt s (mach st)
       (let l := lc st in
        if unretired (pending_exception (cpu st)) =? 1
        then set_insn_executed (insn_executed l - 1)
               (set_insn_counter_addend (u64 (insn_counter_addend l - 1)) l)
        else l), inl tt) /\
  (wf_hart (cpu st) -> wf_hart s).
Proof.
  unfold on_exception, unretired, bind, GET_PC, gets, getc, modc, modl, when, ret. cbn.
  destruct (0 <=? pending_exception (cpu st)) eqn:E1; cbn.
  - destruct (_ || _); cbn; eexists; (split; [reflexivity|]); intros H;
      apply wf_raise_exception2, wf_set_pc, H.
  - eexists; split; [destruct st; reflexivity|]. intros H. apply wf_set_pc, H.
Qed.

Lemma the_end_spec st :
  exists s r, the_end st = (mkSt s (mach st) (lc st), r) /\
    (wf_hart (cpu st) -> wf_hart s) /\
    insn_counter s = u64 (insn_counter_addend (lc st) - n_cycles (lc st)) /\
    (r = inl (insn_executed (lc st)) \/
     r = inr AssertFail /\
     i32 (u64 (insn_counter_addend (lc st) - n_cycles (lc st)) - insn_counter_start (lc st)) < 0).
Proof.
  unfold the_end, update_counters, GET_INSN_COUNTER, bind, gets, modc, when, guard. cbn.
  destruct (stop_the_counter (cpu st)); cbn.
  - eexists _, _. split; [destruct st; reflexivity|]. split; [wf_tac|]. split; [reflexivity|auto].
  - match goal with |- context [0 <=? ?d] => destruct (Z.leb_spec 0 d) end; cbn;
      (eexists _, _; split; [destruct st; reflexivity|]; split; [wf_tac|]; split; [reflexivity|auto]).
Qed.

End Step.

(** ** The whole function *)

Section Whole.
Context {Bus : DeviceBus} {Hooks : CsrHooks}.

(** The state in which [riscv_cpu_interp64] looks for an interrupt. *)
Definition at_entry (n : Z) (st : St) : St :=
  let s := interp_reset (cpu st) in
  mkSt s (mach st)
    (set_insn_counter_addend (u64 (insn_counter s + n)) (mkLocals (insn_counter s) 0 n 0 0 0 0)).

(** The state in which it enters the loop when none is taken. *)
Definition loop_entry (n : Z) (st : St) : St :=
  let s := set_last_data_vaddr (u64 (-1)) (set_pending_exception (-1) (interp_reset (cpu st))) in
  mkSt s (mach st) (set_code_to_pc_addend (pc s) (set_n_cycles (n + 1) (lc (at_entry n st)))).

Lemma take_interrupt_cases st :
  take_interrupt st = (st, inl false) \/
  exists s, take_interrupt st = (with_cpu s st, inl true) /\ (wf_hart (cpu st) -> wf_hart s).
Proof.
  unfold take_interrupt. destruct (irq_allowed st); [|auto].
  destruct (raise_interrupt (cpu st)) as [s|] eqn:E; [|auto]. right. exists s.
  split; [reflexivity|]. apply wf_raise_interrupt, E.
Qed.

Lemma wf_interp_reset s : wf_hart s -> wf_hart (interp_reset s).
Proof.
  unfold interp_reset. intros H. apply wf_clear_vregs in H. revert H.
  generalize (clear_most_recently_written_vregs s). wf_tac.
Qed.

Lemma wf_loop_entry n st : wf_hart (cpu st) -> wf_hart (cpu (loop_entry n st)).
Proof. intros H. apply wf_interp_reset in H. revert H. cbn. generalize (interp_reset (cpu st)). wf_tac. Qed.

Lemma interp_eq n st : n <> 0 ->
  riscv_cpu_interp64 n st =
    match take_interrupt (at_entry n st) with
    | (st1, inl true) =>
        Some ((modl (fun l => set_insn_counter_addend (u64 (insn_counter_addend l - 1)) l) ;;
               done_interp ;; the_end) st1)
    | (st1, _) =>
        let s := set_last_data_vaddr (u64 (-1)) (set_pending_exception (-1) (cpu st1)) in
        let l := set_code_to_pc_addend (pc s) (set_n_cycles (n + 1) (lc st1)) in
        match interp_loop (Z.to_nat (n + 1)) (mkSt s (mach st1) l) with
        | None => None
        | Some (st', e) => Some (leave e st')
        end
    end.
Proof.
  intros Hn. unfold riscv_cpu_interp64. cbv zeta. destruct (Z.eqb_spec n 0); [contradiction|].
  reflexivity.
Qed.

(** The three ways through the function: nothing to do, an interrupt before the
    loop, or the loop. *)
Lemma interp_cases n st : 0 <= n ->
  n = 0 /\ riscv_cpu_interp64 n st =
    Some (mkSt (interp_reset (cpu st)) (mach st) (mkLocals (insn_counter (cpu st)) 0 n 0 0 0 0), inl 0) \/
  0 < n /\ (exists s, (wf_hart (cpu st) -> wf_hart s) /\
    take_interrupt (at_entry n st) = (with_cpu s (at_entry n st), inl true) /\
    riscv_cpu_interp64 n st =
      Some (the_end (mkSt s (mach st)
        (set_n_cycles (n - 1) (set_insn_counter_addend
           (u64 (insn_counter_addend (lc (at_entry n st)) - 1)) (lc (at_entry n st))))))) \/
  0 < n /\ take_interrupt (at_entry n st) = (at_entry n st, inl false) /\
  exists st' e k, interp_loop (Z.to_nat (n + 1)) (loop_entry n st) = Some (st', e) /\
    ran k (loop_entry n st) st' /\ (n_cycles (lc st') = 0 -> e = TheEnd) /\
    riscv_cpu_interp64 n st = Some (leave e st').
Proof.
  intros Hn. destruct (Z.eq_dec n 0) as [->|Hne]; [left; split; reflexivity|].
  right. rewrite (interp_eq n st Hne).
  destruct (take_interrupt_cases (at_entry n st)) as [E|(s & E & Hs)]; rewrite E.
  - right. split; [lia|]. split; [reflexivity|].
    destruct (interp_loop_ran (Z.to_nat (n + 1)) (loop_entry n st)) as (st' & e & k & H1 & H2 & H3);
      [cbn; lia|].
    exists st', e, k. split; [exact H1|]. split; [exact H2|]. split; [exact H3|].
    unfold loop_entry in H1. cbv zeta in *. cbn [cpu mach lc at_entry] in *. rewrite H1. reflexivity.
  - left. split; [lia|]. exists s. split; [|split; reflexivity].
    intros Hw. apply Hs, wf_interp_reset, Hw.
Qed.

Lemma wf_the_end st : wf_st st -> wf_st (fst (the_end st)).
Proof.
  intros [H1 H2]. destruct (the_end_spec st) as (s & r & -> & Hs & _). split; [exact (Hs H1)|exact H2].
Qed.

Lemma wf_leave e st : wf_st st -> wf_st (fst (leave e st)).
Proof.
  intros H.
  assert (Hexc : forall t, wf_st t -> wf_st (fst ((on_exception ;; done_interp ;; the_end) t))).
  { intros t [Ht1 Ht2]. destruct (on_exception_spec t) as (s & E & Hs). unfold bind at 1. rewrite E.
    unfold bind, done_interp, modl. apply wf_the_end. split; [exact (Hs Ht1)|exact Ht2]. }
  destruct e; cbn [leave]; try exact H; try (apply Hexc, H); try (apply wf_the_end, H).
  unfold bind at 1, modc. apply Hexc. destruct H as [H1 H2]. split; [revert H1; cbn; wf_tac|exact H2].
Qed.

End Whole.

(** ** Accounting *)

Section Accounting.
Context {Bus : DeviceBus} {Hooks : CsrHooks}.

(** How the loop is left; [None] when it is not entered. *)
Definition interp_exit (n : Z) (st : St) : option (St * stop) :=
  if n =? 0 then None
  else match take_interrupt (at_entry n st) with
       | (_, inl true) => None
       | _ => interp_loop (Z.to_nat (n + 1)) (loop_entry n st)
       end.

(** Leaving through [the_end] with budget left (an interrupt found while
    fetching) counts the instruction that was not executed. *)
Definition late (stl : St) (e : stop) : Z :=
  match e with TheEnd => if n_cycles (lc stl) =? 0 then 0 else 1 | _ => 0 end.

Lemma i32_counter_delta c d : 0 <= d < 2 ^ 31 -> i32 (u64 (c + d) - c) = d.
Proof.
  intros Hd. unfold sN. replace ((u64 (c + d) - c) mod 2 ^ 32) with d.
  - destruct (Z.ltb_spec d (2 ^ (32 - 1))); [reflexivity|]. change (2 ^ (32 - 1)) with (2 ^ 31) in *. lia.
  - unfold uN. rewrite (Z.mod_eq (c + d) (2 ^ 64)) by lia.
    replace (c + d - 2 ^ 64 * ((c + d) / 2 ^ 64) - c)
      with (d + (- (2 ^ 32 * ((c + d) / 2 ^ 64))) * 2 ^ 32)
      by (change (2 ^ 64) with (2 ^ 32 * 2 ^ 32); ring).
    rewrite Z.mod_add by lia. symmetry. apply Z.mod_small. lia.
Qed.

Lemma the_end_counts st c d :
  u64 (insn_counter_addend (lc st) - n_cycles (lc st)) = u64 (c + d) ->
  insn_counter_start (lc st) = c -> 0 <= d < 2 ^ 31 ->
  exists s, the_end st = (mkSt s (mach st) (lc st), inl (insn_executed (lc st))) /\
    insn_counter s = u64 (c + d).
Proof.
  intros Hc Hs Hd. destruct (the_end_spec st) as (s & r & E & _ & Hi & Hr). rewrite Hc in Hi, Hr.
  rewrite Hs, i32_counter_delta in Hr by lia. destruct Hr as [->|[_ Hr]]; [|lia]. eauto.
Qed.

Lemma u64_sub_l x y : u64 (u64 x - y) = u64 (x - y).
Proof. unfold uN. apply Zminus_mod_idemp_l. Qed.

(** The tail of an exception. *)
Lemma exception_counts st c k :
  insn_counter_start (lc st) = c -> 1 <= k < 2 ^ 31 -> insn_executed (lc st) = k ->
  u64 (insn_counter_addend (lc st) - (n_cycles (lc st) - 1)) = u64 (c + k) ->
  exists st' m, (on_exception ;; done_interp ;; the_end) st = (st', inl m) /\ k - 1 <= m <= k /\
    insn_counter (cpu st') = u64 (c + m).
Proof.
  intros Hc Hk He Ha. destruct (on_exception_spec st) as (s & E & _). unfold bind at 1. rewrite E.
  unfold bind, done_interp, modl. set (m := k - unretired (pending_exception (cpu st))).
  assert (Hm : k - 1 <= m <= k) by (unfold m, unretired; destruct (_ && _); lia).
  match goal with |- context [the_end ?t] => destruct (the_end_counts t c m) as (s' & E' & Hi) end.
  - unfold m, unretired. destruct (_ && _); cbn.
    + replace (c + (k - 1)) with (c + k - 1) by lia.
      rewrite u64_sub_l, <- (u64_sub_l (c + k)), <- Ha, u64_sub_l. f_equal. lia.
    + rewrite Z.sub_0_r. exact Ha.
  - destruct (_ =? 1); exact Hc.
  - lia.
  - rewrite E'. eexists (mkSt s' _ _), m. split; [|split; [exact Hm|exact Hi]].
    f_equal. f_equal. cbn. unfold m, unretired. destruct (_ && _); cbn; lia.
Qed.

(** The tail of every label but the exhausted budget, [k] instructions begun. *)
Lemma leave_counts e st c k :
  insn_counter_start (lc st) = c -> 1 <= k < 2 ^ 31 -> insn_executed (lc st) = k ->
  u64 (insn_counter_addend (lc st) - (n_cycles (lc st) - 1)) = u64 (c + k) ->
  n_cycles (lc st) <> 0 ->
  exists st' r, leave e st = (st', r) /\
    match e with
    | AssertFail | Undefined | JumpInsn _ => r = inr e
    | ReturnNow => r = inl k
    | _ => exists m, r = inl m /\ k - 1 <= m <= k /\ insn_counter (cpu st') = u64 (c + m - late st e)
    end.
Proof.
  intros Hc Hk He Ha Hz.
  assert (Hexc : forall t, lc t = lc st -> exists st' m,
    (on_exception ;; done_interp ;; the_end) t = (st', inl m) /\ k - 1 <= m <= k /\
    insn_counter (cpu st') = u64 (c + m)).
  { intros t Ht. apply exception_counts; rewrite ?Ht; assumption. }
  destruct e; cbn [leave late]; try (eexists _, _; split; [reflexivity|]; cbn; congruence).
  - destruct (Hexc (with_cpu (set_pending_tval 0 (set_pending_exception CAUSE_ILLEGAL_INSTRUCTION (cpu st))) st)
      eq_refl) as (st' & m & E & Hm & Hi).
    exists st', (inl m). split; [exact E|]. exists m. rewrite Z.sub_0_r. auto.
  - destruct (Hexc st eq_refl) as (st' & m & E & Hm & Hi).
    exists st', (inl m). split; [exact E|]. exists m. rewrite Z.sub_0_r. auto.
  - destruct (Hexc st eq_refl) as (st' & m & E & Hm & Hi).
    exists st', (inl m). split; [exact E|]. exists m. rewrite Z.sub_0_r. auto.
  - unfold bind, done_interp, modl.
    match goal with |- context [the_end ?t] => destruct (the_end_counts t c k) as (s' & -> & Hi) end;
      [exact Ha|exact Hc|lia|].
    eexists _, _. split; [reflexivity|]. exists k. rewrite Z.sub_0_r. split; [cbn; congruence|].
    split; [lia|exact Hi].
  - destruct (the_end_counts st c (k - 1)) as (s' & -> & Hi); [|exact Hc|lia|].
    + replace (c + (k - 1)) with (c + k - 1) by lia.
      rewrite <- (u64_sub_l (c + k)), <- Ha, u64_sub_l. f_equal. lia.
    + eexists _, _. split; [reflexivity|]. exists k. split; [congruence|]. split; [lia|].
      destruct (Z.eqb_spec (n_cycles (lc st)) 0); [contradiction|]. rewrite <- Z.add_sub_assoc. exact Hi.
Qed.

End Accounting.

(** ** Theorems *)

Section Theorems.
Context (Bus : DeviceBus) (Hooks : CsrHooks).

(** C4. The interpreter terminates: called with a cycle budget it always
    returns or stops at a failed assertion or an undefined access, and never
    runs past the budget. *)
Theorem interp_terminates n st : 0 <= n -> exists st' r, riscv_cpu_interp64 n st = Some (st', r).
Proof.
  intros Hn. destruct (interp_cases n st Hn) as [[_ H]|[(_ & s & _ & _ & H)|(_ & _ & st' & e & k & _ & _ & _ & H)]];
    rewrite H; try (eexists _, _; reflexivity).
  - destruct (the_end _) as [a b]. eauto.
  - destruct (leave e st') as [a b]. eauto.
Qed.

Lemma interp_wf n st :
  WfBus Bus -> WfHooks Hooks -> 0 <= n -> wf_st st ->
  exists st' r, riscv_cpu_interp64 n st = Some (st', r) /\ wf_st st'.
Proof.
  intros Hb Hk Hn [Hw Hm].
  destruct (interp_cases n st Hn) as [[_ H]|[(_ & s & Hs & _ & H)|(_ & _ & st' & e & k & _ & Hr & _ & H)]];
    rewrite H.
  - eexists _, _. split; [reflexivity|]. split; [apply wf_interp_reset, Hw|exact Hm].
  - match goal with |- context [the_end ?t] => pose proof (wf_the_end t) as Ht; destruct (the_end t) as [t' r] end.
    eexists _, _. split; [reflexivity|]. apply Ht. split; [apply Hs, Hw|exact Hm].
  - pose proof (wf_leave e st') as Hl. destruct (leave e st') as [st2 r].
    eexists _, _. split; [reflexivity|]. apply Hl, (ran_wf _ _ _ Hr); auto.
    split; [apply wf_loop_entry, Hw|exact Hm].
Qed.

(** C1. Whatever the instructions, the memory contents and the page tables, a
    call of the interpreter on a well-formed hart of a machine of well-formed
    harts ends, and leaves every hart well formed. *)
Theorem interp_preserves_wf n st :
  WfBus Bus -> WfHooks Hooks -> 0 <= n -> wf_st st ->
  exists st' r, riscv_cpu_interp64 n st = Some (st', r) /\ wf_st st'.
Proof. apply interp_wf. Qed.


(** ** Reachable harts *)

(** The states of a machine, one of whose harts is running, after creation and
    any sequence of interpreter calls, changes of the running hart, of memory
    and devices, and of the host-side operations on the running hart. *)
Definition fresh (s : RISCVCPUState) : Prop :=
  exists rv ce ci h, s = riscv_cpu_init rv ce ci h.

Inductive reachable : St -> Prop :=
| R_init st : fresh (cpu st) -> Forall fresh (cpu_state (mach st)) -> reachable st
| R_run n st st' r : 0 <= n -> reachable st -> riscv_cpu_interp64 n st = Some (st', r) -> reachable st'
| R_switch h k st : reachable st -> reachable (focus k st (unfocus h st))
| R_machine m st : cpu_state m = cpu_state (mach st) -> reachable st -> reachable (with_mach m st)
| R_addr_len len st : reachable st -> reachable (with_cpu (set_physical_addr_len len (cpu st)) st)
| R_set_mip mask st : in_u 32 mask -> reachable st ->
    reachable (with_cpu (riscv_cpu_set_mip (mach st) mask (cpu st)) st)
| R_reset_mip mask st : reachable st -> reachable (with_cpu (riscv_cpu_reset_mip mask (cpu st)) st)
| R_set_pc v st : reachable st -> reachable (with_cpu (riscv_set_pc (cpu st) v) st)
| R_set_reg rn v st s' : in_u 64 v -> reachable st -> riscv_set_reg (cpu st) rn v = Some s' ->
    reachable (with_cpu s' st).

Lemma wf_fresh s : fresh s -> wf_hart s.
Proof. intros (rv & ce & ci & h & ->). apply riscv_cpu_init_wf_all. Qed.

Lemma reachable_wf st : WfBus Bus -> WfHooks Hooks -> reachable st -> wf_st st.
Proof.
  intros Hb Hk. induction 1 as [st Hf Hm|n st st' r Hn _ IH E|h k st _ [IH1 IH2]|m st Hm _ [IH1 IH2]
    |len st _ [IH1 IH2]|mask st Hm _ [IH1 IH2]|mask st _ [IH1 IH2]|v st _ [IH1 IH2]|rn v st s' Hv _ [IH1 IH2] E];
    cbn [fst snd] in *.
  - split; [apply wf_fresh, Hf|]. revert Hm. apply List.Forall_impl, wf_fresh.
  - destruct (interp_wf n st Hb Hk Hn IH) as (st2 & r2 & E2 & Hw). congruence.
  - assert (Ha : Forall wf_hart (aset (cpu_state (mach st)) h (cpu st))) by (apply Forall_aset; assumption).
    split; [|exact Ha]. cbn [fst cpu focus]. apply (Forall_aget wf_hart); [exact Ha|exact IH1].
  - split; [exact IH1|]. cbn. rewrite Hm. exact IH2.
  - split; [|exact IH2]. revert IH1. cbn. wf_tac.
  - split; [|exact IH2]. cbn. unfold riscv_cpu_set_mip. cbv zeta. case_goal; revert IH1; wf_tac.
  - split; [|exact IH2]. cbn. unfold riscv_cpu_reset_mip. revert IH1. wf_tac.
  - split; [|exact IH2]. apply wf_set_pc, IH1.
  - split; [|exact IH2]. unfold riscv_set_reg in E. destruct (_ && _) eqn:Er; [|discriminate].
    injection E as <-. bool_hyps. revert IH1. cbn.
    wf_tac; rewrite ?aset_length; try assumption. rewrite aget_aset_ne by lia. assumption.
Qed.

(** C2. In every reachable state the PMP check of an access of the running hart
    agrees with the meaning of its PMP registers, [x0] reads zero and the
    privilege level is one of the four encodable ones. *)
Theorem reachable_pmp_enforced (st : St) (paddr size perm : Z) :
  WfBus Bus -> WfHooks Hooks -> reachable st -> 0 <= physical_addr_len (cpu st) ->
  0 <= paddr -> 0 < size -> paddr + size <= 2 ^ 64 ->
  riscv_cpu_pmp_access_ok (cpu st) paddr size perm = pmp_allows (cpu st) paddr size perm /\
  riscv_get_reg (cpu st) 0 = Some 0 /\ 0 <= priv (cpu st) <= 3.
Proof.
  intros Hb Hk Hr Hl Hp Hs Hps. destruct (reachable_wf st Hb Hk Hr) as [[Hh _ _ _ Hpm _] _].
  destruct (Hpm (cpu st) eq_refl) as (_ & _ & Hu & _). split; [|split].
  - apply pmp_check_unpacked; assumption.
  - unfold riscv_get_reg. cbn [andb Z.leb Z.ltb Z.compare]. f_equal. apply Hh.
  - apply Hh.
Qed.

End Theorems.

(** ** A concrete machine

    One hart, no devices, and one page of RAM at [0x80000000] that holds
    [addi x1, x0, 5; add x1, x1, x1; ecall]. *)

Definition no_bus : DeviceBus := {|
  dev_read := fun _ _ _ cm => (cm, inl 0);
  dev_write := fun _ _ _ _ cm => (cm, inl tt)
|}.

Lemma no_bus_wf : WfBus no_bus.
Proof. split; auto. Qed.

Definition demo_code : list Z := le_bytes 4 0x00500093 ++ le_bytes 4 0x001080b3 ++ le_bytes 4 0x00000073.

Definition demo_memory : gmap Z Z :=
  list_to_map (zip (map (fun k => 0x1000 + Z.of_nat k) (seq 0 16)) (demo_code ++ repeat 0 4)).

Definition demo_range : PhysMemoryRange :=
  mkRange 0x80000000 0x1000 0x1000 true 0 0x1000 0 None [] 0 0 0.

Definition demo_hart : RISCVCPUState :=
  set_physical_addr_len 56 (riscv_cpu_init 0x80000000 false false 0).

Definition demo : St :=
  mkSt demo_hart (set_hmem demo_memory (set_mem_map [demo_range] zero_machine))
    (mkLocals 0 0 0 0 0 0 0).

(** Three instructions: the registers and the trap the third one takes. *)
Example demo_run :
  match @riscv_cpu_interp64 no_bus no_hooks 3 demo with
  | Some (st', inl count) =>
      (count, aget 0 (reg (cpu st')) 1, mcause (cpu st'), mepc (cpu st'), insn_counter (cpu st'))
  | _ => (0, 0, 0, 0, 0)
  end = (3, 10, 11, 0x80000008, 3).
Proof. vm_compute. reflexivity. Qed.

Lemma demo_reachable : @reachable no_bus no_hooks demo.
Proof.
  refine (R_addr_len _ _ 56 (mkSt (riscv_cpu_init 0x80000000 false false 0) (mach demo) (lc demo)) _).
  apply R_init; [exists 0x80000000, false, false, 0; reflexivity|constructor].
Qed.

Lemma demo_wf : wf_st demo.
Proof. exact (reachable_wf _ _ _ no_bus_wf no_hooks_wf demo_reachable). Qed.

Lemma interp_terminates_witness :
  0 <= 3 /\ exists st' r, @riscv_cpu_interp64 no_bus no_hooks 3 demo = Some (st', r).
Proof. split; [lia|]. apply (interp_terminates no_bus no_hooks 3 demo). lia. Defined.

Lemma interp_preserves_wf_witness : exists st' r,
  @riscv_cpu_interp64 no_bus no_hooks 3 demo = Some (st', r) /\ wf_st st'.
Proof.
  apply (interp_preserves_wf no_bus no_hooks 3 demo);
    [exact no_bus_wf|exact no_hooks_wf|lia|exact demo_wf].
Defined.


Lemma reachable_pmp_enforced_witness :
  riscv_cpu_pmp_access_ok (cpu demo) 0x80000000 4 PMPCFG_X = pmp_allows (cpu demo) 0x80000000 4 PMPCFG_X /\
  riscv_get_reg (cpu demo) 0 = Some 0 /\ 0 <= priv (cpu demo) <= 3.
Proof.
  apply (reachable_pmp_enforced no_bus no_hooks demo 0x80000000 4 PMPCFG_X);
    [exact no_bus_wf|exact no_hooks_wf|exact demo_reachable| | | |]; vm_compute; (reflexivity || discriminate).
Defined.
