(* ===== verification/Devices.v ===== *)
(** * The interrupt controllers

    The CLINT and the PLIC of [src/interrupts.cpp] as operations on the
    machine, and their place on the bus: the callbacks the memory system calls
    for the two device ranges, as an instance of [DeviceBus] over the bus of
    the remaining devices. *)

From S2P Require Import Prelude RiscvDefs State IoMem Tlb Pmp Mmu Csr Trap Alu HartInv Frame.
Open Scope Z_scope.
Open Scope c_scope.

(** ** Harts of the machine *)

(** [m->cpu_state[h]]; the entry of a hart that was not created is [NULL]. *)
Definition get_hart (m : RISCVMachine) (h : Z) : option RISCVCPUState :=
  if 0 <=? h then cpu_state m !! Z.to_nat h else None.

Definition put_hart (h : Z) (c : RISCVCPUState) (m : RISCVMachine) : RISCVMachine :=
  set_cpu_state (aset (cpu_state m) h c) m.

(** Update one hart; a [NULL] hart is a wild access. *)
Definition on_hart (h : Z) (f : RISCVCPUState -> RISCVCPUState) (m : RISCVMachine)
  : RISCVMachine * (unit + stop) :=
  match get_hart m h with
  | Some c => (put_hart h (f c) m, inl tt)
  | None => (m, inr Undefined)
  end.

(** Read a field of one hart. *)
Definition of_hart (m : RISCVMachine) (h : Z) (f : RISCVCPUState -> Z) : Z + stop :=
  match get_hart m h with Some c => inl (f c) | None => inr Undefined end.

(** ** CLINT *)

(** [rtc_get_time] of [src/misc.cpp] *)
Definition rtc_time (c : RISCVCPUState) : Z := mcycle c / RTC_FREQ_DIV.

(** The [switch (size_log2)] of both accessors. *)
Definition clint_mask (size_log2 val : Z) : Z :=
  if size_log2 =? 1 then val .& 0xffff else if size_log2 =? 2 then val .& 0xffffffff else val.

Definition clint_read (m : RISCVMachine) (offset size_log2 : Z) : Z + stop :=
  let val :=
    if offset <? 0x4000 then
      let hartid := offset >> 2 in
      if ncpus m <=? hartid then inl 0
      else of_hart m hartid (fun c => Z.b2z (mip c has MIP_MSIP))
    else if offset =? 0xbff8 then of_hart m 0 (fun c => u32 (rtc_time c))
    else if offset =? 0xbffc then of_hart m 0 (fun c => u32 (rtc_time c >> 32))
    else if offset <? 0xbff8 then
      let hartid := (offset - 0x4000) >> 3 in
      if ncpus m <=? hartid then inl 0
      else if nz ((offset >> 2) .& 1) then of_hart m hartid (fun c => u32 (timecmp c >> 32))
      else of_hart m hartid (fun c => u32 (timecmp c))
    else inl 0 in
  match val with inl v => inl (clint_mask size_log2 v) | inr e => inr e end.

(** The stores to one hart's [mtime] and [mtimecmp]. *)
Definition set_mtime_lo (val : Z) (c : RISCVCPUState) : RISCVCPUState :=
  set_mcycle (u64 (u64 ((rtc_time c .& 0xFFFFFFFF00000000) + val) * RTC_FREQ_DIV)) c.
Definition set_mtime_hi (val : Z) (c : RISCVCPUState) : RISCVCPUState :=
  set_mcycle (u64 (u64 ((rtc_time c .& 0xFFFFFFFF) + (val << 32)) * RTC_FREQ_DIV)) c.
(** [~0xffffffff] is an [unsigned int], that is zero. *)
Definition set_timecmp_lo (val : Z) (c : RISCVCPUState) : RISCVCPUState :=
  riscv_cpu_reset_mip MIP_MTIP (set_timecmp ((timecmp c .& u32 (Z.lnot 0xffffffff)) .| val) c).
Definition set_timecmp_hi (val : Z) (c : RISCVCPUState) : RISCVCPUState :=
  riscv_cpu_reset_mip MIP_MTIP (set_timecmp ((timecmp c .& 0xffffffff) .| (val << 32)) c).

Definition clint_write (m : RISCVMachine) (offset val size_log2 : Z) : RISCVMachine * (unit + stop) :=
  let val := clint_mask size_log2 val in
  if offset <? 0x4000 then
    let hartid := offset >> 2 in
    if ncpus m <=? hartid then (m, inl tt)
    else if nz (val .& 1) then on_hart hartid (riscv_cpu_set_mip m MIP_MSIP) m
    else on_hart hartid (riscv_cpu_reset_mip MIP_MSIP) m
  else if offset =? 0xbff8 then on_hart 0 (set_mtime_lo val) m
  else if offset =? 0xbffc then on_hart 0 (set_mtime_hi val) m
  else if offset <? 0xbff8 then
    let hartid := (offset - 0x4000) >> 3 in
    if ncpus m <=? hartid then (m, inl tt)
    else if nz ((offset >> 2) .& 1) then on_hart hartid (set_timecmp_hi val) m
    else on_hart hartid (set_timecmp_lo val) m
  else (m, inl tt).

(** ** PLIC *)

(** The sources that can be claimed. *)
Definition plic_mask (m : RISCVMachine) : Z := plic_pending_irq m .&~ plic_served_irq m.

(** One iteration of the loop over the contexts. *)
Definition plic_update_ctx (m : RISCVMachine) (ctx : Z) (c : RISCVCPUState) : RISCVCPUState :=
  let mip_mask := if ctx =? 0 then MIP_SEIP else MIP_MEIP in
  if nz (plic_mask m .& aget 0 (plic_enable_irq c) ctx)
  then riscv_cpu_set_mip m mip_mask c else riscv_cpu_reset_mip mip_mask c.

Definition plic_update_mip (m : RISCVMachine) (hartid : Z) : RISCVMachine * (unit + stop) :=
  on_hart hartid (fun c => plic_update_ctx m 1 (plic_update_ctx m 0 c)) m.

(** The address regions of the register file. *)
Definition plic_is_priority (offset : Z) : bool :=
  (PLIC_PRIORITY_BASE <=? offset) && (offset <? PLIC_PRIORITY_BASE + (PLIC_NUM_SOURCES << 2)).
Definition plic_is_pending (offset : Z) : bool :=
  (PLIC_PENDING_BASE <=? offset) && (offset <? PLIC_PENDING_BASE + (PLIC_NUM_SOURCES >> 3)).
Definition plic_is_enable (offset : Z) : bool :=
  (PLIC_ENABLE_BASE <=? offset) && (offset <? PLIC_ENABLE_BASE + PLIC_ENABLE_STRIDE * MAX_CPUS).
Definition plic_is_context (offset : Z) : bool :=
  (PLIC_CONTEXT_BASE <=? offset) && (offset <? PLIC_CONTEXT_BASE + PLIC_CONTEXT_STRIDE * MAX_CPUS).

(** Reading the claim register of a context. *)
Definition plic_claim (m : RISCVMachine) (hartid : Z) : RISCVMachine * (Z + stop) :=
  let mask := plic_mask m in
  if nz mask then
    match builtin_ctz 32 mask with
    | None => (m, inr Undefined)
    | Some i =>
        let m1 := set_plic_pending_irq (plic_pending_irq m .&~ (1 << i))
                    (set_plic_served_irq (plic_served_irq m .| (1 << i)) m) in
        let '(m2, r) := plic_update_mip m1 hartid in
        (m2, match r with inl _ => inl i | inr e => inr e end)
    end
  else (m, inl 0).

Definition plic_read (m : RISCVMachine) (offset size_log2 : Z) : RISCVMachine * (Z + stop) :=
  if negb (size_log2 =? 2) then (m, inr AssertFail)
  else if plic_is_priority offset then
    let irq := (offset - PLIC_PRIORITY_BASE) >> 2 in
    if irq <? PLIC_NUM_SOURCES then (m, inl (aget 0 (plic_priority m) irq)) else (m, inr AssertFail)
  else if plic_is_pending offset then
    (m, inl (if offset =? PLIC_PENDING_BASE then plic_pending_irq m else 0))
  else if plic_is_enable offset then
    let addrid := (offset - PLIC_ENABLE_BASE) / PLIC_ENABLE_STRIDE in
    let hartid := addrid / 2 in
    if hartid <? ncpus m
    then (m, of_hart m hartid (fun c => aget 0 (plic_enable_irq c) (addrid mod 2)))
    else (m, inl 0)
  else if plic_is_context offset then
    let hartid := (offset - PLIC_CONTEXT_BASE) / PLIC_CONTEXT_STRIDE in
    let wordid := (offset .& (PLIC_CONTEXT_STRIDE - 1)) >> 2 in
    if wordid =? 0 then (m, inl 0)
    else if wordid =? 1 then plic_claim m hartid
    else (m, inl 0)
  else (m, inl 0).

Definition plic_write (m : RISCVMachine) (offset val size_log2 : Z) : RISCVMachine * (unit + stop) :=
  if negb (size_log2 =? 2) then (m, inr AssertFail)
  else if plic_is_priority offset then
    let irq := (offset - PLIC_PRIORITY_BASE) >> 2 in
    if irq <? PLIC_NUM_SOURCES
    then (set_plic_priority (aset (plic_priority m) irq (val .& 7)) m, inl tt)
    else (m, inr AssertFail)
  else if plic_is_pending offset then (m, inl tt)
  else if plic_is_enable offset then
    let addrid := (offset - PLIC_ENABLE_BASE) / PLIC_ENABLE_STRIDE in
    let hartid := addrid / 2 in
    if hartid <? ncpus m
    then on_hart hartid (fun c => set_plic_enable_irq (aset (plic_enable_irq c) (addrid mod 2) val) c) m
    else (m, inl tt)
  else if plic_is_context offset then
    let wordid := (offset .& (PLIC_CONTEXT_STRIDE - 1)) >> 2 in
    if wordid =? 0 then (set_plic_priority (aset (plic_priority m) wordid val) m, inl tt)
    else if wordid =? 1 then
      (set_plic_served_irq (plic_served_irq m .&~ (1 << (val .& 31))) m, inl tt)
    else (m, inl tt)
  else (m, inl tt).

(** [for (int hartid = lo; hartid < lo + n; ++hartid) plic_update_mip(m, hartid);] *)
Fixpoint plic_update_harts (n : nat) (lo : Z) (m : RISCVMachine) : RISCVMachine * (unit + stop) :=
  match n with
  | O => (m, inl tt)
  | S n' =>
      match plic_update_mip m lo with
      | (m', inl _) => plic_update_harts n' (lo + 1) m'
      | r => r
      end
  end.

Definition plic_set_irq (m : RISCVMachine) (irq_num : Z) (state : bool) : RISCVMachine * (unit + stop) :=
  let mask := u32 (1 << irq_num) in
  let m := if state then set_plic_pending_irq (plic_pending_irq m .| mask) m
           else set_plic_pending_irq (plic_pending_irq m .&~ mask) m in
  plic_update_harts (Z.to_nat (ncpus m)) 0 m.

(** ** On the bus *)

(** The device identifiers of the two ranges. *)
Definition CLINT_DEV : Z := 1.
Definition PLIC_DEV : Z := 2.

(** A callback runs with the accessing hart back in its place in the machine. *)
Definition with_machine {A} (f : RISCVMachine -> RISCVMachine * (A + stop))
  (cm : RISCVCPUState * RISCVMachine) : (RISCVCPUState * RISCVMachine) * (A + stop) :=
  let '(c, m) := cm in
  let h := mhartid c in
  let '(m', r) := f (put_hart h c m) in
  (match get_hart m' h with Some c' => c' | None => c end, m', r).

(** The CLINT and the PLIC in front of the remaining devices. *)
Definition machine_bus (Rest : DeviceBus) : DeviceBus := {|
  dev_read := fun opaque offset size_log2 cm =>
    if opaque =? CLINT_DEV then with_machine (fun m => (m, clint_read m offset size_log2)) cm
    else if opaque =? PLIC_DEV then with_machine (fun m => plic_read m offset size_log2) cm
    else dev_read opaque offset size_log2 cm;
  dev_write := fun opaque offset val size_log2 cm =>
    if opaque =? CLINT_DEV then with_machine (fun m => clint_write m offset val size_log2) cm
    else if opaque =? PLIC_DEV then with_machine (fun m => plic_write m offset val size_log2) cm
    else dev_write opaque offset val size_log2 cm
|}.

(** ** Harts and updates *)

Lemma get_put_hart_eq m h c c' : get_hart m h = Some c -> get_hart (put_hart h c' m) h = Some c'.
Proof.
  unfold get_hart, put_hart, aset. cbn. destruct (0 <=? h); [|discriminate].
  intros H. apply lookup_lt_Some in H. apply list_lookup_insert_eq, H.
Qed.

Lemma get_put_hart_ne m h k c : h <> k -> get_hart (put_hart h c m) k =
  if 0 <=? h then get_hart m k else if k =? 0 then get_hart (put_hart h c m) 0 else get_hart m k.
Proof.
  intros Hne. unfold get_hart, put_hart, aset. cbn.
  destruct (Z.leb_spec 0 k), (Z.leb_spec 0 h), (Z.eqb_spec k 0); try reflexivity; try lia.
  - apply list_lookup_insert_ne. lia.
  - apply list_lookup_insert_ne. lia.
  - subst. reflexivity.
  - apply list_lookup_insert_ne. lia.
Qed.

Lemma on_hart_get h f m m' r k : on_hart h f m = (m', r) ->
  get_hart m' k = if k =? h then f <$> get_hart m k else get_hart m k.
Proof.
  unfold on_hart. destruct (get_hart m h) as [c|] eqn:E; intros H; injection H as <- <-.
  - destruct (Z.eqb_spec k h) as [->|Hne].
    + rewrite (get_put_hart_eq _ _ _ _ E), E. reflexivity.
    + assert (0 <= h) by (unfold get_hart in E; destruct (Z.leb_spec 0 h); [lia|discriminate]).
      rewrite get_put_hart_ne by congruence. destruct (Z.leb_spec 0 h); [reflexivity|lia].
  - destruct (Z.eqb_spec k h) as [->|]; [rewrite E; reflexivity|reflexivity].
Qed.

(** ** The devices keep the harts well formed *)

Definition harts_wf (m : RISCVMachine) : Prop := Forall wf_hart (cpu_state m).

Lemma get_hart_wf m k c : harts_wf m -> get_hart m k = Some c -> wf_hart c.
Proof.
  intros Hm. unfold get_hart. destruct (0 <=? k); [|discriminate]. apply Forall_lookup_1, Hm.
Qed.

Lemma wf_put_hart h c m : wf_hart c -> harts_wf m -> harts_wf (put_hart h c m).
Proof. intros Hc Hm. apply Forall_aset; assumption. Qed.

Lemma wf_on_hart h f m : (forall c, wf_hart c -> wf_hart (f c)) ->
  harts_wf m -> harts_wf (fst (on_hart h f m)).
Proof.
  intros Hf Hm. unfold on_hart. destruct (get_hart m h) as [c|] eqn:E; [|exact Hm].
  apply wf_put_hart; [|exact Hm]. apply Hf, (get_hart_wf _ _ _ Hm E).
Qed.

Lemma wf_set_mip m mask s : in_u 32 mask -> wf_hart s -> wf_hart (riscv_cpu_set_mip m mask s).
Proof. intros Hm H. unfold riscv_cpu_set_mip. cbv zeta. case_goal; revert H; wf_tac. Qed.

Lemma wf_reset_mip mask s : wf_hart s -> wf_hart (riscv_cpu_reset_mip mask s).
Proof. intros H. unfold riscv_cpu_reset_mip. revert H. wf_tac. Qed.
#[export] Hint Resolve wf_set_mip wf_reset_mip : wf.

Lemma wf_plic_ctx m ctx c : wf_hart c -> wf_hart (plic_update_ctx m ctx c).
Proof.
  intros H. unfold plic_update_ctx. cbv zeta. destruct (nz _); [|apply wf_reset_mip, H].
  apply wf_set_mip; [|exact H]. destruct (_ =? _); split; (reflexivity || discriminate).
Qed.

Lemma wf_update_mip m h : harts_wf m -> harts_wf (fst (plic_update_mip m h)).
Proof. apply wf_on_hart. intros c H. apply wf_plic_ctx, wf_plic_ctx, H. Qed.

Lemma wf_clint_write m off v sz : harts_wf m -> harts_wf (fst (clint_write m off v sz)).
Proof.
  intros H. unfold clint_write. cbv zeta. repeat case_goal; try exact H; apply wf_on_hart; try exact H;
    intros c Hc.
  - apply wf_set_mip; [split; (reflexivity || discriminate)|exact Hc].
  - apply wf_reset_mip, Hc.
  - revert Hc. unfold set_mtime_lo. wf_tac.
  - revert Hc. unfold set_mtime_hi. wf_tac.
  - apply wf_reset_mip. revert Hc. wf_tac.
  - apply wf_reset_mip. revert Hc. wf_tac.
Qed.

Lemma wf_plic_claim m h : harts_wf m -> harts_wf (fst (plic_claim m h)).
Proof.
  intros H. unfold plic_claim. cbv zeta. destruct (nz _); [|exact H].
  destruct (builtin_ctz _ _) as [i|]; [|exact H].
  match goal with |- context [plic_update_mip ?m1 h] =>
    pose proof (wf_update_mip m1 h H) as Hu; destruct (plic_update_mip m1 h) as [m2 r] end.
  exact Hu.
Qed.

Lemma wf_plic_read m off sz : harts_wf m -> harts_wf (fst (plic_read m off sz)).
Proof.
  intros H. unfold plic_read. cbv zeta.
  repeat match goal with |- context [if ?b then _ else _] => destruct b end;
    first [exact H | apply wf_plic_claim, H].
Qed.

Lemma wf_plic_write m off v sz : harts_wf m -> harts_wf (fst (plic_write m off v sz)).
Proof.
  intros H. unfold plic_write. cbv zeta. repeat case_goal; try exact H.
  apply wf_on_hart; [|exact H]. intros c. wf_tac.
Qed.

Lemma wf_with_machine {A} (f : RISCVMachine -> RISCVMachine * (A + stop)) cm :
  (forall m, harts_wf m -> harts_wf (fst (f m))) -> wf_cm cm -> wf_cm (fst (with_machine f cm)).
Proof.
  intros Hf. destruct cm as [c m]. intros [Hc Hm]. cbn [fst snd] in *. unfold with_machine.
  specialize (Hf _ (wf_put_hart (mhartid c) c m Hc Hm)). destruct (f _) as [m' r]. cbn [fst] in *.
  split; [|exact Hf]. destruct (get_hart m' (mhartid c)) as [c'|] eqn:E; [|exact Hc].
  exact (get_hart_wf _ _ _ Hf E).
Qed.

#[export] Instance machine_bus_wf (Rest : DeviceBus) : WfBus Rest -> WfBus (machine_bus Rest).
Proof.
  intros HR. split; intros; cbn [dev_read dev_write machine_bus].
  - destruct (opaque =? CLINT_DEV); [|destruct (opaque =? PLIC_DEV); [|apply wf_dev_read; assumption]];
      apply wf_with_machine; try assumption; intros m Hm; [exact Hm|apply wf_plic_read, Hm].
  - destruct (opaque =? CLINT_DEV); [|destruct (opaque =? PLIC_DEV); [|apply wf_dev_write; assumption]];
      apply wf_with_machine; try assumption; intros m Hm; [apply wf_clint_write, Hm|apply wf_plic_write, Hm].
Qed.

(** ** PLIC: claim and completion *)

(** What a claim does, when the hart it updates exists. *)
Lemma plic_claim_cases m h m' r : plic_claim m h = (m', r) ->
  in_u 32 (plic_pending_irq m) ->
  plic_mask m = 0 /\ m' = m /\ r = inl 0 \/
  exists i, 0 <= i < 32 /\ Z.testbit (plic_mask m) i = true /\
    (forall j, 0 <= j < i -> Z.testbit (plic_mask m) j = false) /\
    plic_pending_irq m' = plic_pending_irq m .&~ (1 << i) /\
    plic_served_irq m' = plic_served_irq m .| (1 << i) /\
    r = match get_hart m h with Some _ => inl i | None => inr Undefined end.
Proof.
  intros H Hp. unfold plic_claim in H. cbv zeta in H. unfold nz in H.
  destruct (Z.eqb_spec (plic_mask m) 0) as [Hz|Hz]; cbn [negb] in H.
  { left. injection H as <- <-. auto. }
  right. unfold builtin_ctz in H. destruct (find_up _ 32 0) as [i|] eqn:Ef.
  - apply find_up_some in Ef as (Hi & Hb & Hl). exists i.
    revert H. unfold plic_update_mip, on_hart.
    match goal with |- context [get_hart ?m1 h] => change (get_hart m1 h) with (get_hart m h) end.
    destruct (get_hart m h); intros H; injection H as <- <-; repeat split; auto; lia.
  - exfalso. apply Hz. pose proof (find_up_none _ _ _ Ef) as Hn. apply Z.bits_inj'. intros n Hn0.
    rewrite Z.bits_0. destruct (Z.ltb_spec n 32); [apply Hn; lia|].
    unfold plic_mask. rewrite Z.ldiff_spec. apply in_u_testbit in Hp as [_ Hp]; [|lia].
    rewrite Hp by lia. reflexivity.
Qed.

Lemma shl1_bit i j : 0 <= i -> Z.testbit (1 << i) j = (j =? i).
Proof.
  intros Hi. rewrite Z.shiftl_1_l. destruct (Z.eqb_spec j i) as [->|Hne].
  - apply Z.pow2_bits_true, Hi.
  - destruct (Z.ltb_spec j 0); [apply Z.testbit_neg_r; lia|]. apply Z.pow2_bits_false. lia.
Qed.


(** ** Sequences of accesses *)

Inductive plic_event :=
| EvRead (offset size_log2 : Z)
| EvWrite (offset val size_log2 : Z)
| EvSetIrq (irq_num : Z) (state : bool).

Definition plic_step (e : plic_event) (m : RISCVMachine) : RISCVMachine * option Z :=
  match e with
  | EvRead off sz => let '(m', r) := plic_read m off sz in (m', match r with inl v => Some v | inr _ => None end)
  | EvWrite off v sz => (fst (plic_write m off v sz), None)
  | EvSetIrq i b => (fst (plic_set_irq m i b), None)
  end.

(** The answers of a sequence of accesses. *)
Fixpoint plic_run (es : list plic_event) (m : RISCVMachine) : list (plic_event * option Z) :=
  match es with
  | [] => []
  | e :: es' => let '(m', r) := plic_step e m in (e, r) :: plic_run es' m'
  end.

Definition claim_word (offset : Z) : bool :=
  plic_is_context offset && ((offset .& (PLIC_CONTEXT_STRIDE - 1)) >> 2 =? 1).

(** A claim, and a completion of source [i]. *)
Definition is_claim (e : plic_event) : bool :=
  match e with EvRead off _ => claim_word off | _ => false end.
Definition is_complete (i : Z) (e : plic_event) : bool :=
  match e with EvWrite off v _ => claim_word off && (v .& 31 =? i) | _ => false end.

Lemma on_hart_plic h f m :
  plic_served_irq (fst (on_hart h f m)) = plic_served_irq m /\
  plic_pending_irq (fst (on_hart h f m)) = plic_pending_irq m.
Proof. unfold on_hart. destruct (get_hart m h); split; reflexivity. Qed.

Lemma update_harts_plic n : forall lo m,
  plic_served_irq (fst (plic_update_harts n lo m)) = plic_served_irq m /\
  plic_pending_irq (fst (plic_update_harts n lo m)) = plic_pending_irq m.
Proof.
  induction n as [|n IH]; intros lo m; [split; reflexivity|]. cbn [plic_update_harts].
  unfold plic_update_mip. pose proof (on_hart_plic lo (fun c => plic_update_ctx m 1 (plic_update_ctx m 0 c)) m) as [E1 E2].
  destruct (on_hart _ _ _) as [m1 [u|e]]; cbn [fst] in *; [|auto]. destruct (IH (lo + 1) m1). split; congruence.
Qed.

Lemma context_disjoint off : plic_is_context off = true ->
  plic_is_priority off = false /\ plic_is_pending off = false /\ plic_is_enable off = false.
Proof.
  unfold plic_is_context, plic_is_priority, plic_is_pending, plic_is_enable. intros H. bool_hyps.
  change (PLIC_PRIORITY_BASE + (PLIC_NUM_SOURCES << 2)) with 512.
  change (PLIC_PENDING_BASE + (PLIC_NUM_SOURCES >> 3)) with 4111.
  change (PLIC_ENABLE_BASE + PLIC_ENABLE_STRIDE * MAX_CPUS) with 9216.
  unfold PLIC_CONTEXT_BASE in *.
  repeat split; apply andb_false_iff; right; apply Z.ltb_ge; lia.
Qed.

(** Either the access is a claim, or the read changes nothing. *)
Lemma plic_read_cases m off sz :
  claim_word off = true /\ plic_read m off sz =
    (if sz =? 2 then plic_claim m ((off - PLIC_CONTEXT_BASE) / PLIC_CONTEXT_STRIDE) else (m, inr AssertFail)) \/
  claim_word off = false /\ fst (plic_read m off sz) = m.
Proof.
  unfold plic_read, claim_word. cbv zeta. destruct (plic_is_context off) eqn:Ec.
  - destruct (context_disjoint off Ec) as (-> & -> & ->). cbn [andb].
    destruct (Z.eqb_spec ((off .& (PLIC_CONTEXT_STRIDE - 1)) >> 2) 1) as [->|Hne].
    + left. split; [reflexivity|]. destruct (sz =? 2); reflexivity.
    + right. split; [reflexivity|]. destruct (sz =? 2), (_ =? 0); reflexivity.
  - right. split; [reflexivity|].
    repeat match goal with |- context [if ?b then _ else _] => destruct b end; reflexivity.
Qed.

Lemma plic_write_served m off v sz :
  plic_pending_irq (fst (plic_write m off v sz)) = plic_pending_irq m /\
  forall i, is_complete i (EvWrite off v sz) = false ->
    Z.testbit (plic_served_irq m) i = true -> Z.testbit (plic_served_irq (fst (plic_write m off v sz))) i = true.
Proof.
  unfold plic_write, is_complete, claim_word. cbv zeta.
  destruct (negb _); [auto|]. destruct (plic_is_priority off); [destruct (_ <? _); auto|].
  destruct (plic_is_pending off); [auto|]. destruct (plic_is_enable off).
  { destruct (_ <? _); [|auto]. match goal with |- context [on_hart ?h ?f m] => destruct (on_hart_plic h f m) as [E1 E2] end.
    rewrite E1, E2. auto. }
  destruct (plic_is_context off); [|auto]. cbn [andb].
  destruct (Z.eqb_spec ((off .& (PLIC_CONTEXT_STRIDE - 1)) >> 2) 0); [auto|].
  destruct (_ =? 1); [|auto]. cbn. split; [reflexivity|]. intros i Hc Hs.
  rewrite Z.ldiff_spec, shl1_bit, Hs by (apply Z.land_nonneg; right; lia).
  rewrite Z.eqb_sym, Hc. reflexivity.
Qed.

Lemma plic_step_served e m i : 0 < i -> in_u 32 (plic_pending_irq m) ->
  Z.testbit (plic_served_irq m) i = true -> is_complete i e = false ->
  let '(m', r) := plic_step e m in
  in_u 32 (plic_pending_irq m') /\ Z.testbit (plic_served_irq m') i = true /\
  (is_claim e = true -> r <> Some i).
Proof.
  intros Hi Hp Hs Hc. destruct e as [off sz|off v sz|irq b]; cbn [plic_step is_claim].
  - destruct (plic_read_cases m off sz) as [[Ec E]|[Ec E]].
    + rewrite E. destruct (sz =? 2); [|split; [exact Hp|]; split; [exact Hs|]; discriminate].
      destruct (plic_claim _ _) as [m' r] eqn:El.
      destruct (plic_claim_cases _ _ _ _ El Hp) as [(_ & -> & ->)|(k & Hk & Hb & _ & -> & -> & ->)].
      * split; [exact Hp|]. split; [exact Hs|]. intros _ E'. injection E' as E'. lia.
      * split; [apply in_u_ldiff, Hp|]. split; [rewrite Z.lor_spec, Hs; reflexivity|]. intros _.
        destruct (get_hart _ _); cbn; intros E'; [|discriminate]. injection E' as ->.
        unfold plic_mask in Hb. rewrite Z.ldiff_spec, Hs in Hb. cbn in Hb. rewrite andb_false_r in Hb. discriminate.
    + destruct (plic_read m off sz) as [m' r]. cbn [fst] in E. subst m'.
      split; [exact Hp|]. split; [exact Hs|]. congruence.
  - destruct (plic_write_served m off v sz) as [E1 E2]. rewrite E1. split; [exact Hp|]. split; [auto|discriminate].
  - unfold plic_set_irq. cbv zeta.
    match goal with |- context [plic_update_harts ?n 0 ?m1] => destruct (update_harts_plic n 0 m1) as [-> ->] end.
    split; [|split; [destruct b; exact Hs|discriminate]].
    destruct b; cbn; [apply in_u_lor; [exact Hp|apply u_range; lia]|apply in_u_ldiff, Hp].
Qed.

(** C23. A source that is being served is not handed out again: whatever accesses
    and line changes follow, no claim answers it until it has been completed. *)
Theorem plic_served_not_reclaimed (es : list plic_event) (m : RISCVMachine) (i : Z) :
  0 < i -> in_u 32 (plic_pending_irq m) -> Z.testbit (plic_served_irq m) i = true ->
  Forall (fun e => is_complete i e = false) es ->
  forall e r, In (e, r) (plic_run es m) -> is_claim e = true -> r <> Some i.
Proof.
  intros Hi Hp Hs Hf. revert m Hp Hs. induction Hf as [|e es He Hes IH]; intros m Hp Hs e' r Hin; [contradiction|].
  cbn [plic_run] in Hin. pose proof (plic_step_served e m i Hi Hp Hs He) as Hst.
  destruct (plic_step e m) as [m' r0]. destruct Hst as (Hp' & Hs' & Hr). destruct Hin as [Heq|Hin].
  - injection Heq as <- <-. exact Hr.
  - exact (IH m' Hp' Hs' e' r Hin).
Qed.

(** ** PLIC: the interrupt lines of the harts *)

Lemma set_mip_bit m mask (c : RISCVCPUState) n : mip (riscv_cpu_set_mip m mask c) = mip c .| mask /\
  plic_enable_irq (riscv_cpu_set_mip m mask c) = plic_enable_irq c /\
  Z.testbit (mip (riscv_cpu_set_mip m mask c)) n = Z.testbit (mip c) n || Z.testbit mask n.
Proof.
  assert (E : mip (riscv_cpu_set_mip m mask c) = mip c .| mask).
  { unfold riscv_cpu_set_mip. cbv zeta. case_goal; reflexivity. }
  rewrite E, Z.lor_spec. unfold riscv_cpu_set_mip. cbv zeta. case_goal; auto.
Qed.

Lemma plic_ctx_mip m ctx (c : RISCVCPUState) n : 0 <= n ->
  let b := if ctx =? 0 then 9 else 11 in
  plic_enable_irq (plic_update_ctx m ctx c) = plic_enable_irq c /\
  Z.testbit (mip (plic_update_ctx m ctx c)) n =
    if n =? b then nz (plic_mask m .& aget 0 (plic_enable_irq c) ctx) else Z.testbit (mip c) n.
Proof.
  intros Hn b. unfold plic_update_ctx. cbv zeta.
  assert (Hm : forall k, Z.testbit (if ctx =? 0 then MIP_SEIP else MIP_MEIP) k = (k =? b)).
  { intros k. subst b. destruct (ctx =? 0); apply shl1_bit; lia. }
  destruct (nz _).
  - destruct (set_mip_bit m (if ctx =? 0 then MIP_SEIP else MIP_MEIP) c n) as (_ & -> & ->).
    split; [reflexivity|]. rewrite Hm. destruct (n =? b); btauto.
  - split; [reflexivity|]. unfold riscv_cpu_reset_mip. cbn. rewrite Z.ldiff_spec, Hm.
    destruct (n =? b); cbn; btauto.
Qed.

Definition plic_update_hart (m : RISCVMachine) (c : RISCVCPUState) : RISCVCPUState :=
  plic_update_ctx m 1 (plic_update_ctx m 0 c).

Lemma update_harts_spec n : forall lo m, 0 <= lo ->
  (forall h, lo <= h < lo + Z.of_nat n -> get_hart m h <> None) ->
  exists m', plic_update_harts n lo m = (m', inl tt) /\ plic_mask m' = plic_mask m /\
    forall h, get_hart m' h =
      if (lo <=? h) && (h <? lo + Z.of_nat n) then plic_update_hart m <$> get_hart m h else get_hart m h.
Proof.
  induction n as [|n IH]; intros lo m Hlo Hex.
  - exists m. split; [reflexivity|]. split; [reflexivity|]. intros h.
    destruct (Z.leb_spec lo h), (Z.ltb_spec h (lo + Z.of_nat 0)); cbn [andb]; (reflexivity || lia).
  - cbn [plic_update_harts]. unfold plic_update_mip.
    destruct (on_hart lo _ m) as [m1 r] eqn:E. pose proof (fun k => on_hart_get _ _ _ _ _ k E) as Hg.
    unfold on_hart in E. destruct (get_hart m lo) as [c|] eqn:El; [|destruct (Hex lo); [lia|exact El]].
    apply pair_equal_spec in E as [E1 E2]. subst r.
    destruct (IH (lo + 1) m1) as (m' & -> & Hm & Hh); [lia| |].
    { intros h Hr. rewrite Hg. destruct (Z.eqb_spec h lo); [lia|]. apply Hex. lia. }
    exists m'. split; [reflexivity|]. split; [rewrite Hm, <- E1; reflexivity|]. intros h. rewrite Hh, Hg.
    assert (Hu : plic_update_hart m1 = plic_update_hart m) by (rewrite <- E1; reflexivity). rewrite Hu.
    destruct (Z.eqb_spec h lo) as [->|Hne].
    + destruct (Z.leb_spec (lo + 1) lo), (Z.leb_spec lo lo), (Z.ltb_spec lo (lo + Z.of_nat (S n)));
        cbn [andb]; (reflexivity || lia).
    + destruct (Z.leb_spec (lo + 1) h), (Z.leb_spec lo h), (Z.ltb_spec h (lo + 1 + Z.of_nat n)),
        (Z.ltb_spec h (lo + Z.of_nat (S n))); cbn [andb]; (reflexivity || lia).
Qed.

Lemma update_hart_mip m (c : RISCVCPUState) n : 0 <= n ->
  plic_enable_irq (plic_update_hart m c) = plic_enable_irq c /\
  Z.testbit (mip (plic_update_hart m c)) n =
    if n =? 9 then nz (plic_mask m .& aget 0 (plic_enable_irq c) 0)
    else if n =? 11 then nz (plic_mask m .& aget 0 (plic_enable_irq c) 1)
    else Z.testbit (mip c) n.
Proof.
  intros Hn. unfold plic_update_hart.
  destruct (plic_ctx_mip m 1 (plic_update_ctx m 0 c) n Hn) as [-> ->].
  destruct (plic_ctx_mip m 0 c n Hn) as [-> ->]. cbn [Z.eqb]. split; [reflexivity|].
  destruct (Z.eqb_spec n 11), (Z.eqb_spec n 9); (reflexivity || lia).
Qed.

(** Raising or lowering a source updates the pending set and the external
    interrupt lines of every hart: afterwards the supervisor (machine) line of
    each hart is asserted exactly when a source that is pending and not being
    served is enabled in its context 0 (context 1); no other interrupt bit and
    no enable register changes. *)
Theorem plic_set_irq_lines (m : RISCVMachine) (irq : Z) (state : bool) :
  0 <= irq < 32 -> ncpus m = Z.of_nat (length (cpu_state m)) ->
  exists m', plic_set_irq m irq state = (m', inl tt) /\
    (forall j, Z.testbit (plic_pending_irq m') j =
       if j =? irq then state else Z.testbit (plic_pending_irq m) j) /\
    plic_served_irq m' = plic_served_irq m /\
    forall h c, get_hart m h = Some c -> exists c', get_hart m' h = Some c' /\
      plic_enable_irq c' = plic_enable_irq c /\
      forall n, 0 <= n -> Z.testbit (mip c') n =
        if n =? 9 then nz (plic_mask m' .& aget 0 (plic_enable_irq c) 0)
        else if n =? 11 then nz (plic_mask m' .& aget 0 (plic_enable_irq c) 1)
        else Z.testbit (mip c) n.
Proof.
  intros Hi Hn. unfold plic_set_irq. cbv zeta.
  set (m1 := if state then set_plic_pending_irq _ m else set_plic_pending_irq _ m).
  assert (Hg : forall h, get_hart m1 h = get_hart m h) by (intros h; subst m1; destruct state; reflexivity).
  assert (Hc : ncpus m1 = ncpus m) by (subst m1; destruct state; reflexivity).
  assert (Hp : forall j, Z.testbit (plic_pending_irq m1) j = if j =? irq then state else Z.testbit (plic_pending_irq m) j).
  { intros j. subst m1. replace (u32 (1 << irq)) with (1 << irq).
    - destruct state; cbn; rewrite ?Z.lor_spec, ?Z.ldiff_spec, shl1_bit by lia; destruct (j =? irq); btauto.
    - symmetry. apply u_small. rewrite Z.shiftl_1_l. split; [lia|]. apply Z.pow_lt_mono_r; lia. }
  assert (Hs : plic_served_irq m1 = plic_served_irq m) by (subst m1; destruct state; reflexivity).
  destruct (update_harts_spec (Z.to_nat (ncpus m1)) 0 m1) as (m' & E & Hm & Hh); [lia| |].
  { intros h Hr. rewrite Hg. unfold get_hart. destruct (Z.leb_spec 0 h); [|lia].
    apply not_eq_None_Some, lookup_lt_is_Some. lia. }
  pose proof (update_harts_plic (Z.to_nat (ncpus m1)) 0 m1) as [E1 E2]. rewrite E in *. cbn [fst] in *.
  exists m'. split; [reflexivity|]. split; [rewrite E2; exact Hp|]. split; [congruence|].
  intros h c Hgc. exists (plic_update_hart m1 c). split; [|split].
  - rewrite Hh, Hg, Hgc. unfold get_hart in Hgc. destruct (Z.leb_spec 0 h); [|discriminate].
    apply lookup_lt_Some in Hgc. destruct (Z.ltb_spec h (0 + Z.of_nat (Z.to_nat (ncpus m1)))); [reflexivity|lia].
  - apply (update_hart_mip m1 c 0); lia.
  - intros n Hn0. rewrite Hm. apply update_hart_mip, Hn0.
Qed.

(** ** CLINT: timer compare and software interrupts *)

(** The decoding of the address of word [w] of hart [h]'s compare register. *)
Lemma timecmp_address h w : 0 <= h < 8 -> w = 0 \/ w = 1 ->
  let offset := 0x4000 + 8 * h + 4 * w in
  (offset <? 0x4000) = false /\ (offset =? 0xbff8) = false /\ (offset =? 0xbffc) = false /\
  (offset <? 0xbff8) = true /\ (offset - 0x4000) >> 3 = h /\ nz ((offset >> 2) .& 1) = (w =? 1).
Proof.
  intros Hh Hw. cbv zeta.
  assert (h = 0 \/ h = 1 \/ h = 2 \/ h = 3 \/ h = 4 \/ h = 5 \/ h = 6 \/ h = 7) as H8 by lia.
  destruct Hw as [-> | ->]; repeat (destruct H8 as [-> | H8]; [repeat split; reflexivity|]);
    subst; repeat split; reflexivity.
Qed.

Lemma clint_mask2 v : in_u 32 v -> clint_mask 2 v = v.
Proof.
  intros Hv. unfold clint_mask. cbn [Z.eqb Pos.eqb]. change 0xffffffff with (Z.ones 32).
  rewrite Z.land_ones by lia. apply Z.mod_small, Hv.
Qed.

Lemma clint_write_timecmp m h w val : 0 <= h < ncpus m -> ncpus m <= MAX_CPUS -> w = 0 \/ w = 1 ->
  in_u 32 val ->
  clint_write m (0x4000 + 8 * h + 4 * w) val 2 =
    on_hart h (if w =? 1 then set_timecmp_hi val else set_timecmp_lo val) m.
Proof.
  intros Hh Hn Hw Hv. unfold MAX_CPUS in Hn. destruct (timecmp_address h w) as (E1 & E2 & E3 & E4 & E5 & E6); [lia|exact Hw|].
  unfold clint_write. rewrite clint_mask2 by exact Hv. cbv zeta. rewrite E1, E2, E3, E4, E5, E6.
  destruct (Z.leb_spec (ncpus m) h); [lia|]. destruct (w =? 1); reflexivity.
Qed.

Lemma clint_read_timecmp m h w c : 0 <= h < ncpus m -> ncpus m <= MAX_CPUS -> w = 0 \/ w = 1 ->
  get_hart m h = Some c ->
  clint_read m (0x4000 + 8 * h + 4 * w) 2 = inl (u32 (timecmp c >> (32 * w))).
Proof.
  intros Hh Hn Hw Hc. unfold MAX_CPUS in Hn. destruct (timecmp_address h w) as (E1 & E2 & E3 & E4 & E5 & E6); [lia|exact Hw|].
  unfold clint_read, of_hart. rewrite E1, E2, E3, E4, E5, E6, Hc.
  destruct (Z.leb_spec (ncpus m) h); [lia|].
  destruct Hw as [-> | ->]; cbn [Z.eqb Pos.eqb]; rewrite clint_mask2 by (apply u_range; lia); [|reflexivity].
  rewrite Z.shiftr_0_r. reflexivity.
Qed.

Lemma land_low x : x .& 0xffffffff = u32 x.
Proof. change 0xffffffff with (Z.ones 32). apply Z.land_ones. lia. Qed.

(** Programming the timer: writing the low and then the high word of a
    hart's compare register installs the 64-bit value, which both words read
    back; it withdraws the pending timer interrupt of that hart and touches no
    other hart. *)
Theorem clint_timecmp_roundtrip (m : RISCVMachine) (h lo hi : Z) (c : RISCVCPUState) :
  0 <= h < ncpus m -> ncpus m <= MAX_CPUS -> get_hart m h = Some c -> in_u 32 lo -> in_u 32 hi ->
  exists m1 m2,
    clint_write m (0x4000 + 8 * h + 4 * 0) lo 2 = (m1, inl tt) /\
    clint_write m1 (0x4000 + 8 * h + 4 * 1) hi 2 = (m2, inl tt) /\
    clint_read m2 (0x4000 + 8 * h + 4 * 0) 2 = inl lo /\
    clint_read m2 (0x4000 + 8 * h + 4 * 1) 2 = inl hi /\
    (exists c', get_hart m2 h = Some c' /\ timecmp c' = hi * 2 ^ 32 + lo /\ mip c' = mip c .&~ MIP_MTIP) /\
    forall k, k <> h -> get_hart m2 k = get_hart m k.
Proof.
  intros Hh Hn Hc Hlo Hhi.
  rewrite clint_write_timecmp by auto. cbn [Z.eqb].
  destruct (on_hart h (set_timecmp_lo lo) m) as [m1 r1] eqn:E1.
  pose proof (fun k => on_hart_get _ _ _ _ _ k E1) as G1.
  unfold on_hart in E1. rewrite Hc in E1. apply pair_equal_spec in E1 as [E1 <-].
  assert (Hn1 : ncpus m1 = ncpus m) by (rewrite <- E1; reflexivity).
  exists m1. rewrite clint_write_timecmp by (rewrite ?Hn1; auto). cbn [Z.eqb Pos.eqb].
  destruct (on_hart h (set_timecmp_hi hi) m1) as [m2 r2] eqn:E2.
  pose proof (fun k => on_hart_get _ _ _ _ _ k E2) as G2.
  pose proof (G1 h) as G1h. rewrite Z.eqb_refl, Hc in G1h. cbn in G1h.
  unfold on_hart in E2. rewrite G1h in E2. apply pair_equal_spec in E2 as [E2 <-].
  assert (Hn2 : ncpus m2 = ncpus m) by (rewrite <- E2; exact Hn1).
  pose proof (G2 h) as G2h. rewrite Z.eqb_refl, G1h in G2h. cbn in G2h.
  set (c' := set_timecmp_hi hi (set_timecmp_lo lo c)) in *.
  assert (Ht : timecmp c' = hi * 2 ^ 32 + lo).
  { change (timecmp c') with ((((timecmp c .& u32 (Z.lnot 0xffffffff)) .| lo) .& 0xffffffff) .| (hi << 32)).
    change (u32 (Z.lnot 0xffffffff)) with 0. rewrite Z.land_0_r, Z.lor_0_l, land_low, u_small by exact Hlo.
    rewrite Z.lor_comm, Z.shiftl_mul_pow2 by lia. apply lor_low_high; [lia|exact Hlo]. }
  exists m2. split; [reflexivity|]. split; [reflexivity|].
  rewrite !(clint_read_timecmp m2 h _ c') by (rewrite ?Hn2; auto).
  rewrite Ht, Z.shiftr_0_r, Z.shiftr_div_pow2 by lia. change (32 * 1) with 32.
  split; [f_equal; unfold uN; rewrite Z.add_comm, Z.mod_add by lia; apply Z.mod_small, Hlo|].
  split; [|split].
  - f_equal. rewrite Z.div_add_l, (Z.div_small lo) by (lia || exact Hlo). rewrite Z.add_0_r. apply u_small, Hhi.
  - exists c'. split; [exact G2h|]. split; [exact Ht|].
    change (mip c') with ((mip c .&~ MIP_MTIP) .&~ MIP_MTIP). rewrite Z.ldiff_ldiff_l, Z.lor_diag. reflexivity.
  - intros k Hk. rewrite G2, G1. destruct (Z.eqb_spec k h); [contradiction|reflexivity].
Qed.

(** The software-interrupt register of a hart: a word write sets or clears
    the hart's machine software interrupt by its bit 0, the register reads that
    bit back, and no other bit and no other hart changes; a register of a hart
    that does not exist reads zero and ignores writes. *)
Theorem clint_msip_register (m : RISCVMachine) (h val : Z) :
  0 <= h < 0x1000 -> in_u 32 val -> ncpus m = Z.of_nat (length (cpu_state m)) ->
  exists m', clint_write m (4 * h) val 2 = (m', inl tt) /\
    if h <? ncpus m then
      clint_read m' (4 * h) 2 = inl (val .& 1) /\
      (exists c c', get_hart m h = Some c /\ get_hart m' h = Some c' /\
         forall n, 0 <= n -> Z.testbit (mip c') n = if n =? 3 then Z.testbit val 0 else Z.testbit (mip c) n) /\
      forall k, k <> h -> get_hart m' k = get_hart m k
    else m' = m /\ clint_read m' (4 * h) 2 = inl 0.
Proof.
  intros Hh Hv Hn. unfold clint_write, clint_read. rewrite clint_mask2 by exact Hv. cbv zeta.
  destruct (Z.ltb_spec (4 * h) 0x4000); [|lia].
  replace (4 * h >> 2) with h by (rewrite Z.shiftr_div_pow2 by lia; change (2 ^ 2) with 4; rewrite Z.mul_comm, Z.div_mul; lia).
  destruct (Z.leb_spec (ncpus m) h) as [Hge|Hlt].
  { exists m. destruct (Z.ltb_spec h (ncpus m)); [lia|]. destruct (Z.leb_spec (ncpus m) h); [auto|lia]. }
  destruct (get_hart m h) as [c|] eqn:Hc.
  2:{ unfold get_hart in Hc. destruct (Z.leb_spec 0 h); [|lia]. apply lookup_ge_None in Hc. lia. }
  assert (Hodd : val .& 1 = Z.b2z (Z.testbit val 0)).
  { change 1 with (Z.ones 1). rewrite Z.land_ones, Z.bit0_mod by lia. reflexivity. }
  set (f := if Z.testbit val 0 then riscv_cpu_set_mip m MIP_MSIP else riscv_cpu_reset_mip MIP_MSIP).
  assert (Hf : (if nz (val .& 1) then on_hart h (riscv_cpu_set_mip m MIP_MSIP) m
                else on_hart h (riscv_cpu_reset_mip MIP_MSIP) m) = on_hart h f m).
  { rewrite Hodd. subst f. destruct (Z.testbit val 0); reflexivity. }
  rewrite Hf. destruct (on_hart h f m) as [m' r] eqn:E. pose proof (fun k => on_hart_get _ _ _ _ _ k E) as G.
  unfold on_hart in E. rewrite Hc in E. apply pair_equal_spec in E as [E <-].
  assert (Hb : forall n, 0 <= n -> Z.testbit (mip (f c)) n = if n =? 3 then Z.testbit val 0 else Z.testbit (mip c) n).
  { intros n Hn0. subst f. destruct (Z.testbit val 0).
    - destruct (set_mip_bit m MIP_MSIP c n) as (_ & _ & ->). unfold MIP_MSIP. rewrite shl1_bit by lia.
      destruct (n =? 3); btauto.
    - unfold riscv_cpu_reset_mip. cbn. unfold MIP_MSIP. rewrite Z.ldiff_spec, shl1_bit by lia.
      destruct (n =? 3); btauto. }
  exists m'. split; [reflexivity|]. destruct (Z.ltb_spec h (ncpus m)); [|lia].
  replace (ncpus m') with (ncpus m) by (rewrite <- E; reflexivity).
  destruct (Z.leb_spec (ncpus m) h); [lia|].
  pose proof (G h) as Gh. rewrite Z.eqb_refl, Hc in Gh. cbn in Gh. split; [|split].
  - unfold of_hart. rewrite Gh. rewrite clint_mask2 by (apply in_u_b2z; lia). f_equal.
    rewrite Hodd. f_equal. change MIP_MSIP with (2 ^ 3). rewrite has_pow2, Hb by lia. reflexivity.
  - exists c, (f c). auto.
  - intros k Hk. rewrite G. destruct (Z.eqb_spec k h); [contradiction|reflexivity].
Qed.

(** Writing the low word alone clears the high word: the mask [~0xffffffff] has
    type [unsigned int]. *)
Remark timecmp_low_clears_high val (c : RISCVCPUState) : timecmp (set_timecmp_lo val c) = val.
Proof.
  change (timecmp (set_timecmp_lo val c)) with ((timecmp c .& u32 (Z.lnot 0xffffffff)) .| val).
  change (u32 (Z.lnot 0xffffffff)) with 0. rewrite Z.land_0_r. reflexivity.
Qed.

Lemma update_harts_mem n : forall k m, let m' := fst (plic_update_harts n k m) in
  mem_map m' = mem_map m /\ hmem m' = hmem m /\ ncpus m' = ncpus m /\ length (cpu_state m') = length (cpu_state m).
Proof.
  induction n as [|n IH]; intros k m; [cbn; auto|]. cbn [plic_update_harts]. unfold plic_update_mip, on_hart.
  destruct (get_hart m k) as [c|]; cbv zeta; [|cbn; auto].
  match goal with |- context [put_hart k ?c' m] => destruct (IH (k + 1) (put_hart k c' m)) as (-> & -> & -> & ->) end.
  repeat split. unfold put_hart, aset. cbn. apply length_insert.
Qed.

(** A line change touches the pending bit of its source and the harts only. *)
Lemma plic_set_irq_frame m irq b : ncpus m = Z.of_nat (length (cpu_state m)) -> 0 <= irq < 32 ->
  exists m', plic_set_irq m irq b = (m', inl tt) /\ mem_map m' = mem_map m /\ hmem m' = hmem m /\
    ncpus m' = Z.of_nat (length (cpu_state m')) /\ plic_served_irq m' = plic_served_irq m /\
    forall j, Z.testbit (plic_pending_irq m') j = if j =? irq then b else Z.testbit (plic_pending_irq m) j.
Proof.
  intros Hn Hi. unfold plic_set_irq. cbv zeta.
  set (m1 := if b then set_plic_pending_irq _ m else set_plic_pending_irq _ m).
  assert (K : mem_map m1 = mem_map m /\ hmem m1 = hmem m /\ ncpus m1 = ncpus m /\ cpu_state m1 = cpu_state m /\
    plic_served_irq m1 = plic_served_irq m) by (subst m1; destruct b; repeat split; reflexivity).
  destruct K as (K1 & K2 & K3 & K4 & K5).
  destruct (update_harts_spec (Z.to_nat (ncpus m1)) 0 m1) as (m' & E & _ & _); [lia| |].
  { intros h Hr. unfold get_hart. rewrite K4. destruct (Z.leb_spec 0 h); [|lia]. apply not_eq_None_Some, lookup_lt_is_Some. lia. }
  pose proof (update_harts_mem (Z.to_nat (ncpus m1)) 0 m1) as (E1 & E2 & E3 & E4).
  pose proof (update_harts_plic (Z.to_nat (ncpus m1)) 0 m1) as [S P]. rewrite E in *. cbn [fst] in *.
  exists m'. repeat (split; [congruence|]). intros j. rewrite P. subst m1.
  replace (u32 (1 << irq)) with (1 << irq)
    by (symmetry; apply u_small; rewrite Z.shiftl_1_l; split; [lia|apply Z.pow_lt_mono_r; lia]).
  destruct b; cbn; rewrite ?Z.lor_spec, ?Z.ldiff_spec, shl1_bit by lia; destruct (j =? irq); btauto.
Qed.

(** ** Witnesses: a machine with two harts *)

Definition two_harts : RISCVMachine :=
  set_plic_pending_irq 0x24 (set_plic_served_irq 0x4
  (set_ncpus 2 (set_cpu_state
    [set_plic_enable_irq [0x28; 0] (riscv_cpu_init 0x10000 false false 0);
     set_plic_enable_irq [0; 0x20] (riscv_cpu_init 0x10000 false false 1)] zero_machine))).


(** Source 2 is being served; raising it again and claiming twice hands out
    source 5 and then nothing. *)
Definition plic_accesses : list plic_event :=
  [EvSetIrq 2 true; EvRead 0x200004 2; EvSetIrq 2 true; EvRead 0x200004 2; EvWrite 0x200004 5 2].

Lemma plic_served_not_reclaimed_witness :
  map snd (plic_run plic_accesses two_harts) = [None; Some 5; None; Some 0; None] /\
  forall e r, In (e, r) (plic_run plic_accesses two_harts) -> is_claim e = true -> r <> Some 2.
Proof.
  split; [vm_compute; reflexivity|].
  apply (plic_served_not_reclaimed plic_accesses two_harts 2);
    [lia|split; [discriminate|reflexivity]|reflexivity|].
  repeat (constructor; [reflexivity|]). constructor.
Defined.

Lemma plic_set_irq_lines_witness :
  exists m', plic_set_irq two_harts 5 true = (m', inl tt) /\
    (forall j, Z.testbit (plic_pending_irq m') j =
       if j =? 5 then true else Z.testbit (plic_pending_irq two_harts) j) /\
    plic_served_irq m' = plic_served_irq two_harts /\
    forall h c, get_hart two_harts h = Some c -> exists c', get_hart m' h = Some c' /\
      plic_enable_irq c' = plic_enable_irq c /\
      forall n, 0 <= n -> Z.testbit (mip c') n =
        if n =? 9 then nz (plic_mask m' .& aget 0 (plic_enable_irq c) 0)
        else if n =? 11 then nz (plic_mask m' .& aget 0 (plic_enable_irq c) 1)
        else Z.testbit (mip c) n.
Proof. apply (plic_set_irq_lines two_harts 5 true); [lia|reflexivity]. Defined.

Lemma clint_timecmp_roundtrip_witness : exists m1 m2,
  clint_write two_harts (0x4000 + 8 * 1 + 4 * 0) 0x89abcdef 2 = (m1, inl tt) /\
  clint_write m1 (0x4000 + 8 * 1 + 4 * 1) 0x1234567 2 = (m2, inl tt) /\
  clint_read m2 (0x4000 + 8 * 1 + 4 * 0) 2 = inl 0x89abcdef /\
  clint_read m2 (0x4000 + 8 * 1 + 4 * 1) 2 = inl 0x1234567 /\
  (exists c', get_hart m2 1 = Some c' /\ timecmp c' = 0x1234567 * 2 ^ 32 + 0x89abcdef /\
     mip c' = mip (set_plic_enable_irq [0; 0x20] (riscv_cpu_init 0x10000 false false 1)) .&~ MIP_MTIP) /\
  forall k, k <> 1 -> get_hart m2 k = get_hart two_harts k.
Proof.
  apply (clint_timecmp_roundtrip two_harts 1 0x89abcdef 0x1234567
    (set_plic_enable_irq [0; 0x20] (riscv_cpu_init 0x10000 false false 1)));
    [split; [lia|reflexivity]|discriminate|reflexivity|split; [discriminate|reflexivity]|split; [discriminate|reflexivity]].
Defined.

Lemma clint_msip_register_witness :
  exists m', clint_write two_harts (4 * 1) 1 2 = (m', inl tt) /\
    if 1 <? ncpus two_harts then
      clint_read m' (4 * 1) 2 = inl (1 .& 1) /\
      (exists c c', get_hart two_harts 1 = Some c /\ get_hart m' 1 = Some c' /\
         forall n, 0 <= n -> Z.testbit (mip c') n = if n =? 3 then Z.testbit 1 0 else Z.testbit (mip c) n) /\
      forall k, k <> 1 -> get_hart m' k = get_hart two_harts k
    else m' = two_harts /\ clint_read m' (4 * 1) 2 = inl 0.
Proof. apply (clint_msip_register two_harts 1 1); [lia|split; [discriminate|reflexivity]|reflexivity]. Defined.
