(* ===== verification/Machine.v ===== *)
(** * Running the machine

    [virt_machine_get_sleep_duration] ([src/riscv_machine.cpp]),
    [virt_machine_run] ([src/majordomo_main.cpp]), [iterate_core] and the loop
    over the harts of [main] ([src/majordomo.cpp]): the code that hands each
    hart to the interpreter with a budget, raises its timer interrupt, watches
    the HTIF mailbox and stops the run.  The interactive shell, the execution
    log and simpoint files are output.

    A hart that runs is taken out of the machine and put back afterwards; the
    result is [None] when the interpreter runs out of fuel, which
    [iterate_core_wf] excludes. *)

From S2P Require Import Prelude RiscvDefs State IoMem Tlb Pmp Mmu Csr Trap Alu SoftFp Exec ExecFp Vector Stf Interp HartInv Frame InterpInv Devices.
Open Scope Z_scope.
Open Scope c_scope.
Open Scope m_scope.

Definition MAX_SLEEP_TIME := 10.
Definition RTC_FREQ := 1000000.

(** [rtc_get_time(m)] *)
Definition rtc_get_time (m : RISCVMachine) : Z + stop := of_hart m 0 rtc_time.

(** Raise the timer interrupt of a hart whose compare value has been reached;
    the answer is the time to sleep. *)
Definition virt_machine_get_sleep_duration (m : RISCVMachine) (hartid ms_delay : Z)
  : RISCVMachine * (Z + stop) :=
  match get_hart m hartid, rtc_get_time m with
  | Some s, inl now =>
      let '(s, ms_delay) :=
        if negb (mip s has MIP_MTIP) && (0 <? now) then
          let ms_delay1 := i64 (timecmp s - now) in
          if ms_delay1 <=? 0 then (riscv_cpu_set_mip m MIP_MTIP s, 0)
          else
            let ms_delay1 := ms_delay1 / (RTC_FREQ / 1000) in
            (s, if ms_delay1 <? ms_delay then ms_delay1 else ms_delay)
        else (s, ms_delay) in
      (put_hart hartid s m, inl (if power_down_flag s then ms_delay else 0))
  | _, _ => (m, inr Undefined)
  end.

Section WithEnv.
Context {Bus : DeviceBus} {Hooks : CsrHooks}.

(** Run [f] on hart [hartid], taken out of the machine for the time. *)
Definition in_hart {A} (hartid : Z) (f : M A) (m : RISCVMachine) : RISCVMachine * (A + stop) :=
  match get_hart m hartid with
  | None => (m, inr Undefined)
  | Some c =>
      let '(st, r) := f (mkSt c m (mkLocals 0 0 0 0 0 0 0)) in (put_hart hartid (cpu st) (mach st), r)
  end.

(** The mailbox check: [false] when the program has written a result. *)
Definition htif_poll : M bool :=
  let! st := gets id in
  let! going :=
    (if nz (htif_tohost_addr (mach st)) then
       let! r := riscv_phys_read 4 (htif_tohost_addr (mach st)) in
       match r with
       | Some tohost =>
           if nz (tohost .& 1) then
             when (negb (tohost =? 1)) (modc (set_benchmark_exit_code tohost)) ;; ret false
           else ret true
       | None => ret true
       end
     else ret true) in
  if (going : bool) then
    let! st := gets id in ret (negb (terminate_simulation (cpu st)) && (0 <? maxinsns (mach st)))
  else ret false.

(** [virt_machine_run]: keep going? *)
Definition virt_machine_run (m : RISCVMachine) (hartid n_cycles : Z)
  : option (RISCVMachine * (bool + stop)) :=
  match virt_machine_get_sleep_duration m hartid MAX_SLEEP_TIME with
  | (m, inr e) => Some (m, inr e)
  | (m, inl _) =>
      match get_hart m hartid with
      | None => Some (m, inr Undefined)
      | Some c =>
          match riscv_cpu_interp64 n_cycles (mkSt c m (mkLocals 0 0 0 0 0 0 0)) with
          | None => None
          | Some (st, inr e) => Some (put_hart hartid (cpu st) (mach st), inr e)
          | Some (st, inl _) =>
              let '(st, r) := htif_poll st in Some (put_hart hartid (cpu st) (mach st), r)
          end
      end
  end.

(** [(void)riscv_read_insn(cpu, &insn_raw, last_pc)] with [insn_raw = -1]. *)
Definition read_raw (last_pc : Z) : M Z := fun st =>
  match riscv_read_insn last_pc st with
  | (st', inr MmuException) => (st', inl (u32 (-1)))
  | r => r
  end.

Definition trigger_insn (last_pc : Z) : M unit := fun st =>
  let '(c, m, _) := stf_trace_trigger_insn (cpu st) last_pc (mach st) in (mkSt c m (lc st), inl tt).

(** The prologue of [iterate_core] on the hart: fetch the next instruction for
    the trace and update the instruction-number trigger. *)
Definition iterate_begin : M Z :=
  let! last_pc := getc (fun s => pc s) in
  let! insn_raw := read_raw last_pc in
  trigger_insn last_pc ;;
  ret insn_raw.

(** The number of cycles granted, and the bookkeeping of the log counter. *)
Definition grant_cycles (m : RISCVMachine) (n_cycles : Z) : RISCVMachine * Z :=
  let n_cycles := if stf_macro_tracing_active m || stf_insn_tracing_active m then 1 else n_cycles in
  if exe_trace m <? u32 n_cycles then (m, 1)
  else if interactive m then (m, 1)
  else (set_exe_trace (u64 (exe_trace m - n_cycles)) m, n_cycles).

(** Charge the cycles to the instruction budget. *)
Definition charge_budget (n_cycles : Z) (m : RISCVMachine) : RISCVMachine :=
  let m := set_num_executed (u64 (num_executed m + n_cycles)) m in
  set_maxinsns (if maxinsns m <? u64 n_cycles then 0 else maxinsns m - n_cycles) m.

(** [iterate_core]: (keep going?, cycles). *)
Definition iterate_core (m : RISCVMachine) (hartid n_cycles : Z)
  : option (RISCVMachine * (bool * Z + stop)) :=
  match get_hart m hartid with
  | None => Some (m, inr Undefined)
  | Some c0 =>
      match in_hart hartid iterate_begin m with
      | (m, inr e) => Some (m, inr e)
      | (m, inl insn_raw) =>
          let '(m, n_cycles) := grant_cycles m n_cycles in
          let m := charge_budget n_cycles m in
          if maxinsns m <=? 0 then Some (m, inl (false, 0))
          else
            match virt_machine_run m hartid n_cycles with
            | None => None
            | Some (m, inr e) => Some (m, inr e)
            | Some (m, inl keep_going) =>
                if (stf_macro_tracing_active m && negb (stf_is_start_opc m) && negb (stf_is_stop_opc m))
                   || stf_insn_tracing_active m then
                  match get_hart m hartid, get_hart m 0 with
                  | Some c, Some c00 =>
                      let '(c, m) := stf_trace_element (priv c0) (pc c0) insn_raw (pc c00) c m in
                      Some (put_hart hartid c m, inl (keep_going, n_cycles))
                  | _, _ => Some (m, inr Undefined)
                  end
                else Some (m, inl (keep_going, n_cycles))
            end
      end
  end.

(** [for (int i = 0; i < m->ncpus; ++i) ... iterate_core(m, i, n_cycles_request)]:
    the disjunction of the answers and the cycles spent. *)
Fixpoint iterate_harts (n : nat) (hartid n_cycles : Z) (keep_going : bool) (actual : Z) (m : RISCVMachine)
  : option (RISCVMachine * (bool * Z + stop)) :=
  match n with
  | O => Some (m, inl (keep_going, actual))
  | S n' =>
      match iterate_core m hartid n_cycles with
      | Some (m, inl (k, a)) => iterate_harts n' (hartid + 1) n_cycles (keep_going || k) (actual + a) m
      | r => r
      end
  end.

(** One turn of the [do] loop of [main] in a run that collects no basic-block
    vectors ([simpoint_en_bbv] off); the flag says whether the loop goes on. *)
Definition machine_round (n_cycles_request : Z) (m : RISCVMachine)
  : option (RISCVMachine * (bool + stop)) :=
  match iterate_harts (Z.to_nat (ncpus m)) 0 n_cycles_request false 0 m with
  | None => None
  | Some (m, inr e) => Some (m, inr e)
  | Some (m, inl (keep_going, _)) => Some (m, inl (keep_going && negb (stf_has_exit_pending m)))
  end.

End WithEnv.

(** ** The machine keeps its harts well formed *)

Section Invariant.
Context {Bus : DeviceBus} {Hooks : CsrHooks} {HB : WfBus Bus} {HH : WfHooks Hooks}.

Lemma wf_sleep m h d : harts_wf m -> harts_wf (fst (virt_machine_get_sleep_duration m h d)).
Proof.
  intros Hm. unfold virt_machine_get_sleep_duration. destruct (get_hart m h) as [s|] eqn:E; [|exact Hm].
  destruct (rtc_get_time m) as [now|]; [|exact Hm].
  pose proof (get_hart_wf _ _ _ Hm E) as Hs.
  destruct (_ && _); [destruct (_ <=? 0)|]; cbn [fst]; apply wf_put_hart; try assumption.
  apply wf_set_mip; [split; (reflexivity || discriminate)|exact Hs].
Qed.

Lemma wf_start m h c l : harts_wf m -> get_hart m h = Some c -> wf_st (mkSt c m l).
Proof. intros Hm E. split; [exact (get_hart_wf _ _ _ Hm E)|exact Hm]. Qed.

Lemma wf_finish h st : wf_st st -> harts_wf (put_hart h (cpu st) (mach st)).
Proof. intros [H1 H2]. apply wf_put_hart; assumption. Qed.

Lemma wf_in_hart {A} h (f : M A) m : (forall st, wf_st st -> wf_st (fst (f st))) ->
  harts_wf m -> harts_wf (fst (in_hart h f m)).
Proof.
  intros Hf Hm. unfold in_hart. destruct (get_hart m h) as [c|] eqn:E; [|exact Hm].
  specialize (Hf _ (wf_start m h c (mkLocals 0 0 0 0 0 0 0) Hm E)).
  destruct (f _) as [st r]. apply wf_finish, Hf.
Qed.

Lemma wf_htif_poll st : wf_st st -> wf_st (fst (htif_poll st)).
Proof.
  assert (Hk : @keeps Bus Hooks _ htif_poll).
  { unfold htif_poll. keeps_tac. apply keeps_phys_read. }
  intros H. apply (Hk st); assumption.
Qed.

Lemma stf_element_wf p l i p0 s m :
  wf_hart s -> wf_hart (fst (stf_trace_element p l i p0 s m)) /\
  cpu_state (snd (stf_trace_element p l i p0 s m)) = cpu_state m.
Proof.
  intros H. unfold stf_trace_element, stf_emit_memory_records, stf_emit_register_records.
  repeat case_goal; cbn; split; try reflexivity; revert H; wf_tac.
Qed.

Lemma trigger_insn_wf s p m : wf_cm (s, m) -> wf_cm (fst (stf_trace_trigger_insn s p m)).
Proof.
  intros H. unfold stf_trace_trigger_insn. destruct (_ || _); [exact H|].
  match goal with |- context [stf_stop ?s ?m] => pose proof (wf_stf_stop s m) as Hs; destruct (stf_stop s m) as [s' m'] end.
  destruct (_ && _); [|destruct (_ && _)]; cbn; [|apply Hs, H|exact H].
  destruct H as [H1 H2]. split; [exact H1|]. cbn [snd]. rewrite stf_open_harts. exact H2.
Qed.

(** Operations that keep the invariant compose. *)
Lemma wf_bind {A B} (f : M A) (k : A -> M B) :
  (forall st, wf_st st -> wf_st (fst (f st))) -> (forall a st, wf_st st -> wf_st (fst (k a st))) ->
  forall st, wf_st st -> wf_st (fst (bind f k st)).
Proof.
  intros Hf Hk st H. unfold bind. specialize (Hf st H). destruct (f st) as [st1 [a|e]]; [apply Hk, Hf|exact Hf].
Qed.

Lemma wf_read_raw p st : wf_st st -> wf_st (fst (read_raw p st)).
Proof.
  intros H. unfold read_raw, riscv_read_insn.
  pose proof (keeps_read_insn_slow (Bus := Bus) (Hooks := Hooks) 32 p st) as [_ _ Hf].
  specialize (Hf HB HH H). destruct (target_read_insn_slow 32 p st) as [st1 r]. destruct Hf as [F1 F2].
  assert (H1 : wf_st (with_cpu (set_pending_tval (pending_tval (cpu st))
     (set_pending_exception (pending_exception (cpu st)) (cpu st1))) st1))
    by (split; [revert F1; cbn; wf_tac|exact F2]).
  destruct r as [v|[]]; exact H1.
Qed.

Lemma wf_trigger_insn p st : wf_st st -> wf_st (fst (trigger_insn p st)).
Proof.
  intros H. unfold trigger_insn. pose proof (trigger_insn_wf (cpu st) p (mach st) H) as Hw.
  destruct (stf_trace_trigger_insn _ _ _) as [[c m] b]. exact Hw.
Qed.

Lemma wf_iterate_begin st : wf_st st -> wf_st (fst (iterate_begin st)).
Proof.
  unfold iterate_begin. apply wf_bind; [auto|]. intros p. apply wf_bind; [apply wf_read_raw|].
  intros v. apply wf_bind; [apply wf_trigger_insn|]. auto.
Qed.

Lemma virt_machine_run_wf m h n : 0 <= n -> harts_wf m ->
  exists m' r, virt_machine_run m h n = Some (m', r) /\ harts_wf m'.
Proof.
  intros Hn Hm. unfold virt_machine_run. pose proof (wf_sleep m h MAX_SLEEP_TIME Hm) as H1.
  destruct (virt_machine_get_sleep_duration m h MAX_SLEEP_TIME) as [m1 [d|e]]; cbn [fst] in H1; [|eauto].
  destruct (get_hart m1 h) as [c|] eqn:E; [|eauto].
  destruct (interp_wf Bus Hooks n (mkSt c m1 (mkLocals 0 0 0 0 0 0 0)) HB HH Hn (wf_start _ _ _ _ H1 E))
    as (st & r & -> & Hw).
  destruct r as [k|e].
  - pose proof (wf_htif_poll st Hw) as Hp. destruct (htif_poll st) as [st2 r2].
    eexists _, _. split; [reflexivity|]. apply wf_finish, Hp.
  - eexists _, _. split; [reflexivity|]. apply wf_finish, Hw.
Qed.

Lemma grant_cycles_spec m n m' n' : grant_cycles m n = (m', n') ->
  cpu_state m' = cpu_state m /\ (n' = 1 \/ n' = n).
Proof.
  unfold grant_cycles. cbv zeta. intros H.
  destruct (_ || _); [|destruct (exe_trace m <? u32 n)];
    repeat case_in H; injection H as <- <-; auto.
Qed.

Lemma iterate_core_wf m h n : 0 <= n -> harts_wf m ->
  exists m' r, iterate_core m h n = Some (m', r) /\ harts_wf m'.
Proof.
  intros Hn Hm. unfold iterate_core. destruct (get_hart m h) as [c0|]; [|eauto].
  pose proof (wf_in_hart h iterate_begin m wf_iterate_begin Hm) as H1.
  destruct (in_hart h iterate_begin m) as [m1 [i|e]]; cbn [fst] in H1; [|eauto].
  destruct (grant_cycles m1 n) as [m2 n2] eqn:Eg. apply grant_cycles_spec in Eg as [Eg Hn2].
  assert (H2 : harts_wf (charge_budget n2 m2)) by (unfold harts_wf; cbn; rewrite Eg; exact H1).
  destruct (_ <=? 0); [eauto|].
  destruct (virt_machine_run_wf (charge_budget n2 m2) h n2) as (m3 & r & -> & H3); [lia|exact H2|].
  destruct r as [k|e]; [|eauto]. destruct (_ || _); [|eauto].
  destruct (get_hart m3 h) as [c|] eqn:E3; [|eauto]. destruct (get_hart m3 0) as [c00|]; [|eauto].
  match goal with |- context [stf_trace_element ?p ?l ?i ?q c m3] =>
    destruct (stf_element_wf p l i q c m3 (get_hart_wf _ _ _ H3 E3)) as [W1 W2];
    destruct (stf_trace_element p l i q c m3) as [c' m4] end.
  eexists _, _. split; [reflexivity|]. apply wf_put_hart; [exact W1|]. unfold harts_wf. cbn in W2. rewrite W2. exact H3.
Qed.

Lemma iterate_harts_wf n : 0 <= n -> forall k h go a m, harts_wf m ->
  exists m' r, iterate_harts k h n go a m = Some (m', r) /\ harts_wf m'.
Proof.
  intros Hn. induction k as [|k IH]; intros h go a m Hm; cbn [iterate_harts]; [eauto|].
  destruct (iterate_core_wf m h n Hn Hm) as (m1 & r & -> & H1).
  destruct r as [[g b]|e]; [apply IH, H1|eauto].
Qed.

End Invariant.

(** C22. A turn of the machine over all its harts ends, whatever the programs do,
    and leaves every hart well formed: each hart gets its budget, its timer
    interrupt, its mailbox check and its trace records. *)
Theorem machine_round_preserves (Bus : DeviceBus) (Hooks : CsrHooks) (n : Z) (m : RISCVMachine) :
  WfBus Bus -> WfHooks Hooks -> 0 <= n -> Forall wf_hart (cpu_state m) ->
  exists m' r, machine_round n m = Some (m', r) /\ Forall wf_hart (cpu_state m').
Proof.
  intros HB HH Hn Hm. unfold machine_round.
  destruct (iterate_harts_wf n Hn (Z.to_nat (ncpus m)) 0 false 0 m Hm) as (m' & r & -> & H).
  destruct r as [[k a]|e]; eexists _, _; (split; [reflexivity|exact H]).
Qed.

(** ** The timer *)

Lemma rtc_time_range (c : RISCVCPUState) : in_u 64 (mcycle c) -> 0 <= rtc_time c < 2 ^ 54.
Proof.
  intros Hc. unfold rtc_time, RTC_FREQ_DIV in *. change (2000000000 / 1000000) with 2000 in *.
  unfold in_u in Hc. split; [apply Z.div_pos; lia|]. apply Z.div_lt_upper_bound; lia.
Qed.

(** The timer: for a compare value below [2^63], the check before each run
    raises the hart's timer interrupt exactly when the clock runs and has
    reached the compare value, changes no other interrupt bit and no other hart,
    and answers a sleep time between 0 and the requested one, which is 0 when
    the interrupt is due or the hart is not in power-down. *)
Theorem timer_check (m : RISCVMachine) (h d : Z) (c c0 : RISCVCPUState) :
  get_hart m h = Some c -> get_hart m 0 = Some c0 -> 0 <= d ->
  in_u 63 (timecmp c) -> in_u 64 (mcycle c0) ->
  let due := (0 <? rtc_time c0) && (timecmp c <=? rtc_time c0) in
  exists m' c' delay,
    virt_machine_get_sleep_duration m h d = (m', inl delay) /\ get_hart m' h = Some c' /\
    (forall n, 0 <= n -> Z.testbit (mip c') n = Z.testbit (mip c) n || (n =? 7) && due) /\
    0 <= delay <= d /\ (power_down_flag c' = false -> delay = 0) /\
    (due = true -> mip c has MIP_MTIP = false -> delay = 0) /\
    forall k, k <> h -> get_hart m' k = get_hart m k.
Proof.
  intros Hc H0 Hd Ht Hm due. pose proof (rtc_time_range c0 Hm) as Hnow.
  unfold virt_machine_get_sleep_duration, rtc_get_time, of_hart. rewrite Hc, H0.
  assert (Hh : 0 <= h) by (unfold get_hart in Hc; destruct (Z.leb_spec 0 h); [lia|discriminate]).
  assert (Hput : forall s, get_hart (put_hart h s m) h = Some s) by (intros s; apply (get_put_hart_eq _ _ _ _ Hc)).
  assert (Hoth : forall s k, k <> h -> get_hart (put_hart h s m) k = get_hart m k).
  { intros s k Hk. rewrite get_put_hart_ne by congruence. destruct (Z.leb_spec 0 h); [reflexivity|lia]. }
  assert (Hi : i64 (timecmp c - rtc_time c0) = timecmp c - rtc_time c0).
  { apply i_small; [lia|]. change (64 - 1) with 63. unfold in_u in Ht. lia. }
  rewrite Hi. set (now := rtc_time c0) in *.
  assert (Hb7 : mip c has MIP_MTIP = Z.testbit (mip c) 7) by (change MIP_MTIP with (2 ^ 7); apply has_pow2; lia).
  assert (Hsame : forall n, 0 <= n -> Z.testbit (mip c) 7 = true \/ due = false ->
    Z.testbit (mip c) n = Z.testbit (mip c) n || (n =? 7) && due).
  { intros n Hn [H| ->]; destruct (Z.eqb_spec n 7) as [->|]; rewrite ?H; btauto. }
  destruct (Z.ltb_spec 0 now) as [Hp|Hp]; cbn [andb] in due.
  2:{ rewrite andb_false_r. exists (put_hart h c m), c, (if power_down_flag c then d else 0).
      split; [reflexivity|]. split; [apply Hput|]. split; [intros n Hn; apply Hsame; auto|].
      split; [destruct (power_down_flag c); lia|]. split; [intros ->; reflexivity|].
      split; [discriminate|apply Hoth]. }
  rewrite andb_true_r. destruct (mip c has MIP_MTIP) eqn:Em; cbn [negb].
  { exists (put_hart h c m), c, (if power_down_flag c then d else 0).
    split; [reflexivity|]. split; [apply Hput|]. split; [intros n Hn; apply Hsame; auto|].
    split; [destruct (power_down_flag c); lia|]. split; [intros ->; reflexivity|].
    split; [discriminate|apply Hoth]. }
  destruct (Z.leb_spec (timecmp c - now) 0) as [Hle|Hgt].
  - assert (Hdue : due = true) by (apply Z.leb_le; lia).
    eexists (put_hart h (riscv_cpu_set_mip m MIP_MTIP c) m), (riscv_cpu_set_mip m MIP_MTIP c), 0.
    split; [destruct (power_down_flag _); reflexivity|]. split; [apply Hput|]. split.
    + intros n Hn. destruct (set_mip_bit m MIP_MTIP c n) as (_ & _ & ->).
      unfold MIP_MTIP. rewrite shl1_bit, Hdue by lia. btauto.
    + split; [lia|]. split; [reflexivity|]. split; [reflexivity|apply Hoth].
  - assert (Hdue : due = false) by (apply Z.leb_gt; lia). clearbody due. subst due.
    change (RTC_FREQ / 1000) with 1000.
    assert (0 <= (timecmp c - now) / 1000) by (apply Z.div_pos; lia).
    eexists (put_hart h c m), c, (if power_down_flag c then _ else 0).
    split; [reflexivity|]. split; [apply Hput|]. split; [intros n Hn; apply Hsame; auto|].
    split; [destruct (power_down_flag c); [destruct (Z.ltb_spec ((timecmp c - now) / 1000) d); lia|lia]|].
    split; [intros ->; reflexivity|]. split; [discriminate|apply Hoth].
Qed.

(** A compare value of [2^64 - 1], the usual way to silence the timer, is due
    at once: the difference is taken as a signed number. *)
Definition quiet_timer : RISCVMachine :=
  set_ncpus 1 (set_cpu_state
    [set_timecmp (u64 (-1)) (set_mcycle 2000 (riscv_cpu_init 0x10000 false false 0))] zero_machine).

Remark disabled_timer_fires :
  option_map (fun c : RISCVCPUState => mip c has MIP_MTIP)
    (get_hart (fst (virt_machine_get_sleep_duration quiet_timer 0 10)) 0) = Some true.
Proof. vm_compute. reflexivity. Qed.

(** ** Witnesses *)

(** Two harts that start at the program of [demo]; hart 1's timer is due. *)
Definition demo_machine : RISCVMachine :=
  set_exe_trace (u64 (-1)) (set_maxinsns 100 (set_ncpus 2 (set_cpu_state
    [set_mcycle 6000 demo_hart;
     set_timecmp 3 (set_physical_addr_len 56 (riscv_cpu_init 0x80000000 false false 1))] (mach demo)))).

Example demo_round :
  match @machine_round (machine_bus no_bus) no_hooks 3 demo_machine with
  | Some (m, inl b) => (b, map (fun c : RISCVCPUState => (aget 0 (reg c) 1, mcause c, mip c)) (cpu_state m), maxinsns m)
  | _ => (false, [], 0)
  end = (true, [(10, 11, 128); (10, 11, 128)], 94).
Proof. vm_compute. reflexivity. Qed.

Lemma machine_round_preserves_witness : exists m' r,
  @machine_round (machine_bus no_bus) no_hooks 3 demo_machine = Some (m', r) /\
  Forall wf_hart (cpu_state m').
Proof.
  apply (machine_round_preserves (machine_bus no_bus) no_hooks 3 demo_machine);
    [exact (machine_bus_wf no_bus no_bus_wf)|exact no_hooks_wf|lia|].
  constructor; [|constructor; [|constructor]].
  - pose proof (riscv_cpu_init_wf_all 0x80000000 false false 0) as H. revert H. unfold demo_hart.
    generalize (riscv_cpu_init 0x80000000 false false 0). wf_tac.
  - pose proof (riscv_cpu_init_wf_all 0x80000000 false false 1) as H. revert H.
    generalize (riscv_cpu_init 0x80000000 false false 1). wf_tac.
Defined.

Lemma timer_check_witness :
  let c := set_timecmp 3 (set_physical_addr_len 56 (riscv_cpu_init 0x80000000 false false 1)) in
  let c0 := set_mcycle 6000 demo_hart in
  let due := (0 <? rtc_time c0) && (timecmp c <=? rtc_time c0) in
  exists m' c' delay,
    virt_machine_get_sleep_duration demo_machine 1 10 = (m', inl delay) /\ get_hart m' 1 = Some c' /\
    (forall n, 0 <= n -> Z.testbit (mip c') n = Z.testbit (mip c) n || (n =? 7) && due) /\
    0 <= delay <= 10 /\ (power_down_flag c' = false -> delay = 0) /\
    (due = true -> mip c has MIP_MTIP = false -> delay = 0) /\
    forall k, k <> 1 -> get_hart m' k = get_hart demo_machine k.
Proof.
  apply (timer_check demo_machine 1 10 (set_timecmp 3 (set_physical_addr_len 56 (riscv_cpu_init 0x80000000 false false 1)))
    (set_mcycle 6000 demo_hart)); [reflexivity|reflexivity|lia| |]; split; (discriminate || reflexivity).
Defined.
