(* ===== verification/Translate.v ===== *)
(** * Properties of address translation and of the TLBs

    What a successful page walk guarantees ([riscv_cpu_get_phys_addr]), how the
    three TLBs are filled, hit and flushed, and that in bare mode the memory
    accessors with their TLB fast path implement a flat memory. *)

From S2P Require Import Prelude RiscvDefs State IoMem Tlb Pmp Mmu Csr Trap Alu SoftFp Exec ExecFp Vector Stf Interp HartInv Frame InterpInv.
Open Scope Z_scope.
Open Scope c_scope.
Open Scope m_scope.

(** ** The page walk *)

(** What the access rights of a leaf entry must be, in the terms of the
    privileged architecture. *)
Record pte_permits (s : RISCVCPUState) (prv : Z) (a : access) (pte : Z) : Prop := {
  pp_valid : Z.testbit pte 0 = true;
  pp_right :
    match a with
    | ACCESS_READ => Z.testbit pte 1 = true \/ Z.testbit (mstatus s) 19 = true /\ Z.testbit pte 3 = true
    | ACCESS_WRITE => Z.testbit pte 2 = true
    | ACCESS_CODE => Z.testbit pte 3 = true
    end;
  pp_user :
    if prv =? PRV_S then Z.testbit pte 4 = true -> Z.testbit (mstatus s) 18 = true
    else Z.testbit pte 4 = true;
  pp_accessed : Z.testbit pte 6 = true;
  pp_dirty : a = ACCESS_WRITE -> Z.testbit pte 7 = true
}.

(** The 3-bit field [XWR] of an entry. *)
Lemma xwr_bit pte k : 0 <= k < 3 -> Z.testbit ((pte >> 1) .& 7) k = Z.testbit pte (k + 1).
Proof.
  intros Hk. change 7 with (Z.ones 3). rewrite Z.land_spec, Z.shiftr_spec, Z.ones_spec_low by lia.
  apply andb_true_r.
Qed.

Lemma xwr_high pte k : 3 <= k -> Z.testbit ((pte >> 1) .& 7) k = false.
Proof. intros Hk. change 7 with (Z.ones 3). rewrite Z.land_spec, Z.ones_spec_high by lia. apply andb_false_r. Qed.

Lemma low_bit_zero x : (x .& 1 =? 0) = negb (Z.testbit x 0).
Proof.
  change (x .& 1) with (x .& Z.ones 1). rewrite Z.land_ones, <- Z.bit0_mod by lia.
  destruct (Z.testbit x 0); reflexivity.
Qed.

(** Writable entries are readable, and the entry's page number is clear in its
    [j] low bits. *)
Definition pte_wellformed (pte j : Z) : Prop :=
  (Z.testbit pte 2 = true -> Z.testbit pte 1 = true) /\ ((1 << j) - 1) .& u32 (pte >> 10) = 0.

Lemma xwr_reserved pte :
  let xwr := (pte >> 1) .& 7 in
  (xwr =? 2) || (xwr =? 6) = Z.testbit pte 2 && negb (Z.testbit pte 1).
Proof.
  cbv zeta. set (x := (pte >> 1) .& 7).
  assert (H1 : Z.testbit x 0 = Z.testbit pte 1) by (apply xwr_bit; lia).
  assert (H2 : Z.testbit x 1 = Z.testbit pte 2) by (apply xwr_bit; lia).
  rewrite <- H1, <- H2. assert (Hx : 0 <= x < 8).
  { unfold x. change 7 with (Z.ones 3). rewrite Z.land_ones by lia. apply Z.mod_pos_bound. lia. }
  assert (x = 0 \/ x = 1 \/ x = 2 \/ x = 3 \/ x = 4 \/ x = 5 \/ x = 6 \/ x = 7) as H8 by lia.
  clearbody x. repeat (destruct H8 as [-> | H8]; [reflexivity|]). subst. reflexivity.
Qed.

(** The right an access needs, after [MXR]. *)
Definition has_right (s : RISCVCPUState) (a : access) (pte : Z) : bool :=
  match a with
  | ACCESS_READ => Z.testbit pte 1 || Z.testbit (mstatus s) 19 && Z.testbit pte 3
  | ACCESS_WRITE => Z.testbit pte 2
  | ACCESS_CODE => Z.testbit pte 3
  end.

Lemma xwr_right (s : RISCVCPUState) a pte :
  let xwr := (pte >> 1) .& 7 in
  let xwr := if mstatus s has MSTATUS_MXR then xwr .| (xwr >> 2) else xwr in
  ((xwr >> access_code a) .& 1 =? 0) = negb (has_right s a pte).
Proof.
  cbv zeta. rewrite low_bit_zero. f_equal. change MSTATUS_MXR with (2 ^ 19). rewrite has_pow2 by lia.
  destruct a; cbn [access_code has_right]; rewrite ?Z.shiftr_0_r, ?Z.shiftr_spec by lia;
    destruct (Z.testbit (mstatus s) 19); rewrite ?Z.lor_spec, ?Z.shiftr_spec by lia;
    cbn [Z.add Pos.add Pos.succ andb]; rewrite ?xwr_bit, ?xwr_high by lia;
    rewrite ?orb_false_r; reflexivity.
Qed.

(** The checks on a leaf are the architecture's conditions. *)
Lemma leaf_ok_iff (s : RISCVCPUState) prv a pte j :
  pte has PTE_V_MASK = true ->
  leaf_ok s prv a pte j = true <-> pte_permits s prv a pte /\ pte_wellformed pte j.
Proof.
  intros Hv. change PTE_V_MASK with (2 ^ 0) in Hv. rewrite has_pow2 in Hv by lia.
  unfold leaf_ok. cbv zeta. rewrite xwr_reserved, xwr_right.
  change PTE_U_MASK with (2 ^ 4). change MSTATUS_SUM with (2 ^ 18).
  change PTE_A_MASK with (2 ^ 6). change PTE_D_MASK with (2 ^ 7). rewrite !has_pow2 by lia.
  set (sp := ((1 << j) - 1) has u32 (pte >> 10)).
  assert (Hsp : sp = false <-> ((1 << j) - 1) .& u32 (pte >> 10) = 0) by apply nz_false.
  split.
  - intros H. destruct (Z.testbit pte 2 && _) eqn:E1; [discriminate|].
    destruct (negb (if prv =? PRV_S then _ else _)) eqn:E2; [discriminate|]. apply negb_false_iff in E2.
    destruct (has_right s a pte) eqn:E3; cbn [negb] in H; [|discriminate].
    destruct sp eqn:E4; [discriminate|]. destruct (Z.testbit pte 6) eqn:E6; cbn [negb] in H; [|discriminate].
    split; [|split; [|apply Hsp; reflexivity]].
    + constructor; [exact Hv| | |exact E6|].
      * destruct a; cbn in E3; [|exact E3|exact E3].
        apply orb_true_iff in E3 as [E3|E3]; [left; exact E3|right; apply andb_true_iff, E3].
      * destruct (prv =? PRV_S); [|exact E2]. intros E4'. rewrite E4' in E2.
        destruct (Z.testbit (mstatus s) 18); [reflexivity|discriminate].
      * intros ->. destruct (Z.testbit pte 7); [reflexivity|discriminate].
    + intros E. rewrite E in E1. destruct (Z.testbit pte 1); [reflexivity|discriminate].
  - intros [[_ P2 P3 P4 P5] [W1 W2]]. apply Hsp in W2. rewrite W2, P4. cbn [negb].
    replace (Z.testbit pte 2 && negb (Z.testbit pte 1)) with false
      by (destruct (Z.testbit pte 2); [rewrite W1 by reflexivity|]; reflexivity).
    replace (has_right s a pte) with true.
    2:{ destruct a; cbn; [|congruence|congruence]. destruct P2 as [-> | [-> ->]]; [reflexivity|]. btauto. }
    cbn [negb].
    replace (negb (if prv =? PRV_S then negb (Z.testbit pte 4 && negb (Z.testbit (mstatus s) 18)) else Z.testbit pte 4))
      with false.
    2:{ destruct (prv =? PRV_S); [|rewrite P3; reflexivity].
        destruct (Z.testbit pte 4); [rewrite P3 by reflexivity|]; reflexivity. }
    destruct a; cbn; try reflexivity. rewrite P5 by reflexivity. reflexivity.
Qed.

(** States that differ in the record of the last data access only. *)
Definition traced (st st' : St) : Prop := exists t, st' = with_cpu (with_trk (cpu st) t) st.

Lemma traced_refl st : traced st st.
Proof. exists (trk (cpu st)). destruct st as [[] ? ?]. reflexivity. Qed.
Lemma traced_trans a b c : traced a b -> traced b c -> traced a c.
Proof. intros [t ->] [u ->]. exists u. reflexivity. Qed.

(** The 64-bit word of physical memory at [a], as the page walk sees it. *)
Definition word_at (st : St) (a : Z) : option Z :=
  match get_phys_mem_range_pmp st a 8 PMPCFG_R with
  | Some (Some k) => host_load (hmem (mach st)) 8 (range_ptr (the_range st k) a)
  | _ => None
  end.

(** The PMP check reads the privilege, the address width and two groups of
    fields. *)
Lemma pmp_ok_groups (s s' : RISCVCPUState) paddr size perm :
  priv s' = priv s -> physical_addr_len s' = physical_addr_len s -> mcsr s' = mcsr s -> pmps s' = pmps s ->
  riscv_cpu_pmp_access_ok s' paddr size perm = riscv_cpu_pmp_access_ok s paddr size perm.
Proof.
  intros H1 H2 H3 H4. unfold riscv_cpu_pmp_access_ok. rewrite H1, H2, H3, H4.
  destruct (nz _); [reflexivity|]. cbv zeta. generalize 0.
  match goal with |- context [pmp_scan s' ?v] => generalize v end. intros prv.
  induction (Z.to_nat (pmp_n (pmps s))) as [|n IH]; intros k; [reflexivity|].
  cbn [pmp_scan]. unfold pmp_entry. rewrite H4, IH. reflexivity.
Qed.

Lemma range_pmp_groups st st' paddr size perm :
  priv (cpu st') = priv (cpu st) -> physical_addr_len (cpu st') = physical_addr_len (cpu st) ->
  mcsr (cpu st') = mcsr (cpu st) -> pmps (cpu st') = pmps (cpu st) ->
  mem_map (mach st') = mem_map (mach st) ->
  get_phys_mem_range_pmp st' paddr size perm = get_phys_mem_range_pmp st paddr size perm.
Proof.
  intros H1 H2 H3 H4 H5. unfold get_phys_mem_range_pmp. rewrite H5, (pmp_ok_groups (cpu st)) by assumption.
  reflexivity.
Qed.

Lemma word_at_traced st st' a : traced st st' -> word_at st' a = word_at st a.
Proof.
  intros [t ->]. unfold word_at. rewrite (range_pmp_groups st) by reflexivity. reflexivity.
Qed.

(** A physical read of a word: a fault that changes nothing, or the word. *)
Lemma phys_read_cases a st :
  riscv_phys_read 8 a st = (st, inl None) \/
  riscv_phys_read 8 a st = (st, inr Undefined) \/
  exists t v, word_at st a = Some v /\
    riscv_phys_read 8 a st = (with_cpu (with_trk (cpu st) t) st, inl (Some v)).
Proof.
  unfold riscv_phys_read, word_at. change (Z.of_nat 8) with 8.
  destruct (get_phys_mem_range_pmp st a 8 PMPCFG_R) as [[k|]|]; [|auto..].
  unfold hload, bind, gets, from_option, id.
  destruct (host_load (hmem (mach st)) 8 (range_ptr (the_range st k) a)) as [v|]; [|auto].
  right; right. eexists _, v. split; [reflexivity|]. unfold ret, track_dread. cbn [andb]. reflexivity.
Qed.

Lemma phys_read_word a st v : word_at st a = Some v ->
  exists t, riscv_phys_read 8 a st = (with_cpu (with_trk (cpu st) t) st, inl (Some v)).
Proof.
  unfold riscv_phys_read, word_at. change (Z.of_nat 8) with 8.
  destruct (get_phys_mem_range_pmp st a 8 PMPCFG_R) as [[k|]|]; try discriminate. intros H.
  unfold hload, bind, gets, from_option, id. rewrite H. eexists. reflexivity.
Qed.

Lemma phys_read_spec a st st' v :
  riscv_phys_read 8 a st = (st', inl (Some v)) -> traced st st' /\ word_at st a = Some v.
Proof.
  intros H. destruct (phys_read_cases a st) as [E|[E|(t & v' & Hw & E)]]; rewrite E in H; try discriminate.
  injection H as <- <-. split; [exists t; reflexivity|exact Hw].
Qed.

(** The address of the entry for [vaddr] in the table at [table], [n] levels
    above the leaf level. *)
Definition entry_addr (table vaddr : Z) (n : nat) : Z :=
  u64 (table + (((vaddr >> (PG_SHIFT + 9 * Z.of_nat n)) .& 511) << 3)).

Definition next_table (pte : Z) : Z := u64 ((pte >> 10) << PG_SHIFT).

(** The tables lead from [table], [n] levels, to the leaf [pte], [j] levels
    above the last. *)
Inductive walks (st : St) (vaddr : Z) : nat -> Z -> Z -> nat -> Prop :=
| walks_leaf n table pte :
    word_at st (entry_addr table vaddr n) = Some pte ->
    pte has PTE_V_MASK = true -> nz ((pte >> 1) .& 7) = true ->
    walks st vaddr (S n) table pte n
| walks_table n table pte leaf j :
    word_at st (entry_addr table vaddr n) = Some pte ->
    pte has PTE_V_MASK = true -> nz ((pte >> 1) .& 7) = false ->
    walks st vaddr n (next_table pte) leaf j ->
    walks st vaddr (S n) table leaf j.

Lemma walks_traced st st' vaddr n table pte j : traced st st' ->
  walks st' vaddr n table pte j -> walks st vaddr n table pte j.
Proof.
  intros Ht. induction 1 as [n table pte Hp Hv Hx|n table pte leaf j Hp Hv Hx _ IH];
    rewrite (word_at_traced _ _ _ Ht) in Hp; [apply walks_leaf|eapply walks_table]; eassumption.
Qed.

(** The address a leaf [j] levels above the last gives. *)
Definition leaf_addr (pte vaddr : Z) (j : nat) : Z :=
  let mask := (1 << (PG_SHIFT + 9 * Z.of_nat j)) - 1 in
  next_table pte .&~ mask .| vaddr .& mask.

Lemma walk_levels_sound prv vaddr a n : forall table st st' paddr,
  walk_levels prv vaddr a n table st = (st', inl (inl paddr)) ->
  traced st st' /\
  exists pte j, walks st vaddr n table pte j /\ pte_permits (cpu st) prv a pte /\
    pte_wellformed pte (Z.of_nat j) /\ paddr = leaf_addr pte vaddr j.
Proof.
  induction n as [|n IH]; intros table st st' paddr H; [discriminate|]. cbn [walk_levels] in H.
  unfold bind at 1 in H.
  destruct (riscv_phys_read 8 _ st) as [st1 [r|e]] eqn:Er; cbv beta iota in H; [|discriminate H].
  destruct r as [pte|]; [|discriminate H]. apply phys_read_spec in Er as [Ht Hw].
  destruct (pte has PTE_V_MASK) eqn:Ev; cbn [negb] in H; [|discriminate H].
  destruct (nz ((pte >> 1) .& 7)) eqn:Ex.
  - unfold bind at 1, getc, id in H.
    destruct (leaf_ok (cpu st1) prv a pte (Z.of_nat n)) eqn:El; [|discriminate H].
    injection H as <- <-. split; [exact Ht|]. exists pte, n. split; [apply walks_leaf; assumption|].
    apply (leaf_ok_iff _ _ _ _ _ Ev) in El as [Hp Hf]. split; [|split; [exact Hf|reflexivity]].
    destruct Ht as [t ->]. destruct Hp. constructor; assumption.
  - apply IH in H as (Ht2 & leaf & j & H1 & H2 & H3 & H4). split; [exact (traced_trans _ _ _ Ht Ht2)|].
    exists leaf, j. split; [|split; [|split; [exact H3|exact H4]]].
    + eapply walks_table; try eassumption. exact (walks_traced _ _ _ _ _ _ _ Ht H1).
    + destruct Ht as [t ->]. destruct H2. constructor; assumption.
Qed.

Lemma leaf_addr_fields pte vaddr j :
  let w := PG_SHIFT + 9 * Z.of_nat j in
  leaf_addr pte vaddr j mod 2 ^ w = vaddr mod 2 ^ w /\
  leaf_addr pte vaddr j / 2 ^ w = next_table pte / 2 ^ w.
Proof.
  cbv zeta. unfold leaf_addr, PG_SHIFT. set (w := 12 + 9 * Z.of_nat j). assert (Hw : 0 <= w) by lia.
  rewrite Z.shiftl_1_l. replace (2 ^ w - 1) with (Z.ones w) by (rewrite Z.ones_equiv; lia).
  split.
  - apply Z.bits_inj'; intros k Hk. rewrite !Z.testbit_mod_pow2, Z.lor_spec, Z.ldiff_spec, Z.land_spec by lia.
    destruct (Z.ltb_spec k w); [|reflexivity]. rewrite Z.ones_spec_low by lia. cbn [negb].
    rewrite andb_false_r, andb_true_r. reflexivity.
  - rewrite <- !Z.shiftr_div_pow2 by lia. apply Z.bits_inj'; intros k Hk.
    rewrite !Z.shiftr_spec, Z.lor_spec, Z.ldiff_spec, Z.land_spec, Z.ones_spec_high by lia.
    cbn [negb]. rewrite andb_true_r, andb_false_r, orb_false_r. reflexivity.
Qed.

(** Conversely a permitted leaf is found. *)
Lemma walk_levels_complete prv vaddr a n table st pte j :
  walks st vaddr n table pte j -> pte_permits (cpu st) prv a pte -> pte_wellformed pte (Z.of_nat j) ->
  exists st', walk_levels prv vaddr a n table st = (st', inl (inl (leaf_addr pte vaddr j))).
Proof.
  intros Hw Hperm Hform.
  enough (H : forall st2, traced st st2 -> exists st', walk_levels prv vaddr a n table st2 = (st', inl (inl (leaf_addr pte vaddr j))))
    by (apply H, traced_refl).
  induction Hw as [n table pte Hp Hv Hx|n table pte leaf j Hp Hv Hx Hw IH]; intros st2 Ht;
    rewrite <- (word_at_traced _ _ _ Ht) in Hp; apply phys_read_word in Hp as (t & Hp);
    cbn [walk_levels]; unfold bind at 1; fold (entry_addr table vaddr n); rewrite Hp; cbv beta iota;
    rewrite Hv; cbn [negb]; rewrite Hx.
  - unfold bind at 1, getc, id.
    assert (El : leaf_ok (cpu (with_cpu (with_trk (cpu st2) t) st2)) prv a pte (Z.of_nat n) = true).
    { apply leaf_ok_iff; [exact Hv|]. split; [|exact Hform]. destruct Ht as [u ->]. destruct Hperm.
      constructor; assumption. }
    rewrite El. eexists. reflexivity.
  - apply IH; [exact Hperm|exact Hform|]. apply (traced_trans _ _ _ Ht). exists t. reflexivity.
Qed.

Lemma leaf_addr_unique pte vaddr j paddr :
  let w := PG_SHIFT + 9 * Z.of_nat j in
  paddr mod 2 ^ w = vaddr mod 2 ^ w -> paddr / 2 ^ w = next_table pte / 2 ^ w ->
  paddr = leaf_addr pte vaddr j.
Proof.
  cbv zeta. intros H1 H2. destruct (leaf_addr_fields pte vaddr j) as [L1 L2].
  set (w := PG_SHIFT + 9 * Z.of_nat j) in *.
  assert (Hw : 2 ^ w <> 0) by (pose proof (pow2_pos w); unfold w, PG_SHIFT in *; lia).
  rewrite (Z.div_mod paddr (2 ^ w)), (Z.div_mod (leaf_addr pte vaddr j) (2 ^ w)) by exact Hw. congruence.
Qed.

(** A virtual address is canonical for [w] bits: its upper bits repeat bit
    [w - 1]. *)
Lemma canonical_iff vaddr w : 0 < w <= 64 ->
  (i64 (vaddr << (64 - w)) >> (64 - w) =? i64 vaddr) = true <->
  - 2 ^ (w - 1) <= i64 vaddr < 2 ^ (w - 1).
Proof.
  intros Hw. rewrite Z.eqb_eq. set (sh := 64 - w).
  assert (Hp : 2 ^ 63 = 2 ^ (w - 1) * 2 ^ sh) by (rewrite <- Z.pow_add_r by lia; f_equal; lia).
  pose proof (pow2_pos sh ltac:(lia)) as Hs. split.
  - intros <-. pose proof (i_range 64 (vaddr << sh) ltac:(lia)) as Hr. change (64 - 1) with 63 in Hr.
    rewrite Z.shiftr_div_pow2 by lia. split.
    + apply Z.div_le_lower_bound; lia.
    + apply Z.div_lt_upper_bound; lia.
  - intros Hc.
    assert (E : i64 (vaddr << sh) = i64 vaddr * 2 ^ sh).
    { rewrite <- (i_small 64 (i64 vaddr * 2 ^ sh)) by (change (64 - 1) with 63; nia).
      unfold sN at 1 3. replace ((vaddr << sh) mod 2 ^ 64) with ((i64 vaddr * 2 ^ sh) mod 2 ^ 64); [reflexivity|].
      rewrite Z.shiftl_mul_pow2 by lia. rewrite <- Z.mul_mod_idemp_l by lia.
      rewrite <- (Z.mul_mod_idemp_l vaddr) by lia.
      change (i64 vaddr mod 2 ^ 64) with (u64 (i64 vaddr)). rewrite i_eq_mod by lia. reflexivity. }
    rewrite E, Z.shiftr_div_pow2, Z.div_mul by lia. reflexivity.
Qed.

(** The translation of the architecture, for the modes the machine installs
    (bare, Sv39, Sv48) and the superpage check of this program. *)
Definition translates (st : St) (vaddr : Z) (a : access) (paddr : Z) : Prop :=
  let s := cpu st in
  let prv := walk_priv s a in
  let mode := (satp s >> 60) .& 0xf in
  if (prv =? PRV_M) || (mode =? 0) then paddr = vaddr
  else
    - 2 ^ (9 * mode - 34) <= i64 vaddr < 2 ^ (9 * mode - 34) /\
    exists pte j,
      walks st vaddr (Z.to_nat (mode - 5)) (u64 ((satp s .& ((1 << 44) - 1)) << PG_SHIFT)) pte j /\
      pte_permits s prv a pte /\ pte_wellformed pte (Z.of_nat j) /\
      let w := PG_SHIFT + 9 * Z.of_nat j in
      paddr mod 2 ^ w = vaddr mod 2 ^ w /\ paddr / 2 ^ w = next_table pte / 2 ^ w.

Lemma get_phys_addr_traced vaddr a st st' paddr :
  riscv_cpu_get_phys_addr vaddr a st = (st', inl (inl paddr)) -> traced st st'.
Proof.
  unfold riscv_cpu_get_phys_addr, bind at 1, getc, id. cbv zeta.
  destruct (_ =? PRV_M); [intros H; injection H as <- _; apply traced_refl|].
  destruct (_ =? 0); [intros H; injection H as <- _; apply traced_refl|].
  destruct (negb _); [discriminate|]. intros H. apply walk_levels_sound in H as [Ht _]. exact Ht.
Qed.


(** ** TLB hits *)

(** The tag an access of [n] bytes compares with: the page for an aligned
    access, and never the tag of an empty entry. *)
Definition access_bytes (n : Z) : Prop := n = 1 \/ n = 2 \/ n = 4 \/ n = 8.

Lemma tlb_tag_aligned n addr : access_bytes n -> addr .& (n - 1) = 0 -> tlb_tag n addr = addr .&~ PG_MASK.
Proof.
  intros Hn Ha. unfold tlb_tag. apply Z.bits_inj'; intros k Hk. rewrite !Z.ldiff_spec.
  pose proof (f_equal (fun z => Z.testbit z k) Ha) as Hb. cbv beta in Hb. rewrite Z.land_spec, Z.bits_0 in Hb.
  destruct (Z.testbit addr k); cbn [andb] in *; [|reflexivity]. rewrite Hb. rewrite andb_true_r. reflexivity.
Qed.

Lemma tlb_tag_not_empty n addr : access_bytes n -> tlb_tag n addr <> TLB_EMPTY.
Proof.
  intros Hn H. apply (f_equal (fun x => Z.testbit x 11)) in H. unfold tlb_tag in H.
  rewrite !Z.ldiff_spec in H. change (Z.testbit TLB_EMPTY 11) with true in H.
  assert (Z.testbit PG_MASK 11 && negb (Z.testbit (n - 1) 11) = true) as Hm
    by (destruct Hn as [-> | [-> | [-> | ->]]]; reflexivity).
  rewrite Hm, andb_false_r in H. discriminate.
Qed.

(** A flush empties the TLBs: afterwards no data access of any width and no
    instruction fetch hits, so the next access of every page goes through
    translation and protection again. *)
Theorem flush_misses (s : RISCVCPUState) (addr n : Z) :
  access_bytes n ->
  let t := tlb_flush_all s in
  te_vaddr (tlb_get (tlb_read t) (tlb_index addr)) <> tlb_tag n addr /\
  te_vaddr (tlb_get (tlb_write t) (tlb_index addr)) <> tlb_tag n addr /\
  te_vaddr (tlb_get (tlb_code t) (tlb_index addr)) <> addr .&~ PG_MASK.
Proof.
  intros Hn. cbv zeta. cbn [tlb_flush_all tlb_init].
  change (tlb_read (tlb_flush_all s)) with (map clear_vaddr (tlb_read s)).
  change (tlb_write (tlb_flush_all s)) with (map clear_vaddr (tlb_write s)).
  change (tlb_code (tlb_flush_all s)) with (map clear_vaddr (tlb_code s)).
  rewrite !tlb_get_clear. split; [|split].
  - intros H. symmetry in H. exact (tlb_tag_not_empty _ _ Hn H).
  - intros H. symmetry in H. exact (tlb_tag_not_empty _ _ Hn H).
  - intros H. symmetry in H. exact (page_tag_not_empty _ H).
Qed.

(** ** Bare-mode memory *)

(** The host address of a byte of RAM. *)
Definition host_of (st : St) (a : Z) : option Z :=
  match get_phys_mem_range (mem_map (mach st)) a with
  | Some k => if pr_is_ram (the_range st k) then Some (range_ptr (the_range st k) a) else None
  | None => None
  end.

(** Every byte of a page lies in the same range. *)
Definition page_uniform (map : list PhysMemoryRange) : Prop :=
  forall a b, in_u 64 a -> in_u 64 b -> a .&~ PG_MASK = b .&~ PG_MASK ->
    get_phys_mem_range map a = get_phys_mem_range map b.

(** An entry that would hit leads to the right byte. *)
Definition coherent (st : St) (tlb : list TLBEntry) : Prop :=
  forall a, in_u 64 a -> let e := tlb_get tlb (tlb_index a) in
    te_vaddr e = a .&~ PG_MASK -> host_of st a = Some (u64 (te_mem_addend e + a)).

Lemma same_page_index a b : a .&~ PG_MASK = b .&~ PG_MASK -> tlb_index a = tlb_index b.
Proof.
  intros H. unfold tlb_index. f_equal. apply Z.bits_inj'; intros k Hk. rewrite !Z.shiftr_spec by lia.
  apply (f_equal (fun z => Z.testbit z (k + PG_SHIFT))) in H. rewrite !Z.ldiff_spec in H.
  change PG_MASK with (Z.ones PG_SHIFT) in H. rewrite Z.ones_spec_high in H by (unfold PG_SHIFT; lia).
  cbn [negb] in H. rewrite !andb_true_r in H. exact H.
Qed.

Lemma host_of_same_page st a b p : page_uniform (mem_map (mach st)) -> in_u 64 a -> in_u 64 b ->
  a .&~ PG_MASK = b .&~ PG_MASK -> host_of st a = Some p -> host_of st b = Some (u64 (p - a + b)).
Proof.
  intros Hu Ha Hb Hp. unfold host_of. rewrite (Hu b a Hb Ha (eq_sym Hp)).
  destruct (get_phys_mem_range _ a) as [k|]; [|discriminate].
  destruct (pr_is_ram _); [|discriminate]. intros H. injection H as <-. f_equal.
  unfold range_ptr, uN. set (q := pr_phys_mem (the_range st k)). set (o := pr_addr (the_range st k)).
  replace ((q + (a - o)) mod 2 ^ 64 - a + b) with ((q + (a - o)) mod 2 ^ 64 + (b - a)) by lia.
  rewrite Z.add_mod_idemp_l by lia. f_equal. lia.
Qed.

(** Filling an entry for a page keeps the TLB coherent. *)
Lemma coherent_fill st tlb addr p : page_uniform (mem_map (mach st)) -> length tlb = 256%nat ->
  in_u 64 addr -> host_of st addr = Some p -> coherent st tlb ->
  coherent st (aset tlb (tlb_index addr) (mkTLBEntry (addr .&~ PG_MASK) (u64 (p - addr)))).
Proof.
  intros Hu Hlen Ha Hp Hc a Haa. cbv zeta. unfold tlb_get.
  pose proof (tlb_index_range addr) as Hr. pose proof (tlb_index_range a) as Hra. unfold TLB_SIZE in *.
  destruct (Z.eq_dec (tlb_index a) (tlb_index addr)) as [E|E].
  - rewrite E, aget_aset_eq by lia. cbn. intros Ht.
    rewrite (host_of_same_page _ _ _ _ Hu Ha Haa Ht Hp). f_equal.
    unfold uN. rewrite Z.add_mod_idemp_l by lia. reflexivity.
  - rewrite aget_aset_ne by lia. apply Hc, Haa.
Qed.

(** *** A flat memory *)

(** What an access depends on besides memory and TLBs. *)
Record same_env (st st' : St) : Prop := {
  se_priv : priv (cpu st') = priv (cpu st);
  se_mcsr : mcsr (cpu st') = mcsr (cpu st);
  se_scsr : scsr (cpu st') = scsr (cpu st);
  se_pmps : pmps (cpu st') = pmps (cpu st);
  se_len : physical_addr_len (cpu st') = physical_addr_len (cpu st);
  se_debug : debug_mode (cpu st') = debug_mode (cpu st);
  se_host : forall a, host_of st' a = host_of st a
}.

Definition bytes_wf (h : gmap Z Z) : Prop := map_Forall (fun _ b => in_u 8 b) h.

(** Data accesses are not translated, ranges are made of pages, the memory
    holds bytes, and the data TLBs are coherent. *)
Record flat_state (st : St) : Prop := {
  fs_uniform : page_uniform (mem_map (mach st));
  fs_bytes : bytes_wf (hmem (mach st));
  fs_rlen : length (tlb_read (cpu st)) = 256%nat;
  fs_wlen : length (tlb_write (cpu st)) = 256%nat;
  fs_read : coherent st (tlb_read (cpu st));
  fs_write : coherent st (tlb_write (cpu st));
  fs_bare : forall a, a <> ACCESS_CODE ->
    walk_priv (cpu st) a = PRV_M \/ (satp (cpu st) >> 60) .& 0xf = 0
}.

(** An access of [2 ^ k] bytes of RAM that is aligned, permitted by the PMP and
    hits no trigger; [ctl] is the trigger's direction bit. *)
Record plain_access (st : St) (k addr perm trigger : Z) : Prop := {
  pa_size : 0 <= k <= 3;
  pa_addr : in_u 64 addr;
  pa_aligned : addr .& ((1 << k) - 1) = 0;
  pa_pmp : riscv_cpu_pmp_access_ok (cpu st) addr (1 << k) perm = true;
  pa_trigger : (check_triggers (cpu st) trigger addr).1 = false
}.

Lemma same_env_refl st : same_env st st.
Proof. split; reflexivity. Qed.
Lemma same_env_trans a b c : same_env a b -> same_env b c -> same_env a c.
Proof.
  intros [] []. split; congruence.
Qed.

Lemma check_triggers_groups (s s' : RISCVCPUState) t addr :
  priv s' = priv s -> mcsr s' = mcsr s -> debug_mode s' = debug_mode s ->
  (check_triggers s' t addr).1 = (check_triggers s t addr).1.
Proof.
  intros H1 H2 H3. unfold check_triggers. rewrite H3, H1. destruct (debug_mode s); [reflexivity|].
  generalize (t .| (MCONTROL_U << priv s)); intros mask. generalize 0.
  induction (Z.to_nat MAX_TRIGGERS) as [|n IH]; intros k; [reflexivity|]. cbn [check_triggers_from].
  unfold trigger_matches. rewrite H2. repeat case_goal; (reflexivity || apply IH).
Qed.

Lemma plain_access_env st st' k addr perm t : same_env st st' ->
  plain_access st k addr perm t -> plain_access st' k addr perm t.
Proof.
  intros [] []. split; try assumption.
  - rewrite (pmp_ok_groups (cpu st)) by assumption. assumption.
  - rewrite (check_triggers_groups (cpu st)) by assumption. assumption.
Qed.

(** A trigger check that does not fire changes nothing. *)
Lemma check_triggers_quiet (s : RISCVCPUState) t addr :
  (check_triggers s t addr).1 = false -> check_triggers s t addr = (false, s).
Proof.
  unfold check_triggers. destruct (debug_mode s); [reflexivity|].
  generalize (t .| (MCONTROL_U << priv s)); intros mask. generalize 0.
  induction (Z.to_nat MAX_TRIGGERS) as [|n IH]; intros k; [reflexivity|]. cbn [check_triggers_from].
  destruct (_ && trigger_matches s k addr); [destruct (_ && _); discriminate|apply IH].
Qed.

Lemma with_cpu_eta st : with_cpu (cpu st) st = st.
Proof. destruct st. reflexivity. Qed.

Lemma check_triggers_m_quiet st t addr e :
  (check_triggers (cpu st) t addr).1 = false -> check_triggers_m t addr e st = (st, inl tt).
Proof.
  intros H. unfold check_triggers_m. rewrite (check_triggers_quiet _ _ _ H), with_cpu_eta. reflexivity.
Qed.

(** Untranslated: the address is passed through. *)
Lemma bare_translate st addr a : flat_state st -> a <> ACCESS_CODE ->
  riscv_cpu_get_phys_addr addr a st = (st, inl (inl addr)).
Proof.
  intros Hf Ha. unfold riscv_cpu_get_phys_addr, bind, getc, id.
  destruct (fs_bare _ Hf a Ha) as [-> | E]; [reflexivity|]. rewrite E.
  destruct (_ =? PRV_M); reflexivity.
Qed.

Lemma host_write_bytes_wf l : forall h a h', Forall (in_u 8) l -> bytes_wf h ->
  host_write_bytes h a l = Some h' -> bytes_wf h'.
Proof.
  induction l as [|b l IH]; intros h a h' Hl Hh H; cbn [host_write_bytes] in H; [injection H as <-; exact Hh|].
  inversion Hl; subst. destruct (h !! a); [|discriminate]. apply (IH _ _ _ ltac:(eassumption)) in H; [exact H|].
  apply map_Forall_insert_2; assumption.
Qed.

Lemma le_value_range l : Forall (in_u 8) l -> in_u (8 * Z.of_nat (length l)) (le_value l).
Proof.
  induction 1 as [|b l Hb Hl IH]; [split; reflexivity|]. cbn [le_value length].
  apply in_u_lor; [apply (in_u_weaken 8); [lia|exact Hb]|].
  unfold in_u in *. rewrite Z.shiftl_mul_pow2 by lia.
  replace (8 * Z.of_nat (S (length l))) with (8 * Z.of_nat (length l) + 8) by lia.
  rewrite Z.pow_add_r by lia. change (2 ^ 8) with 256 in *. lia.
Qed.

Lemma host_read_bytes_wf h n : forall a l, bytes_wf h -> host_read_bytes h n a = Some l ->
  Forall (in_u 8) l /\ length l = n.
Proof.
  induction n as [|n IH]; intros a l Hh H; cbn [host_read_bytes] in H; [injection H as <-; auto|].
  destruct (h !! a) eqn:Ea; [|discriminate]. destruct (host_read_bytes h n (a + 1)) eqn:E; [|discriminate].
  injection H as <-. apply IH in E as [H1 H2]; [|exact Hh]. split; [|cbn; lia].
  constructor; [exact (Hh _ _ Ea)|exact H1].
Qed.

Lemma host_load_range h n a v : bytes_wf h -> host_load h n a = Some v -> in_u (8 * Z.of_nat n) v.
Proof.
  intros Hh. unfold host_load. destruct (host_read_bytes h n a) as [l|] eqn:E; [|discriminate].
  intros H. injection H as <-. apply host_read_bytes_wf in E as [H1 <-]; [|exact Hh]. apply le_value_range, H1.
Qed.

(** Marking a page dirty does not move memory. *)
Lemma dirty_lookup map k off a : 0 <= k < Z.of_nat (length map) ->
  let map' := aset map k (phys_mem_set_dirty_bit (aget zero_range map k) off) in
  get_phys_mem_range map' a = get_phys_mem_range map a /\
  forall j, let r := aget zero_range map j in let r' := aget zero_range map' j in
    pr_addr r' = pr_addr r /\ pr_is_ram r' = pr_is_ram r /\ pr_phys_mem r' = pr_phys_mem r.
Proof.
  intros Hk. cbv zeta. set (pr := aget zero_range map k).
  assert (Hd : forall r o, pr_addr (phys_mem_set_dirty_bit r o) = pr_addr r /\
    pr_is_ram (phys_mem_set_dirty_bit r o) = pr_is_ram r /\
    pr_phys_mem (phys_mem_set_dirty_bit r o) = pr_phys_mem r /\
    pr_size (phys_mem_set_dirty_bit r o) = pr_size r).
  { intros r o. unfold phys_mem_set_dirty_bit. destruct (pr_dirty_bits r); repeat split. }
  assert (Hj : forall n, let r := nth n map zero_range in
     let r' := nth n (aset map k (phys_mem_set_dirty_bit pr off)) zero_range in
     pr_addr r' = pr_addr r /\ pr_is_ram r' = pr_is_ram r /\ pr_phys_mem r' = pr_phys_mem r /\ pr_size r' = pr_size r).
  { intros n. cbv zeta. rewrite <- (Nat2Z.id n). change (nth (Z.to_nat (Z.of_nat n)) ?l zero_range) with (aget zero_range l (Z.of_nat n)).
    destruct (Z.eq_dec k (Z.of_nat n)) as [<-|E]; [rewrite aget_aset_eq by lia; apply Hd|].
    rewrite aget_aset_ne by lia. repeat split. }
  split.
  - unfold get_phys_mem_range. rewrite aset_length. generalize (length map). intros n. induction n as [|n IH]; [reflexivity|].
    cbn [get_phys_mem_range_from]. unfold range_contains. destruct (Hj n) as (-> & _ & _ & ->). rewrite IH. reflexivity.
  - intros j. unfold aget. destruct (Hj (Z.to_nat j)) as (-> & -> & -> & _). repeat split.
Qed.

(** [t'] is [t], possibly with a page entered. *)
Definition refilled (st : St) (t t' : list TLBEntry) : Prop :=
  t' = t \/ exists addr p, in_u 64 addr /\ host_of st addr = Some p /\
    t' = aset t (tlb_index addr) (mkTLBEntry (addr .&~ PG_MASK) (u64 (p - addr))).

Lemma refilled_coherent st st' t t' : page_uniform (mem_map (mach st)) -> length t = 256%nat ->
  same_env st st' -> refilled st t t' -> coherent st t -> length t' = 256%nat /\ coherent st' t'.
Proof.
  intros Hu Hl He Hr Hc.
  assert (H : length t' = 256%nat /\ coherent st t').
  { destruct Hr as [-> | (addr & p & Ha & Hp & ->)]; [auto|]. split; [rewrite aset_length; exact Hl|].
    apply coherent_fill; assumption. }
  destruct H as [H1 H2]. split; [exact H1|]. intros a Ha. cbv zeta. rewrite (se_host _ _ He). apply H2, Ha.
Qed.

Lemma flat_state_step st st' : flat_state st -> same_env st st' ->
  page_uniform (mem_map (mach st')) -> bytes_wf (hmem (mach st')) ->
  refilled st (tlb_read (cpu st)) (tlb_read (cpu st')) ->
  refilled st (tlb_write (cpu st)) (tlb_write (cpu st')) -> flat_state st'.
Proof.
  intros [] He Hu Hb Hr Hw.
  destruct (refilled_coherent _ _ _ _ fs_uniform0 fs_rlen0 He Hr fs_read0).
  destruct (refilled_coherent _ _ _ _ fs_uniform0 fs_wlen0 He Hw fs_write0).
  split; try assumption. intros a Ha. unfold walk_priv.
  rewrite (se_priv _ _ He), (se_mcsr _ _ He), (se_scsr _ _ He). exact (fs_bare0 a Ha).
Qed.

Lemma size_shift k : 0 <= k <= 3 -> access_bytes (1 << k) /\ Z.of_nat (Z.to_nat (1 << k)) = 1 << k /\ 0 < 1 << k.
Proof.
  intros Hk. rewrite Z.shiftl_1_l.
  assert (k = 0 \/ k = 1 \/ k = 2 \/ k = 3) as [-> | [-> | [-> | ->]]] by lia;
    (split; [unfold access_bytes; lia|split; reflexivity]).
Qed.

Section FlatAccess.
Context {Bus : DeviceBus}.

Lemma track_dread_spec vaddr paddr data size en st : exists t,
  track_dread vaddr paddr data size en st = (with_cpu (with_trk (cpu st) t) st, inl data).
Proof. unfold track_dread. destruct (_ && _ && _ && _); eexists; reflexivity. Qed.

Lemma track_write_spec vaddr paddr data size en st : exists t,
  track_write vaddr paddr data size en st = (with_cpu (with_trk (cpu st) t) st, inl tt).
Proof. unfold track_write. destruct (_ && _ && _); eexists; reflexivity. Qed.

Lemma host_of_range st addr p : host_of st addr = Some p ->
  exists k, get_phys_mem_range (mem_map (mach st)) addr = Some k /\
    pr_is_ram (the_range st k) = true /\ p = range_ptr (the_range st k) addr.
Proof.
  unfold host_of. destruct (get_phys_mem_range _ addr) as [k|]; [|discriminate].
  destruct (pr_is_ram (the_range st k)) eqn:E; [|discriminate]. intros H. injection H as <-. eauto.
Qed.

Lemma flat_read st k addr p v : flat_state st -> plain_access st k addr PMPCFG_R MCONTROL_LOAD ->
  host_of st addr = Some p -> host_load (hmem (mach st)) (Z.to_nat (1 << k)) p = Some v ->
  exists st', target_read k addr st = (st', inl v) /\ same_env st st' /\
    hmem (mach st') = hmem (mach st) /\ flat_state st' /\ hr (cpu st') = hr (cpu st) /\ lc st' = lc st /\
    ctl (cpu st') = ctl (cpu st) /\ memseqno (mach st') = memseqno (mach st).
Proof.
  intros Hf [Hk Ha Hal Hpmp Ht] Hp Hv. destruct (size_shift k Hk) as (Hn & En & _).
  unfold target_read, bind at 1. rewrite (check_triggers_m_quiet _ _ _ _ Ht). cbv beta iota zeta.
  rewrite Hal. cbn [nz Z.eqb negb]. unfold bind at 1, getc, id. cbv beta iota zeta.
  rewrite tlb_tag_aligned by assumption.
  destruct (Z.eqb_spec (te_vaddr (tlb_get (tlb_read (cpu st)) (tlb_index addr))) (addr .&~ PG_MASK)) as [Eh|Eh].
  - pose proof (fs_read _ Hf addr Ha Eh) as E. rewrite Hp in E. injection E as <-.
    unfold hload, bind, gets, id, from_option. rewrite Hv. unfold ret.
    destruct (track_dread_spec addr (u64 (aget 0 (tlb_read_paddr_addend (cpu st)) (tlb_index addr) + addr)) v ((1 << k) * 8) true st) as [t ->].
    eexists. split; [reflexivity|].
    assert (He : same_env st (with_cpu (with_trk (cpu st) t) st)) by (split; reflexivity).
    split; [exact He|]. split; [reflexivity|]. split; [|repeat split; reflexivity]. destruct Hf.
    apply (flat_state_step st); try assumption; [split; assumption|left; reflexivity..].
  - unfold riscv_cpu_read_memory. rewrite Hal. cbn [nz Z.eqb negb]. unfold bind at 1, bind at 1.
    rewrite bare_translate by (assumption || discriminate). cbv beta iota. unfold bind at 1, gets, id.
    unfold get_phys_mem_range_pmp. rewrite Hpmp.
    destruct (host_of_range _ _ _ Hp) as (j & -> & Hram & ->). rewrite Hram.
    unfold modc, hload, bind, gets, id, from_option. cbv beta iota zeta.
    change (mach (with_cpu ?c st)) with (mach st). rewrite Hv. unfold ret.
    match goal with |- context [track_dread ?a ?b ?c ?d ?e ?s] => destruct (track_dread_spec a b c d e s) as [t ->] end.
    pose proof (host_load_range _ _ _ _ (fs_bytes _ Hf) Hv) as Hr. rewrite En in Hr.
    rewrite (u_small _ _ Hr). eexists. split; [reflexivity|].
    match goal with |- same_env _ ?s /\ _ => assert (He : same_env st s) by (split; reflexivity) end.
    split; [exact He|]. split; [reflexivity|]. split; [|repeat split; reflexivity].
    apply (flat_state_step st); [assumption|assumption|apply Hf|apply Hf| |left; reflexivity].
    right. exists addr, (range_ptr (the_range st j) addr). split; [exact Ha|]. split; [exact Hp|]. reflexivity.
Qed.

(** The dirty bit of a page of RAM is set: the space stays as it is. *)
Lemma dirty_same_space st j off addr : get_phys_mem_range (mem_map (mach st)) addr = Some j ->
  let map' := aset (mem_map (mach st)) j (phys_mem_set_dirty_bit (the_range st j) off) in
  (forall st', mem_map (mach st') = map' -> forall a, host_of st' a = host_of st a) /\
  (page_uniform (mem_map (mach st)) -> page_uniform map').
Proof.
  intros Hj. cbv zeta. unfold get_phys_mem_range in Hj. apply get_from_spec in Hj as (Hr & _).
  pose proof (fun a => dirty_lookup (mem_map (mach st)) j off a Hr) as Hd. split.
  - intros st' E a. unfold host_of, range_ptr, the_range at 1 2 3 4. rewrite E. fold (the_range st j) in Hd.
    destruct (Hd a) as [-> Hf]. destruct (get_phys_mem_range (mem_map (mach st)) a) as [i|]; [|reflexivity].
    destruct (Hf i) as (-> & -> & ->). reflexivity.
  - intros Hu a b Ha Hb Hp. fold (the_range st j) in Hd. rewrite (proj1 (Hd a)), (proj1 (Hd b)). exact (Hu a b Ha Hb Hp).
Qed.

Lemma flat_write st k addr p v h : flat_state st -> plain_access st k addr PMPCFG_W MCONTROL_STORE ->
  host_of st addr = Some p -> host_store (hmem (mach st)) (Z.to_nat (1 << k)) p v = Some h ->
  exists st', target_write k addr v st = (st', inl tt) /\ same_env st st' /\
    hmem (mach st') = h /\ flat_state st' /\ hr (cpu st') = hr (cpu st) /\ lc st' = lc st /\
    load_res (cpu st') = load_res (cpu st) /\
    load_res_memseqno (cpu st') = u64 (load_res_memseqno (cpu st) + 1) /\
    memseqno (mach st') = u64 (memseqno (mach st) + 1).
Proof.
  intros Hf [Hk Ha Hal Hpmp Ht] Hp Hv. destruct (size_shift k Hk) as (Hn & En & _).
  assert (Hb : bytes_wf h) by exact (host_write_bytes_wf _ _ _ _ (le_bytes_wf _ _) (fs_bytes _ Hf) Hv).
  unfold host_store in Hv. rewrite <- le_bytes_uN, En in Hv. fold (host_store (hmem (mach st)) (Z.to_nat (1 << k)) p (uN (8 * (1 << k)) v)) in Hv.
  unfold target_write, bind at 1. rewrite (check_triggers_m_quiet _ _ _ _ Ht). cbv beta iota zeta.
  rewrite Hal. cbn [nz Z.eqb negb]. unfold bind at 1, getc, id. cbv beta iota zeta.
  rewrite tlb_tag_aligned by assumption.
  destruct (Z.eqb_spec (te_vaddr (tlb_get (tlb_write (cpu st)) (tlb_index addr))) (addr .&~ PG_MASK)) as [Eh|Eh].
  - pose proof (fs_write _ Hf addr Ha Eh) as E. rewrite Hp in E. injection E as <-.
    unfold hstore, bind, gets, id, from_option. rewrite Hv. unfold ret, bump_memseqno, bind, modm, modc. cbv beta iota.
    match goal with |- context [track_write ?a ?b ?c ?d ?e ?s] => destruct (track_write_spec a b c d e s) as [t ->] end.
    eexists. split; [reflexivity|].
    match goal with |- same_env _ ?s /\ _ => assert (He : same_env st s) by (split; reflexivity) end.
    split; [exact He|]. split; [reflexivity|]. split; [|repeat split; reflexivity].
    apply (flat_state_step st); [assumption|assumption|apply Hf|exact Hb|left; reflexivity..].
  - unfold riscv_cpu_write_memory. rewrite Hal. cbn [nz Z.eqb negb]. unfold bind at 1.
    rewrite bare_translate by (assumption || discriminate). cbv beta iota. unfold bind at 1, gets, id.
    unfold get_phys_mem_range_pmp. rewrite Hpmp.
    destruct (host_of_range _ _ _ Hp) as (j & Ej & Hram & ->). rewrite Ej, Hram.
    destruct (dirty_same_space st j (addr - pr_addr (the_range st j)) addr Ej) as [Hsame Huni].
    unfold modm, modc, hstore, bind, gets, id, from_option. cbv beta iota zeta.
    match goal with |- context [host_store (hmem ?m) _ _ _] => change (hmem m) with (hmem (mach st)) end.
    rewrite Hv. unfold ret, bump_memseqno, bind, modm, modc. cbv beta iota.
    match goal with |- context [track_write ?a ?b ?c ?d ?e ?s] => destruct (track_write_spec a b c d e s) as [t ->] end.
    eexists. split; [reflexivity|].
    match goal with |- same_env _ ?s /\ _ =>
      assert (He : same_env st s) by (split; try reflexivity; exact (Hsame s eq_refl)) end.
    split; [exact He|]. split; [reflexivity|]. split; [|repeat split; reflexivity].
    apply (flat_state_step st); [assumption|assumption|exact (Huni (fs_uniform _ Hf))|exact Hb|left; reflexivity|].
    right. exists addr, (range_ptr (the_range st j) addr). split; [exact Ha|]. split; [exact Hp|]. reflexivity.
Qed.

End FlatAccess.

(** Changes outside what accesses depend on. *)
Lemma quiet_flat st st' : same_env st st' -> mach st' = mach st -> tlbs (cpu st') = tlbs (cpu st) ->
  flat_state st -> flat_state st'.
Proof.
  intros He Hm Ht Hf. destruct Hf. apply (flat_state_step st); try assumption; rewrite ?Hm; try assumption;
    [split; assumption|left; rewrite Ht; reflexivity..].
Qed.

(** Reading a register records the read, at most. *)
Lemma read_reg_spec x st : exists t,
  read_reg x st = (with_cpu (with_trk (cpu st) t) st, inl (aget 0 (reg (cpu st)) x)).
Proof.
  unfold read_reg. destruct (stf_in_traceable_region (mach st)); [eexists; reflexivity|].
  exists (trk (cpu st)). destruct st as [[] ? ?]. reflexivity.
Qed.

(** Programs of loads and stores, run by the accessors and by a flat memory
    that has neither TLBs nor ranges: [loc] gives the place of an address. *)
Inductive mem_op := Load (k addr : Z) | Store (k addr v : Z).

Fixpoint run_ops {Bus : DeviceBus} (l : list mem_op) : M (list Z) :=
  match l with
  | [] => ret []
  | Load k a :: l' => let! v := target_read k a in let! vs := run_ops l' in ret (v :: vs)
  | Store k a v :: l' => target_write k a v ;; run_ops l'
  end.

Fixpoint flat_run (loc : Z -> option Z) (h : gmap Z Z) (l : list mem_op) : option (gmap Z Z * list Z) :=
  match l with
  | [] => Some (h, [])
  | Load k a :: l' =>
      match loc a with
      | Some p => match host_load h (Z.to_nat (1 << k)) p, flat_run loc h l' with
                  | Some v, Some (h', vs) => Some (h', v :: vs)
                  | _, _ => None
                  end
      | None => None
      end
  | Store k a v :: l' =>
      match loc a with
      | Some p => match host_store h (Z.to_nat (1 << k)) p v with
                  | Some h' => flat_run loc h' l'
                  | None => None
                  end
      | None => None
      end
  end.

Definition allowed (st : St) (o : mem_op) : Prop :=
  match o with
  | Load k a => plain_access st k a PMPCFG_R MCONTROL_LOAD
  | Store k a _ => plain_access st k a PMPCFG_W MCONTROL_STORE
  end.

Lemma allowed_env st st' o : same_env st st' -> allowed st o -> allowed st' o.
Proof. destruct o; apply plain_access_env. Qed.

Lemma flat_run_ext loc loc' l : (forall a, loc' a = loc a) -> forall h, flat_run loc' h l = flat_run loc h l.
Proof.
  intros E. induction l as [|[k a|k a v] l IH]; intros h; cbn [flat_run]; [reflexivity|rewrite E..].
  - destruct (loc a); [|reflexivity]. rewrite IH. reflexivity.
  - destruct (loc a); [|reflexivity]. destruct (host_store _ _ _ _); [apply IH|reflexivity].
Qed.

(** C20. The memory accessors refine a flat memory: with untranslated data
    accesses, any sequence of aligned and permitted loads and stores returns
    the values, and leaves the memory, that the same sequence has on a memory
    without TLBs, whatever the TLBs hold as long as they are coherent, and
    whether each access takes the fast or the slow path. *)
Theorem memory_refines_flat {Bus : DeviceBus} (ops : list mem_op) : forall st h vs,
  flat_state st -> Forall (allowed st) ops ->
  flat_run (host_of st) (hmem (mach st)) ops = Some (h, vs) ->
  exists st', run_ops ops st = (st', inl vs) /\ hmem (mach st') = h /\ flat_state st'.
Proof.
  induction ops as [|[k a|k a v] ops IH]; intros st h vs Hf Ha Hr; cbn [flat_run run_ops] in *.
  - injection Hr as <- <-. exists st. split; [reflexivity|]. split; [reflexivity|exact Hf].
  - inversion Ha as [|? ? Ho Hl]; subst. destruct (host_of st a) as [p|] eqn:Ep; [|discriminate].
    destruct (host_load _ _ p) as [w|] eqn:Ew; [|discriminate].
    destruct (flat_run _ _ ops) as [[h' vs']|] eqn:Er; [|discriminate]. injection Hr as <- <-.
    destruct (flat_read _ _ _ _ _ Hf Ho Ep Ew) as (st1 & E1 & He & Eh & Hf1 & _).
    rewrite <- (flat_run_ext _ _ ops (se_host _ _ He)), <- Eh in Er.
    destruct (IH _ _ _ Hf1 (List.Forall_impl _ (fun o => allowed_env _ _ o He) Hl) Er) as (st2 & E2 & Eh2 & Hf2).
    exists st2. unfold bind. rewrite E1, E2. split; [reflexivity|]. split; assumption.
  - inversion Ha as [|? ? Ho Hl]; subst. destruct (host_of st a) as [p|] eqn:Ep; [|discriminate].
    destruct (host_store _ _ p v) as [h1|] eqn:Ew; [|discriminate].
    destruct (flat_write _ _ _ _ _ _ Hf Ho Ep Ew) as (st1 & E1 & He & Eh & Hf1 & _).
    rewrite <- (flat_run_ext _ _ ops (se_host _ _ He)), <- Eh in Hr.
    destruct (IH _ _ _ Hf1 (List.Forall_impl _ (fun o => allowed_env _ _ o He) Hl) Hr) as (st2 & E2 & Eh2 & Hf2).
    exists st2. unfold bind. rewrite E1. split; [exact E2|]. split; assumption.
Qed.

(** *** Establishing the hypotheses on a concrete machine *)

Definition page_ranges (map : list PhysMemoryRange) : bool :=
  forallb (fun pr => (pr_addr pr mod 2 ^ 12 =? 0) && (u64 (pr_addr pr + pr_size pr) mod 2 ^ 12 =? 0)) map.

Lemma page_le b x y : b mod 2 ^ 12 = 0 -> x .&~ PG_MASK = y .&~ PG_MASK -> (b <=? x) = (b <=? y).
Proof.
  intros Hb H. change PG_MASK with (Z.ones 12) in H. rewrite !Z.ldiff_ones_r, !Z.shiftl_mul_pow2, !Z.shiftr_div_pow2 in H by lia.
  pose proof (Z.div_mod x (2 ^ 12) ltac:(lia)). pose proof (Z.div_mod y (2 ^ 12) ltac:(lia)).
  pose proof (Z.div_mod b (2 ^ 12) ltac:(lia)). pose proof (Z.mod_pos_bound x (2 ^ 12) ltac:(lia)).
  pose proof (Z.mod_pos_bound y (2 ^ 12) ltac:(lia)).
  destruct (Z.leb_spec b x), (Z.leb_spec b y); try reflexivity; nia.
Qed.

Lemma page_ranges_uniform map : page_ranges map = true -> page_uniform map.
Proof.
  intros Hm a b _ _ Hp. apply get_from_ext. intros j Hj. unfold range_contains.
  assert (Hin : In (aget zero_range map j) map) by (apply nth_In; lia).
  unfold page_ranges in Hm. rewrite forallb_forall in Hm. apply Hm in Hin. bool_hyps.
  rewrite !Z.ltb_antisym, (page_le _ a b) by assumption. f_equal. f_equal. apply page_le; assumption.
Qed.

Lemma empty_coherent st tlb : forallb (fun e => te_vaddr e =? TLB_EMPTY) tlb = true -> coherent st tlb.
Proof.
  intros Hm a Ha. cbv zeta. intros H. exfalso. apply (page_tag_not_empty a). rewrite <- H.
  unfold tlb_get, aget. destruct (nth_in_or_default (Z.to_nat (tlb_index a)) tlb (mkTLBEntry TLB_EMPTY 0)) as [Hin | ->];
    [|reflexivity]. rewrite forallb_forall in Hm. apply Z.eqb_eq, Hm, Hin.
Qed.

Lemma bytes_wf_check h :
  forallb (fun kb => (0 <=? kb.2) && (kb.2 <? 2 ^ 8)) (map_to_list h) = true -> bytes_wf h.
Proof.
  intros H k b Hk. rewrite forallb_forall in H. apply elem_of_map_to_list, list_elem_of_In, H in Hk.
  cbn in Hk. bool_hyps. split; assumption.
Qed.

Lemma demo_flat : flat_state demo.
Proof.
  split.
  - apply page_ranges_uniform. reflexivity.
  - apply bytes_wf_check. vm_compute. reflexivity.
  - reflexivity.
  - reflexivity.
  - apply empty_coherent. vm_compute. reflexivity.
  - apply empty_coherent. vm_compute. reflexivity.
  - intros a _. right. reflexivity.
Qed.

(** A store in a fresh page, a store through the filled TLB entry, two loads. *)
Lemma memory_refines_flat_witness : exists st',
  @run_ops no_bus [Store 2 0x80000008 0x112345678; Store 0 0x80000009 0xff; Load 2 0x80000008; Load 0 0x8000000a] demo
    = (st', inl [0x1234ff78; 0x34]) /\
  hmem (mach st') !! 0x1009 = Some 0xff.
Proof.
  destruct (@memory_refines_flat no_bus [Store 2 0x80000008 0x112345678; Store 0 0x80000009 0xff; Load 2 0x80000008; Load 0 0x8000000a]
    demo (<[0x1009 := 0xff]> (<[0x100b := 0x12]> (<[0x100a := 0x34]> (<[0x1008 := 0x78]> demo_memory))))
    [0x1234ff78; 0x34] demo_flat) as (st' & H1 & H2 & _).
  - repeat constructor; vm_compute; congruence.
  - vm_compute. reflexivity.
  - exists st'. rewrite H2. split; [exact H1|]. reflexivity.
Defined.

Lemma flush_misses_witness :
  access_bytes 8 /\
  te_vaddr (tlb_get (tlb_read (tlb_flush_all demo_hart)) (tlb_index 0x80000008)) <> tlb_tag 8 0x80000008.
Proof.
  split; [right; right; right; reflexivity|].
  apply (flush_misses demo_hart 0x80000008 8). right; right; right; reflexivity.
Defined.

(** A supervisor-mode hart with an Sv39 table of one gigapage, behind one PMP
    entry that grants everything. *)
Definition demo_sv39 : St :=
  let s := set_csr_pmpcfg (aset (csr_pmpcfg demo_hart) 0 0x1f)
           (set_csr_pmpaddr (aset (csr_pmpaddr demo_hart) 0 (2 ^ 54 - 1))
           (set_satp (u64 (8 << 60) .| 0x80000) demo_hart)) in
  mkSt (set_priv (unpack_pmpaddrs s) PRV_S)
    (set_hmem (list_to_map (zip (map (fun k => 0x1000 + Z.of_nat k) (seq 0 16))
       (le_bytes 8 ((0x80000 << 10) .| 0xcf) ++ repeat 0 8))) (mach demo)) (lc demo).

