(* ===== verification/Snapshot.v ===== *)
(** * The recovery boot ROM

    [create_boot_rom] of [src/riscv_cpu.cpp] and the encoders and block
    builders it calls: the program that a checkpoint stores in the boot ROM and
    that rebuilds the state of the hart when it runs.  The array [rom] and the
    two positions are a record; a write outside the array, undefined behaviour,
    and the error exits are [None].  Writing the file is the caller's.

    The theorems: the ROM always fits, whatever the hart holds; the block that
    restores a register, run by the interpreter's instructions on a machine
    that holds the ROM, loads the saved value into that register and changes no
    other; and a block that restores a CSR leaves the saved value in x1 for its
    final [csrrw]. *)

From S2P Require Import Prelude RiscvDefs State IoMem Tlb Pmp Mmu Csr Trap Alu SoftFp Exec ExecFp Vector Stf Interp HartInv Frame InterpInv Devices Machine Translate.
Open Scope Z_scope.
Open Scope c_scope.
Open Scope m_scope.

(** ** Instruction encoders *)

Definition create_csrrw (rs csrn : Z) : Z :=
  u32 (0x1073 .| ((csrn .& 0xFFF) << 20) .| ((rs .& 0x1F) << 15)).

Definition create_csrrs (rd csrn : Z) : Z :=
  u32 (0x2073 .| ((csrn .& 0xFFF) << 20) .| ((rd .& 0x1F) << 7)).

Definition create_auipc (rd addr : Z) : Z :=
  let addr := if addr has 0x800 then u32 (addr + 0x800) else addr in
  u32 (0x17 .| ((rd .& 0x1F) << 7) .| ((addr >> 12) << 12)).

Definition create_addi (rd addr : Z) : Z :=
  let pos := addr .& 0xFFF in
  u32 (0x13 .| ((rd .& 0x1F) << 7) .| ((rd .& 0x1F) << 15) .| ((pos .& 0xFFF) << 20)).

Definition create_seti (rd data : Z) : Z :=
  u32 (0x13 .| ((rd .& 0x1F) << 7) .| ((data .& 0xFFF) << 20)).

Definition create_ld (rd rs1 : Z) : Z :=
  u32 (3 .| ((rd .& 0x1F) << 7) .| (3 << 12) .| ((rs1 .& 0x1F) << 15)).

Definition create_sd (rs1 rs2 : Z) : Z :=
  u32 (0x23 .| ((rs2 .& 0x1F) << 20) .| (3 << 12) .| ((rs1 .& 0x1F) << 15)).

Definition create_fld (rd rs1 : Z) : Z :=
  u32 (7 .| ((rd .& 0x1F) << 7) .| (0x3 << 12) .| ((rs1 .& 0x1F) << 15)).

(** ** The ROM under construction *)

Record Rom := mkRom { rom : list Z; code_pos : Z; data_pos : Z }.

(** A builder step: [None] when it writes outside [rom]. *)
Definition B := Rom -> option Rom.

Definition seqB (f g : B) : B := fun r => match f r with Some r' => g r' | None => None end.

Declare Scope rom_scope.
Delimit Scope rom_scope with rom.
Notation "f +> g" := (seqB f g) (at level 65, right associativity) : rom_scope.

Definition rom_set (rom : list Z) (pos v : Z) : option (list Z) :=
  if pos <? Z.of_nat (length rom) then Some (aset rom pos (u32 v)) else None.

(** [rom[( *code_pos)++] = w] *)
Definition code (w : Z) : B := fun r =>
  match rom_set (rom r) (code_pos r) w with
  | Some m => Some (mkRom m (u32 (code_pos r + 1)) (data_pos r))
  | None => None
  end.

(** [rom[( *data_pos)++] = w] *)
Definition data (w : Z) : B := fun r =>
  match rom_set (rom r) (data_pos r) w with
  | Some m => Some (mkRom m (code_pos r) (u32 (data_pos r + 1)))
  | None => None
  end.

(** [rom[..] = val & 0xFFFFFFFF; rom[..] = val >> 32] *)
Definition data64 (val : Z) : B := (data (val .& 0xFFFFFFFF) +> data (val >> 32))%rom.

(** [sizeof(uint32_t) * ( *data_pos - *code_pos)] *)
Definition data_off (r : Rom) : Z := u32 (4 * (data_pos r - code_pos r)).

Open Scope rom_scope.

Definition create_csr12_recovery (csrn val : Z) : B :=
  code (create_seti 1 (val .& 0xFFF)) +> code (create_csrrw 1 csrn).

Definition create_csr64_recovery (csrn val : Z) : B := fun r =>
  let off := data_off r in
  (code (create_auipc 1 off) +> code (create_addi 1 off) +> code (create_ld 1 1) +>
   code (create_csrrw 1 csrn) +> data64 val) r.

Definition create_reg_recovery (rn val : Z) : B := fun r =>
  let off := data_off r in
  (code (create_auipc rn off) +> code (create_addi rn off) +> code (create_ld rn rn) +> data64 val) r.

Definition create_io64_recovery (addr val : Z) : B := fun r =>
  let off := data_off r in
  (code (create_auipc 1 off) +> code (create_addi 1 off) +> code (create_ld 1 1) +> data64 addr +>
   (fun r =>
      let off2 := data_off r in
      (code (create_auipc 2 off2) +> code (create_addi 2 off2) +> code (create_ld 2 2) +>
       code (create_sd 1 2) +> data64 val) r)) r.

Definition create_hang_nonzero_hart : B :=
  code 0xf1402573 +> code 0x00050663 +> code 0x10500073 +> code 0xffdff06f.

(** [for (int i = lo; i < lo + n; i++) body(i);] *)
Fixpoint for_rom (n : nat) (lo : Z) (body : Z -> B) : B :=
  match n with
  | O => Some
  | S n' => body lo +> for_rom n' (lo + 1) body
  end.

(** The floating-point register block of the loop in [create_boot_rom]. *)
Definition fp_recovery (s : RISCVCPUState) (i : Z) : B := fun r =>
  let off := data_off r in
  (code (create_auipc 1 off) +> code (create_addi 1 off) +> code (create_fld i 1) +>
   data (u32 (aget 0 (fp_reg s) i)) +> data (aget 0 (reg s) i >> 32)) r.

Definition when_rom (b : bool) (f : B) : B := if b then f else Some.

(** The CSRs written before the general registers. *)
Definition csr_blocks (s : RISCVCPUState) : B :=
  create_csr64_recovery 0x302 (medeleg s) +>
  create_csr64_recovery 0x303 (mideleg s) +>
  create_csr64_recovery 0x304 (mie s) +>
  create_csr64_recovery 0x305 (mtvec s) +>
  create_csr64_recovery 0x105 (stvec s) +>
  create_csr12_recovery 0x320 (u16 (mcountinhibit s)) +>
  create_csr12_recovery 0x306 (u16 (mcounteren s)) +>
  create_csr12_recovery 0x106 (u16 (scounteren s)) +>
  for_rom 16 0 (fun i => create_csr64_recovery (CSR_PMPADDR i) (aget 0 (csr_pmpaddr s) i)) +>
  create_csr64_recovery (CSR_PMPCFG 0) (aget 0 (csr_pmpcfg s) 0) +>
  create_csr64_recovery (CSR_PMPCFG 2) (aget 0 (csr_pmpcfg s) 2) +>
  create_csr64_recovery 0x340 (mscratch s) +>
  create_csr64_recovery 0x341 (mepc s) +>
  create_csr64_recovery 0x342 (mcause s) +>
  create_csr64_recovery 0x343 (mtval s) +>
  create_csr64_recovery 0x140 (sscratch s) +>
  create_csr64_recovery 0x141 (sepc s) +>
  create_csr64_recovery 0x142 (scause s) +>
  create_csr64_recovery 0x143 (stval s) +>
  create_csr64_recovery 0x344 (mip s).

Definition fp_blocks (s : RISCVCPUState) : B :=
  create_csr12_recovery 0x001 (u16 (fflags s)) +>
  create_csr12_recovery 0x002 (u16 (frm s)) +>
  create_csr12_recovery 0x003 (u16 (fflags s .| (frm s << 5))) +>
  for_rom 32 0 (fp_recovery s).

Definition hpm_blocks (s : RISCVCPUState) : B :=
  for_rom 29 3 (fun i =>
    create_csr12_recovery (0xb00 + i) 0 +>
    create_csr64_recovery (0x320 + i) (aget 0 (mhpmevent s) i)) +>
  create_csr64_recovery 0x7a0 (tselect s).

(** The body of [create_boot_rom] up to the size check. *)
Definition boot_rom_blocks (s : RISCVCPUState) (ncpus clint_base_addr : Z) : B :=
  when_rom (ncpus =? 1) create_hang_nonzero_hart +>
  create_csr64_recovery 0x7b1 (pc s) +>
  create_csr12_recovery 0x7b0 (u16 (0x600 .| priv s)) +>
  create_csr64_recovery 0x300 (get_mstatus s (u64 (-1))) +>
  create_csr64_recovery 0x301 (misa s .| u64 (2 << 62)) +>
  when_rom (nz (fs s)) (fp_blocks s) +>
  hpm_blocks s +>
  csr_blocks s +>
  for_rom 29 3 (fun i => create_reg_recovery i (aget 0 (reg s) i)) +>
  create_io64_recovery (u64 (clint_base_addr + 0x4000)) (timecmp s) +>
  create_csr64_recovery 0xb02 (minstret s) +>
  create_csr64_recovery 0xb00 (mcycle s) +>
  create_io64_recovery (u64 (clint_base_addr + 0xbff8)) (mcycle s / RTC_FREQ_DIV) +>
  for_rom 2 1 (fun i => create_reg_recovery i (aget 0 (reg s) i)) +>
  code (create_csrrw 1 0x7b2) +>
  create_csr64_recovery 0x180 (satp s) +>
  code (create_csrrs 1 0x7b2) +>
  code 0x7b200073.

Definition rom_start : Rom :=
  mkRom (repeat 0 (Z.to_nat (ROM_SIZE / 4))) ((BOOT_BASE_ADDR - ROM_BASE_ADDR) / 4) (0xB00 / 4).

(** [create_boot_rom]: the words serialised into the file. *)
Definition create_boot_rom (s : RISCVCPUState) (ncpus clint_base_addr : Z) : option (list Z) :=
  if priv s =? 2 then None
  else
    match boot_rom_blocks s ncpus clint_base_addr rom_start with
    | Some r =>
        if (ROM_SIZE / 4 <=? data_pos r) || (0xB00 / 4 <=? code_pos r) then None
        else Some (rom r)
    | None => None
    end.

(** ** Positions *)

Definition ROM_WORDS := ROM_SIZE / 4.

(** [f] writes [dc] words of code and [dd] words of data, and no other word. *)
Definition emits (f : B) (dc dd : Z) : Prop := forall r,
  Z.of_nat (length (rom r)) = ROM_WORDS -> 0 <= code_pos r -> code_pos r + dc <= ROM_WORDS ->
  0 <= data_pos r -> data_pos r + dd <= ROM_WORDS ->
  exists r', f r = Some r' /\ Z.of_nat (length (rom r')) = ROM_WORDS /\
    code_pos r' = code_pos r + dc /\ data_pos r' = data_pos r + dd /\
    (forall i, 0 <= i -> ~ code_pos r <= i < code_pos r + dc -> ~ data_pos r <= i < data_pos r + dd ->
       aget 0 (rom r') i = aget 0 (rom r) i).

Lemma rom_set_in m pos w : 0 <= pos < Z.of_nat (length m) -> rom_set m pos w = Some (aset m pos (u32 w)).
Proof. intros H. unfold rom_set. destruct (Z.ltb_spec pos (Z.of_nat (length m))); [reflexivity|lia]. Qed.

Lemma rom_pos x : 0 <= x -> x + 1 <= ROM_WORDS -> u32 (x + 1) = x + 1.
Proof. intros. apply u_small. change ROM_WORDS with 2048 in *. unfold in_u. lia. Qed.

Lemma emits_code w : emits (code w) 1 0.
Proof.
  intros r Hl H1 H2 H3 H4. unfold code. rewrite rom_set_in by lia. eexists. split; [reflexivity|]. cbn.
  rewrite aset_length, rom_pos by lia. split; [lia|]. split; [lia|]. split; [lia|].
  intros i Hi Hc _. apply aget_aset_ne; lia.
Qed.

Lemma emits_data w : emits (data w) 0 1.
Proof.
  intros r Hl H1 H2 H3 H4. unfold data. rewrite rom_set_in by lia. eexists. split; [reflexivity|]. cbn.
  rewrite aset_length, rom_pos by lia. split; [lia|]. split; [lia|]. split; [lia|].
  intros i Hi _ Hc. apply aget_aset_ne; lia.
Qed.

Lemma emits_none : emits Some 0 0.
Proof. intros r Hl H1 H2 H3 H4. exists r. repeat split; lia. Qed.

Lemma emits_seq f g a b c d : 0 <= a -> 0 <= b -> 0 <= c -> 0 <= d ->
  emits f a b -> emits g c d -> emits (f +> g) (a + c) (b + d).
Proof.
  intros Ha Hb Hc Hd Hf Hg r Hl H1 H2 H3 H4. destruct (Hf r) as (r1 & E1 & L1 & C1 & D1 & K1); try lia.
  destruct (Hg r1) as (r2 & E2 & L2 & C2 & D2 & K2); try lia.
  exists r2. unfold seqB. rewrite E1. split; [exact E2|]. split; [lia|]. split; [lia|]. split; [lia|].
  intros i Hi Hic Hid. rewrite K2, K1 by lia. reflexivity.
Qed.

(** A block that first looks at the positions. *)
Lemma emits_here (f : Rom -> B) a b : (forall r, emits (f r) a b) -> emits (fun r => f r r) a b.
Proof. intros H r. apply H. Qed.

Lemma emits_eq f a b a' b' : emits f a b -> a = a' -> b = b' -> emits f a' b'.
Proof. intros H -> ->. exact H. Qed.

Lemma emits_for n : forall lo body a b, 0 <= a -> 0 <= b -> (forall i, emits (body i) a b) ->
  emits (for_rom n lo body) (Z.of_nat n * a) (Z.of_nat n * b).
Proof.
  induction n as [|n IH]; intros lo body a b Ha Hb H; cbn [for_rom]; [apply emits_none|].
  eapply emits_eq; [apply emits_seq; [| | | |apply H|apply IH; [exact Ha|exact Hb|exact H]]|lia|lia]; nia.
Qed.

Create HintDb rom.
#[export] Hint Resolve emits_code emits_data emits_none : rom.

Lemma emits_data64 v : emits (data64 v) 0 2.
Proof. apply (emits_seq _ _ 0 1 0 1); (lia || apply emits_data). Qed.
#[export] Hint Resolve emits_data64 : rom.

Lemma emits_csr12 csrn v : emits (create_csr12_recovery csrn v) 2 0.
Proof. apply (emits_seq _ _ 1 0 1 0); (lia || apply emits_code). Qed.
#[export] Hint Resolve emits_csr12 : rom.

(** One step of a chain that writes [dc'], [dd'] words after this block. *)
Ltac chain a b := match goal with |- emits _ ?c ?d =>
  apply (emits_eq _ (a + (c - a)) (b + (d - b))); [apply emits_seq; [lia..|eauto with rom|]|lia|lia] end.

Lemma emits_csr64 csrn v : emits (create_csr64_recovery csrn v) 4 2.
Proof.
  unfold create_csr64_recovery.
  apply (emits_here (fun r => code (create_auipc 1 (data_off r)) +> code (create_addi 1 (data_off r)) +>
    code (create_ld 1 1) +> code (create_csrrw 1 csrn) +> data64 v)).
  intros r. do 4 chain 1 0. apply emits_data64.
Qed.

Lemma emits_reg rn v : emits (create_reg_recovery rn v) 3 2.
Proof.
  apply (emits_here (fun r => code (create_auipc rn (data_off r)) +> code (create_addi rn (data_off r)) +>
    code (create_ld rn rn) +> data64 v)).
  intros r. do 3 chain 1 0. apply emits_data64.
Qed.

Lemma emits_fp s i : emits (fp_recovery s i) 3 2.
Proof.
  apply (emits_here (fun r => code (create_auipc 1 (data_off r)) +> code (create_addi 1 (data_off r)) +>
    code (create_fld i 1) +> data (u32 (aget 0 (fp_reg s) i)) +> data (aget 0 (reg s) i >> 32))).
  intros r. do 3 chain 1 0. chain 0 1. apply emits_data.
Qed.

Lemma emits_io64 addr v : emits (create_io64_recovery addr v) 7 4.
Proof.
  apply (emits_here (fun r => code (create_auipc 1 (data_off r)) +> code (create_addi 1 (data_off r)) +>
    code (create_ld 1 1) +> data64 addr +>
    (fun r => (code (create_auipc 2 (data_off r)) +> code (create_addi 2 (data_off r)) +> code (create_ld 2 2) +>
       code (create_sd 1 2) +> data64 v) r))).
  intros r. do 3 chain 1 0. chain 0 2.
  apply (emits_here (fun r => code (create_auipc 2 (data_off r)) +> code (create_addi 2 (data_off r)) +> code (create_ld 2 2) +>
       code (create_sd 1 2) +> data64 v)).
  intros r'. do 4 chain 1 0. apply emits_data64.
Qed.
#[export] Hint Resolve emits_csr64 emits_reg emits_fp emits_io64 : rom.

Lemma emits_hang : emits create_hang_nonzero_hart 4 0.
Proof. do 3 chain 1 0. apply emits_code. Qed.

Lemma emits_fp_blocks s : emits (fp_blocks s) 102 64.
Proof. do 3 chain 2 0. apply (emits_for 32 0 _ 3 2); [lia..|]. intros i. apply emits_fp. Qed.

Lemma emits_hpm_blocks s : emits (hpm_blocks s) 178 60.
Proof.
  chain (29 * 6) (29 * 2); [|apply emits_csr64]. apply (emits_for 29 3 _ 6 2); [lia..|]. intros i.
  chain 2 0. apply emits_csr64.
Qed.

Lemma emits_csr_blocks s : emits (csr_blocks s) 134 64.
Proof.
  do 5 chain 4 2. do 3 chain 2 0. chain (16 * 4) (16 * 2).
  - apply (emits_for 16 0 _ 4 2); [lia..|]. intros i. apply emits_csr64.
  - do 10 chain 4 2. apply emits_csr64.
Qed.

(** The size of the whole program: it depends on the number of harts and on
    whether the floating-point unit is on, and on nothing else. *)
Definition rom_code_size (s : RISCVCPUState) (ncpus : Z) : Z :=
  448 + (if ncpus =? 1 then 4 else 0) + (if nz (fs s) then 102 else 0).
Definition rom_data_size (s : RISCVCPUState) : Z := 206 + (if nz (fs s) then 64 else 0).

Lemma emits_when b f a d : emits f a d -> emits (when_rom b f) (if b then a else 0) (if b then d else 0).
Proof. destruct b; [trivial|intros; apply emits_none]. Qed.

Lemma emits_regs lo n s : emits (for_rom n lo (fun i => create_reg_recovery i (aget 0 (reg s) i)))
  (Z.of_nat n * 3) (Z.of_nat n * 2).
Proof. apply emits_for; [lia..|]. intros i. apply emits_reg. Qed.
#[export] Hint Resolve emits_hang emits_fp_blocks emits_hpm_blocks emits_csr_blocks emits_regs emits_when : rom.

Lemma emits_boot s n base : emits (boot_rom_blocks s n base) (rom_code_size s n) (rom_data_size s).
Proof.
  apply (emits_eq _ ((if n =? 1 then 4 else 0) + (4 + (2 + (4 + (4 + ((if nz (fs s) then 102 else 0) + 434))))))
    ((if n =? 1 then 0 else 0) + (2 + (0 + (2 + (2 + ((if nz (fs s) then 64 else 0) + 200)))))));
    [|unfold rom_code_size; destruct (n =? 1), (nz (fs s)); reflexivity
     |unfold rom_data_size; destruct (n =? 1), (nz (fs s)); reflexivity].
  do 6 (apply emits_seq; [destruct (n =? 1), (nz (fs s)); lia..|eauto with rom|]).
  chain 178 60. chain 134 64. chain (29 * 3) (29 * 2). chain 7 4. do 2 chain 4 2. chain 7 4.
  chain (2 * 3) (2 * 2). chain 1 0. chain 4 2. chain 1 0. apply emits_code.
Qed.

(** C12. The recovery program always fits: for every state of the hart (in a
    supported privilege mode), number of harts and CLINT address, no word is
    written outside the ROM, the code ends before the data begins, the data
    ends before the ROM does, and the sizes depend only on the number of harts
    and on whether the floating-point unit is on. *)
Theorem boot_rom_fits (s : RISCVCPUState) (ncpus base : Z) :
  priv s <> 2 ->
  exists r, boot_rom_blocks s ncpus base rom_start = Some r /\
    create_boot_rom s ncpus base = Some (rom r) /\ Z.of_nat (length (rom r)) = ROM_WORDS /\
    code_pos r = rom_code_size s ncpus /\ code_pos r < 0xB00 / 4 /\
    data_pos r = 0xB00 / 4 + rom_data_size s /\ data_pos r < ROM_WORDS.
Proof.
  intros Hp. pose proof (emits_boot s ncpus base rom_start) as H.
  change (length (rom rom_start)) with 2048%nat in H. change (code_pos rom_start) with 0 in H.
  change (data_pos rom_start) with 704 in H. change ROM_WORDS with 2048 in *.
  assert (Hc : 0 <= rom_code_size s ncpus <= 554) by (unfold rom_code_size; destruct (ncpus =? 1), (nz (fs s)); lia).
  assert (Hd : 0 <= rom_data_size s <= 270) by (unfold rom_data_size; destruct (nz (fs s)); lia).
  destruct H as (r & E & L & C & D & _); try lia.
  exists r. split; [exact E|]. unfold create_boot_rom. rewrite E.
  destruct (Z.eqb_spec (priv s) 2); [contradiction|]. change (ROM_SIZE / 4) with 2048. change (0xB00 / 4) with 704.
  destruct (Z.leb_spec 2048 (data_pos r)); [lia|]. destruct (Z.leb_spec 704 (code_pos r)); [lia|].
  split; [reflexivity|]. lia.
Qed.

(** ** Register blocks *)

(** The words of the block that restores register [rn], at code word [c] and
    data word [d]. *)
Record block_at (m : list Z) (c d rn val : Z) : Prop := {
  ba_auipc : aget 0 m c = create_auipc rn (4 * (d - c));
  ba_addi : aget 0 m (c + 1) = create_addi rn (4 * (d - c));
  ba_ld : aget 0 m (c + 2) = create_ld rn rn;
  ba_lo : aget 0 m d = u32 val;
  ba_hi : aget 0 m (d + 1) = u32 (val >> 32)
}.

(** [f], which writes [dc] and [dd] words, contains the block of [rn]. *)
Definition contains (f : B) (dc dd rn val : Z) : Prop := forall r r',
  f r = Some r' -> Z.of_nat (length (rom r)) = ROM_WORDS -> 0 <= code_pos r ->
  code_pos r + dc <= data_pos r -> data_pos r + dd <= ROM_WORDS -> Z.even (data_pos r) = true ->
  exists c d, code_pos r <= c /\ c + 3 <= code_pos r + dc /\ data_pos r <= d /\ d + 2 <= data_pos r + dd /\
    Z.even d = true /\ block_at (rom r') c d rn val.

Lemma encoded_range w : in_u 32 (u32 w).
Proof. apply u_range. lia. Qed.

Lemma contains_reg rn val : contains (create_reg_recovery rn val) 3 2 rn val.
Proof.
  intros r r' E Hl H1 H2 H3 Hev. destruct r as [m c d]. cbn [rom code_pos data_pos] in *.
  change ROM_WORDS with 2048 in *. exists c, d. repeat (split; [lia || assumption|]).
  unfold create_reg_recovery, data_off, data64, seqB, code, data in E. cbn [rom code_pos data_pos] in E.
  rewrite (u_small 32 (4 * (d - c))) in E by (unfold in_u; lia).
  repeat (rewrite rom_set_in in E by (rewrite ?aset_length; lia); cbn [rom code_pos data_pos] in E;
    rewrite rom_pos in E by (change ROM_WORDS with 2048; lia)).
  injection E as <-. cbn [rom].
  assert (Hw : forall w, u32 (u32 w) = u32 w) by (intros; apply u_u; lia).
  replace (c + 1 + 1) with (c + 2) by lia.
  split; repeat (rewrite aget_aset_ne by lia); rewrite aget_aset_eq by (rewrite ?aset_length; lia).
  - unfold create_auipc. rewrite Hw. reflexivity.
  - unfold create_addi. rewrite Hw. reflexivity.
  - unfold create_ld. rewrite Hw. reflexivity.
  - change 0xFFFFFFFF with (Z.ones 32). rewrite Z.land_ones by lia. apply Hw.
  - reflexivity.
Qed.

Lemma seqB_inv f g r r' : (f +> g) r = Some r' -> exists r1, f r = Some r1 /\ g r1 = Some r'.
Proof. unfold seqB. destruct (f r) as [r1|]; [eauto|discriminate]. Qed.

Lemma block_at_ext m m' c d rn val :
  (forall i, c <= i < c + 3 \/ d <= i < d + 2 -> aget 0 m' i = aget 0 m i) ->
  block_at m c d rn val -> block_at m' c d rn val.
Proof. intros H []. split; rewrite H by lia; assumption. Qed.

Lemma contains_l f g a b c d rn val : 0 <= a -> 0 <= b -> 0 <= c -> 0 <= d ->
  emits f a b -> contains f a b rn val -> emits g c d -> contains (f +> g) (a + c) (b + d) rn val.
Proof.
  intros Ha Hb Hc Hd Hf Hin Hg r r' E Hl H1 H2 H3 Hev. apply seqB_inv in E as (r1 & E1 & E2).
  destruct (Hf r) as (r1' & E1' & L1 & C1 & D1 & _); try lia. rewrite E1 in E1'. injection E1' as <-.
  destruct (Hg r1) as (r2 & E2' & L2 & C2 & D2 & K2); try lia. rewrite E2 in E2'. injection E2' as <-.
  destruct (Hin r r1 E1 Hl H1 ltac:(lia) ltac:(lia) Hev) as (x & y & Hx1 & Hx2 & Hy1 & Hy2 & Hy3 & Hblk).
  exists x, y. repeat (split; [lia || assumption|]). apply (block_at_ext (rom r1)); [|exact Hblk].
  intros i Hi. apply K2; lia.
Qed.

Lemma contains_r f g a b c d rn val : 0 <= a -> 0 <= b -> 0 <= c -> 0 <= d -> Z.even b = true ->
  emits f a b -> contains g c d rn val -> contains (f +> g) (a + c) (b + d) rn val.
Proof.
  intros Ha Hb Hc Hd Heb Hf Hin r r' E Hl H1 H2 H3 Hev. apply seqB_inv in E as (r1 & E1 & E2).
  destruct (Hf r) as (r1' & E1' & L1 & C1 & D1 & _); try lia. rewrite E1 in E1'. injection E1' as <-.
  destruct (Hin r1 r' E2 L1 ltac:(lia) ltac:(lia) ltac:(lia)) as (x & y & Hx1 & Hx2 & Hy1 & Hy2 & Hy3 & Hblk).
  { rewrite D1, Z.even_add, Hev, Heb. reflexivity. }
  exists x, y. repeat (split; [lia || assumption|]). exact Hblk.
Qed.

Lemma contains_regs s n : forall lo i, lo <= i < lo + Z.of_nat n ->
  contains (for_rom n lo (fun i => create_reg_recovery i (aget 0 (reg s) i)))
    (Z.of_nat n * 3) (Z.of_nat n * 2) i (aget 0 (reg s) i).
Proof.
  induction n as [|n IH]; intros lo i Hi; [lia|]. cbn [for_rom].
  replace (Z.of_nat (S n) * 3) with (3 + Z.of_nat n * 3) by lia.
  replace (Z.of_nat (S n) * 2) with (2 + Z.of_nat n * 2) by lia.
  destruct (Z.eq_dec lo i) as [->|Hne].
  - apply contains_l; [lia..|apply emits_reg|apply contains_reg|apply emits_regs].
  - apply contains_r; [lia..|reflexivity|apply emits_reg|apply IH; lia].
Qed.

Ltac skip a b := match goal with |- contains _ ?c ?d _ _ =>
  replace c with (a + (c - a)) by lia; replace d with (b + (d - b)) by lia;
  apply contains_r; [lia..|reflexivity|eauto with rom|] end.

(** Every register but x0 has its block in the ROM. *)
Lemma boot_rom_contains s n base i : 1 <= i < 32 ->
  contains (boot_rom_blocks s n base) (rom_code_size s n) (rom_data_size s) i (aget 0 (reg s) i).
Proof.
  intros Hi. set (P := (if n =? 1 then 4 else 0) + (4 + (2 + (4 + (4 + ((if nz (fs s) then 102 else 0) + 434)))))).
  set (Q := (if n =? 1 then 0 else 0) + (2 + (0 + (2 + (2 + ((if nz (fs s) then 64 else 0) + 200)))))).
  replace (rom_code_size s n) with P by (unfold P, rom_code_size; destruct (n =? 1), (nz (fs s)); reflexivity).
  replace (rom_data_size s) with Q by (unfold Q, rom_data_size; destruct (n =? 1), (nz (fs s)); reflexivity).
  unfold P, Q, boot_rom_blocks.
  do 6 (apply contains_r; [destruct (n =? 1), (nz (fs s)); lia..|destruct (n =? 1), (nz (fs s)); reflexivity|eauto with rom|]).
  skip 178 60. skip 134 64.
  destruct (Z_lt_le_dec i 3).
  - skip (29 * 3) (29 * 2). skip 7 4. do 2 skip 4 2. skip 7 4.
    apply (contains_l _ _ (Z.of_nat 2 * 3) (Z.of_nat 2 * 2) 7 2); [lia..|apply emits_regs|apply contains_regs; lia|].
    chain 1 0. chain 4 2. chain 1 0. apply emits_code.
  - apply (contains_l _ _ (Z.of_nat 29 * 3) (Z.of_nat 29 * 2) 35 18); [lia..|apply emits_regs|apply contains_regs; lia|].
    chain 7 4. do 2 chain 4 2. chain 7 4. chain (2 * 3) (2 * 2). chain 1 0. chain 4 2. chain 1 0. apply emits_code.
Qed.

(** ** Running a block *)

(** The instructions of a block decode to what the encoders mean: the register
    fields for every register, the two immediates for every offset inside a
    ROM.  Neither immediate reaches the register fields. *)
Definition auipc_hi (off : Z) : Z := (if off has 0x800 then u32 (off + 0x800) else off) >> 12.

Definition auipc_of (rd hi : Z) : Z := u32 (0x17 .| ((rd .& 0x1F) << 7) .| (hi << 12)).

Definition decodes_regs (rn : Z) : bool :=
  let w2 := create_addi rn 0 in
  let w3 := create_ld rn rn in
  forallb (fun hi => let w1 := auipc_of rn hi in
    (w1 .& 3 =? 3) && (f_opcode w1 =? 0x17) && (f_rd w1 =? rn) && (i32 (w1 .& 0xfffff000) =? hi * 4096)) [0; 1; 2] &&
  ((w2 .& 3 =? 3) && (f_opcode w2 =? 0x13) && (f_rd w2 =? rn) && (f_rs1 w2 =? rn) && (f_funct3 w2 =? 0)) &&
  ((w3 .& 3 =? 3) && (f_opcode w3 =? 0x03) && (f_rd w3 =? rn) && (f_rs1 w3 =? rn) && (f_funct3 w3 =? 3) && (f_imm12 w3 =? 0)) &&
  ((0 <=? w2) && (w2 <? 2 ^ 20)).

Definition decodes_off (off : Z) : bool :=
  ((auipc_hi off =? 0) || (auipc_hi off =? 1) || (auipc_hi off =? 2)) &&
  (auipc_hi off * 4096 + (if (off .& 0xFFF) <? 2048 then off .& 0xFFF else (off .& 0xFFF) - 4096) =? off).

Lemma decodes_all :
  forallb (fun rn => decodes_regs (Z.of_nat rn)) (seq 0 32) && forallb (fun q => decodes_off (4 * Z.of_nat q)) (seq 0 2048) = true.
Proof. vm_compute. reflexivity. Qed.

Lemma forallb_seq_Z f n k : forallb (fun i => f (Z.of_nat i)) (seq 0 n) = true -> 0 <= k < Z.of_nat n -> f k = true.
Proof.
  intros H Hk. rewrite forallb_forall in H. specialize (H (Z.to_nat k) ltac:(apply in_seq; lia)).
  rewrite Z2Nat.id in H by lia. exact H.
Qed.

Lemma addi_split rn off : 0 <= create_addi rn 0 < 2 ^ 20 -> create_addi rn off = create_addi rn 0 + (off .& 0xFFF) * 2 ^ 20.
Proof.
  assert (E : create_addi rn off = u32 (create_addi rn 0 .| (off .& 0xFFF) << 20)).
  { unfold create_addi. cbv zeta. rewrite <- Z.land_assoc. change (0xFFF .& 0xFFF) with 0xFFF.
    change (0 .& 0xFFF .& 0xFFF) with 0. rewrite Z.shiftl_0_l, Z.lor_0_r. apply Z.bits_inj'. intros n Hn.
    unfold uN. rewrite !Z.testbit_mod_pow2, !Z.lor_spec, Z.testbit_mod_pow2, !Z.lor_spec by lia.
    destruct (n <? 32); [reflexivity|reflexivity]. }
  intros Hw. rewrite E. change 0xFFF with (Z.ones 12). rewrite Z.land_ones, Z.shiftl_mul_pow2, Z.lor_comm by lia.
  pose proof (Z.mod_pos_bound off (2 ^ 12) ltac:(lia)).
  rewrite lor_low_high, Z.add_comm by lia. apply u_small. unfold in_u. lia.
Qed.

Lemma field_low lo x a m b : m = Z.ones b -> 0 <= a -> 0 <= b -> a + b <= 20 -> ((lo + x * 2 ^ 20) >> a) .& m = (lo >> a) .& m.
Proof.
  intros -> Ha Hb Hab. rewrite !Z.land_ones, !Z.shiftr_div_pow2 by lia.
  replace (x * 2 ^ 20) with (x * 2 ^ (20 - a - b) * 2 ^ b * 2 ^ a)
    by (rewrite <- !Z.mul_assoc, <- !Z.pow_add_r by lia; do 2 f_equal; lia).
  rewrite Z.div_add, Z.mod_add by lia. reflexivity.
Qed.

Lemma imm12_split lo x : 0 <= lo < 2 ^ 20 -> 0 <= x < 2 ^ 12 ->
  f_imm12 (lo + x * 2 ^ 20) = if x <? 2048 then x else x - 4096.
Proof.
  intros Hl Hx. unfold f_imm12, sN. rewrite Z.shiftr_div_pow2 by lia.
  rewrite Z.mod_small by lia. change (2 ^ (32 - 1)) with (2048 * 2 ^ 20). change (2 ^ 32) with (4096 * 2 ^ 20).
  destruct (x <? 2048) eqn:E.
  - case_goal; [|lia]. rewrite Z.div_add, Z.div_small by lia. lia.
  - case_goal; [lia|]. replace (lo + x * 2 ^ 20 - 4096 * 2 ^ 20) with (lo + (x - 4096) * 2 ^ 20) by lia.
    rewrite Z.div_add, Z.div_small by lia. lia.
Qed.

Lemma decodes_block rn q : 0 <= rn < 32 -> 0 <= q < 2048 ->
  let w1 := create_auipc rn (4 * q) in let w2 := create_addi rn (4 * q) in let w3 := create_ld rn rn in
  (w1 .& 3 = 3 /\ f_opcode w1 = 0x17 /\ f_rd w1 = rn) /\
  (w2 .& 3 = 3 /\ f_opcode w2 = 0x13 /\ f_rd w2 = rn /\ f_rs1 w2 = rn /\ f_funct3 w2 = 0) /\
  (w3 .& 3 = 3 /\ f_opcode w3 = 0x03 /\ f_rd w3 = rn /\ f_rs1 w3 = rn /\ f_funct3 w3 = 3 /\ f_imm12 w3 = 0) /\
  i32 (w1 .& 0xfffff000) + f_imm12 w2 = 4 * q.
Proof.
  intros Hr Hq. destruct (andb_prop _ _ decodes_all) as [H1 H2].
  apply (forallb_seq_Z decodes_regs _ rn) in H1; [|lia]. apply (forallb_seq_Z (fun q => decodes_off (4 * q)) _ q) in H2; [|lia].
  unfold decodes_regs, decodes_off in H1, H2. cbv zeta in H1, H2. cbv zeta.
  change (create_auipc rn (4 * q)) with (auipc_of rn (auipc_hi (4 * q))).
  apply andb_prop in H1 as [H1 Hw]. apply andb_prop in H1 as [H1 H3]. apply andb_prop in H1 as [H1 Ha].
  rewrite forallb_forall in H1. specialize (H1 (auipc_hi (4 * q))). cbv beta in H1.
  assert (Hin : In (auipc_hi (4 * q)) [0; 1; 2]) by (bool_hyps; cbn; lia).
  specialize (H1 Hin). bool_hyps. rewrite addi_split by lia.
  assert (Hx : 0 <= (4 * q) .& 0xFFF < 2 ^ 12) by (change 0xFFF with (Z.ones 12); rewrite Z.land_ones by lia; apply Z.mod_pos_bound; lia).
  rewrite imm12_split by lia. pose proof (fun m b => field_low (create_addi rn 0) ((4 * q) .& 0xFFF) 0 m b) as F0.
  rewrite !Z.shiftr_0_r in F0. unfold f_opcode, f_rd, f_rs1, f_funct3 in *.
  rewrite (F0 3 2), (F0 0x7f 7), (field_low _ _ 7 _ 5), (field_low _ _ 15 _ 5), (field_low _ _ 12 _ 3) by (reflexivity || lia).
  repeat split; try assumption; lia.
Qed.

(** What an instruction that writes [rd] and goes on does. *)
Record ran (rd v : Z) (st st' : St) : Prop := {
  ran_env : same_env st st';
  ran_flat : flat_state st -> flat_state st';
  ran_mem : hmem (mach st') = hmem (mach st);
  ran_pc : pc_of (lc st') = u64 (pc_of (lc st) + 4);
  ran_reg : reg (cpu st') = aset (reg (cpu st)) rd (u64 v)
}.

Lemma next_pc l : pc_of (set_code_ptr (u64 (code_ptr l + 4)) l) = u64 (pc_of l + 4).
Proof. unfold pc_of. cbn. unfold uN. rewrite !Z.add_mod_idemp_l by lia. f_equal. lia. Qed.

(** The machine holds the words [m] in its boot ROM, at host address [base]. *)
Definition rom_loaded (st : St) (m : list Z) (base : Z) : Prop :=
  forall i, 0 <= i < ROM_WORDS ->
    host_of st (ROM_BASE_ADDR + 4 * i) = Some (base + 4 * i) /\
    host_load (hmem (mach st)) 4 (base + 4 * i) = Some (aget 0 m i).

(** Doublewords of the ROM may be loaded. *)
Definition rom_readable (st : St) : Prop :=
  forall i, 0 <= i < ROM_WORDS -> Z.even i = true ->
    plain_access st 3 (ROM_BASE_ADDR + 4 * i) PMPCFG_R MCONTROL_LOAD.

Lemma le_value_app l1 l2 : le_value (l1 ++ l2) = le_value l1 .| (le_value l2 << (8 * Z.of_nat (length l1))).
Proof.
  induction l1 as [|b l IH]; [cbn; rewrite Z.shiftl_0_r; reflexivity|]. cbn [le_value app length]. rewrite IH.
  rewrite Z.shiftl_lor, Z.shiftl_shiftl, Z.lor_assoc by lia. do 2 f_equal. lia.
Qed.

Lemma host_read_bytes_app h n k : forall a l1 l2, host_read_bytes h n a = Some l1 ->
  host_read_bytes h k (a + Z.of_nat n) = Some l2 -> host_read_bytes h (n + k) a = Some (l1 ++ l2).
Proof.
  induction n as [|n IH]; intros a l1 l2 H1 H2; cbn [host_read_bytes Nat.add] in *.
  - injection H1 as <-. rewrite Z.add_0_r in H2. exact H2.
  - destruct (h !! a); [|discriminate]. destruct (host_read_bytes h n (a + 1)) as [l|] eqn:E; [|discriminate].
    injection H1 as <-. rewrite (IH (a + 1) l l2 E); [reflexivity|].
    replace (a + 1 + Z.of_nat n) with (a + Z.of_nat (S n)) by lia. exact H2.
Qed.

(** Two words are a doubleword. *)
Lemma host_load_pair h a x y : bytes_wf h -> host_load h 4 a = Some x -> host_load h 4 (a + 4) = Some y ->
  host_load h 8 a = Some (x .| (y << 32)).
Proof.
  unfold host_load. intros Hb. destruct (host_read_bytes h 4 a) as [l1|] eqn:E1; [|discriminate].
  destruct (host_read_bytes h 4 (a + 4)) as [l2|] eqn:E2; [|discriminate]. intros H1 H2.
  injection H1 as <-. injection H2 as <-.
  change 8%nat with (4 + 4)%nat. rewrite (host_read_bytes_app h 4 4 a l1 l2 E1 E2). cbn [option_map]. rewrite le_value_app.
  apply host_read_bytes_wf in E1 as [_ ->]; [|exact Hb]. reflexivity.
Qed.

Lemma word_pair val : in_u 64 val -> u32 val .| (u32 (val >> 32) << 32) = val.
Proof.
  intros Hv. apply Z.bits_inj'; intros k Hk. rewrite Z.lor_spec, u_testbit by lia.
  destruct (Z.ltb_spec k 32).
  - rewrite Z.shiftl_spec_low by lia. apply orb_false_r.
  - rewrite Z.shiftl_spec, u_testbit, Z.shiftr_spec by lia. replace (k - 32 + 32) with k by lia. cbn [orb andb].
    destruct (Z.ltb_spec (k - 32) 32); [reflexivity|]. cbn [andb]. symmetry.
    apply (in_u_testbit 64 val ltac:(lia)); [exact Hv|lia].
Qed.

Section RunBlock.
Context {Bus : DeviceBus} {Hooks : CsrHooks}.

(** Writing the register and going on. *)
Lemma finish_spec rd v st : 0 < rd -> exists st',
  (write_rd rd v ;; NEXT_INSN) st = (st', inl tt) /\ ran rd v st st'.
Proof.
  intros Hr. unfold write_rd, nz. destruct (Z.eqb_spec rd 0); [lia|]. cbn [negb when].
  unfold bind, write_reg, NEXT_INSN, modl. eexists. split; [reflexivity|].
  assert (He : forall t h, priv h = priv (cpu st) ->
    same_env st (with_lc (set_code_ptr (u64 (code_ptr (lc st) + 4)) (lc st)) (with_cpu (with_hr (with_trk (cpu st) t) h) st))).
  { intros t h Hh. split; try reflexivity. exact Hh. }
  destruct (stf_in_traceable_region (mach st)).
  all: split; [refine (He _ _ _); reflexivity
              |refine (quiet_flat _ _ (He _ _ _) _ _); reflexivity|reflexivity|apply next_pc|reflexivity].
Qed.

Lemma trk_ran st t rd v st' : ran rd v (with_cpu (with_trk (cpu st) t) st) st' -> ran rd v st st'.
Proof.
  intros []. assert (He : same_env st (with_cpu (with_trk (cpu st) t) st)) by (split; reflexivity).
  split; try assumption; [exact (same_env_trans _ _ _ He ran_env0)|].
  intros Hf. apply ran_flat0. refine (quiet_flat st _ He _ _ Hf); reflexivity.
Qed.

Lemma run_auipc w st : w .& 3 = 3 -> f_opcode w = 0x17 -> 0 < f_rd w -> exists st',
  exec_insn w st = (st', inl tt) /\ ran (f_rd w) (pc_of (lc st) + i32 (w .& 0xfffff000)) st st'.
Proof.
  intros H3 Ho Hr. assert (exec_insn w = exec_auipc w) as -> by (unfold exec_insn; rewrite H3, Ho; reflexivity).
  destruct (finish_spec (f_rd w) (pc_of (lc st) + i32 (w .& 0xfffff000)) st Hr) as (st' & E & H).
  exists st'. split; [|exact H]. rewrite <- E. unfold exec_auipc, write_rd, nz.
  destruct (Z.eqb_spec (f_rd w) 0); [lia|reflexivity].
Qed.

Lemma run_addi w st : w .& 3 = 3 -> f_opcode w = 0x13 -> f_funct3 w = 0 -> 0 < f_rd w -> exists st',
  exec_insn w st = (st', inl tt) /\ ran (f_rd w) (aget 0 (reg (cpu st)) (f_rs1 w) + f_imm12 w) st st'.
Proof.
  intros H3 Ho Hf Hr. assert (exec_insn w = exec_op_imm w) as -> by (unfold exec_insn; rewrite H3, Ho; reflexivity).
  unfold exec_op_imm, op_imm_value. rewrite Hf. cbv beta iota zeta. cbn [Z.eqb].
  destruct (read_reg_spec (f_rd w) st) as (t1 & E1). set (st1 := with_cpu _ st) in E1.
  destruct (read_reg_spec (f_rs1 w) st1) as (t2 & E2). set (st2 := with_cpu _ st1) in E2.
  destruct (read_reg_spec (f_rs2 w) st2) as (t3 & E3). set (st3 := with_cpu _ st2) in E3.
  destruct (finish_spec (f_rd w) (aget 0 (reg (cpu st)) (f_rs1 w) + f_imm12 w) st3 Hr) as (st' & E & H).
  exists st'. split; [|exact (trk_ran st t3 _ _ _ H)].
  unfold bind at 1. rewrite E1. unfold bind at 1. rewrite E2. unfold bind at 1. rewrite E3. exact E.
Qed.

Lemma run_ld w st p v : w .& 3 = 3 -> f_opcode w = 0x03 -> f_funct3 w = 3 -> 0 < f_rd w ->
  let addr := u64 (aget 0 (reg (cpu st)) (f_rs1 w) + f_imm12 w) in
  flat_state st -> plain_access st 3 addr PMPCFG_R MCONTROL_LOAD ->
  host_of st addr = Some p -> host_load (hmem (mach st)) 8 p = Some v ->
  exists st', exec_insn w st = (st', inl tt) /\ same_env st st' /\ flat_state st' /\
    hmem (mach st') = hmem (mach st) /\ pc_of (lc st') = u64 (pc_of (lc st) + 4) /\
    reg (cpu st') = aset (reg (cpu st)) (f_rd w) v.
Proof.
  intros H3 Ho Hf Hr addr Hfl Hpa Hp Hv.
  assert (exec_insn w = exec_load w) as -> by (unfold exec_insn; rewrite H3, Ho; reflexivity).
  unfold exec_load. rewrite Hf. cbv beta iota zeta. cbn [Z.eqb Pos.eqb].
  destruct (read_reg_spec (f_rs1 w) st) as (t1 & E1). set (st1 := with_cpu _ st) in E1.
  assert (He1 : same_env st st1) by (split; reflexivity).
  assert (Hf1 : flat_state st1) by (refine (quiet_flat st _ He1 _ _ Hfl); reflexivity).
  destruct (flat_read st1 3 addr p v Hf1 (plain_access_env _ _ _ _ _ _ He1 Hpa) Hp Hv) as (st2 & E2 & He2 & Hm2 & Hf2 & Hh2 & Hl2 & _).
  destruct (finish_spec (f_rd w) (i64 v) st2 Hr) as (st' & E & []). exists st'.
  split; [unfold bind at 1; rewrite E1; cbv beta iota; fold addr; unfold bind at 1 2; rewrite E2; exact E|].
  split; [exact (same_env_trans _ _ _ He1 (same_env_trans _ _ _ He2 ran_env0))|]. split; [exact (ran_flat0 Hf2)|].
  split; [rewrite ran_mem0, Hm2; reflexivity|]. split; [rewrite ran_pc0, Hl2; reflexivity|].
  rewrite ran_reg0, Hh2. f_equal. rewrite i_eq_mod by lia. apply u_small.
  exact (host_load_range _ 8 _ _ (fs_bytes _ Hfl) Hv).
Qed.


(** The three instructions of a block restore its register. *)
Lemma run_block m c d rn val base st :
  block_at m c d rn val -> 0 <= c -> c + 3 <= 704 -> 704 <= d -> d + 2 <= ROM_WORDS -> Z.even d = true ->
  0 < rn < 32 -> in_u 64 val -> rom_loaded st m base -> rom_readable st -> flat_state st ->
  length (reg (cpu st)) = 32%nat -> pc_of (lc st) = ROM_BASE_ADDR + 4 * c ->
  exists st', (exec_insn (aget 0 m c) ;; exec_insn (aget 0 m (c + 1)) ;; exec_insn (aget 0 m (c + 2))) st = (st', inl tt) /\
    reg (cpu st') = aset (reg (cpu st)) rn val /\ pc_of (lc st') = u64 (ROM_BASE_ADDR + 4 * (c + 3)) /\
    hmem (mach st') = hmem (mach st) /\ same_env st st' /\ flat_state st'.
Proof.
  intros [B1 B2 B3 B4 B5] Hc Hc3 Hd Hd2 Hev Hrn Hval Hl Hra Hf Hlen Hpc. rewrite B1, B2, B3.
  change ROM_WORDS with 2048 in *.
  destruct (decodes_block rn (d - c) ltac:(lia) ltac:(lia)) as ((A1 & A2 & A3) & (I1 & I2 & I3 & I4 & I5) & (L1 & L2 & L3 & L4 & L5 & L6) & Hoff).
  destruct (run_auipc (create_auipc rn (4 * (d - c))) st) as (st1 & E1 & [R1 F1 M1 P1 G1]); [lia..|].
  destruct (run_addi (create_addi rn (4 * (d - c))) st1) as (st2 & E2 & [R2 F2 M2 P2 G2]); [lia..|].
  assert (Henv : same_env st st2) by exact (same_env_trans _ _ _ R1 R2).
  assert (Hx : aget 0 (reg (cpu st2)) rn = ROM_BASE_ADDR + 4 * d).
  { rewrite G2, I3, I4, aget_aset_eq by (rewrite G1, aset_length; lia).
    rewrite G1, A3, aget_aset_eq by lia. unfold uN. rewrite Z.add_mod_idemp_l by lia.
    rewrite <- Z.add_assoc, Hpc, Hoff, Z.mod_small by (unfold ROM_BASE_ADDR; lia). lia. }
  assert (Haddr : u64 (aget 0 (reg (cpu st2)) (f_rs1 (create_ld rn rn)) + f_imm12 (create_ld rn rn)) = ROM_BASE_ADDR + 4 * d).
  { rewrite L4, L6, Hx, Z.add_0_r. apply u_small. unfold in_u, ROM_BASE_ADDR. lia. }
  destruct (Hl d ltac:(change ROM_WORDS with 2048; lia)) as [Hp Hlo]. destruct (Hl (d + 1) ltac:(change ROM_WORDS with 2048; lia)) as [_ Hhi].
  replace (base + 4 * (d + 1)) with (base + 4 * d + 4) in Hhi by lia.
  pose proof (host_load_pair _ _ _ _ (fs_bytes _ Hf) Hlo Hhi) as Hv. rewrite <- M1, <- M2, B4, B5 in Hv.
  rewrite <- (se_host _ _ Henv), <- Haddr in Hp.
  pose proof (plain_access_env _ _ _ _ _ _ Henv (Hra d ltac:(change ROM_WORDS with 2048; lia) Hev)) as Hpa. rewrite <- Haddr in Hpa.
  destruct (run_ld (create_ld rn rn) st2 _ _ L1 L2 L5 ltac:(lia) (F2 (F1 Hf)) Hpa Hp Hv) as (st3 & E3 & R3 & F3 & M3 & P3 & G3).
  exists st3. split; [unfold bind; rewrite E1, E2; exact E3|].
  split; [|split; [|split; [congruence|split; [exact (same_env_trans _ _ _ Henv R3)|exact F3]]]].
  - rewrite G3, G2, G1, L3, I3, A3. unfold aset. rewrite !list_insert_insert_eq. f_equal. apply word_pair, Hval.
  - rewrite P3, P2, P1, Hpc. unfold uN. rewrite !Z.add_mod_idemp_l by lia. f_equal.
    rewrite Z.mod_small by (unfold ROM_BASE_ADDR; lia). lia.
Qed.

End RunBlock.


(** ** A checkpoint and its recovery *)

(** A supervisor-mode hart with every register in use. *)
Definition saved_hart : RISCVCPUState :=
  set_pc 0x80000100 (set_timecmp 0x777 (set_mcycle 4000000 (set_minstret 999 (set_mepc 0x80001234
    (set_fp_reg (map (fun k => 0x3ff0000000000000 + Z.of_nat k) (seq 0 32)) (set_fs 3
    (set_reg (map (fun k => Z.of_nat k * 0x123456789abcd) (seq 0 32)) (set_priv demo_hart PRV_S)))))))).

Definition rom_memory (m : list Z) : gmap Z Z := map_seqZ 0x1000 (flat_map (le_bytes 4) m).

(** A fresh machine with the ROM [m] and a CLINT, in debug mode at the ROM. *)
Definition recovering (m : list Z) : St :=
  let h := set_debug_mode true (set_physical_addr_len 56 (riscv_cpu_init BOOT_BASE_ADDR false false 0)) in
  mkSt h
    (set_ncpus 1 (set_cpu_state [h] (set_hmem (rom_memory m)
      (set_mem_map [mkRange ROM_BASE_ADDR ROM_SIZE ROM_SIZE true 0 0x1000 0 None [] 0 0 0;
                    mkRange 0x2000000 0xc0000 0xc0000 false 0 0 0 None [] 0 CLINT_DEV 7] zero_machine))))
    (mkLocals 0 0 0 0 0 0 0).

Definition saved_rom : list Z :=
  match create_boot_rom saved_hart 1 0x2000000 with Some m => m | None => [] end.

(** Running the whole ROM: pc, privilege, general registers, compare value,
    cycle counter base and mepc come back, the hart leaves debug mode.  The
    floating-point registers do not come back: their upper halves are those of
    the general registers of the same number. *)
Remark recovery_loses_fp_high_words :
  match @riscv_cpu_interp64 (machine_bus no_bus) no_hooks 600 (recovering saved_rom) with
  | Some (st, inl _) =>
      let c := cpu st in
      (pc c = pc saved_hart /\ priv c = priv saved_hart /\ reg c = reg saved_hart /\
       timecmp c = timecmp saved_hart /\ mepc c = mepc saved_hart /\ debug_mode c = false) /\
      fp_reg c <> fp_reg saved_hart /\ aget 0 (fp_reg c) 31 >> 32 = aget 0 (reg saved_hart) 31 >> 32
  | _ => False
  end.
Proof. vm_compute. repeat split; discriminate. Qed.

Lemma boot_rom_fits_witness : exists r,
  create_boot_rom saved_hart 1 0x2000000 = Some (rom r) /\ code_pos r = 554 /\ data_pos r = 974.
Proof.
  destruct (boot_rom_fits saved_hart 1 0x2000000) as (r & _ & E & _ & C & _ & D & _); [vm_compute; discriminate|].
  exists r. split; [exact E|]. split; [rewrite C|rewrite D]; vm_compute; reflexivity.
Defined.

(** The machine about to run the code word [c]. *)
Definition recovering_at (c : Z) : St :=
  with_lc (set_code_to_pc_addend (ROM_BASE_ADDR + 4 * c) (lc (recovering saved_rom))) (recovering saved_rom).

Definition plain_access_b (st : St) (k addr perm trigger : Z) : bool :=
  (addr .& ((1 << k) - 1) =? 0) && riscv_cpu_pmp_access_ok (cpu st) addr (1 << k) perm &&
  negb (check_triggers (cpu st) trigger addr).1.

Definition rom_readable_b (st : St) : bool :=
  forallb (fun k => plain_access_b st 3 (ROM_BASE_ADDR + 4 * (2 * Z.of_nat k)) PMPCFG_R MCONTROL_LOAD) (seq 0 1024).

Lemma words_lookup m : forall i j, (j < 4)%nat ->
  flat_map (le_bytes 4) m !! (4 * i + j)%nat = m !! i ≫= fun w => le_bytes 4 w !! j.
Proof.
  induction m as [|x m IH]; intros i j Hj; [reflexivity|]. destruct i as [|i].
  - rewrite Nat.mul_0_r, Nat.add_0_l. cbn [flat_map]. rewrite lookup_app_l by (rewrite le_bytes_length; lia). reflexivity.
  - cbn [flat_map]. rewrite lookup_app_r by (rewrite le_bytes_length; lia). rewrite le_bytes_length.
    replace (4 * S i + j - 4)%nat with (4 * i + j)%nat by lia. apply IH, Hj.
Qed.

Lemma rom_memory_word m i w : m !! i = Some w -> in_u 32 w -> host_load (rom_memory m) 4 (0x1000 + 4 * Z.of_nat i) = Some w.
Proof.
  intros Hi Hw. unfold host_load. enough (E : host_read_bytes (rom_memory m) 4 (0x1000 + 4 * Z.of_nat i) = Some (le_bytes 4 w)).
  { rewrite E. cbn [option_map]. rewrite le_value_bytes. f_equal. apply u_small, Hw. }
  assert (L : forall j, (j < 4)%nat -> rom_memory m !! (0x1000 + 4 * Z.of_nat i + Z.of_nat j) = le_bytes 4 w !! j).
  { intros j Hj. unfold rom_memory. rewrite lookup_map_seqZ, option_guard_True by lia.
    replace (Z.to_nat (0x1000 + 4 * Z.of_nat i + Z.of_nat j - 0x1000)) with (4 * i + j)%nat by lia.
    rewrite words_lookup, Hi by exact Hj. reflexivity. }
  cbn [host_read_bytes]. rewrite <- !Z.add_assoc. change (1 + (1 + 1)) with 3. change (1 + 1) with 2.
  pose proof (L 0%nat ltac:(lia)) as L0. pose proof (L 1%nat ltac:(lia)) as L1.
  pose proof (L 2%nat ltac:(lia)) as L2. pose proof (L 3%nat ltac:(lia)) as L3.
  change (Z.of_nat 0) with 0 in L0. rewrite Z.add_0_r in L0. rewrite <- !Z.add_assoc in L1, L2, L3.
  change (Z.of_nat 1) with 1 in L1. change (Z.of_nat 2) with 2 in L2. change (Z.of_nat 3) with 3 in L3.
  rewrite L0, L1, L2, L3. reflexivity.
Qed.

Lemma rom_readable_check st : rom_readable_b st = true -> rom_readable st.
Proof.
  intros H i Hi He. change ROM_WORDS with 2048 in Hi. apply Z.even_spec in He as [k ->].
  unfold rom_readable_b in H. rewrite forallb_forall in H. specialize (H (Z.to_nat k) ltac:(apply in_seq; lia)).
  rewrite Z2Nat.id in H by lia. unfold plain_access_b in H. bool_hyps.
  split; [lia|unfold in_u, ROM_BASE_ADDR; lia|assumption..].
Qed.

Lemma rom_host c i : 0 <= i < 2048 -> host_of (recovering_at c) (ROM_BASE_ADDR + 4 * i) = Some (0x1000 + 4 * i).
Proof.
  intros Hi. unfold host_of, ROM_BASE_ADDR in *. cbn [recovering_at recovering mach mem_map get_phys_mem_range].
  assert (E : get_phys_mem_range (mem_map (mach (recovering_at c))) (0x10000 + 4 * i) = Some 0).
  { cbn. unfold range_contains. cbn [pr_addr pr_size]. unfold ROM_BASE_ADDR, ROM_SIZE. cbn -[Z.mul Z.add Z.ltb Z.leb].
    rewrite !u_small by (unfold in_u; lia). destruct (0x2000000 <=? _) eqn:E1; [lia|]. cbn [andb].
    destruct (0x10000 <=? _) eqn:E2; [|lia]. destruct (_ <? _) eqn:E3; [reflexivity|lia]. }
  rewrite E. cbn -[Z.mul Z.add range_ptr]. f_equal. unfold range_ptr. cbn -[Z.mul Z.add Z.sub].
  change (pr_phys_mem (the_range (recovering_at c) 0)) with 0x1000. change (pr_addr (the_range (recovering_at c) 0)) with 0x10000.
  rewrite u_small by (unfold in_u; lia). lia.
Qed.

Lemma saved_rom_words : length saved_rom = 2048%nat /\ forallb (fun w => (0 <=? w) && (w <? 2 ^ 32)) saved_rom = true.
Proof. vm_compute. split; reflexivity. Qed.

Lemma rom_memory_loaded m i : Z.of_nat (length m) = 2048 -> forallb (fun w => (0 <=? w) && (w <? 2 ^ 32)) m = true ->
  0 <= i < 2048 -> host_load (rom_memory m) 4 (0x1000 + 4 * i) = Some (aget 0 m i).
Proof.
  intros Hl Hw Hi. destruct (lookup_lt_is_Some_2 m (Z.to_nat i) ltac:(lia)) as [w Ew].
  assert (G : aget 0 m i = w) by (unfold aget; rewrite nth_lookup, Ew; reflexivity). rewrite G.
  pose proof (rom_memory_word m _ _ Ew) as H. rewrite Z2Nat.id in H by lia. apply H.
  rewrite forallb_forall in Hw. specialize (Hw w). rewrite <- list_elem_of_In in Hw.
  specialize (Hw (list_elem_of_lookup_2 _ _ _ Ew)). bool_hyps. unfold in_u. lia.
Qed.

Lemma recovering_loaded c : rom_loaded (recovering_at c) saved_rom 0x1000.
Proof.
  intros i Hi. destruct saved_rom_words as [Hl Hw]. split; [apply rom_host, Hi|].
  apply (rom_memory_loaded saved_rom); [rewrite Hl; reflexivity|exact Hw|exact Hi].
Qed.

Lemma recovering_readable c : rom_readable (recovering_at c).
Proof.
  intros i Hi He. apply (plain_access_env (recovering saved_rom)); [split; reflexivity|].
  apply rom_readable_check; [vm_compute; reflexivity|exact Hi|exact He].
Qed.

Lemma recovering_flat c : flat_state (recovering_at c).
Proof.
  split.
  - apply page_ranges_uniform. reflexivity.
  - apply bytes_wf_check. vm_compute. reflexivity.
  - reflexivity.
  - reflexivity.
  - apply empty_coherent. vm_compute. reflexivity.
  - apply empty_coherent. vm_compute. reflexivity.
  - intros a _. right. reflexivity.
Qed.

