(* ===== verification/Atomics.v ===== *)
(** * Load-reserved and store-conditional across harts

    The reservation of [exec_lr] and [exec_sc] ([OP_A] of
    [include/majordomo_template.h]) is kept as a sequence number: every store to
    RAM advances the machine's [memseqno] and the [load_res_memseqno] of the
    hart that stores.  Between a load-reserved and the store-conditional the two
    numbers therefore drift apart exactly by the stores of the other harts. *)

From S2P Require Import Prelude RiscvDefs State IoMem Tlb Pmp Mmu Csr Trap Alu SoftFp Exec ExecFp Vector Stf Interp HartInv Frame InterpInv Translate.
Open Scope Z_scope.
Open Scope c_scope.
Open Scope m_scope.

Section Reservation.
Context {Bus : DeviceBus}.

(** What may happen between the two instructions of a hart: its own loads and
    stores, and stores of other harts [b], [n] of them. *)
Inductive between : nat -> St -> St -> Prop :=
| between_nil st : between 0 st st
| between_load n st st1 st2 k a p v :
    plain_access st k a PMPCFG_R MCONTROL_LOAD -> host_of st a = Some p ->
    host_load (hmem (mach st)) (Z.to_nat (1 << k)) p = Some v ->
    target_read k a st = (st1, inl v) -> between n st1 st2 -> between n st st2
| between_store n st st1 st2 k a v p h :
    plain_access st k a PMPCFG_W MCONTROL_STORE -> host_of st a = Some p ->
    host_store (hmem (mach st)) (Z.to_nat (1 << k)) p v = Some h ->
    target_write k a v st = (st1, inl tt) -> between n st1 st2 -> between n st st2
| between_foreign n st st1 st2 b k a v p h :
    flat_state (with_cpu b st) -> plain_access (with_cpu b st) k a PMPCFG_W MCONTROL_STORE ->
    host_of st a = Some p -> host_store (hmem (mach st)) (Z.to_nat (1 << k)) p v = Some h ->
    target_write k a v (with_cpu b st) = (st1, inl tt) ->
    between n (with_cpu (cpu st) st1) st2 -> between (S n) st st2.

(** The drift of the two sequence numbers is the number of foreign stores. *)
Lemma between_drift n st st' : between n st st' -> flat_state st ->
  in_u 64 (memseqno (mach st)) -> in_u 64 (load_res_memseqno (cpu st)) ->
  flat_state st' /\ same_env st st' /\ reg (cpu st') = reg (cpu st) /\ load_res (cpu st') = load_res (cpu st) /\
  in_u 64 (memseqno (mach st')) /\ in_u 64 (load_res_memseqno (cpu st')) /\
  u64 (memseqno (mach st') - load_res_memseqno (cpu st')) =
    u64 (memseqno (mach st) - load_res_memseqno (cpu st) + Z.of_nat n).
Proof.
  induction 1 as [st|n st st1 st2 k a p v Ha Hp Hv E _ IH|n st st1 st2 k a v p h Ha Hp Hv E _ IH
                 |n st st1 st2 b k a v p h Hb Ha Hp Hv E _ IH]; intros Hf Hm Hl.
  - split; [exact Hf|]. split; [apply same_env_refl|]. do 2 (split; [reflexivity|]). do 2 (split; [assumption|]).
    f_equal. lia.
  - destruct (flat_read _ _ _ _ _ Hf Ha Hp Hv) as (st1' & E' & He & _ & Hf1 & Hh & _ & Hc & Hq).
    rewrite E in E'. injection E' as <-. rewrite <- Hq in Hm. rewrite <- Hc in Hl.
    destruct (IH Hf1 Hm Hl) as (I1 & I2 & I3 & I4 & I5 & I6 & I7).
    split; [exact I1|]. split; [exact (same_env_trans _ _ _ He I2)|]. rewrite I3, I4, I7, Hh, Hc, Hq. auto.
  - destruct (flat_write _ _ _ _ _ _ Hf Ha Hp Hv) as (st1' & E' & He & _ & Hf1 & Hh & _ & Hr & Hs & Hq).
    rewrite E in E'. injection E' as <-.
    destruct (IH Hf1) as (I1 & I2 & I3 & I4 & I5 & I6 & I7); [rewrite Hq; apply u_range; lia|rewrite Hs; apply u_range; lia|].
    split; [exact I1|]. split; [exact (same_env_trans _ _ _ He I2)|]. rewrite I3, I4, I7, Hh, Hr, Hs, Hq.
    do 4 (split; [auto|]). unfold uN. rewrite <- Z.add_mod_idemp_l, <- Zminus_mod, Z.add_mod_idemp_l by lia.
    f_equal. lia.
  - destruct (flat_write _ _ _ _ _ _ Hb Ha Hp Hv) as (st1' & E' & He & _ & Hf1 & _ & _ & _ & _ & Hq).
    rewrite E in E'. injection E' as <-.
    assert (He1 : same_env st (with_cpu (cpu st) st1)) by (split; try reflexivity; exact (se_host _ _ He)).
    assert (Hf2 : flat_state (with_cpu (cpu st) st1)).
    { apply (flat_state_step st); [exact Hf|exact He1|exact (fs_uniform _ Hf1)|exact (fs_bytes _ Hf1)|left; reflexivity..]. }
    destruct (IH Hf2) as (I1 & I2 & I3 & I4 & I5 & I6 & I7); [change (memseqno (mach (with_cpu (cpu st) st1))) with (memseqno (mach st1)); rewrite Hq; apply u_range; lia|exact Hl|].
    split; [exact I1|]. split; [exact (same_env_trans _ _ _ He1 I2)|]. do 2 (split; [assumption|]). do 2 (split; [assumption|]).
    rewrite I7. change (memseqno (mach (with_cpu (cpu st) st1))) with (memseqno (mach st1)). rewrite Hq.
    change (memseqno (mach (with_cpu b st))) with (memseqno (mach st)). change (load_res_memseqno (cpu (with_cpu (cpu st) st1))) with (load_res_memseqno (cpu st)).
    unfold uN. rewrite <- Z.add_mod_idemp_l, Zminus_mod_idemp_l, Z.add_mod_idemp_l by lia. f_equal. lia.
Qed.

Lemma sc_reserved k addr rs2 st p h : flat_state st -> plain_access st k addr PMPCFG_W MCONTROL_STORE ->
  host_of st addr = Some p -> load_res (cpu st) = addr -> load_res_memseqno (cpu st) = memseqno (mach st) ->
  host_store (hmem (mach st)) (Z.to_nat (1 << k)) p (aget 0 (reg (cpu st)) rs2) = Some h ->
  exists st', exec_sc k addr rs2 st = (st', inl 0) /\ hmem (mach st') = h /\ load_res (cpu st') = u64 (-1).
Proof.
  intros Hf Ha Hp H1 H2 Hs. unfold exec_sc. rewrite (pa_aligned _ _ _ _ _ Ha). cbn [nz Z.eqb negb].
  unfold bind at 1, gets, id. rewrite H1, H2, !Z.eqb_refl. cbn [andb].
  destruct (read_reg_spec rs2 st) as (t & E). set (st1 := with_cpu _ st) in E. unfold bind at 1. rewrite E. cbv beta iota.
  assert (He : same_env st st1) by (split; reflexivity).
  assert (Hf1 : flat_state st1) by (refine (quiet_flat st _ He _ _ Hf); reflexivity).
  destruct (flat_write st1 k addr p _ h Hf1 (plain_access_env _ _ _ _ _ _ He Ha) Hp Hs) as (st2 & E2 & _ & Hh & _).
  unfold bind. rewrite E2. eexists. split; [reflexivity|]. split; [exact Hh|reflexivity].
Qed.

Lemma sc_not_reserved k addr rs2 st : addr .& ((1 << k) - 1) = 0 ->
  load_res_memseqno (cpu st) <> memseqno (mach st) -> exec_sc k addr rs2 st = (st, inl 1).
Proof.
  intros Ha Hne. unfold exec_sc. rewrite Ha. cbn [nz Z.eqb negb]. unfold bind at 1, gets, id.
  destruct (Z.eqb_spec (load_res_memseqno (cpu st)) (memseqno (mach st))); [contradiction|].
  rewrite andb_false_r. reflexivity.
Qed.


End Reservation.

