(* ===== verification/Virtio.v ===== *)
(** * The VirtIO transport

    The device-independent part of [src/virtio.cpp]: guest memory accesses,
    descriptor chains, the used ring, [queue_notify], the configuration space
    and the MMIO and PCI register files.  A device is an instance of
    [VirtioDevice], the two callbacks of [struct VIRTIODevice]; the devices
    themselves are in [VirtioDevs].

    A descriptor chain is a list the guest builds in its own memory and may be
    cyclic, so the loops over a chain take fuel and [OutOfFuel] is a result of
    its own.  Memory the code has not initialised ([malloc], a local struct)
    has the arbitrary contents [garbage]. *)

From S2P Require Import Prelude RiscvDefs State IoMem Tlb Pmp Mmu Csr Trap Alu HartInv Frame Devices.
Open Scope Z_scope.
Open Scope c_scope.

(** ** State *)

Definition VIRTIO_PAGE_SIZE := 4096.
Definition MAX_QUEUE := 8.
Definition MAX_CONFIG_SPACE_SIZE := 256.
Definition MAX_QUEUE_NUM := 16.

Definition VRING_DESC_F_NEXT := 1.
Definition VRING_DESC_F_WRITE := 2.
Definition VRING_DESC_F_INDIRECT := 4.

(** Register offsets. *)
Definition VIRTIO_MMIO_MAGIC_VALUE := 0x000.
Definition VIRTIO_MMIO_VERSION := 0x004.
Definition VIRTIO_MMIO_DEVICE_ID := 0x008.
Definition VIRTIO_MMIO_VENDOR_ID := 0x00c.
Definition VIRTIO_MMIO_DEVICE_FEATURES := 0x010.
Definition VIRTIO_MMIO_DEVICE_FEATURES_SEL := 0x014.
Definition VIRTIO_MMIO_QUEUE_SEL := 0x030.
Definition VIRTIO_MMIO_QUEUE_NUM_MAX := 0x034.
Definition VIRTIO_MMIO_QUEUE_NUM := 0x038.
Definition VIRTIO_MMIO_QUEUE_READY := 0x044.
Definition VIRTIO_MMIO_QUEUE_NOTIFY := 0x050.
Definition VIRTIO_MMIO_INTERRUPT_STATUS := 0x060.
Definition VIRTIO_MMIO_INTERRUPT_ACK := 0x064.
Definition VIRTIO_MMIO_STATUS := 0x070.
Definition VIRTIO_MMIO_QUEUE_DESC_LOW := 0x080.
Definition VIRTIO_MMIO_QUEUE_DESC_HIGH := 0x084.
Definition VIRTIO_MMIO_QUEUE_AVAIL_LOW := 0x090.
Definition VIRTIO_MMIO_QUEUE_AVAIL_HIGH := 0x094.
Definition VIRTIO_MMIO_QUEUE_USED_LOW := 0x0a0.
Definition VIRTIO_MMIO_QUEUE_USED_HIGH := 0x0a4.
Definition VIRTIO_MMIO_CONFIG := 0x100.
Definition VIRTIO_PCI_DEVICE_FEATURE_SEL := 0x000.
Definition VIRTIO_PCI_DEVICE_FEATURE := 0x004.
Definition VIRTIO_PCI_NUM_QUEUES := 0x012.
Definition VIRTIO_PCI_DEVICE_STATUS := 0x014.
Definition VIRTIO_PCI_QUEUE_SEL := 0x016.
Definition VIRTIO_PCI_QUEUE_SIZE := 0x018.
Definition VIRTIO_PCI_QUEUE_ENABLE := 0x01c.
Definition VIRTIO_PCI_QUEUE_DESC_LOW := 0x020.
Definition VIRTIO_PCI_QUEUE_DESC_HIGH := 0x024.
Definition VIRTIO_PCI_QUEUE_AVAIL_LOW := 0x028.
Definition VIRTIO_PCI_QUEUE_AVAIL_HIGH := 0x02c.
Definition VIRTIO_PCI_QUEUE_USED_LOW := 0x030.
Definition VIRTIO_PCI_QUEUE_USED_HIGH := 0x034.
Definition VIRTIO_PCI_CFG_OFFSET := 0x0000.
Definition VIRTIO_PCI_ISR_OFFSET := 0x1000.
Definition VIRTIO_PCI_CONFIG_OFFSET := 0x2000.
Definition VIRTIO_PCI_NOTIFY_OFFSET := 0x3000.

Record QueueState := mkQueue {
  q_ready : Z;
  q_num : Z;
  q_last_avail_idx : Z;
  q_desc_addr : Z;
  q_avail_addr : Z;
  q_used_addr : Z;
  q_manual_recv : bool
}.

Definition set_ready v q := mkQueue v (q_num q) (q_last_avail_idx q) (q_desc_addr q) (q_avail_addr q) (q_used_addr q) (q_manual_recv q).
Definition set_num v q := mkQueue (q_ready q) v (q_last_avail_idx q) (q_desc_addr q) (q_avail_addr q) (q_used_addr q) (q_manual_recv q).
Definition set_last_avail_idx v q := mkQueue (q_ready q) (q_num q) v (q_desc_addr q) (q_avail_addr q) (q_used_addr q) (q_manual_recv q).
Definition set_desc_addr v q := mkQueue (q_ready q) (q_num q) (q_last_avail_idx q) v (q_avail_addr q) (q_used_addr q) (q_manual_recv q).
Definition set_avail_addr v q := mkQueue (q_ready q) (q_num q) (q_last_avail_idx q) (q_desc_addr q) v (q_used_addr q) (q_manual_recv q).
Definition set_used_addr v q := mkQueue (q_ready q) (q_num q) (q_last_avail_idx q) (q_desc_addr q) (q_avail_addr q) v (q_manual_recv q).
Definition set_manual_recv v q := mkQueue (q_ready q) (q_num q) (q_last_avail_idx q) (q_desc_addr q) (q_avail_addr q) (q_used_addr q) v.

(** [struct VIRTIODevice]; the interrupt line is its number at the PLIC, the
    callbacks are the class below. *)
Record VIRTIODevice := mkVirtio {
  v_irq : Z;
  int_status : Z;
  v_status : Z;
  device_features_sel : Z;
  queue_sel : Z;
  queue : list QueueState;
  device_id : Z;
  vendor_id : Z;
  device_features : Z;
  config_space_size : Z;
  config_space : list Z
}.

Definition set_int_status v d := mkVirtio (v_irq d) v (v_status d) (device_features_sel d) (queue_sel d) (queue d) (device_id d) (vendor_id d) (device_features d) (config_space_size d) (config_space d).
Definition set_v_status v d := mkVirtio (v_irq d) (int_status d) v (device_features_sel d) (queue_sel d) (queue d) (device_id d) (vendor_id d) (device_features d) (config_space_size d) (config_space d).
Definition set_device_features_sel v d := mkVirtio (v_irq d) (int_status d) (v_status d) v (queue_sel d) (queue d) (device_id d) (vendor_id d) (device_features d) (config_space_size d) (config_space d).
Definition set_queue_sel v d := mkVirtio (v_irq d) (int_status d) (v_status d) (device_features_sel d) v (queue d) (device_id d) (vendor_id d) (device_features d) (config_space_size d) (config_space d).
Definition set_queue v d := mkVirtio (v_irq d) (int_status d) (v_status d) (device_features_sel d) (queue_sel d) v (device_id d) (vendor_id d) (device_features d) (config_space_size d) (config_space d).
Definition set_device_features v d := mkVirtio (v_irq d) (int_status d) (v_status d) (device_features_sel d) (queue_sel d) (queue d) (device_id d) (vendor_id d) v (config_space_size d) (config_space d).
Definition set_config_space v d := mkVirtio (v_irq d) (int_status d) (v_status d) (device_features_sel d) (queue_sel d) (queue d) (device_id d) (vendor_id d) (device_features d) (config_space_size d) v.

(** A descriptor as it lies in guest memory. *)
Record VIRTIODesc := mkDesc { d_addr : Z; d_len : Z; d_flags : Z; d_next : Z }.

Definition field (bytes : list Z) (pos n : nat) : Z := le_value (firstn n (skipn pos bytes)).

Definition desc_of (bytes : list Z) : VIRTIODesc :=
  mkDesc (field bytes 0 8) (field bytes 8 4) (field bytes 12 2) (field bytes 14 2).

(** A device with its own fields [D] and the machine around it. *)
Record VS (D : Type) := mkVS { vdev : VIRTIODevice; vmach : RISCVMachine; vown : D }.
Arguments mkVS {D}.
Arguments vdev {D}.
Arguments vmach {D}.
Arguments vown {D}.

(** How a call ends other than by returning. *)
Inductive vstop := VUndefined | VAssert | VAbort | OutOfFuel.

Definition VM (D A : Type) : Type := VS D -> VS D * (A + vstop).

Section Monad.
Context {D : Type}.

Definition vret {A} (a : A) : VM D A := fun s => (s, inl a).
Definition vbind {A B} (m : VM D A) (k : A -> VM D B) : VM D B := fun s =>
  match m s with
  | (s', inl a) => k a s'
  | (s', inr e) => (s', inr e)
  end.
Definition vfail {A} (e : vstop) : VM D A := fun s => (s, inr e).
Definition vgets {A} (f : VS D -> A) : VM D A := fun s => (s, inl (f s)).
Definition vmod_dev (f : VIRTIODevice -> VIRTIODevice) : VM D unit := fun s => (mkVS (f (vdev s)) (vmach s) (vown s), inl tt).
Definition vmod_own (f : D -> D) : VM D unit := fun s => (mkVS (vdev s) (vmach s) (f (vown s)), inl tt).
Definition vset_hmem (h : gmap Z Z) : VM D unit := fun s => (mkVS (vdev s) (set_hmem h (vmach s)) (vown s), inl tt).

End Monad.

Declare Scope v_scope.
Delimit Scope v_scope with v.
Notation "'let*' x ':=' m 'in' k" := (vbind m (fun x => k))
  (at level 10, x pattern, m at level 100, k at level 200) : v_scope.
Notation "m ;; k" := (vbind m (fun _ => k)) (at level 100, k at level 200, right associativity) : v_scope.

(** The callbacks of [struct VIRTIODevice]: [device_recv] answers a negative
    number to stop the notification; [config_write] runs after a write to the
    configuration space. *)
Class VirtioDevice (D : Type) := {
  device_recv : Z -> Z -> Z -> Z -> VM D Z;
  config_write : option (VM D unit)
}.

Section Transport.
Context {D : Type}.
Open Scope v_scope.

(** ** The interrupt line and the queues *)

(** [set_irq (s->irq, level)]: the line of an MMIO device goes to the PLIC. *)
Definition set_irq (level : bool) : VM D unit := fun s =>
  match plic_set_irq (vmach s) (v_irq (vdev s)) level with
  | (m, inl _) => (mkVS (vdev s) m (vown s), inl tt)
  | (m, inr _) => (mkVS (vdev s) m (vown s), inr VUndefined)
  end.

(** [&s->queue[i]] *)
Definition get_queue (i : Z) : VM D QueueState := fun s =>
  match (if 0 <=? i then queue (vdev s) !! Z.to_nat i else None) with
  | Some q => (s, inl q)
  | None => (s, inr VUndefined)
  end.

Definition mod_queue (i : Z) (f : QueueState -> QueueState) : VM D unit :=
  let* q := get_queue i in
  vmod_dev (fun d => set_queue (aset (queue d) i (f q)) d).

Definition reset_queue (q : QueueState) : QueueState :=
  mkQueue 0 MAX_QUEUE_NUM 0 0 0 0 (q_manual_recv q).

Definition virtio_reset (d : VIRTIODevice) : VIRTIODevice :=
  set_queue (map reset_queue (queue d)) (set_int_status 0 (set_device_features_sel 0 (set_queue_sel 0 (set_v_status 0 d)))).

(** [virtio_mmio_get_ram_ptr]; [virtio_pci_get_ram_ptr] looks the address up in
    the same map through [pci_device_get_dma_ptr]. *)
Definition virtio_mmio_get_ram_ptr (m : RISCVMachine) (paddr : Z) : option Z :=
  match get_phys_mem_range (mem_map m) paddr with
  | Some k =>
      let pr := aget zero_range (mem_map m) k in
      if pr_is_ram pr then Some (range_ptr pr paddr) else None
  | None => None
  end.

Definition get_ram_ptr (paddr : Z) : VM D (option Z) := vgets (fun s => virtio_mmio_get_ram_ptr (vmach s) paddr).

(** [virtio_init] on an MMIO bus, from the [memset] on. *)
Definition virtio_init (irq device_id config_space_size : Z) : VIRTIODevice :=
  virtio_reset (mkVirtio irq 0 0 0 0 (repeat (mkQueue 0 0 0 0 0 0 false) 8) device_id 0xffff 0 config_space_size
                 (repeat 0 256)).

(** ** Guest memory *)

Definition vload (n : nat) (p : Z) : VM D Z := fun s =>
  match host_load (hmem (vmach s)) n p with Some v => (s, inl v) | None => (s, inr VUndefined) end.

Definition vstore (n : nat) (p v : Z) : VM D unit := fun s =>
  match host_store (hmem (vmach s)) n p v with Some h => vset_hmem h s | None => (s, inr VUndefined) end.

(** [memcpy (buf, ptr, l)] and [memcpy (ptr, buf, l)] *)
Definition vread_bytes (n : nat) (p : Z) : VM D (list Z) := fun s =>
  match host_read_bytes (hmem (vmach s)) n p with Some l => (s, inl l) | None => (s, inr VUndefined) end.

Definition vwrite_bytes (p : Z) (l : list Z) : VM D unit := fun s =>
  match host_write_bytes (hmem (vmach s)) p l with Some h => vset_hmem h s | None => (s, inr VUndefined) end.

Definition virtio_read16 (addr : Z) : VM D Z :=
  if addr has 1 then vret 0
  else
    let* p := get_ram_ptr addr in
    match p with None => vret 0 | Some ptr => vload 2 ptr end.

Definition virtio_write16 (addr val : Z) : VM D unit :=
  if addr has 1 then vret tt
  else
    let* p := get_ram_ptr addr in
    match p with None => vret tt | Some ptr => vstore 2 ptr val end.

Definition virtio_write32 (addr val : Z) : VM D unit :=
  if addr has 3 then vret tt
  else
    let* p := get_ram_ptr addr in
    match p with None => vret tt | Some ptr => vstore 4 ptr val end.

(** The bytes to the end of the page. *)
Definition page_rest (addr count : Z) : Z := Z.min count (VIRTIO_PAGE_SIZE - (addr .& (VIRTIO_PAGE_SIZE - 1))).

(** [virtio_memcpy_from_ram]: the bytes copied to the front of the buffer and
    the return value.  Every round copies at least one byte, so [count] bounds
    the number of rounds. *)
Fixpoint memcpy_from_loop (n : nat) (addr count : Z) : VM D (list Z * Z) :=
  if 0 <? count then
    match n with
    | O => vfail OutOfFuel
    | S n' =>
        let l := page_rest addr count in
        let* p := get_ram_ptr addr in
        match p with
        | None => vret ([], -1)
        | Some ptr =>
            let* b := vread_bytes (Z.to_nat l) ptr in
            let* r := memcpy_from_loop n' (u64 (addr + l)) (count - l) in
            vret (b ++ r.1, r.2)
        end
    end
  else vret ([], 0).

Definition virtio_memcpy_from_ram (addr count : Z) : VM D (list Z * Z) :=
  memcpy_from_loop (Z.to_nat count) addr count.

(** [virtio_memcpy_to_ram] of the buffer [buf], [count] bytes long. *)
Fixpoint memcpy_to_loop (n : nat) (addr : Z) (buf : list Z) : VM D Z :=
  let count := Z.of_nat (length buf) in
  if 0 <? count then
    match n with
    | O => vfail OutOfFuel
    | S n' =>
        let l := page_rest addr count in
        let* p := get_ram_ptr addr in
        match p with
        | None => vret (-1)
        | Some ptr =>
            vwrite_bytes ptr (firstn (Z.to_nat l) buf) ;;
            memcpy_to_loop n' (u64 (addr + l)) (skipn (Z.to_nat l) buf)
        end
    end
  else vret 0.

Definition virtio_memcpy_to_ram (addr : Z) (buf : list Z) : VM D Z :=
  memcpy_to_loop (length buf) addr buf.

End Transport.

(** ** Descriptor chains *)

Section Queues.
Context {D : Type}.
Context (garbage : nat -> Z) (fuel : nat).
Open Scope v_scope.

Definition uninit (n : nat) : list Z := map (fun i => u8 (garbage i)) (seq 0 n).

(** A result of [int] arithmetic; overflow is undefined. *)
Definition vint (x : Z) : VM D Z := if (- 2 ^ 31 <=? x) && (x <? 2 ^ 31) then vret x else vfail VUndefined.

(** Write [bytes] at [buf + pos]. *)
Definition buf_write (buf : list Z) (pos : Z) (bytes : list Z) : VM D (list Z) :=
  if (0 <=? pos) && (Z.to_nat pos + length bytes <=? length buf)%nat
  then vret (firstn (Z.to_nat pos) buf ++ bytes ++ skipn (Z.to_nat pos + length bytes) buf)
  else vfail VUndefined.

(** Read [n] bytes at [buf + pos]. *)
Definition buf_read (buf : list Z) (pos n : Z) : VM D (list Z) :=
  if (0 <=? pos) && (Z.to_nat pos + Z.to_nat n <=? length buf)%nat
  then vret (firstn (Z.to_nat n) (skipn (Z.to_nat pos) buf))
  else vfail VUndefined.

(** [get_desc (s, &desc, queue_idx, desc_idx)] on a [desc] that holds the bytes
    [old]: what it holds afterwards.  No caller looks at the return value. *)
Definition get_desc (old : list Z) (queue_idx desc_idx : Z) : VM D (list Z) :=
  let* qs := get_queue queue_idx in
  let* r := virtio_memcpy_from_ram (u64 (q_desc_addr qs + desc_idx * 16)) 16 in
  vret (r.1 ++ skipn (length r.1) old).

(** The first descriptor the device may write, from the descriptor held in
    [bytes] on; [None] is the early [return -1]. *)
Fixpoint find_write (n : nat) (queue_idx : Z) (bytes : list Z) : VM D (option (list Z)) :=
  match n with
  | O => vfail OutOfFuel
  | S n' =>
      let desc := desc_of bytes in
      if d_flags desc has VRING_DESC_F_WRITE then vret (Some bytes)
      else if negb (d_flags desc has VRING_DESC_F_NEXT) then vret None
      else
        let* bytes := get_desc bytes queue_idx (d_next desc) in
        find_write n' queue_idx bytes
  end.

(** The descriptor that holds byte [offset] of the readable ([wr = false]) or
    writable part of the chain, and the offset in it. *)
Fixpoint find_offset (n : nat) (queue_idx : Z) (wr : bool) (bytes : list Z) (offset : Z) : VM D (option (list Z * Z)) :=
  match n with
  | O => vfail OutOfFuel
  | S n' =>
      let desc := desc_of bytes in
      if negb (eqb (d_flags desc has VRING_DESC_F_WRITE) wr) then vret None
      else if offset <? i32 (d_len desc) then vret (Some (bytes, offset))
      else if negb (d_flags desc has VRING_DESC_F_NEXT) then vret None
      else
        let* bytes := get_desc bytes queue_idx (d_next desc) in
        find_offset n' queue_idx wr bytes (i32 (offset - d_len desc))
  end.

(** The copy loop: [buf] with the position of its next byte; the buffer at the
    end and the return value. *)
Fixpoint copy_loop (n : nat) (queue_idx : Z) (to_queue : bool) (bytes : list Z) (offset : Z) (buf : list Z) (pos count : Z)
  : VM D (list Z * Z) :=
  match n with
  | O => vfail OutOfFuel
  | S n' =>
      let desc := desc_of bytes in
      let l := Z.min count (i32 (d_len desc - offset)) in
      let addr := u64 (d_addr desc + offset) in
      let* buf :=
        if to_queue then
          let* b := buf_read buf pos l in
          let* _ := virtio_memcpy_to_ram addr b in vret buf
        else
          let* r := virtio_memcpy_from_ram addr l in buf_write buf pos r.1 in
      let* count := vint (count - l) in
      if count =? 0 then vret (buf, 0)
      else
        let* offset := vint (offset + l) in
        let pos := pos + l in
        if offset =? i32 (d_len desc) then
          if negb (d_flags desc has VRING_DESC_F_NEXT) then vret (buf, -1)
          else
            let* bytes := get_desc bytes queue_idx (d_next desc) in
            if negb (eqb (d_flags (desc_of bytes) has VRING_DESC_F_WRITE) to_queue) then vret (buf, -1)
            else copy_loop n' queue_idx to_queue bytes 0 buf pos count
        else copy_loop n' queue_idx to_queue bytes offset buf pos count
  end.

Definition memcpy_to_from_queue (buf : list Z) (queue_idx desc_idx offset count : Z) (to_queue : bool) : VM D (list Z * Z) :=
  if count =? 0 then vret (buf, 0)
  else
    let* bytes := get_desc (uninit 16) queue_idx desc_idx in
    let* first := if to_queue then find_write fuel queue_idx bytes else vret (Some bytes) in
    match first with
    | None => vret (buf, -1)
    | Some bytes =>
        let* at_offset := find_offset fuel queue_idx to_queue bytes offset in
        match at_offset with
        | None => vret (buf, -1)
        | Some (bytes, offset) => copy_loop fuel queue_idx to_queue bytes offset buf 0 count
        end
    end.

Definition memcpy_from_queue (buf : list Z) (queue_idx desc_idx offset count : Z) : VM D (list Z * Z) :=
  memcpy_to_from_queue buf queue_idx desc_idx offset count false.

Definition memcpy_to_queue (queue_idx desc_idx offset : Z) (buf : list Z) (count : Z) : VM D Z :=
  let* r := memcpy_to_from_queue buf queue_idx desc_idx offset count true in vret r.2.

(** Signal that the descriptor has been consumed. *)
Definition virtio_consume_desc (queue_idx desc_idx desc_len : Z) : VM D unit :=
  let* qs := get_queue queue_idx in
  let addr := u64 (q_used_addr qs + 2) in
  let* index := virtio_read16 addr in
  virtio_write16 addr (u16 (index + 1)) ;;
  let addr := u64 (q_used_addr qs + 4 + u32 ((index .& u32 (q_num qs - 1)) * 8)) in
  virtio_write32 addr (u32 desc_idx) ;;
  virtio_write32 (u64 (addr + 4)) (u32 desc_len) ;;
  vmod_dev (fun d => set_int_status (int_status d .| 1) d) ;;
  set_irq true.

(** The second loop of [get_desc_rw_size]. *)
Fixpoint write_size_loop (n : nat) (queue_idx : Z) (bytes : list Z) (read_size write_size : Z) : VM D (option (Z * Z)) :=
  match n with
  | O => vfail OutOfFuel
  | S n' =>
      let desc := desc_of bytes in
      if negb (d_flags desc has VRING_DESC_F_WRITE) then vret None
      else
        let write_size := i32 (write_size + d_len desc) in
        if negb (d_flags desc has VRING_DESC_F_NEXT) then vret (Some (read_size, write_size))
        else
          let* bytes := get_desc bytes queue_idx (d_next desc) in
          write_size_loop n' queue_idx bytes read_size write_size
  end.

(** The first loop, entering the second at the first writable descriptor. *)
Fixpoint read_size_loop (n : nat) (queue_idx : Z) (bytes : list Z) (read_size : Z) : VM D (option (Z * Z)) :=
  match n with
  | O => vfail OutOfFuel
  | S n' =>
      let desc := desc_of bytes in
      if d_flags desc has VRING_DESC_F_WRITE then write_size_loop fuel queue_idx bytes read_size 0
      else
        let read_size := i32 (read_size + d_len desc) in
        if negb (d_flags desc has VRING_DESC_F_NEXT) then vret (Some (read_size, 0))
        else
          let* bytes := get_desc bytes queue_idx (d_next desc) in
          read_size_loop n' queue_idx bytes read_size
  end.

(** The two sizes; [None] when a readable descriptor follows a writable one. *)
Definition get_desc_rw_size (queue_idx desc_idx : Z) : VM D (option (Z * Z)) :=
  let* bytes := get_desc (uninit 16) queue_idx desc_idx in
  read_size_loop fuel queue_idx bytes 0.

Context `{VirtioDevice D}.

(** [virtio_read16 (s, qs->avail_addr + 4 + (qs->last_avail_idx & (qs->num - 1)) * 2)] *)
Definition avail_entry (qs : QueueState) : VM D Z :=
  virtio_read16 (u64 (q_avail_addr qs + 4 + u32 ((q_last_avail_idx qs .& u32 (q_num qs - 1)) * 2))).

(** Every round advances the 16-bit [last_avail_idx] towards [avail_idx]. *)
Fixpoint notify_loop (n : nat) (queue_idx avail_idx : Z) : VM D unit :=
  let* qs := get_queue queue_idx in
  if q_last_avail_idx qs =? avail_idx then vret tt
  else
    match n with
    | O => vfail OutOfFuel
    | S n' =>
        let* desc_idx := avail_entry qs in
        let* sizes := get_desc_rw_size queue_idx desc_idx in
        let* r :=
          match sizes with
          | Some (read_size, write_size) => device_recv queue_idx desc_idx read_size write_size
          | None => vret 0
          end in
        if r <? 0 then vret tt
        else
          mod_queue queue_idx (fun q => set_last_avail_idx (u16 (q_last_avail_idx q + 1)) q) ;;
          notify_loop n' queue_idx avail_idx
    end.

Definition queue_notify (queue_idx : Z) : VM D unit :=
  let* qs := get_queue queue_idx in
  if q_manual_recv qs then vret tt
  else
    let* avail_idx := virtio_read16 (u64 (q_avail_addr qs + 2)) in
    notify_loop (Z.to_nat 65536) queue_idx avail_idx.

(** ** Configuration space *)

Definition get_config (pos : Z) (n : nat) : VM D Z := fun s =>
  let bytes := firstn n (skipn (Z.to_nat pos) (config_space (vdev s))) in
  if (length bytes =? n)%nat then (s, inl (le_value bytes)) else (s, inr VUndefined).

Definition put_config (pos : Z) (bytes : list Z) : VM D unit := fun s =>
  match buf_write (config_space (vdev s)) pos bytes s with
  | (s', inl c) => vmod_dev (set_config_space c) s'
  | (s', inr e) => (s', inr e)
  end.

Definition virtio_config_read (offset size_log2 : Z) : VM D Z :=
  let* size := vgets (fun s => config_space_size (vdev s)) in
  if size_log2 =? 0 then
    if offset <? size then get_config offset 1 else vret 0
  else if size_log2 =? 1 then
    if offset <? u32 (size - 1) then get_config offset 2 else vret 0
  else if size_log2 =? 2 then
    if offset <? u32 (size - 3) then get_config offset 4 else vret 0
  else vfail VAbort.

Definition run_config_write : VM D unit := match config_write with Some f => f | None => vret tt end.

Definition virtio_config_write (offset val size_log2 : Z) : VM D unit :=
  let* size := vgets (fun s => config_space_size (vdev s)) in
  if size_log2 =? 0 then
    if offset <? size then put_config offset (le_bytes 1 val) ;; run_config_write else vret tt
  else if size_log2 =? 1 then
    if offset <? u32 (size - 1) then put_config offset (le_bytes 2 val) ;; run_config_write else vret tt
  else if size_log2 =? 2 then
    if offset <? u32 (size - 3) then put_config offset (le_bytes 4 val) ;; run_config_write else vret tt
  else vret tt.

(** ** The MMIO registers *)

(** [s->queue[s->queue_sel]] *)
Definition sel_queue {A} (f : QueueState -> A) : VM D A :=
  let* i := vgets (fun s => queue_sel (vdev s)) in
  let* q := get_queue i in
  vret (f q).

Definition mod_sel_queue (f : QueueState -> QueueState) : VM D unit :=
  let* i := vgets (fun s => queue_sel (vdev s)) in mod_queue i f.

Definition dev_field {A} (f : VIRTIODevice -> A) : VM D A := vgets (fun s => f (vdev s)).

Definition read_device_features : VM D Z :=
  let* d := vgets vdev in
  vret (if device_features_sel d =? 0 then device_features d else if device_features_sel d =? 1 then 1 else 0).

Definition virtio_mmio_read (offset size_log2 : Z) : VM D Z :=
  if VIRTIO_MMIO_CONFIG <=? offset then virtio_config_read (offset - VIRTIO_MMIO_CONFIG) size_log2
  else if size_log2 =? 2 then
    if offset =? VIRTIO_MMIO_MAGIC_VALUE then vret 0x74726976
    else if offset =? VIRTIO_MMIO_VERSION then vret 2
    else if offset =? VIRTIO_MMIO_DEVICE_ID then dev_field device_id
    else if offset =? VIRTIO_MMIO_VENDOR_ID then dev_field vendor_id
    else if offset =? VIRTIO_MMIO_DEVICE_FEATURES then read_device_features
    else if offset =? VIRTIO_MMIO_DEVICE_FEATURES_SEL then dev_field device_features_sel
    else if offset =? VIRTIO_MMIO_QUEUE_SEL then dev_field queue_sel
    else if offset =? VIRTIO_MMIO_QUEUE_NUM_MAX then vret MAX_QUEUE_NUM
    else if offset =? VIRTIO_MMIO_QUEUE_NUM then sel_queue q_num
    else if offset =? VIRTIO_MMIO_QUEUE_DESC_LOW then sel_queue (fun q => u32 (q_desc_addr q))
    else if offset =? VIRTIO_MMIO_QUEUE_AVAIL_LOW then sel_queue (fun q => u32 (q_avail_addr q))
    else if offset =? VIRTIO_MMIO_QUEUE_USED_LOW then sel_queue (fun q => u32 (q_used_addr q))
    else if offset =? VIRTIO_MMIO_QUEUE_DESC_HIGH then sel_queue (fun q => u32 (q_desc_addr q >> 32))
    else if offset =? VIRTIO_MMIO_QUEUE_AVAIL_HIGH then sel_queue (fun q => u32 (q_avail_addr q >> 32))
    else if offset =? VIRTIO_MMIO_QUEUE_USED_HIGH then sel_queue (fun q => u32 (q_used_addr q >> 32))
    else if offset =? VIRTIO_MMIO_QUEUE_READY then sel_queue q_ready
    else if offset =? VIRTIO_MMIO_INTERRUPT_STATUS then dev_field int_status
    else if offset =? VIRTIO_MMIO_STATUS then dev_field v_status
    else vret 0
  else vret 0.

Definition set_low32 (a val : Z) : Z := (a .&~ 0xffffffff) .| val.
Definition set_high32 (a val : Z) : Z := (a .& 0xffffffff) .| u64 (val << 32).

Definition write_status (val : Z) : VM D unit :=
  vmod_dev (set_v_status val) ;;
  if val =? 0 then set_irq false ;; vmod_dev virtio_reset else vret tt.

Definition write_queue_num (val : Z) : VM D unit :=
  if ((val .& u32 (val - 1)) =? 0) && (0 <? val) then mod_sel_queue (set_num val) else vret tt.

Definition write_queue_sel (val : Z) : VM D unit :=
  if val <? MAX_QUEUE then vmod_dev (set_queue_sel val) else vret tt.

Definition write_notify (val : Z) : VM D unit := if val <? MAX_QUEUE then queue_notify val else vret tt.

(** The six registers of ring addresses, at [desc], [avail] and [used] and the
    word after each. *)
Definition write_ring_addr (desc avail used offset val : Z) : option (VM D unit) :=
  if offset =? desc then Some (mod_sel_queue (fun q => set_desc_addr (set_low32 (q_desc_addr q) val) q))
  else if offset =? avail then Some (mod_sel_queue (fun q => set_avail_addr (set_low32 (q_avail_addr q) val) q))
  else if offset =? used then Some (mod_sel_queue (fun q => set_used_addr (set_low32 (q_used_addr q) val) q))
  else if offset =? desc + 4 then Some (mod_sel_queue (fun q => set_desc_addr (set_high32 (q_desc_addr q) val) q))
  else if offset =? avail + 4 then Some (mod_sel_queue (fun q => set_avail_addr (set_high32 (q_avail_addr q) val) q))
  else if offset =? used + 4 then Some (mod_sel_queue (fun q => set_used_addr (set_high32 (q_used_addr q) val) q))
  else None.

Definition virtio_mmio_write (offset val size_log2 : Z) : VM D unit :=
  if VIRTIO_MMIO_CONFIG <=? offset then virtio_config_write (offset - VIRTIO_MMIO_CONFIG) val size_log2
  else if size_log2 =? 2 then
    if offset =? VIRTIO_MMIO_DEVICE_FEATURES_SEL then vmod_dev (set_device_features_sel val)
    else if offset =? VIRTIO_MMIO_QUEUE_SEL then write_queue_sel val
    else if offset =? VIRTIO_MMIO_QUEUE_NUM then write_queue_num val
    else if offset =? VIRTIO_MMIO_STATUS then write_status val
    else if offset =? VIRTIO_MMIO_QUEUE_READY then mod_sel_queue (set_ready (val .& 1))
    else if offset =? VIRTIO_MMIO_QUEUE_NOTIFY then write_notify val
    else if offset =? VIRTIO_MMIO_INTERRUPT_ACK then
      vmod_dev (fun d => set_int_status (int_status d .&~ val) d) ;;
      let* i := dev_field int_status in
      if i =? 0 then set_irq false else vret tt
    else match write_ring_addr VIRTIO_MMIO_QUEUE_DESC_LOW VIRTIO_MMIO_QUEUE_AVAIL_LOW VIRTIO_MMIO_QUEUE_USED_LOW offset val with Some f => f | None => vret tt end
  else vret tt.

(** ** The PCI registers *)

Definition virtio_pci_read (offset1 size_log2 : Z) : VM D Z :=
  let offset := offset1 .& 0xfff in
  let page := offset1 >> 12 in
  if page =? (VIRTIO_PCI_CFG_OFFSET >> 12) then
    if size_log2 =? 2 then
      if offset =? VIRTIO_PCI_DEVICE_FEATURE then read_device_features
      else if offset =? VIRTIO_PCI_DEVICE_FEATURE_SEL then dev_field device_features_sel
      else if offset =? VIRTIO_PCI_QUEUE_DESC_LOW then sel_queue (fun q => u32 (q_desc_addr q))
      else if offset =? VIRTIO_PCI_QUEUE_AVAIL_LOW then sel_queue (fun q => u32 (q_avail_addr q))
      else if offset =? VIRTIO_PCI_QUEUE_USED_LOW then sel_queue (fun q => u32 (q_used_addr q))
      else if offset =? VIRTIO_PCI_QUEUE_DESC_HIGH then sel_queue (fun q => u32 (q_desc_addr q >> 32))
      else if offset =? VIRTIO_PCI_QUEUE_AVAIL_HIGH then sel_queue (fun q => u32 (q_avail_addr q >> 32))
      else if offset =? VIRTIO_PCI_QUEUE_USED_HIGH then sel_queue (fun q => u32 (q_used_addr q >> 32))
      else vret 0
    else if size_log2 =? 1 then
      if offset =? VIRTIO_PCI_NUM_QUEUES then vret MAX_QUEUE_NUM
      else if offset =? VIRTIO_PCI_QUEUE_SEL then dev_field queue_sel
      else if offset =? VIRTIO_PCI_QUEUE_SIZE then sel_queue q_num
      else if offset =? VIRTIO_PCI_QUEUE_ENABLE then sel_queue q_ready
      else vret 0
    else if (size_log2 =? 0) && (offset =? VIRTIO_PCI_DEVICE_STATUS) then dev_field v_status
    else vret 0
  else if page =? (VIRTIO_PCI_ISR_OFFSET >> 12) then
    if (offset =? 0) && (size_log2 =? 0) then
      let* val := dev_field int_status in
      vmod_dev (set_int_status 0) ;;
      set_irq false ;;
      vret val
    else vret 0
  else if page =? (VIRTIO_PCI_CONFIG_OFFSET >> 12) then virtio_config_read offset size_log2
  else vret 0.

Definition virtio_pci_write (offset1 val size_log2 : Z) : VM D unit :=
  let offset := offset1 .& 0xfff in
  let page := offset1 >> 12 in
  if page =? (VIRTIO_PCI_CFG_OFFSET >> 12) then
    if size_log2 =? 2 then
      if offset =? VIRTIO_PCI_DEVICE_FEATURE_SEL then vmod_dev (set_device_features_sel val)
      else match write_ring_addr VIRTIO_PCI_QUEUE_DESC_LOW VIRTIO_PCI_QUEUE_AVAIL_LOW VIRTIO_PCI_QUEUE_USED_LOW offset val with Some f => f | None => vret tt end
    else if size_log2 =? 1 then
      if offset =? VIRTIO_PCI_QUEUE_SEL then write_queue_sel val
      else if offset =? VIRTIO_PCI_QUEUE_SIZE then write_queue_num val
      else if offset =? VIRTIO_PCI_QUEUE_ENABLE then mod_sel_queue (set_ready (val .& 1))
      else vret tt
    else if (size_log2 =? 0) && (offset =? VIRTIO_PCI_DEVICE_STATUS) then write_status val
    else vret tt
  else if page =? (VIRTIO_PCI_CONFIG_OFFSET >> 12) then virtio_config_write offset val size_log2
  else if page =? (VIRTIO_PCI_NOTIFY_OFFSET >> 12) then write_notify val
  else vret tt.

Definition virtio_config_change_notify : VM D unit :=
  vmod_dev (fun d => set_int_status (int_status d .| 2) d) ;;
  set_irq true.

End Queues.
