(* ===== verification/VirtioDevs.v ===== *)
(** * The VirtIO devices

    The console, network, block and input devices of [src/virtio.cpp] as
    instances of [VirtioDevice], with the file-backed block back end of
    [src/block_device.cpp].  What the console and the network back ends do with
    the bytes they are handed is host I/O: the model keeps the sequence of
    calls. *)

From S2P Require Import Prelude RiscvDefs State IoMem Tlb Pmp Mmu Csr Trap Alu HartInv Frame Devices Virtio.
Open Scope Z_scope.
Open Scope c_scope.

(** ** Host files *)

(** A stream opened on a file: its contents and the position. *)
Record file := mkFile { f_bytes : list Z; f_pos : Z }.

(** [fseek (f, off, SEEK_SET)] with the unsigned [off] converted to [long];
    a negative offset is refused and leaves the position. *)
Definition fseek (f : file) (off : Z) : file := if 0 <=? i64 off then mkFile (f_bytes f) (i64 off) else f.

(** [fread (buf, 1, n, f)]: the bytes got. *)
Definition fread (f : file) (n : Z) : list Z * file :=
  let got := if f_pos f <? Z.of_nat (length (f_bytes f)) then firstn (Z.to_nat n) (skipn (Z.to_nat (f_pos f)) (f_bytes f)) else [] in
  (got, mkFile (f_bytes f) (f_pos f + Z.of_nat (length got))).

(** [fwrite (buf, 1, n, f)]: a gap before the position is filled with zeros. *)
Definition fwrite (f : file) (bytes : list Z) : file :=
  match bytes with
  | [] => f
  | _ =>
      let pos := Z.to_nat (f_pos f) in
      let before := firstn pos (f_bytes f) in
      mkFile (before ++ repeat 0 (pos - length before) ++ bytes ++ skipn (pos + length bytes) (f_bytes f))
             (f_pos f + Z.of_nat (length bytes))
  end.

(** ** The block back end *)

Definition SECTOR_SIZE := 512.

Inductive BlockDeviceModeEnum := BF_MODE_RO | BF_MODE_RW | BF_MODE_SNAPSHOT.

Record BlockDeviceFile := mkBlockFile {
  bf_f : option file;
  nb_sectors : Z;
  bf_mode : BlockDeviceModeEnum;
  sector_table : list (option (list Z))
}.

Definition set_bf_f v b := mkBlockFile v (nb_sectors b) (bf_mode b) (sector_table b).
Definition set_sector_table v b := mkBlockFile (bf_f b) (nb_sectors b) (bf_mode b) v.

(** Results of a back end: a value, or how it ends. *)
Definition bf_result (A : Type) : Type := (A * BlockDeviceFile) + vstop.

Definition bf_get_sector_count (b : BlockDeviceFile) : Z := nb_sectors b.

(** One sector of a snapshot: [sector_table[sector_num]], or the file. *)
Definition bf_read_sector (b : BlockDeviceFile) (sector_num : Z) : bf_result (list Z) :=
  match (if sector_num <? Z.of_nat (length (sector_table b)) then sector_table b !! Z.to_nat sector_num else None) with
  | None => inr VUndefined
  | Some (Some sector) => inl (sector, b)
  | Some None =>
      match bf_f b with
      | None => inr VUndefined
      | Some f =>
          let '(got, f) := fread (fseek f (u64 (sector_num * SECTOR_SIZE))) SECTOR_SIZE in
          if Z.of_nat (length got) =? SECTOR_SIZE then inl (got, set_bf_f (Some f) b) else inr VAssert
      end
  end.

Fixpoint bf_read_sectors (n : nat) (b : BlockDeviceFile) (sector_num : Z) : bf_result (list Z) :=
  match n with
  | O => inl ([], b)
  | S n' =>
      match bf_read_sector b sector_num with
      | inr e => inr e
      | inl (s, b) =>
          match bf_read_sectors n' b (u64 (sector_num + 1)) with
          | inr e => inr e
          | inl (r, b) => inl (s ++ r, b)
          end
      end
  end.

(** [bf_read_async]: the bytes stored to the buffer and the return value. *)
Definition bf_read_async (b : BlockDeviceFile) (sector_num n : Z) : bf_result (list Z * Z) :=
  match bf_f b with
  | None => inl ([], -1, b)
  | Some f =>
      match bf_mode b with
      | BF_MODE_SNAPSHOT =>
          match bf_read_sectors (Z.to_nat n) b sector_num with
          | inr e => inr e
          | inl (bytes, b) => inl (bytes, 0, b)
          end
      | _ =>
          let '(got, f) := fread (fseek f (u64 (sector_num * SECTOR_SIZE))) (u64 (n * SECTOR_SIZE)) in
          if Z.of_nat (length got) =? u64 (n * SECTOR_SIZE) then inl (got, 0, set_bf_f (Some f) b) else inr VAssert
      end
  end.

(** The loop of the snapshot case, over [buf]. *)
Fixpoint bf_write_sectors (n : nat) (b : BlockDeviceFile) (sector_num : Z) (buf : list Z) : bf_result Z :=
  match n with
  | O => inl (0, b)
  | S n' =>
      if (sector_num <? Z.of_nat (length (sector_table b))) && (512 <=? length buf)%nat then
        bf_write_sectors n' (set_sector_table (<[Z.to_nat sector_num := Some (firstn 512 buf)]> (sector_table b)) b)
          (u64 (sector_num + 1)) (skipn 512 buf)
      else inr VUndefined
  end.

Definition bf_write_async (b : BlockDeviceFile) (sector_num : Z) (buf : list Z) (n : Z) : bf_result Z :=
  match bf_mode b with
  | BF_MODE_RO => inl (-1, b)
  | BF_MODE_RW =>
      match bf_f b with
      | None => inr VUndefined
      | Some f =>
          if u64 (n * SECTOR_SIZE) <=? Z.of_nat (length buf)
          then inl (0, set_bf_f (Some (fwrite (fseek f (u64 (sector_num * SECTOR_SIZE))) (firstn (Z.to_nat (n * SECTOR_SIZE)) buf))) b)
          else inr VUndefined
      end
  | BF_MODE_SNAPSHOT =>
      if nb_sectors b <? u32 (sector_num + n) then inl (-1, b)
      else bf_write_sectors (Z.to_nat n) b sector_num buf
  end.

(** [block_device_init] on a file that opens, with the contents [bytes]. *)
Definition block_device_init (bytes : list Z) (mode : BlockDeviceModeEnum) : BlockDeviceFile :=
  let file_size := Z.of_nat (length bytes) in
  let sectors := file_size / 512 in
  mkBlockFile (Some (mkFile bytes file_size)) sectors mode
    (match mode with BF_MODE_SNAPSHOT => repeat None (Z.to_nat sectors) | _ => [] end).

Section Devices.
Context (garbage : nat -> Z) (fuel : nat).
Open Scope v_scope.

(** ** Block device *)

Record BlockRequest := mkReq { req_type : Z; req_buf : list Z; req_write_size : Z; req_queue_idx : Z; req_desc_idx : Z }.

Record VIRTIOBlock := mkBlock { blk_bs : BlockDeviceFile; req_in_progress : bool; blk_req : BlockRequest }.

Definition set_blk_bs v d := mkBlock v (req_in_progress d) (blk_req d).
Definition set_req_in_progress v d := mkBlock (blk_bs d) v (blk_req d).
Definition set_blk_req v d := mkBlock (blk_bs d) (req_in_progress d) v.

Definition VIRTIO_BLK_T_IN := 0.
Definition VIRTIO_BLK_T_OUT := 1.
Definition VIRTIO_BLK_S_OK := 0.
Definition VIRTIO_BLK_S_IOERR := 1.

Definition blk_status (ret : Z) : Z := if ret <? 0 then VIRTIO_BLK_S_IOERR else VIRTIO_BLK_S_OK.

Definition virtio_block_req_end (ret : Z) : VM VIRTIOBlock unit :=
  let* r := vgets (fun s => blk_req (vown s)) in
  if req_type r =? VIRTIO_BLK_T_IN then
    let write_size := req_write_size r in
    let* buf := buf_write (req_buf r) (write_size - 1) [blk_status ret] in
    let* _ := memcpy_to_queue garbage fuel (req_queue_idx r) (req_desc_idx r) 0 buf write_size in
    virtio_consume_desc (req_queue_idx r) (req_desc_idx r) write_size
  else if req_type r =? VIRTIO_BLK_T_OUT then
    let* _ := memcpy_to_queue garbage fuel (req_queue_idx r) (req_desc_idx r) 0 [blk_status ret] 1 in
    virtio_consume_desc (req_queue_idx r) (req_desc_idx r) 1
  else vfail VAbort.

(** Run a back-end call on [s1->bs]. *)
Definition on_bs {A} (f : BlockDeviceFile -> bf_result A) : VM VIRTIOBlock A := fun s =>
  match f (blk_bs (vown s)) with
  | inl (a, b) => vbind (vmod_own (set_blk_bs b)) (fun _ => vret a) s
  | inr e => (s, inr e)
  end.

(** The request is under way for [ret > 0], and done otherwise. *)
Definition blk_started (ret : Z) : VM VIRTIOBlock unit :=
  if 0 <? ret then vmod_own (set_req_in_progress true) else virtio_block_req_end ret.

Definition virtio_block_recv_request (queue_idx desc_idx read_size write_size : Z) : VM VIRTIOBlock Z :=
  let* busy := vgets (fun s => req_in_progress (vown s)) in
  if busy then vret (-1)
  else
    let* r := memcpy_from_queue garbage fuel (uninit garbage 16) queue_idx desc_idx 0 16 in
    let '(h, res) := r in
    if res <? 0 then vret 0
    else
      let h_type := field h 0 4 in
      let sector_num := field h 8 8 in
      vmod_own (fun d => set_blk_req (mkReq h_type (req_buf (blk_req d)) (req_write_size (blk_req d)) queue_idx desc_idx) d) ;;
      (if h_type =? VIRTIO_BLK_T_IN then
         let buf := uninit garbage (Z.to_nat write_size) in
         let n := Z.quot (write_size - 1) SECTOR_SIZE in
         let* r := on_bs (fun b => bf_read_async b sector_num n) in
         let* buf := buf_write buf 0 r.1 in
         vmod_own (fun d => set_blk_req (mkReq h_type buf write_size queue_idx desc_idx) d) ;;
         blk_started r.2
       else if h_type =? VIRTIO_BLK_T_OUT then
         if write_size <? 1 then vfail VAssert
         else
           let len := i32 (read_size - 16) in
           let* b := memcpy_from_queue garbage fuel (uninit garbage (Z.to_nat len)) queue_idx desc_idx 16 len in
           let* ret := on_bs (fun f => bf_write_async f sector_num b.1 (Z.quot len SECTOR_SIZE)) in
           blk_started ret
       else vret tt) ;;
      vret 0.

#[export] Instance block_device : VirtioDevice VIRTIOBlock :=
  {| device_recv := virtio_block_recv_request; config_write := None |}.

(** The completion callback of an asynchronous back end. *)
Definition virtio_block_req_cb (ret : Z) : VM VIRTIOBlock unit :=
  virtio_block_req_end ret ;;
  vmod_own (set_req_in_progress false) ;;
  let* i := vgets (fun s => req_queue_idx (blk_req (vown s))) in
  queue_notify garbage fuel i.

Definition virtio_block_init (irq : Z) (bs : BlockDeviceFile) (m : RISCVMachine) : VS VIRTIOBlock :=
  let d := virtio_init irq 2 8 in
  let n := bf_get_sector_count bs in
  mkVS (set_config_space (le_bytes 4 n ++ le_bytes 4 (n >> 32) ++ skipn 8 (config_space d)) d) m
       (mkBlock bs false (mkReq 0 [] 0 0 0)).

(** ** Network device *)

Record VIRTIONet := mkNet { header_size : Z; net_sent : list (list Z) }.

Definition virtio_net_recv_request (queue_idx desc_idx read_size write_size : Z) : VM VIRTIONet Z :=
  if queue_idx =? 1 then
    let* hs := vgets (fun s => header_size (vown s)) in
    let* r := memcpy_from_queue garbage fuel (uninit garbage 12) queue_idx desc_idx 0 hs in
    if r.2 <? 0 then vret 0
    else
      let* len := vint (read_size - hs) in
      let* b := memcpy_from_queue garbage fuel (uninit garbage (Z.to_nat len)) queue_idx desc_idx hs len in
      vmod_own (fun d => mkNet (header_size d) (net_sent d ++ [b.1])) ;;
      virtio_consume_desc queue_idx desc_idx 0 ;;
      vret 0
  else vret 0.

#[export] Instance net_device : VirtioDevice VIRTIONet :=
  {| device_recv := virtio_net_recv_request; config_write := None |}.

(** A receive queue has a buffer: the body the console shares. *)
Definition recv_ready {D} : VM D bool :=
  let* qs := get_queue 0 in
  if q_ready qs =? 0 then vret false
  else
    let* avail_idx := virtio_read16 (u64 (q_avail_addr qs + 2)) in
    vret (negb (q_last_avail_idx qs =? avail_idx)).

Definition virtio_net_can_write_packet : VM VIRTIONet bool := recv_ready.

Definition advance_recv {D} : VM D unit :=
  mod_queue 0 (fun q => set_last_avail_idx (u16 (q_last_avail_idx q + 1)) q).

Definition virtio_net_write_packet (buf : list Z) : VM VIRTIONet unit :=
  let buf_len := Z.of_nat (length buf) in
  let* ok := recv_ready in
  if ok then
    let* qs := get_queue 0 in
    let* desc_idx := avail_entry qs in
    let* sizes := get_desc_rw_size garbage fuel 0 desc_idx in
    match sizes with
    | None => vret tt
    | Some (_, write_size) =>
        let* hs := vgets (fun s => header_size (vown s)) in
        let* len := vint (hs + buf_len) in
        if write_size <? len then vret tt
        else
          let* _ := memcpy_to_queue garbage fuel 0 desc_idx 0 (repeat 0 (Z.to_nat hs)) hs in
          let* _ := memcpy_to_queue garbage fuel 0 desc_idx hs buf buf_len in
          virtio_consume_desc 0 desc_idx len ;;
          advance_recv
    end
  else vret tt.

Definition virtio_net_init (irq : Z) (mac_addr : list Z) (m : RISCVMachine) : VS VIRTIONet :=
  let d := virtio_init irq 1 8 in
  let d := set_device_features (1 << 5) d in
  let d := set_queue (alter (set_manual_recv true) 0%nat (queue d)) d in
  mkVS (set_config_space (firstn 6 mac_addr ++ [0; 0] ++ skipn 8 (config_space d)) d) m (mkNet 12 []).

(** ** Console device *)

(** The calls of [cs->write_data]. *)
Definition VIRTIOConsole : Type := list (list Z).

Definition virtio_console_recv_request (queue_idx desc_idx read_size write_size : Z) : VM VIRTIOConsole Z :=
  if queue_idx =? 1 then
    let* b := memcpy_from_queue garbage fuel (uninit garbage (Z.to_nat read_size)) queue_idx desc_idx 0 read_size in
    vmod_own (fun out => out ++ [b.1]) ;;
    virtio_consume_desc queue_idx desc_idx 0 ;;
    vret 0
  else vret 0.

#[export] Instance console_device : VirtioDevice VIRTIOConsole :=
  {| device_recv := virtio_console_recv_request; config_write := None |}.

Definition virtio_console_can_write_data : VM VIRTIOConsole bool := recv_ready.

Definition virtio_console_get_write_len : VM VIRTIOConsole Z :=
  let* ok := recv_ready in
  if ok then
    let* qs := get_queue 0 in
    let* desc_idx := avail_entry qs in
    let* sizes := get_desc_rw_size garbage fuel 0 desc_idx in
    vret (match sizes with Some (_, write_size) => write_size | None => 0 end)
  else vret 0.

Definition virtio_console_write_data (buf : list Z) : VM VIRTIOConsole Z :=
  let buf_len := Z.of_nat (length buf) in
  let* ok := recv_ready in
  if ok then
    let* qs := get_queue 0 in
    let* desc_idx := avail_entry qs in
    let* _ := memcpy_to_queue garbage fuel 0 desc_idx 0 buf buf_len in
    virtio_consume_desc 0 desc_idx buf_len ;;
    advance_recv ;;
    vret buf_len
  else vret 0.

Definition virtio_console_resize_event (width height : Z) : VM VIRTIOConsole unit :=
  put_config 0 (le_bytes 2 width) ;;
  put_config 2 (le_bytes 2 height) ;;
  virtio_config_change_notify.

Definition virtio_console_init (irq : Z) (m : RISCVMachine) : VS VIRTIOConsole :=
  let d := set_device_features (1 << 0) (virtio_init irq 3 4) in
  mkVS (set_queue (alter (set_manual_recv true) 0%nat (queue d)) d) m [].

(** ** Input device *)

Inductive VirtioInputTypeEnum := VIRTIO_INPUT_TYPE_KEYBOARD | VIRTIO_INPUT_TYPE_MOUSE | VIRTIO_INPUT_TYPE_TABLET.

#[export] Instance input_type_eq_dec : EqDecision VirtioInputTypeEnum.
Proof. solve_decision. Defined.

Record VIRTIOInput := mkInput { input_type : VirtioInputTypeEnum; buttons_state : Z }.

Definition VIRTIO_INPUT_EV_SYN := 0x00.
Definition VIRTIO_INPUT_EV_KEY := 0x01.
Definition VIRTIO_INPUT_EV_REL := 0x02.
Definition VIRTIO_INPUT_EV_ABS := 0x03.
Definition VIRTIO_INPUT_EV_REP := 0x14.
Definition REL_X := 0.
Definition REL_Y := 1.
Definition REL_WHEEL := 8.
Definition ABS_X := 0.
Definition ABS_Y := 1.
Definition VIRTIO_INPUT_ABS_SCALE := 32768.

(** [BTN_LEFT], [BTN_RIGHT] and [BTN_MIDDLE] *)
Definition buttons_list : list Z := [0x110; 0x111; 0x112].

Definition virtio_input_recv_request (queue_idx desc_idx read_size write_size : Z) : VM VIRTIOInput Z :=
  (if queue_idx =? 1 then virtio_consume_desc queue_idx desc_idx 0 else vret tt) ;;
  vret 0.

Definition virtio_input_queue_event (type code value : Z) : VM VIRTIOInput Z :=
  let buf := le_bytes 2 type ++ le_bytes 2 code ++ le_bytes 4 value in
  let* ok := recv_ready in
  if ok then
    let* qs := get_queue 0 in
    let* desc_idx := avail_entry qs in
    let* _ := memcpy_to_queue garbage fuel 0 desc_idx 0 buf 8 in
    virtio_consume_desc 0 desc_idx 8 ;;
    advance_recv ;;
    vret 0
  else vret (-1).

(** [ret = m; if (ret) return ret; k] *)
Definition unless_failed (m k : VM VIRTIOInput Z) : VM VIRTIOInput Z :=
  let* ret := m in if ret =? 0 then k else vret ret.

Definition virtio_input_send_key_event (is_down : bool) (key_code : Z) : VM VIRTIOInput Z :=
  let* type := vgets (fun s => input_type (vown s)) in
  if bool_decide (type = VIRTIO_INPUT_TYPE_KEYBOARD) then
    unless_failed (virtio_input_queue_event VIRTIO_INPUT_EV_KEY key_code (Z.b2z is_down))
      (virtio_input_queue_event VIRTIO_INPUT_EV_SYN 0 0)
  else vret (-1).

(** The loop over [buttons_list]: an event per changed button. *)
Fixpoint send_buttons (codes : list Z) (i buttons last : Z) (k : VM VIRTIOInput Z) : VM VIRTIOInput Z :=
  match codes with
  | [] => k
  | code :: codes' =>
      let b := (buttons >> i) .& 1 in
      let rest := send_buttons codes' (i + 1) buttons last k in
      if b =? ((last >> i) .& 1) then rest else unless_failed (virtio_input_queue_event VIRTIO_INPUT_EV_KEY code b) rest
  end.

Definition virtio_input_send_mouse_event (dx dy dz buttons : Z) : VM VIRTIOInput Z :=
  let* d := vgets vown in
  let syn := virtio_input_queue_event VIRTIO_INPUT_EV_SYN 0 0 in
  let rest :=
    if buttons =? buttons_state d then syn
    else send_buttons buttons_list 0 buttons (buttons_state d)
           (vmod_own (fun d => mkInput (input_type d) buttons) ;; syn) in
  let wheel := if dz =? 0 then rest else unless_failed (virtio_input_queue_event VIRTIO_INPUT_EV_REL REL_WHEEL (u32 dz)) rest in
  let move ev x y :=
    unless_failed (virtio_input_queue_event ev x (u32 dx)) (unless_failed (virtio_input_queue_event ev y (u32 dy)) wheel) in
  match input_type d with
  | VIRTIO_INPUT_TYPE_KEYBOARD => vret (-1)
  | VIRTIO_INPUT_TYPE_MOUSE => move VIRTIO_INPUT_EV_REL REL_X REL_Y
  | VIRTIO_INPUT_TYPE_TABLET => move VIRTIO_INPUT_EV_ABS ABS_X ABS_Y
  end.

(** [memcpy (config + pos, bytes, ..)] *)
Definition config_copy (pos : nat) (bytes config : list Z) : list Z :=
  firstn pos config ++ bytes ++ skipn (pos + length bytes) config.

(** [set_bit (config + 8, k)] *)
Definition config_set_bit (k : Z) (config : list Z) : list Z :=
  aset config (8 + (k >> 3)) (u8 (aget 0 config (8 + (k >> 3)) .| (1 << (k .& 7)))).

(** "virtio_keyboard", "virtio_mouse" and "virtio_tablet" *)
Definition input_name (type : VirtioInputTypeEnum) : list Z :=
  [0x76; 0x69; 0x72; 0x74; 0x69; 0x6f; 0x5f] ++
  match type with
  | VIRTIO_INPUT_TYPE_KEYBOARD => [0x6b; 0x65; 0x79; 0x62; 0x6f; 0x61; 0x72; 0x64]
  | VIRTIO_INPUT_TYPE_MOUSE => [0x6d; 0x6f; 0x75; 0x73; 0x65]
  | VIRTIO_INPUT_TYPE_TABLET => [0x74; 0x61; 0x62; 0x6c; 0x65; 0x74]
  end.

(** The bitmap of the three buttons. *)
Definition button_bits (config : list Z) : list Z :=
  fold_left (fun c k => config_set_bit k c) buttons_list (config_copy 8 (repeat 0 64) (aset config 2 64)).

Definition rel_bits (bits : list Z) (config : list Z) : list Z :=
  fold_left (fun c k => config_set_bit k c) bits (aset (aset (aset config 2 2) 8 0) 9 0).

Definition input_ev_bits (type : VirtioInputTypeEnum) (config : list Z) : list Z :=
  let config := aset config 2 0 in
  let ev := aget 0 config 1 in
  match type with
  | VIRTIO_INPUT_TYPE_KEYBOARD =>
      if ev =? VIRTIO_INPUT_EV_KEY then config_copy 8 (repeat 0xff 16) (aset config 2 16)
      else if ev =? VIRTIO_INPUT_EV_REP then aset config 2 1
      else config
  | VIRTIO_INPUT_TYPE_MOUSE =>
      if ev =? VIRTIO_INPUT_EV_KEY then button_bits config
      else if ev =? VIRTIO_INPUT_EV_REL then rel_bits [REL_X; REL_Y; REL_WHEEL] config
      else config
  | VIRTIO_INPUT_TYPE_TABLET =>
      if ev =? VIRTIO_INPUT_EV_KEY then button_bits config
      else if ev =? VIRTIO_INPUT_EV_REL then rel_bits [REL_WHEEL] config
      else if ev =? VIRTIO_INPUT_EV_ABS then config_set_bit ABS_Y (config_set_bit ABS_X (aset (aset config 2 1) 8 0))
      else config
  end.

Definition input_config (type : VirtioInputTypeEnum) (config : list Z) : list Z :=
  let select := aget 0 config 0 in
  if select =? 0x00 then config
  else if select =? 0x01 then
    config_copy 8 (input_name type) (aset config 2 (Z.of_nat (length (input_name type))))
  else if select =? 0x11 then input_ev_bits type config
  else if select =? 0x12 then
    if bool_decide (type = VIRTIO_INPUT_TYPE_TABLET) && (aget 0 config 1 <=? 1) then
      config_copy 8 (le_bytes 4 0 ++ le_bytes 4 (VIRTIO_INPUT_ABS_SCALE - 1) ++ repeat 0 12) (aset config 2 20)
    else config
  else aset config 2 0.

Definition virtio_input_config_write : VM VIRTIOInput unit := fun s =>
  vmod_dev (fun d => set_config_space (input_config (input_type (vown s)) (config_space d)) d) s.

#[export] Instance input_device : VirtioDevice VIRTIOInput :=
  {| device_recv := virtio_input_recv_request; config_write := Some virtio_input_config_write |}.

Definition virtio_input_init (irq : Z) (type : VirtioInputTypeEnum) (m : RISCVMachine) : VS VIRTIOInput :=
  let d := virtio_init irq 18 256 in
  mkVS (set_device_features 0 (set_queue (alter (set_manual_recv true) 0%nat (queue d)) d)) m (mkInput type 0).

End Devices.
