(* ===== verification/VirtioProps.v ===== *)
(** * Correctness of the VirtIO queues

    The guest's memory is a window of RAM; descriptor chains are lists of guest
    addresses in it.  Copying from a chain gathers the bytes at those
    addresses, copying to one scatters them, the used ring records every
    request in order, and a notification serves every request the driver has
    made available. *)

From S2P Require Import Prelude RiscvDefs State IoMem Tlb Pmp Mmu Csr Trap Alu HartInv Frame Devices Translate Virtio VirtioDevs.
Open Scope Z_scope.
Open Scope c_scope.

(** ** The guest's memory *)

Section Window.
(** Guest-physical [lo, hi) is RAM at host address [base]. *)
Context (lo hi base : Z).

Definition inw (a n : Z) : Prop := lo <= a /\ a + n <= hi.

Record guest_ram (m : RISCVMachine) : Prop := {
  gr_lo : 0 <= lo;
  gr_hi : hi <= 2 ^ 64;
  gr_ptr : forall a, lo <= a < hi -> virtio_mmio_get_ram_ptr m a = Some (base + (a - lo));
  gr_mem : forall a, lo <= a < hi -> exists b, hmem m !! (base + (a - lo)) = Some b /\ in_u 8 b;
  gr_harts : ncpus m = Z.of_nat (length (cpu_state m))
}.

Definition gbyte (m : RISCVMachine) (a : Z) : Z := default 0 (hmem m !! (base + (a - lo))).

Definition gbytes (m : RISCVMachine) (a : Z) (n : nat) : list Z := map (fun i => gbyte m (a + Z.of_nat i)) (seq 0 n).

Lemma gbytes_length m a n : length (gbytes m a n) = n.
Proof. unfold gbytes. rewrite length_map, length_seq. reflexivity. Qed.

Lemma gbytes_S m a n : gbytes m a (S n) = gbyte m a :: gbytes m (a + 1) n.
Proof.
  unfold gbytes. cbn [seq map]. rewrite Z.add_0_r. f_equal. rewrite <- seq_shift, map_map. apply map_ext.
  intros i. f_equal. lia.
Qed.

Lemma gbytes_app m a n k : gbytes m a (n + k) = gbytes m a n ++ gbytes m (a + Z.of_nat n) k.
Proof.
  revert a; induction n as [|n IH]; intros a; [cbn; rewrite Z.add_0_r; reflexivity|].
  cbn [Nat.add]. rewrite !gbytes_S. cbn [app]. f_equal. rewrite IH. do 2 f_equal. lia.
Qed.

Lemma gbytes_ext m m' a n : (forall x, a <= x < a + Z.of_nat n -> gbyte m' x = gbyte m x) -> gbytes m' a n = gbytes m a n.
Proof. intros H. unfold gbytes. apply map_ext_in. intros i Hi%in_seq. apply H. lia. Qed.

Lemma gbyte_wf m a : guest_ram m -> lo <= a < hi -> in_u 8 (gbyte m a).
Proof. intros G Ha. unfold gbyte. destruct (gr_mem _ G a Ha) as (b & -> & Hb). exact Hb. Qed.

Lemma gbytes_wf m a n : guest_ram m -> inw a (Z.of_nat n) -> Forall (in_u 8) (gbytes m a n).
Proof.
  intros G [H1 H2]. unfold gbytes. apply Forall_forall. intros x Hx. apply in_map_iff in Hx.
  destruct Hx as (i & <- & Hi%in_seq). apply gbyte_wf; [exact G|lia].
Qed.

Lemma host_read_window m n : forall a, guest_ram m -> inw a (Z.of_nat n) ->
  host_read_bytes (hmem m) n (base + (a - lo)) = Some (gbytes m a n).
Proof.
  induction n as [|n IH]; intros a G [H1 H2]; [reflexivity|]. cbn [host_read_bytes]. rewrite gbytes_S.
  unfold gbyte at 1. destruct (gr_mem _ G a) as (b & -> & _); [lia|].
  replace (base + (a - lo) + 1) with (base + (a + 1 - lo)) by lia.
  rewrite IH by (try exact G; split; lia). reflexivity.
Qed.

(** What a store of the bytes [l] at [a] does to the machine. *)
Record wrote (m : RISCVMachine) (a : Z) (l : list Z) (m' : RISCVMachine) : Prop := {
  wr_ram : guest_ram m';
  wr_map : mem_map m' = mem_map m;
  wr_byte : forall x, lo <= x < hi ->
    gbyte m' x = if (a <=? x) && (x <? a + Z.of_nat (length l)) then nth (Z.to_nat (x - a)) l 0 else gbyte m x;
  wr_plic : plic_pending_irq m' = plic_pending_irq m /\ plic_served_irq m' = plic_served_irq m
}.

Lemma host_write_window m a l : guest_ram m -> inw a (Z.of_nat (length l)) -> Forall (in_u 8) l ->
  exists h, host_write_bytes (hmem m) (base + (a - lo)) l = Some h /\ wrote m a l (set_hmem h m).
Proof.
  intros G [H1 H2] Hl. destruct (host_write_present l (hmem m) (base + (a - lo))) as [h E].
  { intros x Hx. destruct (gr_mem _ G (x - base + lo)) as (b & Eb & _); [lia|].
    replace (base + (x - base + lo - lo)) with x in Eb by lia. eexists; exact Eb. }
  exists h. split; [exact E|]. pose proof (host_write_bytes_lookup _ _ _ _ E) as L.
  assert (B : forall x, lo <= x < hi -> h !! (base + (x - lo)) =
    if (a <=? x) && (x <? a + Z.of_nat (length l)) then Some (nth (Z.to_nat (x - a)) l 0) else hmem m !! (base + (x - lo))).
  { intros x Hx. rewrite L. replace (base + (x - lo) - (base + (a - lo))) with (x - a) by lia.
    destruct (Z.leb_spec (base + (a - lo)) (base + (x - lo))), (Z.leb_spec a x),
      (Z.ltb_spec (base + (x - lo)) (base + (a - lo) + Z.of_nat (length l))),
      (Z.ltb_spec x (a + Z.of_nat (length l))); try lia; reflexivity. }
  split; [|reflexivity| |split; reflexivity].
  - destruct G as [G1 G2 G3 G4 G5]. split; try assumption. intros x Hx. cbn [hmem set_hmem]. change (hmem (set_hmem h m)) with h.
    rewrite B by exact Hx. destruct ((a <=? x) && _) eqn:Eb; [|apply G4, Hx]. bool_hyps.
    eexists. split; [reflexivity|]. apply (proj1 (Forall_nth _ _) Hl). lia.
  - intros x Hx. unfold gbyte at 1. change (hmem (set_hmem h m)) with h. rewrite B by exact Hx.
    destruct (_ && _); reflexivity.
Qed.

Lemma wrote_nil m a : guest_ram m -> wrote m a [] m.
Proof.
  intros G. split; [exact G|reflexivity| |split; reflexivity]. intros x Hx. cbn [length].
  destruct (Z.leb_spec a x), (Z.ltb_spec x (a + Z.of_nat 0)); cbn [andb]; (reflexivity || lia).
Qed.

Lemma wrote_app m m1 m2 a l1 l2 : wrote m a l1 m1 -> wrote m1 (a + Z.of_nat (length l1)) l2 m2 -> wrote m a (l1 ++ l2) m2.
Proof.
  intros [R1 M1 B1 [P1 S1]] [R2 M2 B2 [P2 S2]]. split; [exact R2|congruence| |split; congruence]. intros x Hx. rewrite B2, B1 by exact Hx.
  rewrite length_app. destruct (Z.leb_spec a x), (Z.ltb_spec x (a + Z.of_nat (length l1))),
    (Z.leb_spec (a + Z.of_nat (length l1)) x), (Z.ltb_spec x (a + Z.of_nat (length l1) + Z.of_nat (length l2))),
    (Z.ltb_spec x (a + Z.of_nat (length l1 + length l2))); cbn [andb]; try reflexivity; try lia.
  - rewrite app_nth1 by lia. reflexivity.
  - rewrite app_nth2 by lia. f_equal. lia.
Qed.

(** The machine after a change of an interrupt line. *)
Definition wrote_irq (m m' : RISCVMachine) : Prop := guest_ram m' /\ forall x, gbyte m' x = gbyte m x.

Lemma wrote_same m a l m' : wrote m a l m' -> inw a (Z.of_nat (length l)) -> gbytes m' a (length l) = l.
Proof.
  intros W [H1 H2]. apply (nth_ext _ _ 0 0); [apply gbytes_length|]. rewrite gbytes_length. intros i Hi.
  unfold gbytes. rewrite nth_indep with (d' := gbyte m' (a + Z.of_nat 0)) by (rewrite length_map, length_seq; lia).
  rewrite (map_nth (fun i => gbyte m' (a + Z.of_nat i))), seq_nth, (wr_byte _ _ _ _ W) by lia.
  destruct (Z.leb_spec a (a + Z.of_nat (0 + i))), (Z.ltb_spec (a + Z.of_nat (0 + i)) (a + Z.of_nat (length l))); try lia.
  cbn [andb]. f_equal. lia.
Qed.

Lemma wrote_other m a l m' b n : wrote m a l m' -> inw b (Z.of_nat n) ->
  b + Z.of_nat n <= a \/ a + Z.of_nat (length l) <= b -> gbytes m' b n = gbytes m b n.
Proof.
  intros W [H1 H2] Hd. apply gbytes_ext. intros x Hx. rewrite (wr_byte _ _ _ _ W) by lia.
  destruct (Z.leb_spec a x), (Z.ltb_spec x (a + Z.of_nat (length l))); cbn [andb]; (reflexivity || lia).
Qed.

(** ** Accesses of the device *)

Section Access.
Context {D : Type}.
Implicit Type s : VS D.

Lemma page_rest_range addr count : 0 < count -> 1 <= page_rest addr count <= count.
Proof.
  intros H. unfold page_rest, VIRTIO_PAGE_SIZE. change (4096 - 1) with (Z.ones 12). rewrite Z.land_ones by lia.
  pose proof (Z.mod_pos_bound addr (2 ^ 12) ltac:(lia)). lia.
Qed.

Lemma window_addr m a n : guest_ram m -> inw a n -> 0 < n -> in_u 64 a /\ u64 (a + n) = (a + n) mod 2 ^ 64.
Proof. intros G [H1 H2] Hn. destruct G. split; [unfold in_u; lia|reflexivity]. Qed.

Lemma memcpy_from_loop_window n : forall addr count s, guest_ram (vmach s) -> inw addr count -> 0 <= count <= Z.of_nat n ->
  memcpy_from_loop n addr count s = (s, inl (gbytes (vmach s) addr (Z.to_nat count), 0)).
Proof.
  induction n as [|n IH]; intros addr count s G Hw Hc; cbn [memcpy_from_loop]; destruct (Z.ltb_spec 0 count) as [Hp|Hp];
    try lia; try (replace count with 0 by lia; reflexivity).
  pose proof (page_rest_range addr count Hp) as Hl. set (l := page_rest addr count) in *. cbv zeta.
  unfold vbind at 1, get_ram_ptr, vgets. destruct Hw as [Hw1 Hw2]. rewrite (gr_ptr _ G) by lia.
  unfold vbind at 1, vread_bytes. rewrite host_read_window by (try exact G; split; lia).
  assert (Hsplit : gbytes (vmach s) addr (Z.to_nat count) =
    gbytes (vmach s) addr (Z.to_nat l) ++ gbytes (vmach s) (addr + l) (Z.to_nat (count - l))).
  { replace (Z.to_nat count) with (Z.to_nat l + Z.to_nat (count - l))%nat by lia. rewrite gbytes_app. do 2 f_equal. lia. }
  rewrite Hsplit. destruct (Z.eq_dec (count - l) 0) as [E|E].
  - rewrite E. unfold vbind. destruct n; cbn [memcpy_from_loop Z.ltb Z.compare]; reflexivity.
  - unfold vbind. destruct G as [G1 G2 G3 G4 G5].
    rewrite u_small by (unfold in_u; lia). rewrite IH by (try (split; assumption); unfold inw; lia). reflexivity.
Qed.

Lemma memcpy_from_window addr count s : guest_ram (vmach s) -> inw addr count -> 0 <= count ->
  virtio_memcpy_from_ram addr count s = (s, inl (gbytes (vmach s) addr (Z.to_nat count), 0)).
Proof. intros. unfold virtio_memcpy_from_ram. apply memcpy_from_loop_window; [assumption..|lia]. Qed.

(** The rest of the device is left alone by a memory access. *)
Definition mem_only s (s' : VS D) : Prop := vdev s' = vdev s /\ vown s' = vown s.

Lemma vwrite_window a l s : guest_ram (vmach s) -> inw a (Z.of_nat (length l)) -> Forall (in_u 8) l ->
  exists s', vwrite_bytes (base + (a - lo)) l s = (s', inl tt) /\ mem_only s s' /\ wrote (vmach s) a l (vmach s').
Proof.
  intros G Hw Hl. destruct (host_write_window (vmach s) a l G Hw Hl) as (h & E & W). unfold vwrite_bytes. rewrite E.
  eexists. split; [reflexivity|]. split; [split; reflexivity|exact W].
Qed.

Lemma memcpy_to_loop_window n : forall addr buf s, guest_ram (vmach s) -> inw addr (Z.of_nat (length buf)) ->
  (length buf <= n)%nat -> Forall (in_u 8) buf ->
  exists s', memcpy_to_loop n addr buf s = (s', inl 0) /\ mem_only s s' /\ wrote (vmach s) addr buf (vmach s').
Proof.
  induction n as [|n IH]; intros addr buf s G Hw Hn Hb; cbn [memcpy_to_loop]; cbv zeta;
    destruct (Z.ltb_spec 0 (Z.of_nat (length buf))) as [Hp|Hp]; try lia;
    try (destruct buf; [|cbn in Hp; lia]; exists s; split; [reflexivity|split; [split; reflexivity|apply wrote_nil, G]]).
  set (count := Z.of_nat (length buf)) in *. pose proof (page_rest_range addr count Hp) as Hl.
  set (l := page_rest addr count) in *. destruct Hw as [Hw1 Hw2].
  unfold vbind at 1, get_ram_ptr, vgets. rewrite (gr_ptr _ G) by lia.
  destruct (vwrite_window addr (firstn (Z.to_nat l) buf) s G) as (s1 & E1 & M1 & W1).
  { rewrite length_firstn. split; lia. } { apply Forall_take, Hb. }
  unfold vbind at 1. rewrite E1. assert (Hlen : length (firstn (Z.to_nat l) buf) = Z.to_nat l) by (rewrite length_firstn; lia).
  assert (G1 := wr_ram _ _ _ _ W1). destruct (Z.eq_dec (addr + l) (2 ^ 64)) as [E|E].
  - assert (Hz : skipn (Z.to_nat l) buf = []) by (apply length_zero_iff_nil; rewrite length_skipn; destruct G; lia).
    rewrite Hz. exists s1. split; [destruct n; reflexivity|]. split; [exact M1|].
    rewrite <- (firstn_skipn (Z.to_nat l) buf), Hz, app_nil_r. exact W1.
  - rewrite u_small by (destruct G; unfold in_u; lia).
    destruct (IH (addr + l) (skipn (Z.to_nat l) buf) s1 G1) as (s2 & E2 & M2 & W2).
    { rewrite length_skipn. split; lia. } { rewrite length_skipn. lia. } { apply Forall_drop, Hb. }
    exists s2. split; [exact E2|]. split; [destruct M1, M2; split; congruence|].
    rewrite <- (firstn_skipn (Z.to_nat l) buf). apply (wrote_app _ _ _ _ _ _ W1).
    rewrite Hlen, Z2Nat.id by lia. exact W2.
Qed.

Lemma memcpy_to_window addr buf s : guest_ram (vmach s) -> inw addr (Z.of_nat (length buf)) -> Forall (in_u 8) buf ->
  exists s', virtio_memcpy_to_ram addr buf s = (s', inl 0) /\ mem_only s s' /\ wrote (vmach s) addr buf (vmach s').
Proof. intros. apply memcpy_to_loop_window; [assumption..|lia|assumption]. Qed.

Lemma read16_window addr s : guest_ram (vmach s) -> inw addr 2 -> addr mod 2 = 0 ->
  virtio_read16 addr s = (s, inl (le_value (gbytes (vmach s) addr 2))).
Proof.
  intros G Hw He. unfold virtio_read16. change 1 with (Z.ones 1). rewrite Z.land_ones by lia. change (2 ^ 1) with 2. rewrite He. cbn [nz negb Z.eqb]. unfold vbind, get_ram_ptr, vgets.
  rewrite (gr_ptr _ G) by (destruct Hw; lia). unfold vload, host_load. rewrite host_read_window by assumption. reflexivity.
Qed.

Lemma store_window n a v s : guest_ram (vmach s) -> inw a (Z.of_nat n) ->
  exists s', vstore n (base + (a - lo)) v s = (s', inl tt) /\ mem_only s s' /\ wrote (vmach s) a (le_bytes n v) (vmach s').
Proof.
  intros G Hw. apply (vwrite_window a (le_bytes n v) s G); [rewrite le_bytes_length; exact Hw|apply le_bytes_wf].
Qed.

Lemma write16_window addr v s : guest_ram (vmach s) -> inw addr 2 -> addr mod 2 = 0 ->
  exists s', virtio_write16 addr v s = (s', inl tt) /\ mem_only s s' /\ wrote (vmach s) addr (le_bytes 2 v) (vmach s').
Proof.
  intros G Hw He. unfold virtio_write16. change 1 with (Z.ones 1). rewrite Z.land_ones by lia. change (2 ^ 1) with 2. rewrite He.
  cbn [nz negb Z.eqb]. unfold vbind, get_ram_ptr, vgets. rewrite (gr_ptr _ G) by (destruct Hw; lia).
  apply (store_window 2); [exact G|exact Hw].
Qed.

Lemma write32_window addr v s : guest_ram (vmach s) -> inw addr 4 -> addr mod 4 = 0 ->
  exists s', virtio_write32 addr v s = (s', inl tt) /\ mem_only s s' /\ wrote (vmach s) addr (le_bytes 4 v) (vmach s').
Proof.
  intros G Hw He. unfold virtio_write32. change 3 with (Z.ones 2). rewrite Z.land_ones by lia. change (2 ^ 2) with 4. rewrite He.
  cbn [nz negb Z.eqb]. unfold vbind, get_ram_ptr, vgets. rewrite (gr_ptr _ G) by (destruct Hw; lia).
  apply (store_window 4); [exact G|exact Hw].
Qed.

End Access.

(** ** The interrupt line *)

Lemma plic_set_irq_mem m irq b : ncpus m = Z.of_nat (length (cpu_state m)) -> 0 <= irq < 32 ->
  exists m', plic_set_irq m irq b = (m', inl tt) /\ mem_map m' = mem_map m /\ hmem m' = hmem m /\
    ncpus m' = Z.of_nat (length (cpu_state m')) /\ Z.testbit (plic_pending_irq m') irq = b.
Proof.
  intros Hn Hi. destruct (plic_set_irq_frame m irq b Hn Hi) as (m' & E & E1 & E2 & E3 & _ & P).
  exists m'. rewrite P, Z.eqb_refl. auto.
Qed.

Lemma set_irq_spec {D} (s : VS D) b : guest_ram (vmach s) -> 0 <= v_irq (vdev s) < 32 ->
  exists s', set_irq b s = (s', inl tt) /\ mem_only s s' /\ wrote_irq (vmach s) (vmach s') /\
    Z.testbit (plic_pending_irq (vmach s')) (v_irq (vdev s)) = b.
Proof.
  intros G Hi. destruct (plic_set_irq_mem (vmach s) (v_irq (vdev s)) b (gr_harts _ G) Hi) as (m' & E & E1 & E2 & E3 & E4).
  unfold set_irq. rewrite E. eexists. split; [reflexivity|]. split; [split; reflexivity|]. split; [|exact E4]. cbn [vmach].
  destruct G as [G1 G2 G3 G4 G5]. split; [|intros x; unfold gbyte; rewrite E2; reflexivity].
  split; try assumption; [|intros a Ha; rewrite E2; apply G4, Ha].
  intros a Ha. rewrite <- (G3 a Ha). unfold virtio_mmio_get_ram_ptr. rewrite E1. reflexivity.
Qed.

(** ** Chains as lists of guest addresses *)

Definition seg : Type := Z * Z.

Definition seg_addrs (g : seg) : list Z := map (fun i => g.1 + Z.of_nat i) (seq 0 (Z.to_nat g.2)).

Definition addrs (segs : list seg) : list Z := flat_map seg_addrs segs.

(** The bytes a chain stands for. *)
Definition contents (m : RISCVMachine) (segs : list seg) : list Z := map (gbyte m) (addrs segs).

Definition seg_ok (g : seg) : Prop := inw g.1 g.2 /\ 0 <= g.2 < 2 ^ 31.

(** Descriptor [d] of the table at [dt] with [num] entries. *)
Definition desc_at (m : RISCVMachine) (dt d : Z) : VIRTIODesc := desc_of (gbytes m (dt + d * 16) 16).

Definition desc_seg (x : VIRTIODesc) : seg := (d_addr x, d_len x).

(** From descriptor [d] on every descriptor is writable ([wr]) or every one is
    not, and the segments are [segs]. *)
Inductive chain (m : RISCVMachine) (dt num : Z) (wr : bool) : Z -> list seg -> Prop :=
| chain_last d : 0 <= d < num -> (d_flags (desc_at m dt d) has VRING_DESC_F_WRITE) = wr ->
    (d_flags (desc_at m dt d) has VRING_DESC_F_NEXT) = false -> seg_ok (desc_seg (desc_at m dt d)) ->
    chain m dt num wr d [desc_seg (desc_at m dt d)]
| chain_next d segs : 0 <= d < num -> (d_flags (desc_at m dt d) has VRING_DESC_F_WRITE) = wr ->
    (d_flags (desc_at m dt d) has VRING_DESC_F_NEXT) = true -> seg_ok (desc_seg (desc_at m dt d)) ->
    chain m dt num wr (d_next (desc_at m dt d)) segs ->
    chain m dt num wr d (desc_seg (desc_at m dt d) :: segs).

Lemma seg_addrs_length g : length (seg_addrs g) = Z.to_nat g.2.
Proof. unfold seg_addrs. rewrite length_map, length_seq. reflexivity. Qed.

Lemma contents_cons m g segs : contents m (g :: segs) = gbytes m g.1 (Z.to_nat g.2) ++ contents m segs.
Proof. unfold contents, addrs. cbn [flat_map]. rewrite map_app. f_equal. unfold seg_addrs, gbytes. rewrite map_map. reflexivity. Qed.

Lemma contents_length m segs : length (contents m segs) = length (addrs segs).
Proof. apply length_map. Qed.

Lemma addrs_cons g segs : 0 <= g.2 -> Z.of_nat (length (addrs (g :: segs))) = g.2 + Z.of_nat (length (addrs segs)).
Proof. intros H. unfold addrs. cbn [flat_map]. rewrite length_app, seg_addrs_length. lia. Qed.

(** The head of a chain and what follows it. *)
Lemma chain_inv m dt num wr d segs : chain m dt num wr d segs -> exists tl,
  segs = desc_seg (desc_at m dt d) :: tl /\ 0 <= d < num /\ (d_flags (desc_at m dt d) has VRING_DESC_F_WRITE) = wr /\
  seg_ok (desc_seg (desc_at m dt d)) /\
  if d_flags (desc_at m dt d) has VRING_DESC_F_NEXT then chain m dt num wr (d_next (desc_at m dt d)) tl else tl = [].
Proof.
  intros H. destruct H as [d H1 H2 H3 H4|d segs H1 H2 H3 H4 H5]; [exists []|exists segs];
    (split; [reflexivity|]; split; [assumption|]; split; [assumption|]; split; [assumption|]); rewrite H3; [reflexivity|assumption].
Qed.

Lemma chain_make_last m dt num wr d a l fl nx : desc_at m dt d = mkDesc a l fl nx -> 0 <= d < num ->
  (fl has VRING_DESC_F_WRITE) = wr -> (fl has VRING_DESC_F_NEXT) = false -> seg_ok (a, l) -> chain m dt num wr d [(a, l)].
Proof. intros E H1 H2 H3 H4. pose proof (chain_last m dt num wr d) as H. rewrite E in H. auto. Qed.

Lemma chain_make_next m dt num wr d a l fl nx segs : desc_at m dt d = mkDesc a l fl nx -> 0 <= d < num ->
  (fl has VRING_DESC_F_WRITE) = wr -> (fl has VRING_DESC_F_NEXT) = true -> seg_ok (a, l) -> chain m dt num wr nx segs ->
  chain m dt num wr d ((a, l) :: segs).
Proof. intros E H1 H2 H3 H4 H5. pose proof (chain_next m dt num wr d segs) as H. rewrite E in H. auto. Qed.

Lemma chain_frame m m' dt num wr d segs : chain m dt num wr d segs ->
  (forall x, dt <= x < dt + num * 16 -> gbyte m' x = gbyte m x) -> chain m' dt num wr d segs.
Proof.
  intros H F. assert (E : forall d, 0 <= d < num -> desc_at m' dt d = desc_at m dt d).
  { intros k Hk. unfold desc_at. f_equal. apply gbytes_ext. intros x Hx. apply F. lia. }
  induction H as [d H1 H2 H3 H4|d segs H1 H2 H3 H4 H5 IH].
  - rewrite <- (E d H1) in *. apply chain_last; assumption.
  - rewrite <- (E d H1) in *. apply chain_next; assumption.
Qed.

Section Copy.
Context {D : Type} (garbage : nat -> Z) (fuel : nat) (qi : Z) (q : QueueState) (num : Z).
Implicit Type s : VS D.

Definition dt : Z := q_desc_addr q.

(** The queue [qi] of the device is [q], its table and memory lie in the window. *)
Record queue_at s : Prop := {
  qa_ram : guest_ram (vmach s);
  qa_queue : get_queue qi s = (s, inl q);
  qa_table : inw dt (num * 16)
}.

Lemma get_desc_spec old s d : queue_at s -> 0 <= d < num -> length old = 16%nat ->
  get_desc old qi d s = (s, inl (gbytes (vmach s) (dt + d * 16) 16)).
Proof.
  intros [G Q [T1 T2]] Hd Ho. unfold get_desc, vbind. rewrite Q. fold dt. destruct G as [G1 G2 G3 G4 G5].
  rewrite u_small by (unfold in_u; lia). rewrite memcpy_from_window by (try (split; assumption); unfold inw; lia).
  cbn [fst]. rewrite skipn_all2 by (rewrite gbytes_length, Ho; cbn; lia). rewrite app_nil_r. reflexivity.
Qed.

Definition splice (buf : list Z) (pos : nat) (bytes : list Z) : list Z :=
  firstn pos buf ++ bytes ++ skipn (pos + length bytes) buf.

Lemma splice_length buf pos bytes : (pos + length bytes <= length buf)%nat -> length (splice buf pos bytes) = length buf.
Proof. intros H. unfold splice. rewrite !length_app, length_firstn, length_skipn. lia. Qed.

Lemma splice_splice buf pos b1 b2 : (pos + length b1 + length b2 <= length buf)%nat ->
  splice (splice buf pos b1) (pos + length b1) b2 = splice buf pos (b1 ++ b2).
Proof.
  intros H. unfold splice. rewrite length_app. rewrite !app_assoc.
  assert (L : length (firstn pos buf ++ b1) = (pos + length b1)%nat) by (rewrite length_app, length_firstn; lia).
  rewrite firstn_app, L, Nat.sub_diag, firstn_O, app_nil_r, firstn_all2 by lia. f_equal.
  rewrite skipn_app, L, skipn_all2 by lia. cbn [app]. rewrite skipn_skipn. f_equal. lia.
Qed.

Lemma buf_write_ok buf pos bytes s : 0 <= pos -> (Z.to_nat pos + length bytes <= length buf)%nat ->
  buf_write buf pos bytes s = (s, inl (splice buf (Z.to_nat pos) bytes)).
Proof.
  intros H1 H2. unfold buf_write. destruct (Z.leb_spec 0 pos); [|lia].
  destruct (Nat.leb_spec (Z.to_nat pos + length bytes) (length buf)); [reflexivity|lia].
Qed.

Lemma vint_ok x s : - 2 ^ 31 <= x < 2 ^ 31 -> vint x s = (s, inl x).
Proof. intros H. unfold vint. destruct (Z.leb_spec (- 2 ^ 31) x), (Z.ltb_spec x (2 ^ 31)); cbn [andb]; (reflexivity || lia). Qed.

Lemma i32_small x : - 2 ^ 31 <= x < 2 ^ 31 -> i32 x = x.
Proof.
  intros H. unfold sN. change (2 ^ (32 - 1)) with (2 ^ 31). destruct (Z.leb_spec 0 x).
  - rewrite Z.mod_small by lia. destruct (Z.ltb_spec x (2 ^ 31)); lia.
  - replace (x mod 2 ^ 32) with (x + 2 ^ 32) by (apply (Z.mod_unique _ _ (-1)); lia).
    destruct (Z.ltb_spec (x + 2 ^ 32) (2 ^ 31)); lia.
Qed.

(** One round of the copy loop that reads [l] bytes. *)
Lemma gather_loop n : forall segs d offset buf pos count s, queue_at s -> chain (vmach s) dt num false d segs ->
  (length segs <= n)%nat -> Z.of_nat (length (addrs segs)) < 2 ^ 31 ->
  0 <= offset <= d_len (desc_at (vmach s) dt d) -> 0 < count -> offset + count <= Z.of_nat (length (addrs segs)) ->
  0 <= pos -> pos + count <= Z.of_nat (length buf) ->
  copy_loop n qi false (gbytes (vmach s) (dt + d * 16) 16) offset buf pos count s =
  (s, inl (splice buf (Z.to_nat pos) (firstn (Z.to_nat count) (skipn (Z.to_nat offset) (contents (vmach s) segs))), 0)).
Proof.
  induction n as [|n IH]; intros segs d offset buf pos count s Q Hc Hn Ht Ho Hcnt Hoc Hp Hpc;
    destruct (chain_inv _ _ _ _ _ _ Hc) as (tl & -> & Hd & Hw & Hs & Htl); [cbn in Hn; lia|].
  cbn [copy_loop]. fold (desc_at (vmach s) dt d). set (x := desc_at (vmach s) dt d) in *. cbv zeta.
  destruct Hs as [[S1 S2] S3]. cbn [desc_seg fst snd] in S1, S2, S3. assert (G := qa_ram _ Q).
  rewrite addrs_cons in Ht, Hoc by exact (proj1 S3). cbn [desc_seg snd] in Ht, Hoc.
  rewrite (i32_small (d_len x - offset)), (i32_small (d_len x)) by lia. set (l := Z.min count (d_len x - offset)) in *.
  rewrite contents_cons. cbn [desc_seg fst snd].
  set (rest := contents (vmach s) tl) in *. set (b := gbytes (vmach s) (d_addr x + offset) (Z.to_nat l)).
  assert (Hread : (let* r := virtio_memcpy_from_ram (u64 (d_addr x + offset)) l in buf_write buf pos r.1)%v s =
    (s, inl (splice buf (Z.to_nat pos) b))).
  { unfold vbind. destruct (Z.eq_dec l 0) as [E|E].
    - unfold b. rewrite E. apply (buf_write_ok buf pos []); [lia|cbn [length]; lia].
    - destruct G as [G1 G2 G3 G4 G5]. rewrite u_small by (unfold in_u; lia).
      rewrite memcpy_from_window by (try (split; assumption); unfold inw; lia). fold b. apply buf_write_ok; [lia|].
      unfold b. rewrite gbytes_length. lia. }
  unfold vbind at 1. rewrite Hread. unfold vbind at 1. rewrite vint_ok by lia.
  assert (Hfirst : skipn (Z.to_nat offset) (gbytes (vmach s) (d_addr x) (Z.to_nat (d_len x)) ++ rest) =
    gbytes (vmach s) (d_addr x + offset) (Z.to_nat (d_len x - offset)) ++ rest).
  { replace (Z.to_nat (d_len x)) with (Z.to_nat offset + Z.to_nat (d_len x - offset))%nat by lia.
    rewrite gbytes_app, <- app_assoc, skipn_app, gbytes_length, Nat.sub_diag, skipn_all2 by (rewrite gbytes_length; lia).
    cbn [app skipn]. rewrite Z2Nat.id by lia. reflexivity. }
  rewrite Hfirst. destruct (Z.eqb_spec (count - l) 0) as [Ez|Ez].
  - assert (l = count) by lia. rewrite firstn_app, gbytes_length.
    replace (Z.to_nat count - Z.to_nat (d_len x - offset))%nat with 0%nat by lia. rewrite firstn_O, app_nil_r.
    replace (Z.to_nat (d_len x - offset)) with (Z.to_nat count + Z.to_nat (d_len x - offset - count))%nat by lia.
    rewrite gbytes_app, firstn_app, gbytes_length, Nat.sub_diag, firstn_O, app_nil_r, firstn_all2 by (rewrite gbytes_length; lia).
    unfold b. rewrite H. reflexivity.
  - assert (Hl : l = d_len x - offset) by lia. unfold vbind at 1. rewrite vint_ok by lia.
    destruct (Z.eqb_spec (offset + l) (d_len x)); [|lia].
    destruct (d_flags x has VRING_DESC_F_NEXT); cbn [negb]; [|subst tl; change (length (addrs [])) with 0%nat in Hoc; lia].
    destruct (chain_inv _ _ _ _ _ _ Htl) as (tl2 & Etl & Hd2 & Hw2 & Hs2 & _).
    unfold vbind. rewrite get_desc_spec by (try assumption; apply gbytes_length). fold (desc_at (vmach s) dt (d_next x)).
    rewrite Hw2. cbn [eqb negb].
    rewrite (IH tl (d_next x) 0 (splice buf (Z.to_nat pos) b) (pos + l) (count - l) s Q Htl);
      try (rewrite splice_length by (unfold b; rewrite gbytes_length; lia)); try lia; try (cbn in Hn; lia);
      [|destruct Hs2 as [_ ?]; cbn in *; lia].
    fold rest. do 3 f_equal. cbn [skipn Z.to_nat].
    replace (Z.to_nat (pos + l)) with (Z.to_nat pos + length b)%nat by (unfold b; rewrite gbytes_length; lia).
    rewrite splice_splice.
    + f_equal. unfold b. rewrite firstn_app, gbytes_length, (firstn_all2 (gbytes _ _ _)) by (rewrite gbytes_length; lia).
      rewrite Hl. f_equal. f_equal. lia.
    + unfold b. rewrite gbytes_length, length_firstn. lia.
Qed.

Lemma find_offset_spec n wr : forall segs d offset s, queue_at s -> chain (vmach s) dt num wr d segs ->
  (length segs <= n)%nat -> Z.of_nat (length (addrs segs)) < 2 ^ 31 -> 0 <= offset < Z.of_nat (length (addrs segs)) ->
  exists d' segs' offset', find_offset n qi wr (gbytes (vmach s) (dt + d * 16) 16) offset s =
      (s, inl (Some (gbytes (vmach s) (dt + d' * 16) 16, offset'))) /\
    chain (vmach s) dt num wr d' segs' /\ (length segs' <= length segs)%nat /\
    0 <= offset' < d_len (desc_at (vmach s) dt d') /\
    skipn (Z.to_nat offset) (addrs segs) = skipn (Z.to_nat offset') (addrs segs') /\
    (exists pre, addrs segs = pre ++ addrs segs').
Proof.
  induction n as [|n IH]; intros segs d offset s Q Hc Hn Ht Ho;
    destruct (chain_inv _ _ _ _ _ _ Hc) as (tl & -> & Hd & Hw & [[S1 S2] S3] & Htl); [cbn in Hn; lia|].
  cbn [find_offset]. fold (desc_at (vmach s) dt d). set (x := desc_at (vmach s) dt d) in *. cbv zeta.
  cbn [desc_seg fst snd] in S1, S2, S3. rewrite Hw, eqb_reflx. cbn [negb]. rewrite (i32_small (d_len x)) by lia.
  destruct (Z.ltb_spec offset (d_len x)) as [Hlt|Hge].
  - exists d, (desc_seg x :: tl), offset. split; [reflexivity|]. split; [exact Hc|]. split; [lia|]. split; [fold x; lia|].
    split; [reflexivity|exists []; reflexivity].
  - rewrite addrs_cons in Ht, Ho by exact (proj1 S3). cbn [desc_seg snd] in Ht, Ho.
    destruct (d_flags x has VRING_DESC_F_NEXT); cbn [negb]; [|subst tl; change (length (addrs [])) with 0%nat in Ho; lia].
    destruct (chain_inv _ _ _ _ _ _ Htl) as (tl2 & Etl & Hd2 & _).
    unfold vbind. rewrite get_desc_spec by (try assumption; apply gbytes_length). rewrite i32_small by lia.
    destruct (IH tl (d_next x) (offset - d_len x) s Q Htl) as (d' & segs' & o' & E & C & L & O & K & pre & P); [cbn in Hn; lia|lia|lia|].
    exists d', segs', o'. split; [exact E|]. split; [exact C|]. split; [cbn [length]; lia|]. split; [exact O|].
    assert (Hl : length (seg_addrs (desc_seg x)) = Z.to_nat (d_len x)) by apply seg_addrs_length.
    unfold addrs at 1 3. cbn [flat_map]. fold (addrs tl). split.
    + rewrite skipn_app, Hl, skipn_all2 by lia. cbn [app]. rewrite <- K. f_equal. lia.
    + exists (seg_addrs (desc_seg x) ++ pre). rewrite P, app_assoc. reflexivity.
Qed.

Lemma uninit_length n : length (uninit garbage n) = n.
Proof. unfold uninit. rewrite length_map, length_seq. reflexivity. Qed.

(** Copying from a readable chain gathers the bytes at its addresses. *)
Lemma memcpy_from_queue_spec segs d offset count buf s : queue_at s -> chain (vmach s) dt num false d segs ->
  (length segs <= fuel)%nat -> Z.of_nat (length (addrs segs)) < 2 ^ 31 -> 0 <= offset -> 0 <= count ->
  offset + count <= Z.of_nat (length (addrs segs)) -> count <= Z.of_nat (length buf) ->
  memcpy_from_queue garbage fuel buf qi d offset count s =
  (s, inl (splice buf 0 (firstn (Z.to_nat count) (skipn (Z.to_nat offset) (contents (vmach s) segs))), 0)).
Proof.
  intros Q Hc Hf Ht Ho Hcnt Hoc Hb. unfold memcpy_from_queue, memcpy_to_from_queue.
  destruct (Z.eqb_spec count 0) as [->|Hne]; [reflexivity|].
  destruct (chain_inv _ _ _ _ _ _ Hc) as (tl & _ & Hd & _).
  unfold vbind at 1. rewrite get_desc_spec by (try assumption; apply uninit_length). unfold vbind at 1, vret at 1.
  destruct (find_offset_spec fuel false segs d offset s Q Hc Hf Ht) as (d' & segs' & o' & E & C & L & O & K & pre & P); [lia|].
  unfold vbind at 1. rewrite E.
  assert (Hlen : Z.of_nat (length (addrs segs')) - o' = Z.of_nat (length (addrs segs)) - offset).
  { apply (f_equal (@length Z)) in K. rewrite !length_skipn in K.
    destruct (chain_inv _ _ _ _ _ _ C) as (tl2 & Es & _ & _ & [_ S3] & _).
    assert (Hl : Z.of_nat (length (addrs segs')) = d_len (desc_at (vmach s) dt d') + Z.of_nat (length (addrs tl2)))
      by (rewrite Es; apply addrs_cons, (proj1 S3)).
    lia. }
  assert (Hle : (length (addrs segs') <= length (addrs segs))%nat) by (rewrite P, length_app; lia).
  rewrite (gather_loop fuel segs' d' o' buf 0 count s Q C) by lia.
  do 3 f_equal. unfold contents. rewrite !skipn_map, K. reflexivity.
Qed.

Lemma read_size_spec n : forall segs d acc s, queue_at s -> chain (vmach s) dt num false d segs ->
  (length segs <= n)%nat -> 0 <= acc -> acc + Z.of_nat (length (addrs segs)) < 2 ^ 31 ->
  read_size_loop fuel n qi (gbytes (vmach s) (dt + d * 16) 16) acc s = (s, inl (Some (acc + Z.of_nat (length (addrs segs)), 0))).
Proof.
  induction n as [|n IH]; intros segs d acc s Q Hc Hn Ha Ht;
    destruct (chain_inv _ _ _ _ _ _ Hc) as (tl & -> & Hd & Hw & [_ S3] & Htl); [cbn in Hn; lia|].
  cbn [read_size_loop]. fold (desc_at (vmach s) dt d). set (x := desc_at (vmach s) dt d) in *. cbv zeta.
  cbn [desc_seg snd] in S3. rewrite addrs_cons in * by exact (proj1 S3). cbn [desc_seg snd] in *. rewrite Hw, i32_small by lia.
  destruct (d_flags x has VRING_DESC_F_NEXT); cbn [negb].
  - destruct (chain_inv _ _ _ _ _ _ Htl) as (tl2 & Etl & Hd2 & _).
    unfold vbind. rewrite get_desc_spec by (try assumption; apply gbytes_length).
    rewrite (IH tl _ _ s Q Htl) by (try lia; cbn in Hn; lia). do 4 f_equal. lia.
  - subst tl. change (length (addrs [])) with 0%nat. rewrite Z.add_0_r. reflexivity.
Qed.

Lemma rw_size_spec segs d s : queue_at s -> chain (vmach s) dt num false d segs ->
  (length segs <= fuel)%nat -> Z.of_nat (length (addrs segs)) < 2 ^ 31 ->
  get_desc_rw_size garbage fuel qi d s = (s, inl (Some (Z.of_nat (length (addrs segs)), 0))).
Proof.
  intros Q Hc Hf Ht. destruct (chain_inv _ _ _ _ _ _ Hc) as (tl & _ & Hd & _). unfold get_desc_rw_size, vbind.
  rewrite get_desc_spec by (try assumption; apply uninit_length). rewrite (read_size_spec fuel segs d 0 s Q Hc Hf) by lia. reflexivity.
Qed.

(** ** Scattering *)

(** The bytes [bl] have been stored at the addresses [al], and nothing else. *)
Record stored (m : RISCVMachine) (al bl : list Z) (m' : RISCVMachine) : Prop := {
  st_ram : guest_ram m';
  st_same : forall x, lo <= x < hi -> ~ In x al -> gbyte m' x = gbyte m x;
  st_new : map (gbyte m') al = bl;
  st_plic : plic_pending_irq m' = plic_pending_irq m /\ plic_served_irq m' = plic_served_irq m
}.

Lemma in_seg_addrs x g : In x (seg_addrs g) <-> g.1 <= x < g.1 + g.2.
Proof.
  unfold seg_addrs. rewrite in_map_iff. split.
  - intros (i & <- & Hi%in_seq). lia.
  - intros H. exists (Z.to_nat (x - g.1)). split; [lia|apply in_seq; lia].
Qed.

Lemma wrote_stored m a l m' : inw a (Z.of_nat (length l)) -> wrote m a l m' -> stored m (seg_addrs (a, Z.of_nat (length l))) l m'.
Proof.
  intros Hw W. split; [exact (wr_ram _ _ _ _ W)| | |exact (wr_plic _ _ _ _ W)].
  - intros x Hx Hn. rewrite in_seg_addrs in Hn. cbn [fst snd] in Hn. rewrite (wr_byte _ _ _ _ W) by exact Hx.
    destruct (Z.leb_spec a x), (Z.ltb_spec x (a + Z.of_nat (length l))); cbn [andb]; (reflexivity || lia).
  - rewrite <- (wrote_same _ _ _ _ W Hw) at 2. unfold gbytes, seg_addrs. cbn [fst snd]. rewrite map_map, Nat2Z.id. reflexivity.
Qed.

Lemma stored_app m al1 bl1 m1 al2 bl2 m2 : Forall (fun x => lo <= x < hi) al1 -> NoDup (al1 ++ al2) ->
  stored m al1 bl1 m1 -> stored m1 al2 bl2 m2 -> stored m (al1 ++ al2) (bl1 ++ bl2) m2.
Proof.
  intros Hw Hd [R1 S1 N1 P1] [R2 S2 N2 P2]. split; [exact R2| | |destruct P1, P2; split; congruence].
  - intros x Hx Hn. rewrite in_app_iff in Hn. rewrite S2, S1 by tauto. reflexivity.
  - rewrite map_app, N2. f_equal. rewrite <- N1. apply map_ext_in. intros x Hx. apply S2.
    + rewrite List.Forall_forall in Hw. apply Hw, Hx.
    + intros Hx2. apply list.NoDup_app in Hd as (_ & Hd & _). apply (Hd x); apply list_elem_of_In; assumption.
Qed.

Lemma map_seq_shift {A} (f : nat -> A) k n : map f (seq k n) = map (fun i => f (k + i)%nat) (seq 0 n).
Proof. induction n as [|n IH]; [reflexivity|]. rewrite !seq_S, !map_app, IH. reflexivity. Qed.

Lemma seg_addrs_split a l k : 0 <= k <= l -> seg_addrs (a, l) = seg_addrs (a, k) ++ seg_addrs (a + k, l - k).
Proof.
  intros H. unfold seg_addrs. cbn [fst snd]. replace (Z.to_nat l) with (Z.to_nat k + Z.to_nat (l - k))%nat by lia.
  rewrite seq_app, map_app. f_equal. rewrite Nat.add_0_l, map_seq_shift. apply map_ext. intros i. lia.
Qed.

Definition outside_table (x : Z) : Prop := x < dt \/ dt + num * 16 <= x.

Lemma stored_queue_at s s' al bl : queue_at s -> mem_only s s' -> stored (vmach s) al bl (vmach s') -> queue_at s'.
Proof.
  intros [G Q T] [D1 _] S. split; [exact (st_ram _ _ _ _ S)| |exact T]. unfold get_queue in *. rewrite D1.
  destruct (if 0 <=? qi then _ else _); congruence.
Qed.

Lemma stored_chain m al bl m' wr d segs : inw dt (num * 16) -> stored m al bl m' -> Forall outside_table al ->
  chain m dt num wr d segs -> chain m' dt num wr d segs.
Proof.
  intros [T1 T2] S Ho Hc. apply (chain_frame m); [exact Hc|]. intros x Hx. apply (st_same _ _ _ _ S); [lia|]. intros Hi.
  rewrite List.Forall_forall in Ho. specialize (Ho x Hi). unfold outside_table in Ho. lia.
Qed.

Lemma buf_read_ok buf pos n s : 0 <= pos -> 0 <= n -> pos + n <= Z.of_nat (length buf) ->
  buf_read buf pos n s = (s, inl (firstn (Z.to_nat n) (skipn (Z.to_nat pos) buf))).
Proof.
  intros H1 H2 H3. unfold buf_read. destruct (Z.leb_spec 0 pos); [|lia].
  destruct (Nat.leb_spec (Z.to_nat pos + Z.to_nat n) (length buf)); [reflexivity|lia].
Qed.

(** The store of one round. *)
Lemma store_round a l buf pos s : guest_ram (vmach s) -> inw a l -> 0 <= l -> 0 <= pos -> pos + l <= Z.of_nat (length buf) ->
  Forall (in_u 8) buf ->
  exists s', (let* b := buf_read buf pos l in let* _ := virtio_memcpy_to_ram (u64 a) b in vret buf)%v s = (s', inl buf) /\
    mem_only s s' /\ stored (vmach s) (seg_addrs (a, l)) (firstn (Z.to_nat l) (skipn (Z.to_nat pos) buf)) (vmach s').
Proof.
  intros G Hw Hl Hp Hpl Hb. set (b := firstn (Z.to_nat l) (skipn (Z.to_nat pos) buf)).
  assert (Lb : Z.of_nat (length b) = l) by (unfold b; rewrite length_firstn, length_skipn; lia).
  assert (Hb' : Forall (in_u 8) b) by (unfold b; apply Forall_take, Forall_drop, Hb).
  destruct (Z.eq_dec l 0) as [->|Hne].
  - exists s. assert (Eb : b = []) by (destruct b; [reflexivity|cbn in Lb; lia]).
    split; [unfold vbind; rewrite buf_read_ok by lia; fold b; rewrite Eb; reflexivity|]. split; [split; reflexivity|]. rewrite Eb.
    split; [exact G|reflexivity|reflexivity|split; reflexivity].
  - destruct (memcpy_to_window a b s G) as (s' & E & M & W); [rewrite Lb; exact Hw|exact Hb'|].
    exists s'. split; [|split; [exact M|]].
    + unfold vbind at 1. rewrite buf_read_ok by lia. fold b. unfold vbind. rewrite u_small by (destruct G, Hw; unfold in_u; lia).
      rewrite E. reflexivity.
    + rewrite <- Lb. apply wrote_stored; [rewrite Lb; exact Hw|exact W].
Qed.

Lemma scatter_loop n : forall segs d offset buf pos count s, queue_at s -> chain (vmach s) dt num true d segs ->
  (length segs <= n)%nat -> Z.of_nat (length (addrs segs)) < 2 ^ 31 -> NoDup (addrs segs) -> Forall outside_table (addrs segs) ->
  0 <= offset <= d_len (desc_at (vmach s) dt d) -> 0 < count -> offset + count <= Z.of_nat (length (addrs segs)) ->
  0 <= pos -> pos + count <= Z.of_nat (length buf) -> Forall (in_u 8) buf ->
  exists s', copy_loop n qi true (gbytes (vmach s) (dt + d * 16) 16) offset buf pos count s = (s', inl (buf, 0)) /\
    mem_only s s' /\ stored (vmach s) (firstn (Z.to_nat count) (skipn (Z.to_nat offset) (addrs segs)))
                            (firstn (Z.to_nat count) (skipn (Z.to_nat pos) buf)) (vmach s').
Proof.
  induction n as [|n IH]; intros segs d offset buf pos count s Q Hc Hn Ht Hd Hout Ho Hcnt Hoc Hp Hpc Hb;
    destruct (chain_inv _ _ _ _ _ _ Hc) as (tl & -> & Hdn & Hw & [[S1 S2] S3] & Htl); [cbn in Hn; lia|].
  cbn [copy_loop]. fold (desc_at (vmach s) dt d). set (x := desc_at (vmach s) dt d) in *. cbv zeta.
  cbn [desc_seg fst snd] in S1, S2, S3. assert (G := qa_ram _ Q).
  rewrite addrs_cons in Ht, Hoc by exact (proj1 S3). cbn [desc_seg snd] in Ht, Hoc.
  rewrite (i32_small (d_len x - offset)), (i32_small (d_len x)) by lia. set (l := Z.min count (d_len x - offset)) in *.
  destruct (store_round (d_addr x + offset) l buf pos s G) as (s1 & E1 & M1 & W1); [split; lia|lia|lia|lia|exact Hb|].
  unfold vbind at 1. rewrite E1. unfold vbind at 1. rewrite vint_ok by lia.
  assert (Hskip : skipn (Z.to_nat offset) (addrs (desc_seg x :: tl)) = seg_addrs (d_addr x + offset, d_len x - offset) ++ addrs tl).
  { unfold addrs. cbn [flat_map]. unfold desc_seg. rewrite (seg_addrs_split _ _ offset) by lia.
    rewrite <- app_assoc, skipn_app, seg_addrs_length, skipn_all2 by (rewrite seg_addrs_length; cbn; lia).
    cbn [snd]. rewrite Nat.sub_diag. reflexivity. }
  destruct (Z.eqb_spec (count - l) 0) as [Ez|Ez].
  - exists s1. split; [reflexivity|]. split; [exact M1|]. replace l with count in W1 by lia.
    rewrite Hskip, (seg_addrs_split _ _ count) by lia. rewrite <- app_assoc, firstn_app.
    rewrite (firstn_all2 (seg_addrs _)) by (rewrite seg_addrs_length; cbn [snd]; lia).
    rewrite seg_addrs_length. cbn [snd]. rewrite Nat.sub_diag, firstn_O, app_nil_r. exact W1.
  - assert (Hl : l = d_len x - offset) by lia. unfold vbind at 1. rewrite vint_ok by lia.
    destruct (Z.eqb_spec (offset + l) (d_len x)); [|lia].
    destruct (d_flags x has VRING_DESC_F_NEXT); cbn [negb]; [|subst tl; change (length (addrs [])) with 0%nat in Hoc; lia].
    assert (Hsplit : addrs (desc_seg x :: tl) = seg_addrs (d_addr x, offset) ++ seg_addrs (d_addr x + offset, l) ++ addrs tl).
    { unfold addrs. cbn [flat_map]. unfold desc_seg. rewrite (seg_addrs_split _ _ offset), <- app_assoc, Hl by lia. reflexivity. }
    rewrite Hsplit in Hd, Hout. apply list.NoDup_app in Hd as (_ & _ & Hd). apply Forall_app in Hout as [_ Hout]. apply Forall_app in Hout as [Hout1 Hout2].
    assert (Hw1 : Forall (fun a => lo <= a < hi) (seg_addrs (d_addr x + offset, l))).
    { apply List.Forall_forall. intros a Ha. apply in_seg_addrs in Ha. cbn [fst snd] in Ha. lia. }
    assert (Q1 := stored_queue_at _ _ _ _ Q M1 W1).
    assert (C1 := stored_chain _ _ _ _ _ _ _ (qa_table _ Q) W1 Hout1 Htl).
    destruct (chain_inv _ _ _ _ _ _ C1) as (tl2 & Etl & Hd2 & Hw2 & Hs2 & _).
    unfold vbind. rewrite get_desc_spec by (try assumption; apply gbytes_length). fold (desc_at (vmach s1) dt (d_next x)).
    rewrite Hw2. cbn [eqb negb].
    destruct (IH tl (d_next x) 0 buf (pos + l) (count - l) s1 Q1 C1) as (s2 & E2 & M2 & W2); try lia; try assumption.
    { cbn in Hn. lia. } { apply list.NoDup_app in Hd as (_ & _ & Hd). exact Hd. } { destruct Hs2 as [_ ?]. cbn in *. lia. }
    exists s2. split; [exact E2|]. split; [destruct M1, M2; split; congruence|].
    assert (Ha : firstn (Z.to_nat count) (skipn (Z.to_nat offset) (addrs (desc_seg x :: tl))) =
      seg_addrs (d_addr x + offset, l) ++ firstn (Z.to_nat (count - l)) (addrs tl)).
    { rewrite Hskip, <- Hl, firstn_app, seg_addrs_length, firstn_all2 by (rewrite seg_addrs_length; cbn; lia).
      cbn [snd]. f_equal. f_equal. lia. }
    assert (Hbuf : firstn (Z.to_nat count) (skipn (Z.to_nat pos) buf) =
      firstn (Z.to_nat l) (skipn (Z.to_nat pos) buf) ++ firstn (Z.to_nat (count - l)) (skipn (Z.to_nat (pos + l)) buf)).
    { replace (Z.to_nat count) with (Z.to_nat l + Z.to_nat (count - l))%nat by lia.
      rewrite <- take_take_drop, drop_drop. do 3 f_equal; lia. }
    rewrite Ha, Hbuf. apply (stored_app _ _ _ (vmach s1)); [exact Hw1| |exact W1|exact W2].
    apply list.NoDup_app in Hd as (N1 & N2 & N3). apply list.NoDup_app. split; [exact N1|]. split.
    + intros a Ha1 Ha2. apply (N2 a Ha1). apply list_elem_of_In. apply list_elem_of_In in Ha2. rewrite <- (firstn_skipn (Z.to_nat (count - l)) (addrs tl)).
      apply in_app_iff. left. exact Ha2.
    + rewrite <- (firstn_skipn (Z.to_nat (count - l)) (addrs tl)) in N3. apply list.NoDup_app in N3. tauto.
Qed.

(** Copying to a writable chain scatters the buffer over its addresses. *)
Lemma memcpy_to_queue_spec segs d offset buf s : queue_at s -> chain (vmach s) dt num true d segs ->
  (length segs <= fuel)%nat -> Z.of_nat (length (addrs segs)) < 2 ^ 31 -> NoDup (addrs segs) -> Forall outside_table (addrs segs) ->
  0 <= offset -> offset + Z.of_nat (length buf) <= Z.of_nat (length (addrs segs)) -> Forall (in_u 8) buf ->
  exists s', memcpy_to_queue garbage fuel qi d offset buf (Z.of_nat (length buf)) s = (s', inl 0) /\ mem_only s s' /\
    stored (vmach s) (firstn (length buf) (skipn (Z.to_nat offset) (addrs segs))) buf (vmach s').
Proof.
  intros Q Hc Hf Ht Hd Hout Ho Hoc Hb. unfold memcpy_to_queue, memcpy_to_from_queue.
  destruct (Z.eqb_spec (Z.of_nat (length buf)) 0) as [E|Hne].
  { assert (buf = []) as -> by (destruct buf; [reflexivity|cbn in E; lia]). exists s. split; [reflexivity|].
    split; [split; reflexivity|]. split; [exact (qa_ram _ Q)|reflexivity|reflexivity|split; reflexivity]. }
  destruct (chain_inv _ _ _ _ _ _ Hc) as (tl & Es & Hdn & Hw & _).
  assert (Hfw : find_write fuel qi (gbytes (vmach s) (dt + d * 16) 16) s = (s, inl (Some (gbytes (vmach s) (dt + d * 16) 16)))).
  { destruct fuel; [rewrite Es in Hf; cbn in Hf; lia|]. cbn [find_write]. fold (desc_at (vmach s) dt d). rewrite Hw. reflexivity. }
  destruct (find_offset_spec fuel true segs d offset s Q Hc Hf Ht) as (d' & segs' & o' & E & C & L & O & K & pre & P); [lia|].
  assert (Hlen : Z.of_nat (length (addrs segs')) - o' = Z.of_nat (length (addrs segs)) - offset).
  { apply (f_equal (@length Z)) in K. rewrite !length_skipn in K.
    destruct (chain_inv _ _ _ _ _ _ C) as (tl2 & Es2 & _ & _ & [_ S3] & _).
    assert (Hl : Z.of_nat (length (addrs segs')) = d_len (desc_at (vmach s) dt d') + Z.of_nat (length (addrs tl2)))
      by (rewrite Es2; apply addrs_cons, (proj1 S3)). lia. }
  assert (Hle : (length (addrs segs') <= length (addrs segs))%nat) by (rewrite P, length_app; lia).
  rewrite P in Hd, Hout. apply list.NoDup_app in Hd as (_ & _ & Hd). apply Forall_app in Hout as [_ Hout].
  destruct (scatter_loop fuel segs' d' o' buf 0 (Z.of_nat (length buf)) s Q C) as (s' & E' & M' & W'); try lia; try assumption.
  exists s'. split; [|split; [exact M'|]].
  - unfold vbind. rewrite get_desc_spec by (try assumption; apply uninit_length). rewrite Hfw, E, E'. reflexivity.
  - rewrite Nat2Z.id in W'. change (Z.to_nat 0) with 0%nat in W'. rewrite skipn_O, firstn_all in W'. rewrite K. exact W'.
Qed.

(** ** The rings *)

Definition avail : Z := q_avail_addr q.
Definition used : Z := q_used_addr q.

(** The three rings of the queue lie in RAM, aligned, for a power of two of
    descriptors; the used ring overlaps neither the table nor the available
    ring. *)
Record rings_ok : Prop := {
  ro_num : q_num q = num;
  ro_pow : exists k, 0 <= k <= 15 /\ num = 2 ^ k;
  ro_used : inw used (4 + 8 * num);
  ro_used_al : used mod 4 = 0;
  ro_avail : inw avail (4 + 2 * num);
  ro_avail_al : avail mod 2 = 0;
  ro_sep_table : dt + num * 16 <= used \/ used + (4 + 8 * num) <= dt;
  ro_sep_avail : avail + (4 + 2 * num) <= used \/ used + (4 + 8 * num) <= avail
}.

Definition used_idx (m : RISCVMachine) : Z := le_value (gbytes m (used + 2) 2).
Definition used_entry (m : RISCVMachine) (j : Z) : Z * Z :=
  (le_value (gbytes m (used + 4 + 8 * j) 4), le_value (gbytes m (used + 8 + 8 * j) 4)).
Definition avail_idx (m : RISCVMachine) : Z := le_value (gbytes m (avail + 2) 2).
Definition avail_slot (m : RISCVMachine) (j : Z) : Z := le_value (gbytes m (avail + 4 + 2 * j) 2).

Lemma num_range : rings_ok -> 1 <= num <= 32768 /\ 65536 mod num = 0.
Proof.
  intros R. destruct (ro_pow R) as (k & Hk & ->). split.
  - split; [apply (Z.pow_le_mono_r 2 0 k); lia|change 32768 with (2 ^ 15); apply Z.pow_le_mono_r; lia].
  - change 65536 with (2 ^ 16). replace 16 with (16 - k + k) by lia. rewrite Z.pow_add_r by lia. apply Z.mod_mul. lia.
Qed.

Lemma ring_index : rings_ok -> forall i, 0 <= i -> i .& u32 (q_num q - 1) = i mod num.
Proof.
  intros R i Hi. pose proof (num_range R) as [Hn _]. rewrite (ro_num R), u_small by (unfold in_u; lia).
  destruct (ro_pow R) as (k & Hk & ->). replace (2 ^ k - 1) with (Z.ones k) by (rewrite Z.ones_equiv; lia).
  apply Z.land_ones. lia.
Qed.

Lemma word16_range m a : guest_ram m -> inw a 2 -> in_u 16 (le_value (gbytes m a 2)).
Proof. intros G Hw. pose proof (le_value_range _ (gbytes_wf m a 2 G Hw)) as H. rewrite gbytes_length in H. exact H. Qed.

(** What consuming the chain at [d] with length [len] does to memory. *)
Record consumed (m : RISCVMachine) (d len : Z) (m' : RISCVMachine) : Prop := {
  co_ram : guest_ram m';
  co_idx : used_idx m' = u16 (used_idx m + 1);
  co_entry : forall j, 0 <= j < num ->
    used_entry m' j = if j =? used_idx m mod num then (u32 d, u32 len) else used_entry m j;
  co_frame : forall x, lo <= x < hi -> x < used \/ used + (4 + 8 * num) <= x -> gbyte m' x = gbyte m x
}.

Lemma consume_spec d len s : rings_ok -> queue_at s -> 0 <= v_irq (vdev s) < 32 ->
  exists s', virtio_consume_desc qi d len s = (s', inl tt) /\
    vdev s' = set_int_status (int_status (vdev s) .| 1) (vdev s) /\ vown s' = vown s /\
    consumed (vmach s) d len (vmach s') /\ Z.testbit (plic_pending_irq (vmach s')) (v_irq (vdev s)) = true.
Proof.
  intros R [G Q T] Hi. destruct (num_range R) as [Hn _]. destruct (ro_used R) as [U1 U2]. pose proof (ro_used_al R) as Ua.
  assert (G64 : used + (4 + 8 * num) <= 2 ^ 64 /\ 0 <= used) by (destruct G; lia).
  assert (A2 : (used + 2) mod 2 = 0) by (clear -Ua; Z.to_euclidean_division_equations; lia).
  assert (A4 : forall j k, (used + 4 + j * 8 + k * 4) mod 4 = 0) by (clear -Ua; intros; Z.to_euclidean_division_equations; lia).
  unfold virtio_consume_desc. unfold vbind at 1. rewrite Q. fold used. rewrite (u_small 64 (used + 2)) by (unfold in_u; lia).
  unfold vbind at 1. rewrite read16_window by (try exact G; try (split; lia); exact A2). fold (used_idx (vmach s)).
  pose proof (word16_range (vmach s) (used + 2) G ltac:(split; lia)) as Hx. fold (used_idx (vmach s)) in Hx. unfold in_u in Hx.
  set (i := used_idx (vmach s)) in *. rewrite ring_index by (try assumption; lia).
  pose proof (Z.mod_pos_bound i num ltac:(lia)) as Hm. set (j := i mod num) in *.
  rewrite (u_small 32 (j * 8)), (u_small 64 (used + 4 + j * 8)), (u_small 64 (used + 4 + j * 8 + 4)) by (unfold in_u; lia).
  destruct (write16_window (used + 2) (u16 (i + 1)) s G) as (s1 & E1 & [D1 O1] & W1); [split; lia|exact A2|].
  unfold vbind at 1. rewrite E1. assert (G1 := wr_ram _ _ _ _ W1).
  destruct (write32_window (used + 4 + j * 8) (u32 d) s1 G1) as (s2 & E2 & [D2 O2] & W2); [split; lia|specialize (A4 j 0); rewrite Z.add_0_r in A4; exact A4|].
  unfold vbind at 1. rewrite E2. assert (G2 := wr_ram _ _ _ _ W2).
  destruct (write32_window (used + 4 + j * 8 + 4) (u32 len) s2 G2) as (s3 & E3 & [D3 O3] & W3); [split; lia|exact (A4 j 1)|].
  unfold vbind at 1. rewrite E3. assert (G3 := wr_ram _ _ _ _ W3). unfold vbind at 1, vmod_dev.
  assert (Dv : vdev s3 = vdev s) by congruence.
  destruct (set_irq_spec (mkVS (set_int_status (int_status (vdev s3) .| 1) (vdev s3)) (vmach s3) (vown s3)) true)
    as (s4 & E4 & [D4 O4] & [G4 B4] & P4); [exact G3|cbn; rewrite Dv; exact Hi|].
  exists s4. split; [exact E4|]. cbn [vdev vown vmach] in *. rewrite Dv in *. split; [exact D4|]. split; [congruence|].
  split; [|exact P4]. clear E1 E2 E3 E4 Q T.
  assert (L2 : forall v, length (le_bytes 2 v) = 2%nat) by (intros; apply le_bytes_length).
  assert (L4 : forall v, length (le_bytes 4 v) = 4%nat) by (intros; apply le_bytes_length).
  assert (B : forall a n, gbytes (vmach s4) a n = gbytes (vmach s3) a n) by (intros; apply gbytes_ext; intros; apply B4).
  split; [exact G4| | |].
  - unfold used_idx at 1. rewrite B, (wrote_other _ _ _ _ _ _ W3), (wrote_other _ _ _ _ _ _ W2) by (try (split; lia); rewrite L4; lia).
    rewrite <- (L2 (u16 (i + 1))) at 1. rewrite (wrote_same _ _ _ _ W1) by (rewrite L2; split; lia).
    rewrite le_value_bytes. apply u_u. lia.
  - intros k Hk. unfold used_entry at 1. rewrite !B. fold i. fold j. destruct (Z.eqb_spec k j) as [->|Hne].
    + f_equal.
      * rewrite (wrote_other _ _ _ _ _ _ W3) by (try (split; lia); rewrite L4; lia).
        replace (used + 4 + 8 * j) with (used + 4 + j * 8) by lia.
        rewrite <- (L4 (u32 d)) at 1. rewrite (wrote_same _ _ _ _ W2) by (rewrite L4; split; lia).
        rewrite le_value_bytes. apply u_u. lia.
      * replace (used + 8 + 8 * j) with (used + 4 + j * 8 + 4) by lia.
        rewrite <- (L4 (u32 len)) at 1. rewrite (wrote_same _ _ _ _ W3) by (rewrite L4; split; lia).
        rewrite le_value_bytes. apply u_u. lia.
    + unfold used_entry.
      rewrite !(wrote_other _ _ _ _ _ _ W3), !(wrote_other _ _ _ _ _ _ W2), !(wrote_other _ _ _ _ _ _ W1)
        by (try (split; lia); rewrite ?L4, ?L2; lia). reflexivity.
  - intros x Hx1 Hx2. rewrite B4, (wr_byte _ _ _ _ W3), (wr_byte _ _ _ _ W2), (wr_byte _ _ _ _ W1), !L4, L2 by lia.
    repeat match goal with |- context [(?a <=? ?b) && (?c <? ?e)] => destruct (Z.leb_spec a b), (Z.ltb_spec c e); try lia; cbn [andb] end; reflexivity.
Qed.

(** Addresses the used ring does not cover. *)
Definition outside_used (x : Z) : Prop := x < used \/ used + (4 + 8 * num) <= x.

Lemma consumed_avail m d len m' : rings_ok -> consumed m d len m' -> avail_idx m' = avail_idx m /\
  forall j, 0 <= j < num -> avail_slot m' j = avail_slot m j.
Proof.
  intros R C. destruct (ro_avail R) as [A1 A2]. pose proof (ro_sep_avail R) as A3. destruct (num_range R) as [Hn _].
  split; [|intros j Hj]; unfold avail_idx, avail_slot; f_equal; apply gbytes_ext; intros x Hx; apply (co_frame _ _ _ _ C); lia.
Qed.

Lemma consumed_chain m d len m' wr k segs : rings_ok -> inw dt (num * 16) -> consumed m d len m' ->
  chain m dt num wr k segs -> chain m' dt num wr k segs.
Proof.
  intros R [T1 T2] C Hc. apply (chain_frame m); [exact Hc|]. intros x Hx. pose proof (ro_sep_table R).
  apply (co_frame _ _ _ _ C); lia.
Qed.

Lemma chain_window m wr k segs : chain m dt num wr k segs -> Forall (fun x => lo <= x < hi) (addrs segs).
Proof.
  assert (S : forall g, seg_ok g -> Forall (fun x => lo <= x < hi) (seg_addrs g)).
  { intros g [[S1 S2] S3]. unfold seg_addrs. apply Forall_forall. intros x Hx. apply in_map_iff in Hx.
    destruct Hx as (i & <- & Hi%in_seq). lia. }
  induction 1 as [d H1 H2 H3 H4|d segs H1 H2 H3 H4 H5 IH]; unfold addrs; cbn [flat_map].
  - rewrite app_nil_r. apply S, H4.
  - apply Forall_app. split; [apply S, H4|exact IH].
Qed.

Lemma consumed_contents m d len m' wr k segs : consumed m d len m' -> chain m dt num wr k segs ->
  Forall outside_used (addrs segs) -> contents m' segs = contents m segs.
Proof.
  intros C Hc Ho. unfold contents. apply map_ext_in. intros x Hx. pose proof (chain_window _ _ _ _ Hc) as Hw.
  rewrite List.Forall_forall in Hw, Ho. apply (co_frame _ _ _ _ C); [apply Hw, Hx|apply Ho, Hx].
Qed.

Lemma avail_entry_spec s : rings_ok -> queue_at s -> in_u 16 (q_last_avail_idx q) ->
  avail_entry q s = (s, inl (avail_slot (vmach s) (q_last_avail_idx q mod num))).
Proof.
  intros R [G Q T] Hl. destruct (num_range R) as [Hn _]. destruct (ro_avail R) as [A1 A2]. pose proof (ro_avail_al R) as Aa.
  unfold avail_entry. unfold in_u in Hl. rewrite ring_index by (try assumption; lia). fold avail.
  pose proof (Z.mod_pos_bound (q_last_avail_idx q) num ltac:(lia)) as Hm. set (j := q_last_avail_idx q mod num) in *.
  rewrite (u_small 32), u_small by (unfold in_u; destruct G; lia).
  rewrite read16_window; [unfold avail_slot; do 5 f_equal; lia|exact G|split; lia|clear -Aa; Z.to_euclidean_division_equations; lia].
Qed.

End Copy.

(** ** The console's transmit queue *)

Section Console.
Context (garbage : nat -> Z) (fuel : nat) (num : Z).

(** A request the driver has made available: its chain is readable, not longer
    than the fuel, shorter than 2 GiB and clear of the used ring. *)
Definition request (q : QueueState) (m : RISCVMachine) (d : Z) (segs : list seg) : Prop :=
  chain m (dt q) num false d segs /\ (length segs <= fuel)%nat /\ Z.of_nat (length (addrs segs)) < 2 ^ 31 /\
  Forall (outside_used q num) (addrs segs).

(** Entries [idx .. idx + k) of the used ring name the requests in order, the
    others are as before. *)
Record served (q : QueueState) (m : RISCVMachine) (heads : list Z) (m' : RISCVMachine) : Prop := {
  sv_ram : guest_ram m';
  sv_idx : used_idx q m' = u16 (used_idx q m + Z.of_nat (length heads));
  sv_entry : forall j, 0 <= j < num -> used_entry q m' j =
    let i := (j - used_idx q m) mod num in
    if i <? Z.of_nat (length heads) then (nth (Z.to_nat i) heads 0, 0) else used_entry q m j;
  sv_frame : forall x, lo <= x < hi -> outside_used q num x -> gbyte m' x = gbyte m x
}.

Lemma served_nil q m : guest_ram m -> rings_ok q num -> served q m [] m.
Proof.
  intros G R. destruct (num_range q num R) as [Hn _]. destruct (ro_used q num R) as [U1 U2]. split; [exact G| |intros j Hj|reflexivity].
  - symmetry. cbn [length]. rewrite Z.add_0_r. apply u_small, word16_range; [exact G|split; lia].
  - cbv zeta. cbn [length]. pose proof (Z.mod_pos_bound (j - used_idx q m) num ltac:(lia)).
    destruct (Z.ltb_spec ((j - used_idx q m) mod num) (Z.of_nat 0)); [lia|reflexivity].
Qed.

Lemma served_cons q m d heads m1 m' : guest_ram m -> rings_ok q num -> 0 <= d < num -> Z.of_nat (S (length heads)) <= num ->
  consumed q num m d 0 m1 -> served q m1 heads m' -> served q m (d :: heads) m'.
Proof.
  intros G R Hd Hk [C1 C2 C3 C4] [S1 S2 S3 S4]. destruct (num_range q num R) as [Hn Hdiv]. destruct (ro_used q num R) as [U1 U2].
  pose proof (word16_range m (used q + 2) G ltac:(split; lia)) as Hx. fold (used_idx q m) in Hx.
  set (i := used_idx q m) in *. unfold in_u in Hx.
  assert (Hcong : forall j, (j - u16 (i + 1)) mod num = (j - i - 1) mod num).
  { intros j. unfold uN. apply Z.mod_divide in Hdiv as [c Hc]; [|lia]. change (2 ^ 16) with 65536. rewrite Hc, (Z.mod_eq (i + 1)) by lia.
    replace (j - (i + 1 - c * num * ((i + 1) / (c * num)))) with (j - i - 1 + c * ((i + 1) / (c * num)) * num) by lia.
    apply Z.mod_add. lia. }
  split; [exact S1| | |intros x Hx1 Hx2; rewrite S4, C4 by assumption; reflexivity].
  - rewrite S2, C2. unfold uN. rewrite Z.add_mod_idemp_l by lia. f_equal. cbn [length]. lia.
  - intros j Hj. rewrite S3, C2, Hcong, C3 by exact Hj. cbv zeta. fold i. cbn [length].
    pose proof (Z.mod_pos_bound (j - i) num ltac:(lia)) as Hp. set (p := (j - i) mod num) in *.
    assert (Hj' : j = i mod num <-> p = 0).
    { subst p. split; intros E.
      - rewrite E, Zminus_mod_idemp_l, Z.sub_diag. apply Z.mod_0_l. lia.
      - apply Z.mod_divide in E as [c Ec]; [|lia]. assert (Ei : i = j + - c * num) by lia.
        rewrite Ei, Z.mod_add, Z.mod_small by lia. reflexivity. }
    destruct (Z.eq_dec p 0) as [E|E].
    + assert (H1 : (j - i - 1) mod num = num - 1).
      { replace (j - i - 1) with (num - 1 + ((j - i) / num - 1) * num) by (pose proof (Z.div_mod (j - i) num ltac:(lia)); fold p in H; lia).
        rewrite Z.mod_add by lia. apply Z.mod_small. lia. }
      rewrite H1. destruct (Z.ltb_spec (num - 1) (Z.of_nat (length heads))); [lia|].
      destruct (Z.ltb_spec p (Z.of_nat (S (length heads)))); [|lia]. rewrite E. cbn [Z.to_nat nth].
      destruct (Z.eqb_spec j (i mod num)) as [_|Hne]; [|tauto]. rewrite u_small by (unfold in_u; lia). reflexivity.
    + assert (H1 : (j - i - 1) mod num = p - 1).
      { replace (j - i - 1) with (p - 1 + ((j - i) / num) * num) by (pose proof (Z.div_mod (j - i) num ltac:(lia)); fold p in H; lia).
        rewrite Z.mod_add by lia. apply Z.mod_small. lia. }
      rewrite H1. destruct (Z.ltb_spec (p - 1) (Z.of_nat (length heads))), (Z.ltb_spec p (Z.of_nat (S (length heads)))); try lia.
      * replace (Z.to_nat p) with (S (Z.to_nat (p - 1))) by lia. reflexivity.
      * destruct (Z.eqb_spec j (i mod num)); [tauto|reflexivity].
Qed.

Lemma get_queue_lookup {D} (s : VS D) i q : 0 <= i -> get_queue i s = (s, inl q) <-> queue (vdev s) !! Z.to_nat i = Some q.
Proof.
  intros Hi. unfold get_queue. destruct (Z.leb_spec 0 i); [|lia].
  destruct (queue (vdev s) !! Z.to_nat i) as [q0|]; split; intros E; congruence.
Qed.

Lemma mod_queue_spec {D} (s : VS D) i q f : 0 <= i -> queue (vdev s) !! Z.to_nat i = Some q ->
  exists s', mod_queue i f s = (s', inl tt) /\ vmach s' = vmach s /\ vown s' = vown s /\
    vdev s' = set_queue (aset (queue (vdev s)) i (f q)) (vdev s) /\ queue (vdev s') !! Z.to_nat i = Some (f q).
Proof.
  intros Hi Hq. unfold mod_queue, vbind. rewrite (proj2 (get_queue_lookup s i q Hi) Hq). unfold vmod_dev.
  eexists. split; [reflexivity|]. cbn. repeat split. unfold aset. apply list_lookup_insert_eq. eapply lookup_lt_Some, Hq.
Qed.

(** The console writes the contents of one request and consumes it. *)
Lemma console_recv_spec q d segs (s : VS VIRTIOConsole) : rings_ok q num -> queue_at 1 q num s -> 0 <= v_irq (vdev s) < 32 ->
  request q (vmach s) d segs ->
  exists s', virtio_console_recv_request garbage fuel 1 d (Z.of_nat (length (addrs segs))) 0 s = (s', inl 0) /\
    vdev s' = set_int_status (int_status (vdev s) .| 1) (vdev s) /\ vown s' = vown s ++ [contents (vmach s) segs] /\
    consumed q num (vmach s) d 0 (vmach s') /\ Z.testbit (plic_pending_irq (vmach s')) (v_irq (vdev s)) = true.
Proof.
  intros R Q Hi (Hc & Hf & Ht & Ho). unfold virtio_console_recv_request. cbn [Z.eqb Pos.eqb].
  unfold vbind at 1. rewrite (memcpy_from_queue_spec garbage fuel 1 q num segs d) by (try assumption; rewrite ?uninit_length; lia).
  unfold vbind at 1, vmod_own. cbn [fst].
  rewrite Nat2Z.id. change (Z.to_nat 0) with 0%nat. rewrite skipn_O.
  rewrite (firstn_all2 (contents _ _)) by (rewrite contents_length; lia). unfold splice. rewrite firstn_O, app_nil_l.
  rewrite skipn_all2 by (rewrite uninit_length, contents_length; lia). rewrite app_nil_r.
  match goal with |- context [vbind (virtio_consume_desc 1 d 0) _ ?t] =>
    destruct (consume_spec 1 q num d 0 t R) as (s' & E & D' & O' & C' & P') end.
  { destruct Q as [G E T]. split; [exact G| |exact T]. apply get_queue_lookup; [lia|]. apply get_queue_lookup in E; [exact E|lia]. }
  { exact Hi. }
  exists s'. split; [unfold vbind; rewrite E; reflexivity|]. split; [exact D'|]. split; [exact O'|]. split; [exact C'|exact P'].
Qed.

(** What a notification of the transmit queue has done after [heads]. *)
Record delivered (q : QueueState) (s : VS VIRTIOConsole) (heads : list Z) (chains : list (list seg)) (s' : VS VIRTIOConsole) : Prop := {
  dl_out : vown s' = vown s ++ map (contents (vmach s)) chains;
  dl_queue : queue (vdev s') = aset (queue (vdev s)) 1 (set_last_avail_idx (u16 (q_last_avail_idx q + Z.of_nat (length heads))) q);
  dl_irq : v_irq (vdev s') = v_irq (vdev s);
  dl_served : served q (vmach s) heads (vmach s');
  dl_raised : heads <> [] -> Z.testbit (int_status (vdev s')) 0 = true /\
                             Z.testbit (plic_pending_irq (vmach s')) (v_irq (vdev s)) = true
}.

Definition pending_requests (q : QueueState) (m : RISCVMachine) (heads : list Z) (chains : list (list seg)) : Prop :=
  (forall i d, heads !! i = Some d -> avail_slot q m ((q_last_avail_idx q + Z.of_nat i) mod num) = d) /\
  Forall2 (request q m) heads chains.

Lemma mod_num_u16 q : rings_ok q num -> forall x y, (u16 x + y) mod num = (x + y) mod num.
Proof.
  intros R x y. destruct (num_range q num R) as [Hn Hdiv]. apply Z.mod_divide in Hdiv as [c Hc]; [|lia].
  unfold uN. change (2 ^ 16) with 65536. rewrite Hc, (Z.mod_eq x) by lia.
  replace (x - c * num * (x / (c * num)) + y) with (x + y + - (c * (x / (c * num))) * num) by lia. apply Z.mod_add. lia.
Qed.

(** The requests behind the first are still pending once it is consumed. *)
Lemma pending_after q m d m' x heads chains : rings_ok q num -> inw (dt q) (num * 16) -> consumed q num m x 0 m' ->
  pending_requests q m (d :: heads) chains -> exists segs tl, chains = segs :: tl /\ request q m d segs /\
    map (contents m') tl = map (contents m) tl /\
    pending_requests (set_last_avail_idx (u16 (q_last_avail_idx q + 1)) q) m' heads tl.
Proof.
  intros R T C [Ha Hr]. inversion Hr as [|d0 segs l0 tl Hd Htl]; subst. exists segs, tl. split; [reflexivity|]. split; [exact Hd|].
  destruct (num_range q num R) as [Hn _]. split.
  - apply map_ext_in. intros g Hg. apply list_elem_of_In, list_elem_of_lookup in Hg as [i Hg].
    destruct (Forall2_lookup_r _ _ _ _ _ Htl Hg) as (e & _ & Hc & _ & _ & Ho). eapply consumed_contents; eassumption.
  - split.
    + intros i e He. cbn [q_last_avail_idx set_last_avail_idx]. rewrite (mod_num_u16 q R).
      rewrite <- (Ha (S i) e He). change (avail_slot (set_last_avail_idx (u16 (q_last_avail_idx q + 1)) q)) with (avail_slot q).
      replace (q_last_avail_idx q + 1 + Z.of_nat i) with (q_last_avail_idx q + Z.of_nat (S i)) by lia.
      apply (consumed_avail q num m x 0 m' R C). apply Z.mod_pos_bound. lia.
    + refine (List.Forall2_impl _ _ Htl). intros e g (Hc & Hf & Ht & Ho). split; [|split; [exact Hf|split; [exact Ht|exact Ho]]].
      exact (consumed_chain q num m x 0 m' false e g R T C Hc).
Qed.

(** The indices of a queue do not move its rings. *)
Lemma rings_last q v : rings_ok q num -> rings_ok (set_last_avail_idx v q) num.
Proof. intros []. split; assumption. Qed.

Lemma served_last q v m heads m' : served (set_last_avail_idx v q) m heads m' -> served q m heads m'.
Proof. intros []. split; assumption. Qed.

Lemma delivered_nil q (s : VS VIRTIOConsole) : rings_ok q num -> queue_at 1 q num s -> in_u 16 (q_last_avail_idx q) -> delivered q s [] [] s.
Proof.
  intros R [G E T] Hl. apply get_queue_lookup in E; [|lia].
  split; cbn [map length]; [rewrite app_nil_r; reflexivity| |reflexivity|apply served_nil; assumption|congruence].
  rewrite Z.add_0_r, u_small by exact Hl. unfold aset. symmetry. apply list_insert_id. rewrite E. destruct q. reflexivity.
Qed.

Lemma delivered_cons q (s s1 s' : VS VIRTIOConsole) d heads segs chains :
  let q1 := set_last_avail_idx (u16 (q_last_avail_idx q + 1)) q in
  rings_ok q num -> guest_ram (vmach s) -> 0 <= d < num -> Z.of_nat (S (length heads)) <= num ->
  queue (vdev s1) = aset (queue (vdev s)) 1 q1 -> (1 < length (queue (vdev s)))%nat ->
  v_irq (vdev s1) = v_irq (vdev s) -> Z.testbit (int_status (vdev s1)) 0 = true ->
  Z.testbit (plic_pending_irq (vmach s1)) (v_irq (vdev s)) = true ->
  vown s1 = vown s ++ [contents (vmach s) segs] -> consumed q num (vmach s) d 0 (vmach s1) ->
  map (contents (vmach s1)) chains = map (contents (vmach s)) chains ->
  (heads = [] -> s' = s1) -> delivered q1 s1 heads chains s' -> delivered q s (d :: heads) (segs :: chains) s'.
Proof.
  intros q1 R G Hd Hk Hq Hlen Hirq Hint Hpend Hown C Hcont Hnil [D1 D2 D3 D4 D5]. split.
  - rewrite D1, Hown, Hcont, <- app_assoc. reflexivity.
  - rewrite D2, Hq. unfold aset. rewrite list_insert_insert_eq. f_equal. unfold q1, set_last_avail_idx.
    cbn [q_last_avail_idx q_ready q_num q_desc_addr q_avail_addr q_used_addr q_manual_recv length].
    f_equal. unfold uN. rewrite Z.add_mod_idemp_l by lia. f_equal. lia.
  - congruence.
  - apply (served_cons q (vmach s) d heads (vmach s1)); [assumption..|apply served_last in D4; exact D4].
  - intros _. destruct heads as [|e heads]; [rewrite (Hnil eq_refl); split; assumption|].
    rewrite <- Hirq. apply D5. congruence.
Qed.

Lemma notify_loop_spec n : forall heads chains q (s : VS VIRTIOConsole), (length heads <= n)%nat -> Z.of_nat (length heads) <= num ->
  rings_ok q num -> queue_at 1 q num s -> 0 <= v_irq (vdev s) < 32 -> in_u 16 (q_last_avail_idx q) ->
  pending_requests q (vmach s) heads chains ->
  exists s', @notify_loop _ garbage fuel (console_device garbage fuel) n 1 (u16 (q_last_avail_idx q + Z.of_nat (length heads))) s = (s', inl tt) /\
    delivered q s heads chains s' /\ (heads = [] -> s' = s).
Proof.
  induction n as [|n IH]; intros heads chains q s Hn Hk R Q Hi Hl Hp; destruct (num_range q num R) as [Hnum _];
    (destruct heads as [|d heads];
     [exists s; destruct Hp as [_ Hp]; inversion Hp; subst; split;
        [cbn [notify_loop length]; unfold vbind; rewrite (qa_queue _ _ _ _ Q), Z.add_0_r, u_small, Z.eqb_refl by exact Hl; reflexivity
        |split; [apply delivered_nil; assumption|reflexivity]]
     |cbn [length] in *]); [lia|].
  assert (Hq := qa_queue _ _ _ _ Q). assert (Hq' := Hq). apply get_queue_lookup in Hq'; [|lia]. unfold in_u in Hl.
  pose proof (proj1 Hp 0%nat d eq_refl) as Hslot. rewrite Z.add_0_r in Hslot.
  assert (Hp' := proj2 Hp). inversion Hp' as [|d0 segs heads0 tl Hreq Htl]; subst d0 heads0 chains. assert (Hreq' := Hreq). destruct Hreq' as (Hc & Hf & Ht & Ho).
  destruct (chain_inv _ _ _ _ _ _ Hc) as (tl0 & _ & Hd & _).
  destruct (console_recv_spec q d segs s R Q Hi Hreq) as (s1 & E1 & V1 & O1 & C1 & P1).
  set (q1 := set_last_avail_idx (u16 (q_last_avail_idx q + 1)) q).
  destruct (mod_queue_spec s1 1 q (fun q => set_last_avail_idx (u16 (q_last_avail_idx q + 1)) q)) as (s2 & E2 & M2 & O2 & V2 & L2);
    [lia|rewrite V1; exact Hq'|]. fold q1 in V2, L2.
  destruct (pending_after q (vmach s) d (vmach s1) d heads (segs :: tl) R (qa_table _ _ _ _ Q) C1 Hp) as (segs' & tl' & Ech & _ & Hcont & Hp1).
  injection Ech as <- <-.
  destruct (IH heads tl q1 s2) as (s' & E' & D' & N').
  - lia.
  - lia.
  - apply rings_last, R.
  - destruct Q as [G _ T]. split; [rewrite M2; exact (co_ram _ _ _ _ _ _ C1)|apply get_queue_lookup; [lia|exact L2]|exact T].
  - rewrite V2, V1. exact Hi.
  - apply u_range. lia.
  - rewrite M2. exact Hp1.
  - exists s'. split; [|split; [|discriminate]].
    + cbn [notify_loop]. unfold vbind at 1. rewrite Hq. destruct (Z.eqb_spec (q_last_avail_idx q) (u16 (q_last_avail_idx q + Z.of_nat (S (length heads))))) as [E|_].
      { exfalso. unfold uN in E. clear -E Hl Hk Hnum. change (2 ^ 16) with 65536 in *. Z.to_euclidean_division_equations. lia. }
      unfold vbind at 1. rewrite (avail_entry_spec 1 q num s R Q Hl), Hslot. unfold vbind at 1.
      rewrite (rw_size_spec garbage fuel 1 q num segs d s Q Hc Hf Ht). unfold vbind at 1. cbn [device_recv console_device].
      rewrite E1. cbn [Z.ltb Z.compare]. unfold vbind at 1. rewrite E2. rewrite <- E'. f_equal.
      unfold q1. cbn [q_last_avail_idx set_last_avail_idx]. unfold uN. rewrite Z.add_mod_idemp_l by lia. f_equal. lia.
    + apply (delivered_cons q s s2 s' d heads segs tl); try assumption.
      * exact (qa_ram _ _ _ _ Q).
      * rewrite V2, V1. reflexivity.
      * eapply lookup_lt_Some, Hq'.
      * rewrite V2, V1. reflexivity.
      * rewrite V2, V1. cbn. rewrite Z.lor_spec. apply orb_true_r.
      * rewrite M2. exact P1.
      * rewrite O2. exact O1.
      * rewrite M2. exact C1.
      * rewrite M2. exact Hcont.
Qed.

(** C33. A notification of the console's transmit queue returns and serves every
    request the driver has made available, in ring order: the console is handed
    the bytes of each descriptor chain, the used ring records each chain head,
    its index and [last_avail_idx] advance past the requests (across the wrap
    at 2^16), no other guest byte changes and the interrupt is raised. *)
Theorem console_output_delivered (q : QueueState) (heads : list Z) (chains : list (list seg)) (s : VS VIRTIOConsole) :
  rings_ok q num -> queue_at 1 q num s -> q_manual_recv q = false -> 0 <= v_irq (vdev s) < 32 -> in_u 16 (q_last_avail_idx q) ->
  Z.of_nat (length heads) <= num -> avail_idx q (vmach s) = u16 (q_last_avail_idx q + Z.of_nat (length heads)) ->
  pending_requests q (vmach s) heads chains ->
  exists s', @queue_notify _ garbage fuel (console_device garbage fuel) 1 s = (s', inl tt) /\ delivered q s heads chains s'.
Proof.
  intros R Q Hm Hi Hl Hk Ha Hp. destruct (num_range q num R) as [Hn _]. destruct (ro_avail q num R) as [A1 A2].
  destruct (notify_loop_spec (Z.to_nat 65536) heads chains q s) as (s' & E & D & _); try assumption; [lia|].
  exists s'. split; [|exact D]. unfold queue_notify. unfold vbind at 1. rewrite (qa_queue _ _ _ _ Q), Hm.
  pose proof (qa_ram _ _ _ _ Q) as G. fold (avail q). rewrite u_small by (destruct G; unfold in_u; lia).
  unfold vbind at 1. rewrite read16_window; [fold (avail_idx q (vmach s)); rewrite Ha; exact E|exact G|split; lia|].
  pose proof (ro_avail_al q num R) as Aa. clear -Aa. Z.to_euclidean_division_equations. lia.
Qed.

(** ** The console's receive queue *)

(** A buffer the driver offers: a writable chain without repeated addresses,
    clear of the table and of the used ring. *)
Definition offered (q : QueueState) (m : RISCVMachine) (d : Z) (segs : list seg) : Prop :=
  chain m (dt q) num true d segs /\ (length segs <= fuel)%nat /\ Z.of_nat (length (addrs segs)) < 2 ^ 31 /\ NoDup (addrs segs) /\
  Forall (outside_table q num) (addrs segs) /\ Forall (outside_used q num) (addrs segs).

Lemma recv_ready_spec {D} q (s : VS D) : rings_ok q num -> queue_at 0 q num s -> q_ready q <> 0 ->
  recv_ready s = (s, inl (negb (q_last_avail_idx q =? avail_idx q (vmach s)))).
Proof.
  intros R Q Hr. destruct (num_range q num R) as [Hn _]. destruct (ro_avail q num R) as [A1 A2].
  pose proof (qa_ram _ _ _ _ Q) as G. unfold recv_ready. unfold vbind at 1. rewrite (qa_queue _ _ _ _ Q).
  destruct (Z.eqb_spec (q_ready q) 0); [contradiction|]. fold (avail q). rewrite u_small by (destruct G; unfold in_u; lia).
  unfold vbind. rewrite read16_window; [reflexivity|exact G|split; lia|].
  pose proof (ro_avail_al q num R) as Aa. clear -Aa. Z.to_euclidean_division_equations. lia.
Qed.

Lemma stored_used q m al bl m' : rings_ok q num -> stored m al bl m' -> Forall (outside_used q num) al ->
  used_idx q m' = used_idx q m /\ forall j, 0 <= j < num -> used_entry q m' j = used_entry q m j.
Proof.
  intros R S Ho. destruct (ro_used q num R) as [U1 U2]. destruct (num_range q num R) as [Hn _].
  assert (B : forall a n, used q <= a -> a + Z.of_nat n <= used q + (4 + 8 * num) -> gbytes m' a n = gbytes m a n).
  { intros a n Ha1 Ha2. apply gbytes_ext. intros x Hx. apply (st_same _ _ _ _ S); [lia|]. intros Hi.
    rewrite List.Forall_forall in Ho. specialize (Ho x Hi). unfold outside_used in Ho. lia. }
  split; [|intros j Hj]; unfold used_idx, used_entry; rewrite !B by lia; reflexivity.
Qed.

(** C34. Input for the guest: with a buffer offered on the receive queue,
    [virtio_console_write_data] returns the length of the data, the first bytes
    of the buffer hold exactly the data, the used ring has one more entry with
    the buffer and that length, [last_avail_idx] is past the buffer and no other
    guest byte changes. *)
Theorem console_input_delivered (q : QueueState) (d : Z) (segs : list seg) (buf : list Z) (s : VS VIRTIOConsole) :
  rings_ok q num -> queue_at 0 q num s -> q_ready q <> 0 -> 0 <= v_irq (vdev s) < 32 -> in_u 16 (q_last_avail_idx q) ->
  q_last_avail_idx q <> avail_idx q (vmach s) -> avail_slot q (vmach s) (q_last_avail_idx q mod num) = d ->
  offered q (vmach s) d segs -> Z.of_nat (length buf) <= Z.of_nat (length (addrs segs)) -> Forall (in_u 8) buf ->
  exists s', virtio_console_write_data garbage fuel buf s = (s', inl (Z.of_nat (length buf))) /\
    firstn (length buf) (contents (vmach s') segs) = buf /\
    used_idx q (vmach s') = u16 (used_idx q (vmach s) + 1) /\
    (forall j, 0 <= j < num -> used_entry q (vmach s') j =
       if j =? used_idx q (vmach s) mod num then (d, Z.of_nat (length buf)) else used_entry q (vmach s) j) /\
    (forall x, lo <= x < hi -> outside_used q num x -> ~ In x (firstn (length buf) (addrs segs)) ->
       gbyte (vmach s') x = gbyte (vmach s) x) /\
    queue (vdev s') !! 0%nat = Some (set_last_avail_idx (u16 (q_last_avail_idx q + 1)) q) /\ vown s' = vown s /\
    Z.testbit (plic_pending_irq (vmach s')) (v_irq (vdev s)) = true.
Proof.
  intros R Q Hr Hi Hl Hne Hslot (Hc & Hf & Ht & Hnd & Hot & Hou) Hb Hw.
  assert (Hl' := Hl). unfold in_u in Hl'.
  destruct (memcpy_to_queue_spec garbage fuel 0 q num segs d 0 buf s) as (s1 & E1 & M1 & S1); try assumption; [lia..|].
  change (Z.to_nat 0) with 0%nat in S1. rewrite skipn_O in S1. assert (M1' := M1). destruct M1' as [D1 O1].
  assert (Q1 := stored_queue_at _ _ _ _ _ _ _ Q M1 S1).
  destruct (consume_spec 0 q num d (Z.of_nat (length buf)) s1) as (s2 & E2 & D2 & O2 & C2 & P2); [exact R|exact Q1|rewrite D1; exact Hi|].
  assert (Hq := qa_queue _ _ _ _ Q1). apply get_queue_lookup in Hq; [|lia].
  destruct (mod_queue_spec s2 0 q (fun q => set_last_avail_idx (u16 (q_last_avail_idx q + 1)) q)) as (s3 & E3 & M3 & O3 & _ & L3);
    [lia|rewrite D2; exact Hq|].
  assert (Hsub : Forall (outside_used q num) (firstn (length buf) (addrs segs))) by (apply Forall_take, Hou).
  destruct (stored_used q _ _ _ _ R S1 Hsub) as [U1 U2]. destruct (chain_inv _ _ _ _ _ _ Hc) as (tl & _ & Hd & _).
  destruct (num_range q num R) as [Hn _].
  exists s3. split; [|split; [|split; [|split; [|split; [|split; [exact L3|split; [congruence|]]]]]]].
  - unfold virtio_console_write_data. unfold vbind at 1. rewrite (recv_ready_spec q s R Q Hr).
    destruct (Z.eqb_spec (q_last_avail_idx q) (avail_idx q (vmach s))); [contradiction|]. cbn [negb].
    unfold vbind at 1. rewrite (qa_queue _ _ _ _ Q). unfold vbind at 1. rewrite (avail_entry_spec 0 q num s R Q Hl), Hslot.
    unfold vbind at 1. rewrite E1. unfold vbind at 1. rewrite E2. unfold vbind at 1, advance_recv. rewrite E3. reflexivity.
  - transitivity (map (gbyte (vmach s1)) (firstn (length buf) (addrs segs))); [|exact (st_new _ _ _ _ S1)]. rewrite M3. unfold contents. rewrite firstn_map. apply map_ext_in. intros x Hx.
    pose proof (chain_window _ _ _ _ _ _ Hc) as Hwin. rewrite List.Forall_forall in Hwin, Hsub.
    apply (co_frame _ _ _ _ _ _ C2); [|apply Hsub, Hx]. apply Hwin. rewrite <- (firstn_skipn (length buf)). apply in_app_iff. left. exact Hx.
  - rewrite M3, (co_idx _ _ _ _ _ _ C2), U1. reflexivity.
  - intros j Hj. rewrite M3, (co_entry _ _ _ _ _ _ C2), U1, U2, !u_small by (try exact Hj; unfold in_u; lia). reflexivity.
  - intros x Hx Hx2 Hx3. rewrite M3, (co_frame _ _ _ _ _ _ C2), (st_same _ _ _ _ S1) by assumption. reflexivity.
  - rewrite M3, <- D1. exact P2.
Qed.

End Console.
End Window.

(** ** A guest with two pending requests *)

(** One kilobyte of RAM: four descriptors, the rings of a queue of four entries
    that has just wrapped, and the buffers. *)
Definition demo_ram : list Z :=
  le_bytes 8 0x80000100 ++ le_bytes 4 3 ++ le_bytes 2 1 ++ le_bytes 2 1 ++
  le_bytes 8 0x8000012c ++ le_bytes 4 2 ++ le_bytes 2 0 ++ le_bytes 2 0 ++
  le_bytes 8 0x80000190 ++ le_bytes 4 1 ++ le_bytes 2 0 ++ le_bytes 2 0 ++
  le_bytes 8 0x80000200 ++ le_bytes 4 8 ++ le_bytes 2 2 ++ le_bytes 2 0 ++
  le_bytes 2 0 ++ le_bytes 2 1 ++ le_bytes 2 2 ++ le_bytes 2 0 ++ le_bytes 2 3 ++ le_bytes 2 0 ++ repeat 0 52 ++
  le_bytes 2 0 ++ le_bytes 2 0xffff ++ repeat 0 124 ++
  [72; 101; 108] ++ repeat 0 41 ++ [108; 111] ++ repeat 0 98 ++ [33] ++ repeat 0 623.

Definition demo_guest : RISCVMachine :=
  set_hmem (map_seqZ 0x1000 demo_ram)
    (set_ncpus 1 (set_cpu_state [riscv_cpu_init BOOT_BASE_ADDR false false 0]
      (set_mem_map [mkRange 0x80000000 0x400 0x400 true 0 0x1000 0 None [] 0 0 0] zero_machine))).

Definition demo_queue : QueueState := mkQueue 1 4 0xffff 0x80000000 0x80000040 0x80000080 false.

Definition demo_console : VS VIRTIOConsole :=
  let s := virtio_console_init 1 demo_guest in
  mkVS (set_queue (aset (queue (vdev s)) 1 demo_queue) (vdev s)) (vmach s) (vown s).

Lemma demo_guest_ram : guest_ram 0x80000000 0x80000400 0x1000 demo_guest.
Proof.
  assert (B : length demo_ram = 1024%nat /\ forallb (fun b => (0 <=? b) && (b <? 256)) demo_ram = true) by (split; reflexivity).
  split; [lia|lia| | |reflexivity].
  - intros a Ha. unfold virtio_mmio_get_ram_ptr.
    assert (E : get_phys_mem_range (mem_map demo_guest) a = Some 0).
    { cbn. unfold range_contains. cbn [pr_addr pr_size]. change (u64 (0x80000000 + 0x400)) with 0x80000400.
      destruct (Z.leb_spec 0x80000000 a), (Z.ltb_spec a 0x80000400); (reflexivity || lia). }
    rewrite E. change (aget zero_range (mem_map demo_guest) 0) with (mkRange 0x80000000 0x400 0x400 true 0 0x1000 0 None [] 0 0 0).
    cbn [pr_is_ram]. unfold range_ptr. cbn [pr_phys_mem pr_addr]. rewrite u_small by (unfold in_u; lia). reflexivity.
  - intros a Ha. destruct B as [B1 B2]. change (hmem demo_guest) with (map_seqZ (M := gmap Z Z) 0x1000 demo_ram).
    rewrite lookup_map_seqZ, option_guard_True by lia. replace (0x1000 + (a - 0x80000000) - 0x1000) with (a - 0x80000000) by lia.
    destruct (lookup_lt_is_Some_2 demo_ram (Z.to_nat (a - 0x80000000))) as [b Eb]; [lia|]. exists b. split; [exact Eb|].
    rewrite forallb_forall in B2. specialize (B2 b ltac:(apply list_elem_of_In; eapply list_elem_of_lookup_2, Eb)). bool_hyps. unfold in_u. lia.
Qed.

Definition demo_recv_queue : QueueState := mkQueue 1 4 2 0x80000000 0x80000040 0x80000080 true.

Definition demo_receiver : VS VIRTIOConsole :=
  let s := virtio_console_init 1 demo_guest in
  mkVS (set_queue (aset (queue (vdev s)) 0 demo_recv_queue) (vdev s)) (vmach s) (vown s).

Lemma demo_rings l m : rings_ok 0x80000000 0x80000400 (mkQueue 1 4 l 0x80000000 0x80000040 0x80000080 m) 4.
Proof.
  split; [reflexivity|exists 2; lia|split; reflexivity || (cbn; lia)|reflexivity|split; cbn; lia|reflexivity|cbn; lia|cbn; lia].
Qed.

Definition demo_segs : list (list seg) := [[(0x80000100, 3); (0x8000012c, 2)]; [(0x80000190, 1)]].

(** Build a chain of a concrete machine. *)
Ltac concrete_chain :=
  match goal with
  | |- chain _ _ _ _ _ _ _ _ [_] => eapply chain_make_last; [vm_compute; reflexivity|lia|reflexivity|reflexivity|repeat split; cbn; lia]
  | |- chain _ _ _ _ _ _ _ _ (_ :: _) =>
      eapply chain_make_next; [vm_compute; reflexivity|lia|reflexivity|reflexivity|repeat split; cbn; lia|concrete_chain]
  end.

Lemma demo_pending : pending_requests 0x80000000 0x80000400 0x1000 8 4 demo_queue demo_guest [0; 2] demo_segs.
Proof.
  split.
  - intros [|[|i]] d E; [injection E as <-; vm_compute; reflexivity..|discriminate].
  - unfold demo_segs. repeat apply List.Forall2_cons; [| |apply List.Forall2_nil];
      (split; [concrete_chain|split; [cbn; lia|split; [vm_compute; reflexivity|]]]);
      match goal with |- Forall _ ?l => let v := eval vm_compute in l in change l with v end;
      repeat (apply List.Forall_cons; [unfold outside_used; cbn; lia|]); apply List.Forall_nil.
Qed.

Lemma console_output_delivered_witness :
  exists s', @queue_notify _ (fun _ => 0xaa) 8 (console_device (fun _ => 0xaa) 8) 1 demo_console = (s', inl tt) /\
    vown s' = [[72; 101; 108; 108; 111]; [33]] /\
    used_idx 0x80000000 0x1000 demo_queue (vmach s') = 1 /\
    used_entry 0x80000000 0x1000 demo_queue (vmach s') 3 = (0, 0) /\ used_entry 0x80000000 0x1000 demo_queue (vmach s') 0 = (2, 0).
Proof.
  destruct (console_output_delivered 0x80000000 0x80000400 0x1000 (fun _ => 0xaa) 8 4 demo_queue [0; 2] demo_segs demo_console)
    as (s' & E & [Ho _ _ S _]).
  - apply demo_rings.
  - split; [apply demo_guest_ram|reflexivity|split; cbn; lia].
  - reflexivity.
  - cbn. lia.
  - unfold in_u. cbn. lia.
  - cbn. lia.
  - vm_compute. reflexivity.
  - apply demo_pending.
  - exists s'. split; [exact E|]. split; [rewrite Ho; vm_compute; reflexivity|].
    split; [rewrite (sv_idx _ _ _ _ _ _ _ _ S); vm_compute; reflexivity|].
    split; rewrite (sv_entry _ _ _ _ _ _ _ _ S) by lia; vm_compute; reflexivity.
Defined.

Lemma demo_offered : offered 0x80000000 0x80000400 0x1000 8 4 demo_recv_queue demo_guest 3 [(0x80000200, 8)].
Proof.
  split; [concrete_chain|]. split; [cbn; lia|]. split; [vm_compute; reflexivity|].
  match goal with |- context [addrs ?l] => let v := eval vm_compute in (addrs l) in change (addrs l) with v end.
  split; [apply NoDup_ListNoDup; repeat constructor; cbn; lia|].
  split; repeat (apply List.Forall_cons; [unfold outside_table, outside_used; cbn; lia|]); apply List.Forall_nil.
Qed.

Lemma console_input_delivered_witness :
  exists s', virtio_console_write_data (fun _ => 0xaa) 8 [111; 107] demo_receiver = (s', inl 2) /\
    gbytes 0x80000000 0x1000 (vmach s') 0x80000200 2 = [111; 107] /\
    used_entry 0x80000000 0x1000 demo_recv_queue (vmach s') 3 = (3, 2).
Proof.
  destruct (console_input_delivered 0x80000000 0x80000400 0x1000 (fun _ => 0xaa) 8 4 demo_recv_queue 3 [(0x80000200, 8)] [111; 107] demo_receiver)
    as (s' & E & C & _ & U & _).
  - apply demo_rings.
  - split; [apply demo_guest_ram|reflexivity|split; cbn; lia].
  - discriminate.
  - cbn. lia.
  - unfold in_u. cbn. lia.
  - vm_compute. discriminate.
  - vm_compute. reflexivity.
  - apply demo_offered.
  - vm_compute. discriminate.
  - repeat constructor; unfold in_u; lia.
  - exists s'. split; [exact E|]. split; [exact C|]. rewrite U by lia. vm_compute. reflexivity.
Defined.
