(* ===== verification/BlockProps.v ===== *)
(** * The file-backed disk

    The block back end of [src/block_device.cpp] in its three modes implements
    an array of sectors: reads return what was last written, a snapshot leaves
    the image file alone and a read-only disk refuses writes.  The remarks at
    the end are requests of a guest that make the block device leave its
    buffers. *)

From S2P Require Import Prelude RiscvDefs State IoMem Tlb Pmp Mmu Csr Trap Alu HartInv Frame Devices Translate Virtio VirtioDevs VirtioProps.
Open Scope Z_scope.
Open Scope c_scope.

(** ** The abstract disk *)

Definition disk : Type := list (list Z).

Inductive disk_op :=
| DiskRead (sector n : nat)
| DiskWrite (sector : nat) (data : disk).

(** The data of a read; [None] for a refused write. *)
Definition abs_op (writable : bool) (d : disk) (op : disk_op) : disk * option (list Z) :=
  match op with
  | DiskRead sector n => (d, Some (concat (firstn n (skipn sector d))))
  | DiskWrite sector data =>
      if writable then (firstn sector d ++ data ++ skipn (sector + length data) d, Some []) else (d, None)
  end.

Definition op_ok (nb : nat) (op : disk_op) : Prop :=
  match op with
  | DiskRead sector n => (sector + n <= nb)%nat
  | DiskWrite sector data => (sector + length data <= nb)%nat /\ Forall (fun s => length s = 512%nat) data
  end.

(** The same operation on the back end. *)
Definition run_op (b : BlockDeviceFile) (op : disk_op) : bf_result (option (list Z)) :=
  match op with
  | DiskRead sector n =>
      match bf_read_async b (Z.of_nat sector) (Z.of_nat n) with
      | inl (bytes, ret, b) => inl (if ret <? 0 then None else Some bytes, b)
      | inr e => inr e
      end
  | DiskWrite sector data =>
      match bf_write_async b (Z.of_nat sector) (concat data) (Z.of_nat (length data)) with
      | inl (ret, b) => inl (if ret <? 0 then None else Some [], b)
      | inr e => inr e
      end
  end.

Fixpoint run_ops (b : BlockDeviceFile) (ops : list disk_op) : bf_result (list (option (list Z))) :=
  match ops with
  | [] => inl ([], b)
  | op :: ops =>
      match run_op b op with
      | inr e => inr e
      | inl (r, b) => match run_ops b ops with inl (rs, b) => inl (r :: rs, b) | inr e => inr e end
      end
  end.

Fixpoint abs_ops (writable : bool) (d : disk) (ops : list disk_op) : disk * list (option (list Z)) :=
  match ops with
  | [] => (d, [])
  | op :: ops => let '(d, r) := abs_op writable d op in let '(d, rs) := abs_ops writable d ops in (d, r :: rs)
  end.

(** ** The sectors of a back end *)

Definition file_sector (f : file) (i : nat) : list Z := firstn 512 (skipn (512 * i) (f_bytes f)).

Definition the_file (b : BlockDeviceFile) : file := default (mkFile [] 0) (bf_f b).

Definition sector_of (b : BlockDeviceFile) (i : nat) : list Z :=
  match bf_mode b with
  | BF_MODE_SNAPSHOT => match sector_table b !! i with Some (Some s) => s | _ => file_sector (the_file b) i end
  | _ => file_sector (the_file b) i
  end.

Definition disk_of (b : BlockDeviceFile) : disk := map (sector_of b) (seq 0 (Z.to_nat (nb_sectors b))).

Record disk_wf (b : BlockDeviceFile) : Prop := {
  dw_open : is_Some (bf_f b);
  dw_nb : 0 <= nb_sectors b < 2 ^ 32;
  dw_size : nb_sectors b * 512 <= Z.of_nat (length (f_bytes (the_file b)));
  dw_table : bf_mode b = BF_MODE_SNAPSHOT -> Z.of_nat (length (sector_table b)) = nb_sectors b;
  dw_sectors : Forall (fun o => match o with Some s => length s = 512%nat | None => True end) (sector_table b)
}.

Definition writable_mode (m : BlockDeviceModeEnum) : bool := match m with BF_MODE_RO => false | _ => true end.

(** ** Reading *)

(** [b'] differs from [b] in the position of the stream at most. *)
Definition same_disk (b b' : BlockDeviceFile) : Prop :=
  exists p, b' = set_bf_f (Some (mkFile (f_bytes (the_file b)) p)) b.

Lemma same_disk_refl b : disk_wf b -> same_disk b b.
Proof.
  intros W. destruct (dw_open _ W) as [f E]. exists (f_pos f). destruct b as [o nb md tb]. cbn in E. subst o. destruct f. reflexivity.
Qed.

Lemma same_disk_trans b b1 b2 : same_disk b b1 -> same_disk b1 b2 -> same_disk b b2.
Proof. intros [p ->] [p' ->]. exists p'. reflexivity. Qed.

Lemma same_disk_wf b b' : same_disk b b' -> disk_wf b -> disk_wf b'.
Proof. intros [p ->] []. split; [eexists; reflexivity|assumption..]. Qed.

Lemma same_disk_of b b' : same_disk b b' -> disk_of b' = disk_of b /\ f_bytes (the_file b') = f_bytes (the_file b) /\ bf_mode b' = bf_mode b.
Proof. intros [p ->]. repeat split. Qed.

(** Seeking to a sector inside the image and reading [n] bytes. *)
Lemma read_at f sector n : 512 * (Z.of_nat sector) + Z.of_nat n <= Z.of_nat (length (f_bytes f)) -> Z.of_nat sector < 2 ^ 32 ->
  fread (fseek f (u64 (Z.of_nat sector * SECTOR_SIZE))) (Z.of_nat n) =
  (firstn n (skipn (512 * sector) (f_bytes f)), mkFile (f_bytes f) (512 * Z.of_nat sector + Z.of_nat n)).
Proof.
  intros H Hs. unfold SECTOR_SIZE. rewrite u_small by (unfold in_u; lia). unfold fseek.
  assert (E : i64 (Z.of_nat sector * 512) = Z.of_nat sector * 512).
  { unfold sN. rewrite Z.mod_small by lia. change (2 ^ (64 - 1)) with (2 ^ 63). destruct (Z.ltb_spec (Z.of_nat sector * 512) (2 ^ 63)); lia. }
  rewrite E. destruct (Z.leb_spec 0 (Z.of_nat sector * 512)); [|lia]. unfold fread. cbn [f_pos f_bytes].
  destruct n as [|n].
  - change (Z.of_nat 0) with 0. cbn [Z.to_nat firstn]. destruct (_ <? _); cbn [length fst snd]; apply (f_equal (fun p => ([], mkFile (f_bytes f) p)));
      rewrite ?length_firstn; lia.
  - destruct (Z.ltb_spec (Z.of_nat sector * 512) (Z.of_nat (length (f_bytes f)))); [|lia].
    rewrite Nat2Z.id. replace (Z.to_nat (Z.of_nat sector * 512)) with (512 * sector)%nat by lia.
    f_equal. f_equal. rewrite length_firstn, length_skipn. lia.
Qed.

Lemma file_sector_length b i : disk_wf b -> (i < Z.to_nat (nb_sectors b))%nat -> length (file_sector (the_file b) i) = 512%nat.
Proof. intros W Hi. unfold file_sector. rewrite length_firstn, length_skipn. destruct W. lia. Qed.

(** Consecutive sectors of the file are its bytes. *)
Lemma file_sectors b n : forall i, disk_wf b -> (i + n <= Z.to_nat (nb_sectors b))%nat ->
  concat (map (file_sector (the_file b)) (seq i n)) = firstn (512 * n) (skipn (512 * i) (f_bytes (the_file b))).
Proof.
  induction n as [|n IH]; intros i W Hi; [rewrite Nat.mul_0_r; reflexivity|]. cbn [seq map concat]. rewrite IH by (try assumption; lia).
  replace (512 * S n)%nat with (512 + 512 * n)%nat by lia. rewrite <- take_take_drop, drop_drop.
  unfold file_sector. do 3 f_equal. lia.
Qed.

Lemma read_sector_spec b i : disk_wf b -> bf_mode b = BF_MODE_SNAPSHOT -> (i < Z.to_nat (nb_sectors b))%nat ->
  exists b', bf_read_sector b (Z.of_nat i) = inl (sector_of b i, b') /\ same_disk b b'.
Proof.
  intros W Hm Hi. pose proof (dw_table _ W Hm) as Ht. unfold bf_read_sector, sector_of. rewrite Hm.
  destruct (Z.ltb_spec (Z.of_nat i) (Z.of_nat (length (sector_table b)))); [|lia]. rewrite Nat2Z.id.
  destruct (lookup_lt_is_Some_2 (sector_table b) i) as [o Eo]; [lia|]. rewrite Eo. destruct o as [s|].
  - exists b. split; [reflexivity|apply same_disk_refl, W].
  - destruct (dw_open _ W) as [f Ef]. rewrite Ef. assert (the_file b = f) as Hf by (unfold the_file; rewrite Ef; reflexivity).
    pose proof (dw_size _ W) as Hs. rewrite Hf in *. change SECTOR_SIZE with (Z.of_nat 512) at 2. rewrite read_at by (destruct W; lia).
    fold (file_sector f i). pose proof (file_sector_length b i W Hi) as Hl. rewrite Hf in Hl. rewrite Hl. cbn [Z.of_nat Z.eqb].
    change (Z.of_nat 512 =? SECTOR_SIZE) with true. eexists. split; [reflexivity|]. eexists. rewrite Hf. reflexivity.
Qed.

Lemma read_sectors_spec n : forall b i, disk_wf b -> bf_mode b = BF_MODE_SNAPSHOT -> (i + n <= Z.to_nat (nb_sectors b))%nat ->
  exists b', bf_read_sectors n b (Z.of_nat i) = inl (concat (map (sector_of b) (seq i n)), b') /\ same_disk b b'.
Proof.
  induction n as [|n IH]; intros b i W Hm Hi; [exists b; split; [reflexivity|apply same_disk_refl, W]|].
  cbn [bf_read_sectors]. destruct (read_sector_spec b i W Hm) as (b1 & E1 & S1); [lia|]. rewrite E1.
  destruct (same_disk_of _ _ S1) as (_ & _ & Hm1). assert (Hnb : nb_sectors b1 = nb_sectors b) by (destruct S1 as [p ->]; reflexivity).
  assert (Hsec : sector_of b1 = sector_of b) by (destruct S1 as [p ->]; reflexivity).
  destruct (IH b1 (S i)) as (b2 & E2 & S2); [eapply same_disk_wf; eassumption|congruence|rewrite Hnb; lia|].
  replace (u64 (Z.of_nat i + 1)) with (Z.of_nat (S i)) by (rewrite u_small; [lia|destruct W; unfold in_u; lia]).
  rewrite E2. exists b2. rewrite Hsec. split; [reflexivity|eapply same_disk_trans; eassumption].
Qed.

(** The sectors [i .. i + n) of the disk. *)
Lemma disk_slice b i n : (i + n <= Z.to_nat (nb_sectors b))%nat -> firstn n (skipn i (disk_of b)) = map (sector_of b) (seq i n).
Proof.
  intros H. unfold disk_of. rewrite skipn_map, firstn_map. f_equal.
  replace (Z.to_nat (nb_sectors b)) with (i + (n + (Z.to_nat (nb_sectors b) - i - n)))%nat by lia.
  rewrite !seq_app, skipn_app, skipn_all2 by (rewrite length_seq; lia). rewrite length_seq, Nat.sub_diag, skipn_O, app_nil_l.
  rewrite firstn_app, length_seq, Nat.sub_diag, firstn_O, app_nil_r, firstn_all2 by (rewrite length_seq; lia). reflexivity.
Qed.

Lemma read_spec b sector n : disk_wf b -> (sector + n <= Z.to_nat (nb_sectors b))%nat ->
  exists b', bf_read_async b (Z.of_nat sector) (Z.of_nat n) = inl (concat (firstn n (skipn sector (disk_of b))), 0, b') /\ same_disk b b'.
Proof.
  intros W H. rewrite disk_slice by exact H. destruct (dw_open _ W) as [f Ef]. unfold bf_read_async. rewrite Ef.
  assert (Hf : the_file b = f) by (unfold the_file; rewrite Ef; reflexivity).
  destruct (bf_mode b) eqn:Hm.
  1,2: assert (Hsec : map (sector_of b) (seq sector n) = map (file_sector f) (seq sector n))
         by (apply map_ext; intros i; unfold sector_of; rewrite Hm, Hf; reflexivity);
       rewrite Hsec, <- Hf, file_sectors by assumption; rewrite Hf; pose proof (dw_size _ W) as Hs; rewrite Hf in Hs;
       replace (u64 (Z.of_nat n * SECTOR_SIZE)) with (Z.of_nat (512 * n))
         by (unfold SECTOR_SIZE; rewrite u_small; [lia|destruct W; unfold in_u; lia]);
       rewrite read_at by (destruct W; lia); rewrite length_firstn, length_skipn;
       destruct (Z.eqb_spec (Z.of_nat (Nat.min (512 * n) (length (f_bytes f) - 512 * sector))) (Z.of_nat (512 * n))); [|destruct W; lia];
       eexists; (split; [reflexivity|]); eexists; rewrite Hf; reflexivity.
  rewrite Nat2Z.id. destruct (read_sectors_spec n b sector W Hm H) as (b' & E & S). rewrite E. exists b'. split; [reflexivity|exact S].
Qed.

(** ** Writing *)

(** A back end whose sectors [sector ..] are [data] and the others as before. *)
Lemma disk_splice b b' sector data : nb_sectors b' = nb_sectors b -> (sector + length data <= Z.to_nat (nb_sectors b))%nat ->
  (forall i, (i < Z.to_nat (nb_sectors b))%nat ->
     sector_of b' i = if (sector <=? i)%nat && (i <? sector + length data)%nat then nth (i - sector) data [] else sector_of b i) ->
  disk_of b' = firstn sector (disk_of b) ++ data ++ skipn (sector + length data) (disk_of b).
Proof.
  intros Hnb Hr H. set (nb := Z.to_nat (nb_sectors b)) in *.
  assert (L : length (disk_of b) = nb) by (unfold disk_of; rewrite length_map, length_seq; reflexivity).
  assert (E : disk_of b' = map (sector_of b') (seq 0 nb)) by (unfold disk_of; rewrite Hnb; reflexivity).
  assert (S : forall i n, (i + n <= nb)%nat -> firstn n (skipn i (disk_of b)) = map (sector_of b) (seq i n)) by (intros; apply disk_slice; assumption).
  rewrite E. replace nb with (sector + (length data + (nb - sector - length data)))%nat by lia. rewrite !seq_app, !map_app. cbn [Nat.add]. f_equal; [|f_equal].
  - specialize (S 0%nat sector ltac:(lia)). rewrite skipn_O in S. rewrite S. apply map_ext_in. intros i Hi%in_seq.
    rewrite H by lia. destruct (Nat.leb_spec sector i); [lia|reflexivity].
  - apply (nth_ext _ _ [] []); rewrite length_map, length_seq; [reflexivity|]. intros i Hi.
    rewrite nth_indep with (d' := sector_of b' 0) by (rewrite length_map, length_seq; exact Hi). rewrite map_nth, seq_nth, H by lia.
    destruct (Nat.leb_spec sector (sector + i)), (Nat.ltb_spec (sector + i) (sector + length data)); try lia. cbn [andb]. f_equal. lia.
  - specialize (S (sector + length data)%nat (nb - sector - length data)%nat ltac:(lia)).
    rewrite firstn_all2 in S by (rewrite length_skipn; lia). rewrite S. apply map_ext_in. intros i Hi%in_seq. rewrite H by lia.
    destruct (Nat.leb_spec sector i), (Nat.ltb_spec i (sector + length data)); try lia; reflexivity.
Qed.

Lemma write_sectors_spec data : forall b sector, disk_wf b -> bf_mode b = BF_MODE_SNAPSHOT ->
  (sector + length data <= Z.to_nat (nb_sectors b))%nat -> Forall (fun s => length s = 512%nat) data ->
  exists b', bf_write_sectors (length data) b (Z.of_nat sector) (concat data) = inl (0, b') /\ disk_wf b' /\ bf_f b' = bf_f b /\
    bf_mode b' = bf_mode b /\ nb_sectors b' = nb_sectors b /\
    forall i, (i < Z.to_nat (nb_sectors b))%nat ->
      sector_of b' i = if (sector <=? i)%nat && (i <? sector + length data)%nat then nth (i - sector) data [] else sector_of b i.
Proof.
  induction data as [|s data IH]; intros b sector W Hm Hr Hd.
  - exists b. split; [reflexivity|]. split; [exact W|]. repeat (split; [reflexivity|]). intros i Hi. cbn [length].
    destruct (Nat.leb_spec sector i), (Nat.ltb_spec i (sector + 0)); try lia; reflexivity.
  - inversion Hd as [|s0 d0 Hs Hd']; subst. cbn [length] in Hr. pose proof (dw_table _ W Hm) as Ht.
    cbn [bf_write_sectors length concat]. rewrite length_app, Hs.
    destruct (Z.ltb_spec (Z.of_nat sector) (Z.of_nat (length (sector_table b)))); [|lia].
    destruct (Nat.leb_spec 512 (512 + length (concat data))); [|lia]. cbn [andb]. rewrite Nat2Z.id.
    rewrite firstn_app, skipn_app, Hs, Nat.sub_diag, firstn_O, skipn_O, app_nil_r, (firstn_all2 s), (skipn_all2 s), app_nil_l by lia.
    set (b1 := set_sector_table (<[sector:=Some s]> (sector_table b)) b).
    replace (u64 (Z.of_nat sector + 1)) with (Z.of_nat (S sector)) by (rewrite u_small; [lia|destruct W; unfold in_u; lia]).
    destruct (IH b1 (S sector)) as (b' & E & W' & Hf & Hm' & Hnb & H'); [|exact Hm|cbn; lia|exact Hd'|].
    { destruct W as [W1 W2 W3 W4 W5]. split; [exact W1|exact W2|exact W3| |].
      - intros _. cbn. rewrite length_insert. exact Ht.
      - cbn. apply Forall_insert; assumption. }
    exists b'. split; [exact E|]. split; [exact W'|]. split; [exact Hf|]. split; [exact Hm'|]. split; [exact Hnb|].
    intros i Hi. rewrite H' by exact Hi.
    assert (H1 : sector_of b1 i = if (i =? sector)%nat then s else sector_of b i).
    { unfold sector_of, b1. cbn [bf_mode set_sector_table sector_table]. rewrite Hm. change (the_file (set_sector_table _ b)) with (the_file b).
      destruct (Nat.eqb_spec i sector) as [->|Hne]; [rewrite list_lookup_insert_eq by lia; reflexivity|rewrite list_lookup_insert_ne by lia; reflexivity]. }
    rewrite H1. destruct (Nat.eqb_spec i sector) as [->|Hne].
    + destruct (Nat.leb_spec (S sector) sector), (Nat.leb_spec sector sector), (Nat.ltb_spec sector (sector + S (length data))); try lia.
      cbn [andb]. rewrite Nat.sub_diag. reflexivity.
    + destruct (Nat.leb_spec (S sector) i), (Nat.leb_spec sector i), (Nat.ltb_spec i (S sector + length data)), (Nat.ltb_spec i (sector + S (length data))); try lia; cbn [andb]; try reflexivity.
      replace (i - sector)%nat with (S (i - S sector)) by lia. reflexivity.
Qed.

Lemma concat_length (data : list (list Z)) : Forall (fun s => length s = 512%nat) data -> length (concat data) = (512 * length data)%nat.
Proof. induction 1 as [|s data Hs _ IH]; [reflexivity|]. cbn [concat length]. rewrite length_app, Hs, IH. lia. Qed.

Lemma concat_lookup (data : list (list Z)) : Forall (fun s => length s = 512%nat) data -> forall j k, (k < 512)%nat ->
  concat data !! (512 * j + k)%nat = data !! j ≫= fun s => s !! k.
Proof.
  induction 1 as [|s data Hs _ IH]; intros j k Hk; [reflexivity|]. cbn [concat]. destruct j as [|j].
  - rewrite Nat.mul_0_r, Nat.add_0_l, lookup_app_l by lia. reflexivity.
  - rewrite lookup_app_r by lia. rewrite Hs. replace (512 * S j + k - 512)%nat with (512 * j + k)%nat by lia. apply IH, Hk.
Qed.

(** Overwriting whole sectors of a byte string. *)
Lemma overwrite_sector (B : list Z) (data : list (list Z)) sector i : Forall (fun s => length s = 512%nat) data ->
  (512 * (sector + length data) <= length B)%nat -> (512 * S i <= length B)%nat ->
  firstn 512 (skipn (512 * i) (firstn (512 * sector) B ++ concat data ++ skipn (512 * sector + length (concat data)) B)) =
  if (sector <=? i)%nat && (i <? sector + length data)%nat then nth (i - sector) data [] else firstn 512 (skipn (512 * i) B).
Proof.
  intros Hd Hr Hi. pose proof (concat_length data Hd) as Lc. rewrite Lc.
  assert (L1 : length (firstn (512 * sector) B) = (512 * sector)%nat) by (rewrite length_firstn; lia).
  apply list_eq. intros k. destruct (Nat.lt_ge_cases k 512) as [Hk|Hk].
  - rewrite lookup_take_lt, lookup_drop by exact Hk.
    destruct (Nat.leb_spec sector i) as [H1|H1]; [destruct (Nat.ltb_spec i (sector + length data)) as [H2|H2]|]; cbn [andb].
    + rewrite lookup_app_r, L1, lookup_app_l by lia. replace (512 * i + k - 512 * sector)%nat with (512 * (i - sector) + k)%nat by lia.
      rewrite concat_lookup by assumption. rewrite nth_lookup.
      destruct (lookup_lt_is_Some_2 data (i - sector)) as [s Es]; [lia|]. rewrite Es. reflexivity.
    + rewrite lookup_app_r, L1, lookup_app_r, Lc, lookup_drop, lookup_take_lt, lookup_drop by lia. f_equal. lia.
    + rewrite lookup_app_l, !lookup_take_lt, lookup_drop by lia. reflexivity.
  - rewrite lookup_take_ge by exact Hk. symmetry. apply lookup_ge_None. destruct ((sector <=? i)%nat && _) eqn:E.
    + apply andb_prop in E as [E1%Nat.leb_le E2%Nat.ltb_lt]. rewrite List.Forall_forall in Hd.
      rewrite (Hd (nth (i - sector) data [])) by (apply nth_In; lia). exact Hk.
    + rewrite length_firstn. lia.
Qed.

Lemma write_spec b sector data : disk_wf b -> (sector + length data <= Z.to_nat (nb_sectors b))%nat ->
  Forall (fun s => length s = 512%nat) data -> writable_mode (bf_mode b) = true ->
  exists b', bf_write_async b (Z.of_nat sector) (concat data) (Z.of_nat (length data)) = inl (0, b') /\ disk_wf b' /\
    bf_mode b' = bf_mode b /\ disk_of b' = firstn sector (disk_of b) ++ data ++ skipn (sector + length data) (disk_of b) /\
    nb_sectors b' = nb_sectors b /\ (bf_mode b = BF_MODE_SNAPSHOT -> the_file b' = the_file b).
Proof.
  intros W Hr Hd Hw. pose proof (concat_length data Hd) as Lc. unfold bf_write_async. destruct (bf_mode b) eqn:Hm; [discriminate| |].
  - destruct (dw_open _ W) as [f Ef]. rewrite Ef. assert (Hf : the_file b = f) by (unfold the_file; rewrite Ef; reflexivity).
    pose proof (dw_size _ W) as Hs. rewrite Hf in Hs. destruct (dw_nb _ W) as [Hn1 Hn2].
    rewrite u_small by (unfold SECTOR_SIZE, in_u; lia). rewrite Lc. unfold SECTOR_SIZE at 1.
    destruct (Z.leb_spec (Z.of_nat (length data) * 512) (Z.of_nat (512 * length data))); [|lia].
    rewrite firstn_all2 by (unfold SECTOR_SIZE; rewrite Lc; lia).
    eexists. split; [reflexivity|].
    assert (Hbytes : f_bytes (fwrite (fseek f (u64 (Z.of_nat sector * SECTOR_SIZE))) (concat data)) =
      firstn (512 * sector) (f_bytes f) ++ concat data ++ skipn (512 * sector + length (concat data)) (f_bytes f)).
    { unfold SECTOR_SIZE. rewrite u_small by (unfold in_u; lia). unfold fseek.
      assert (E : i64 (Z.of_nat sector * 512) = Z.of_nat sector * 512)
        by (unfold sN; rewrite Z.mod_small by lia; case_goal; lia).
      rewrite E. destruct (Z.leb_spec 0 (Z.of_nat sector * 512)); [|lia]. unfold fwrite. cbn [f_pos f_bytes].
      replace (Z.to_nat (Z.of_nat sector * 512)) with (512 * sector)%nat by lia. destruct (concat data) as [|x l] eqn:Ec.
      - cbn [f_bytes app length]. rewrite Nat.add_0_r, firstn_skipn. reflexivity.
      - cbn [f_bytes]. rewrite length_firstn. replace (512 * sector - Nat.min (512 * sector) (length (f_bytes f)))%nat with 0%nat by lia. reflexivity. }
    set (f' := fwrite _ _) in *.
    assert (Hlen : length (f_bytes f') = length (f_bytes f))
      by (rewrite Hbytes, !length_app, length_firstn, length_skipn, Lc; lia).
    split; [|split; [exact Hm|split; [|split; [reflexivity|discriminate]]]].
    + destruct W as [W1 W2 W3 W4 W5]. split; [eexists; reflexivity|exact W2| |cbn; rewrite Hm; discriminate|exact W5].
      cbn. rewrite Hlen. exact Hs.
    + apply disk_splice; [reflexivity|exact Hr|]. intros i Hi. unfold sector_of. cbn [bf_mode set_bf_f]. rewrite Hm.
      unfold file_sector. change (the_file (set_bf_f (Some f') b)) with f'. rewrite Hbytes, Hf. apply overwrite_sector; [exact Hd|lia|lia].
  - destruct (dw_nb _ W) as [Hn1 Hn2]. rewrite u_small by (unfold in_u; lia).
    destruct (Z.ltb_spec (nb_sectors b) (Z.of_nat sector + Z.of_nat (length data))); [lia|]. rewrite Nat2Z.id.
    destruct (write_sectors_spec data b sector W Hm Hr Hd) as (b' & E & W' & Hf & Hm' & Hnb & H'). exists b'. rewrite E.
    split; [reflexivity|]. split; [exact W'|]. split; [congruence|]. split; [apply disk_splice; assumption|]. split; [exact Hnb|].
    intros _. unfold the_file. rewrite Hf. reflexivity.
Qed.

(** C36. The file-backed disk refines an array of sectors in all three modes:
    over any sequence of reads and writes inside the disk every read returns
    what the array holds, a read-only disk refuses every write and keeps its
    contents, and a snapshot never changes the image file. *)
Theorem disk_refines_array (ops : list disk_op) : forall b, disk_wf b -> Forall (op_ok (Z.to_nat (nb_sectors b))) ops ->
  exists b', run_ops b ops = inl ((abs_ops (writable_mode (bf_mode b)) (disk_of b) ops).2, b') /\
    disk_of b' = (abs_ops (writable_mode (bf_mode b)) (disk_of b) ops).1 /\
    (bf_mode b <> BF_MODE_RW -> f_bytes (the_file b') = f_bytes (the_file b)).
Proof.
  induction ops as [|op ops IH]; intros b W Hok; [exists b; repeat split|].
  inversion Hok as [|o l Ho Hok']; subst.
  assert (Step : exists r b1, run_op b op = inl (r, b1) /\ disk_wf b1 /\ bf_mode b1 = bf_mode b /\ nb_sectors b1 = nb_sectors b /\
    abs_op (writable_mode (bf_mode b)) (disk_of b) op = (disk_of b1, r) /\
    (bf_mode b <> BF_MODE_RW -> f_bytes (the_file b1) = f_bytes (the_file b))).
  { destruct op as [sector n|sector data]; cbn [run_op abs_op op_ok] in *.
    - destruct (read_spec b sector n W Ho) as (b1 & E & S). rewrite E. destruct (same_disk_of _ _ S) as (Hd & Hf & Hm).
      eexists _, b1. split; [reflexivity|]. split; [eapply same_disk_wf; eassumption|]. split; [exact Hm|].
      split; [destruct S as [p ->]; reflexivity|]. split; [rewrite Hd; reflexivity|]. intros _. exact Hf.
    - destruct Ho as [Hr Hd]. destruct (writable_mode (bf_mode b)) eqn:Hw.
      + destruct (write_spec b sector data W Hr Hd Hw) as (b1 & E & W1 & Hm & Hdisk & Hnb & Hf). rewrite E.
        eexists _, b1. split; [reflexivity|]. split; [exact W1|]. split; [exact Hm|]. split; [exact Hnb|]. split; [rewrite Hdisk; reflexivity|].
        intros Hne. rewrite Hf; [reflexivity|]. destruct (bf_mode b); [discriminate|congruence|reflexivity].
      + unfold bf_write_async. destruct (bf_mode b) eqn:Hm; try discriminate. exists None, b. repeat (split; [first [reflexivity|assumption]|]). reflexivity. }
  destruct Step as (r & b1 & E & W1 & Hm & Hnb & Ha & Hf). cbn [run_ops abs_ops]. rewrite E, Ha.
  destruct (IH b1 W1) as (b' & E' & Hd' & Hf'); [rewrite Hnb; exact Hok'|]. rewrite Hm in E', Hd', Hf'.
  destruct (abs_ops (writable_mode (bf_mode b)) (disk_of b1) ops) as [d rs]. cbn [fst snd] in *. exists b'. rewrite E'.
  split; [reflexivity|]. split; [exact Hd'|]. intros Hne. rewrite Hf', Hf by exact Hne. reflexivity.
Qed.

(** ** A small disk *)

Definition demo_image : list Z := repeat 7 512 ++ repeat 8 512.

Lemma demo_disk_wf mode : disk_wf (block_device_init demo_image mode).
Proof.
  split; [eexists; reflexivity|vm_compute; split; congruence|vm_compute; congruence|destruct mode; try discriminate; reflexivity|].
  destruct mode; cbn; repeat constructor.
Qed.

Lemma disk_refines_array_witness : exists b',
  run_ops (block_device_init demo_image BF_MODE_SNAPSHOT) [DiskWrite 1 [repeat 9 512]; DiskRead 0 2] =
    inl ([Some []; Some (repeat 7 512 ++ repeat 9 512)], b') /\ f_bytes (the_file b') = demo_image.
Proof.
  destruct (disk_refines_array [DiskWrite 1 [repeat 9 512]; DiskRead 0 2] (block_device_init demo_image BF_MODE_SNAPSHOT)) as (b' & E & _ & F).
  - apply demo_disk_wf.
  - repeat (apply List.Forall_cons; [vm_compute; repeat constructor|]). apply List.Forall_nil.
  - exists b'. split; [rewrite E; vm_compute; reflexivity|]. rewrite F by discriminate. reflexivity.
Defined.

(** ** Requests outside the disk *)

(** The bound check of a snapshot truncates the sector number to 32 bits, and a
    read of a snapshot has none. *)
Remark snapshot_bound_truncated :
  bf_write_async (block_device_init demo_image BF_MODE_SNAPSHOT) (2 ^ 32) (repeat 0 512) 1 = inr VUndefined /\
  bf_read_async (block_device_init demo_image BF_MODE_SNAPSHOT) (2 ^ 32) 1 = inr VUndefined.
Proof. split; vm_compute; reflexivity. Qed.

(** A guest image whose only descriptor is a readable 16-byte block header of
    type [VIRTIO_BLK_T_IN]: there is no byte for the status, which is written
    in front of the empty buffer. *)
Definition header_ram (descs : list Z) : list Z :=
  descs ++ repeat 0 (64 - length descs) ++ repeat 0 448 ++ repeat 0 512.

Definition block_guest (ram : list Z) : RISCVMachine := set_hmem (map_seqZ 0x1000 ram) demo_guest.

Definition block_queue : QueueState := mkQueue 1 4 0 0x80000000 0x80000040 0x80000080 false.

Definition block_state (ram : list Z) : VS VIRTIOBlock :=
  let s := virtio_block_init 2 (block_device_init demo_image BF_MODE_RO) (block_guest ram) in
  mkVS (set_queue (aset (queue (vdev s)) 0 block_queue) (vdev s)) (vmach s) (vown s).

Remark block_read_without_status_byte :
  snd (virtio_block_recv_request (fun _ => 0) 8 0 0 16 0
         (block_state (header_ram (le_bytes 8 0x80000200 ++ le_bytes 4 16 ++ le_bytes 4 0)))) = inr VUndefined.
Proof. vm_compute. reflexivity. Qed.

(** A descriptor of 2^31 bytes or more moves the position in the host buffer
    backwards: the copy of a chain of 16, -32 and 100 bytes writes in front of
    the buffer. *)
Remark negative_length_underflows :
  snd (memcpy_from_queue (fun _ => 0) 8 (repeat 0 84) 0 0 0 84
         (block_state (header_ram (le_bytes 8 0x80000200 ++ le_bytes 4 16 ++ le_bytes 2 1 ++ le_bytes 2 1 ++
                                   le_bytes 8 0x80000200 ++ le_bytes 4 (2 ^ 32 - 32) ++ le_bytes 2 1 ++ le_bytes 2 2 ++
                                   le_bytes 8 0x80000200 ++ le_bytes 4 100 ++ le_bytes 4 0)))) = inr VUndefined.
Proof. vm_compute. reflexivity. Qed.

(** A descriptor that links to itself is never finished, whatever the fuel: the
    notification does not return. *)
Lemma self_loop_diverges {D} lo hi base garbage fuel qi q num d (s : VS D) :
  queue_at lo hi base qi q num s -> 0 <= d < num ->
  (d_flags (desc_at lo base (vmach s) (dt q) d) has VRING_DESC_F_WRITE) = false ->
  (d_flags (desc_at lo base (vmach s) (dt q) d) has VRING_DESC_F_NEXT) = true ->
  d_next (desc_at lo base (vmach s) (dt q) d) = d ->
  get_desc_rw_size garbage fuel qi d s = (s, inr OutOfFuel).
Proof.
  intros Q Hd Hw Hn Hx. unfold get_desc_rw_size, vbind. rewrite (get_desc_spec lo hi base qi q num) by (try assumption; apply uninit_length).
  enough (H : forall n acc, read_size_loop fuel n qi (gbytes lo base (vmach s) (dt q + d * 16) 16) acc s = (s, inr OutOfFuel)) by apply H.
  induction n as [|n IH]; intros acc; [reflexivity|]. cbn [read_size_loop]. fold (desc_at lo base (vmach s) (dt q) d).
  rewrite Hw, Hn. cbn [negb]. unfold vbind. rewrite Hx, (get_desc_spec lo hi base qi q num) by (try assumption; apply gbytes_length). apply IH.
Qed.
