(* ===== verification/VirtioRegs.v ===== *)
(** * The VirtIO register files

    Whatever a driver writes to the MMIO or PCI registers of a device, the
    transport stays inside its queue array and configuration space; the queue a
    driver programs is the queue the device then uses. *)

From S2P Require Import Prelude RiscvDefs State IoMem Tlb Pmp Mmu Csr Trap Alu HartInv Frame Devices Translate Virtio VirtioDevs VirtioProps.
Open Scope Z_scope.
Open Scope c_scope.

(** ** Well-formed devices *)

Record queue_wf (q : QueueState) : Prop := {
  qw_ready : in_u 32 (q_ready q);
  qw_num : in_u 32 (q_num q) /\ (q_num q .& u32 (q_num q - 1)) = 0 /\ 0 < q_num q;
  qw_last : in_u 16 (q_last_avail_idx q);
  qw_desc : in_u 64 (q_desc_addr q);
  qw_avail : in_u 64 (q_avail_addr q);
  qw_used : in_u 64 (q_used_addr q)
}.

Record dev_wf (d : VIRTIODevice) : Prop := {
  vw_irq : 0 <= v_irq d < 32;
  vw_int : in_u 32 (int_status d);
  vw_status : in_u 32 (v_status d);
  vw_fsel : in_u 32 (device_features_sel d);
  vw_feat : in_u 32 (device_features d) /\ in_u 32 (device_id d) /\ in_u 32 (vendor_id d);
  vw_sel : 0 <= queue_sel d < MAX_QUEUE;
  vw_len : length (queue d) = 8%nat;
  vw_queues : Forall queue_wf (queue d);
  vw_size : 4 <= config_space_size d <= MAX_CONFIG_SPACE_SIZE;
  vw_config : length (config_space d) = 256%nat /\ Forall (in_u 8) (config_space d)
}.

(** The device and the harts its interrupt line reaches. *)
Definition vs_wf {D} (s : VS D) : Prop := dev_wf (vdev s) /\ ncpus (vmach s) = Z.of_nat (length (cpu_state (vmach s))).

(** An operation that returns and keeps the device well formed. *)
Definition safe {D A} (P : A -> Prop) (m : VM D A) : Prop :=
  forall s, vs_wf s -> exists s' a, m s = (s', inl a) /\ vs_wf s' /\ P a.

Section Safe.
Context {D : Type}.

Lemma safe_ret {A} (P : A -> Prop) a : P a -> @safe D A P (vret a).
Proof. intros H s W. exists s, a. auto. Qed.

Lemma safe_bind {A B} (P : A -> Prop) (Q : B -> Prop) (m : VM D A) k : safe P m -> (forall a, P a -> safe Q (k a)) -> safe Q (vbind m k).
Proof.
  intros Hm Hk s W. destruct (Hm s W) as (s1 & a & E & W1 & Pa). destruct (Hk a Pa s1 W1) as (s2 & b & E2 & W2 & Qb).
  exists s2, b. unfold vbind. rewrite E. auto.
Qed.

Lemma safe_field {A} (P : A -> Prop) (f : VIRTIODevice -> A) : (forall d, dev_wf d -> P (f d)) -> @safe D A P (dev_field f).
Proof. intros H s W. exists s, (f (vdev s)). split; [reflexivity|]. split; [exact W|apply H, W]. Qed.

Lemma safe_mod_dev f : (forall d, dev_wf d -> dev_wf (f d)) -> @safe D unit (fun _ => True) (vmod_dev f).
Proof. intros H s [W Hc]. eexists _, tt. split; [reflexivity|]. split; [split; [apply H, W|exact Hc]|exact I]. Qed.

Lemma safe_set_irq b : @safe D unit (fun _ => True) (set_irq b).
Proof.
  intros s [W Hc]. destruct (plic_set_irq_mem (vmach s) (v_irq (vdev s)) b Hc (vw_irq _ W)) as (m' & E & _ & _ & Hn & _).
  unfold set_irq. rewrite E. eexists _, tt. split; [reflexivity|]. split; [split; [exact W|exact Hn]|exact I].
Qed.

Lemma safe_if {A} (P : A -> Prop) (b : bool) (m1 m2 : VM D A) : (b = true -> safe P m1) -> (b = false -> safe P m2) -> safe P (if b then m1 else m2).
Proof. intros H1 H2. destruct b; auto. Qed.

Lemma queue_lookup_wf d i : dev_wf d -> 0 <= i < MAX_QUEUE -> exists q, queue d !! Z.to_nat i = Some q /\ queue_wf q.
Proof.
  intros W Hi. unfold MAX_QUEUE in Hi. destruct (lookup_lt_is_Some_2 (queue d) (Z.to_nat i)) as [q E]; [rewrite (vw_len _ W); lia|].
  exists q. split; [exact E|]. pose proof (vw_queues _ W) as H. rewrite Forall_lookup in H. eapply H, E.
Qed.

Lemma safe_sel_queue {A} (P : A -> Prop) (f : QueueState -> A) : (forall q, queue_wf q -> P (f q)) -> @safe D A P (sel_queue f).
Proof.
  intros H s W. destruct (queue_lookup_wf (vdev s) _ (proj1 W) (vw_sel _ (proj1 W))) as (q & E & Hq).
  exists s, (f q). split; [|split; [exact W|apply H, Hq]]. unfold sel_queue, vbind, vgets.
  rewrite (proj2 (get_queue_lookup s _ q (proj1 (vw_sel _ (proj1 W)))) E). reflexivity.
Qed.

Lemma wf_set_queue d i q : dev_wf d -> queue_wf q -> dev_wf (set_queue (aset (queue d) i q) d).
Proof.
  intros [] Hq. split; try assumption; cbn; unfold aset; [rewrite length_insert; assumption|apply Forall_insert; assumption].
Qed.

Lemma safe_mod_sel f : (forall q, queue_wf q -> queue_wf (f q)) -> @safe D unit (fun _ => True) (mod_sel_queue f).
Proof.
  intros H s W. destruct (queue_lookup_wf (vdev s) _ (proj1 W) (vw_sel _ (proj1 W))) as (q & E & Hq).
  destruct (mod_queue_spec s _ q f (proj1 (vw_sel _ (proj1 W))) E) as (s' & E' & M & _ & V & _).
  exists s', tt. split; [exact E'|]. split; [|exact I]. split; [rewrite V; apply wf_set_queue; [exact (proj1 W)|apply H, Hq]|rewrite M; exact (proj2 W)].
Qed.

(** ** The configuration space *)

Lemma safe_get_config pos n : (n <= 4)%nat -> 0 <= pos -> pos + Z.of_nat n <= 256 -> @safe D Z (in_u 32) (get_config pos n).
Proof.
  intros Hn Hp Hr s W. destruct (vw_config _ (proj1 W)) as [L F].
  assert (E : length (firstn n (skipn (Z.to_nat pos) (config_space (vdev s)))) = n) by (rewrite length_firstn, length_skipn, L; lia).
  unfold get_config. cbv zeta. rewrite E, Nat.eqb_refl. eexists _, _. split; [reflexivity|]. split; [exact W|].
  apply (in_u_weaken (8 * Z.of_nat n)); [lia|]. rewrite <- E at 1. apply le_value_range, Forall_take, Forall_drop, F.
Qed.

Lemma safe_put_config pos n v : 0 <= pos -> pos + Z.of_nat n <= 256 -> @safe D unit (fun _ => True) (put_config pos (le_bytes n v)).
Proof.
  intros Hp Hr s W. destruct (vw_config _ (proj1 W)) as [L F]. unfold put_config.
  rewrite buf_write_ok by (rewrite ?le_bytes_length, ?L; lia). eexists _, tt. split; [reflexivity|]. split; [|exact I].
  split; [|exact (proj2 W)]. destruct (proj1 W). split; try assumption. cbn. split; [rewrite splice_length; [exact L|rewrite le_bytes_length, L; lia]|].
  unfold splice. apply Forall_app. split; [apply Forall_take, F|]. apply Forall_app. split; [apply le_bytes_wf|apply Forall_drop, F].
Qed.

Lemma safe_config_read offset size_log2 : 0 <= offset -> 0 <= size_log2 <= 2 -> @safe D Z (in_u 32) (virtio_config_read offset size_log2).
Proof.
  intros Ho Hs. apply (safe_bind (fun z => 4 <= z <= 256)); [apply safe_field; intros d W; exact (vw_size _ W)|]. intros size Hz.
  assert (Z0 : in_u 32 0) by (unfold in_u; lia). rewrite !(u_small 32) by (unfold in_u; lia).
  repeat (apply safe_if; intros ?); bool_hyps; try (apply safe_ret, Z0); try (apply safe_get_config; lia). lia.
Qed.

Context `{VirtioDevice D}.

Lemma safe_config_write offset val size_log2 : safe (fun _ => True) run_config_write -> 0 <= offset ->
  @safe D unit (fun _ => True) (virtio_config_write offset val size_log2).
Proof.
  intros Hc Ho. apply (safe_bind (fun z => 4 <= z <= 256)); [apply safe_field; intros d W; exact (vw_size _ W)|]. intros size Hz.
  rewrite !(u_small 32) by (unfold in_u; lia).
  repeat (apply safe_if; intros ?); bool_hyps; try (apply safe_ret, I);
    (apply (safe_bind (fun _ => True)); [apply safe_put_config; lia|intros _ _; exact Hc]).
Qed.

End Safe.

(** ** The registers *)

Lemma in_u32_0 : in_u 32 0. Proof. unfold in_u. lia. Qed.

Section Registers.
Context {D : Type} `{VirtioDevice D} (garbage : nat -> Z) (fuel : nat).

Definition is_true (A : Type) : A -> Prop := fun _ => True.

Lemma wf_low32 q a val : in_u 64 a -> in_u 32 val -> queue_wf q -> in_u 64 (set_low32 a val).
Proof. intros Ha Hv _. apply in_u_lor; [apply in_u_ldiff, Ha|apply (in_u_weaken 32); [lia|exact Hv]]. Qed.

Lemma wf_high32 a val : in_u 64 (set_high32 a val).
Proof.
  apply in_u_lor; [apply (in_u_weaken 32); [lia|]; apply in_u_land_r; unfold in_u; lia|apply u_range; lia].
Qed.

Lemma safe_ring_addr desc avail used offset val f : in_u 32 val -> write_ring_addr desc avail used offset val = Some f -> @safe D unit (fun _ => True) f.
Proof.
  intros Hv E. unfold write_ring_addr in E.
  repeat match type of E with (if ?b then _ else _) = _ => destruct b end; try discriminate; injection E as <-;
    (apply safe_mod_sel; intros q W; assert (W' := W); destruct W'; split; cbn; try assumption; (eapply wf_low32; eassumption) || apply wf_high32).
Qed.

Lemma safe_ring_match desc avail used offset val : in_u 32 val ->
  @safe D unit (fun _ => True) (match write_ring_addr desc avail used offset val with Some f => f | None => vret tt end).
Proof.
  intros Hv. destruct (write_ring_addr desc avail used offset val) as [f|] eqn:E; [eapply safe_ring_addr; eassumption|apply safe_ret, I].
Qed.

Lemma wf_reset d : dev_wf d -> dev_wf (virtio_reset d).
Proof.
  intros []. split; cbn; try assumption; try (unfold in_u, MAX_QUEUE; lia).
  - rewrite length_map. assumption.
  - apply List.Forall_map. eapply List.Forall_impl; [|eassumption]. intros q Hq. cbn. destruct Hq.
    split; cbn; try (unfold in_u, MAX_QUEUE_NUM; lia). split; [unfold in_u, MAX_QUEUE_NUM; lia|]. split; [reflexivity|unfold MAX_QUEUE_NUM; lia].
Qed.

Lemma safe_status val : in_u 32 val -> @safe D unit (fun _ => True) (write_status val).
Proof.
  intros Hv. apply (safe_bind (fun _ => True)); [apply safe_mod_dev; intros d []; split; assumption|intros _ _].
  apply safe_if; intros _; [|apply safe_ret, I]. apply (safe_bind (fun _ => True)); [apply safe_set_irq|intros _ _].
  apply safe_mod_dev, wf_reset.
Qed.

Lemma safe_queue_num val : in_u 32 val -> @safe D unit (fun _ => True) (write_queue_num val).
Proof.
  intros Hv. apply safe_if; intros E; [|apply safe_ret, I]. bool_hyps.
  apply safe_mod_sel. intros q []. split; cbn; try assumption. split; [exact Hv|]. split; assumption.
Qed.

Lemma safe_queue_sel val : in_u 32 val -> @safe D unit (fun _ => True) (write_queue_sel val).
Proof.
  intros Hv. apply safe_if; intros E; [|apply safe_ret, I]. bool_hyps. apply safe_mod_dev. intros d []. split; try assumption.
  cbn. unfold in_u in Hv. lia.
Qed.

Lemma safe_ready val : @safe D unit (fun _ => True) (mod_sel_queue (set_ready (val .& 1))).
Proof.
  apply safe_mod_sel. intros q []. split; cbn; try assumption. apply in_u_land_r. unfold in_u. lia.
Qed.

Lemma safe_features_sel val : in_u 32 val -> @safe D unit (fun _ => True) (vmod_dev (set_device_features_sel val)).
Proof. intros Hv. apply safe_mod_dev. intros d []. split; assumption. Qed.

Lemma safe_features : @safe D Z (in_u 32) read_device_features.
Proof.
  apply (safe_bind dev_wf); [intros s W; exists s, (vdev s); split; [reflexivity|split; [exact W|exact (proj1 W)]]|].
  intros d W. apply safe_ret. destruct (vw_feat _ W) as [Hf _]. destruct (_ =? 0); [exact Hf|]. destruct (_ =? 1); unfold in_u; lia.
Qed.

Ltac reg_read :=
  first [ apply safe_features
        | apply safe_field; let W := fresh in intros ? W; destruct W; (assumption || (unfold MAX_QUEUE, in_u in *; lia) || tauto)
        | apply safe_sel_queue; let W := fresh in intros ? W; destruct W; (assumption || tauto || (apply u_range; lia))
        | apply safe_ret; unfold in_u, MAX_QUEUE_NUM; lia ].

Lemma safe_mmio_read offset size_log2 : 0 <= offset -> 0 <= size_log2 <= 2 -> @safe D Z (in_u 32) (virtio_mmio_read offset size_log2).
Proof.
  intros Ho Hs. unfold virtio_mmio_read. apply safe_if; intros E; [apply safe_config_read; [bool_hyps; unfold VIRTIO_MMIO_CONFIG in *; lia|exact Hs]|].
  apply safe_if; intros _; [|reg_read]. repeat (apply safe_if; intros _; [reg_read|]). reg_read.
Qed.

Lemma safe_pci_read offset size_log2 : 0 <= offset -> 0 <= size_log2 <= 2 -> @safe D Z (in_u 32) (virtio_pci_read offset size_log2).
Proof.
  intros Ho Hs. unfold virtio_pci_read. cbv zeta. apply safe_if; intros _.
  - apply safe_if; intros _; [repeat (apply safe_if; intros _; [reg_read|]); reg_read|].
    apply safe_if; intros _; [repeat (apply safe_if; intros _; [reg_read|]); reg_read|]. apply safe_if; intros _; reg_read.
  - apply safe_if; intros _.
    + apply safe_if; intros _; [|reg_read]. apply (safe_bind (in_u 32)); [reg_read|]. intros v Hv.
      apply (safe_bind (fun _ => True)); [apply safe_mod_dev; intros d []; split; try assumption; apply in_u32_0|intros _ _].
      apply (safe_bind (fun _ => True)); [apply safe_set_irq|intros _ _]. apply safe_ret, Hv.
    + apply safe_if; intros _; [|reg_read]. apply safe_config_read; [|exact Hs]. apply Z.land_nonneg. lia.
Qed.

Hypothesis callback_safe : @safe D unit (fun _ => True) run_config_write.

Lemma safe_mmio_write offset val size_log2 : 0 <= offset -> in_u 32 val -> offset <> VIRTIO_MMIO_QUEUE_NOTIFY ->
  safe (fun _ => True) (virtio_mmio_write garbage fuel offset val size_log2).
Proof.
  intros Ho Hv Hn. unfold virtio_mmio_write. apply safe_if; intros E.
  { apply safe_config_write; [exact callback_safe|bool_hyps; unfold VIRTIO_MMIO_CONFIG in *; lia]. }
  apply safe_if; intros _; [|apply safe_ret, I].
  apply safe_if; intros _; [apply safe_features_sel, Hv|]. apply safe_if; intros _; [apply safe_queue_sel, Hv|].
  apply safe_if; intros _; [apply safe_queue_num, Hv|]. apply safe_if; intros _; [apply safe_status, Hv|].
  apply safe_if; intros _; [apply safe_ready|]. apply safe_if; intros E2; [bool_hyps; contradiction|].
  apply safe_if; intros _; [|apply safe_ring_match, Hv].
  apply (safe_bind (fun _ => True)); [apply safe_mod_dev; intros d []; split; try assumption; apply in_u_ldiff; assumption|intros _ _].
  apply (safe_bind (fun _ => True)); [apply safe_field; auto|intros v _]. apply safe_if; intros _; [apply safe_set_irq|apply safe_ret, I].
Qed.

Lemma safe_pci_write offset val size_log2 : 0 <= offset -> in_u 32 val -> offset >> 12 <> VIRTIO_PCI_NOTIFY_OFFSET >> 12 ->
  safe (fun _ => True) (virtio_pci_write garbage fuel offset val size_log2).
Proof.
  intros Ho Hv Hn. unfold virtio_pci_write. cbv zeta. apply safe_if; intros _.
  - apply safe_if; intros _; [apply safe_if; intros _; [apply safe_features_sel, Hv|apply safe_ring_match, Hv]|].
    apply safe_if; intros _.
    + apply safe_if; intros _; [apply safe_queue_sel, Hv|]. apply safe_if; intros _; [apply safe_queue_num, Hv|].
      apply safe_if; intros _; [apply safe_ready|apply safe_ret, I].
    + apply safe_if; intros _; [apply safe_status, Hv|apply safe_ret, I].
  - apply safe_if; intros _; [apply safe_config_write; [exact callback_safe|apply Z.land_nonneg; lia]|].
    apply safe_if; intros E; [bool_hyps; contradiction|apply safe_ret, I].
Qed.

End Registers.

(** ** Sequences of accesses *)

Inductive reg_access :=
| MmioRead (offset size_log2 : Z)
| MmioWrite (offset val size_log2 : Z)
| PciRead (offset size_log2 : Z)
| PciWrite (offset val size_log2 : Z).

(** An access a driver can make (the memory system passes sizes of at most 32
    bits) that does not notify a queue. *)
Definition plain_reg_access (a : reg_access) : Prop :=
  match a with
  | MmioRead offset size_log2 | PciRead offset size_log2 => 0 <= offset /\ 0 <= size_log2 <= 2
  | MmioWrite offset val _ => 0 <= offset /\ in_u 32 val /\ offset <> VIRTIO_MMIO_QUEUE_NOTIFY
  | PciWrite offset val _ => 0 <= offset /\ in_u 32 val /\ offset >> 12 <> VIRTIO_PCI_NOTIFY_OFFSET >> 12
  end.

Section Runs.
Context {D : Type} `{VirtioDevice D} (garbage : nat -> Z) (fuel : nat).
Open Scope v_scope.

Definition run_access (a : reg_access) : VM D Z :=
  match a with
  | MmioRead offset size_log2 => virtio_mmio_read offset size_log2
  | PciRead offset size_log2 => virtio_pci_read offset size_log2
  | MmioWrite offset val size_log2 => virtio_mmio_write garbage fuel offset val size_log2 ;; vret 0
  | PciWrite offset val size_log2 => virtio_pci_write garbage fuel offset val size_log2 ;; vret 0
  end.

Fixpoint run_accesses (l : list reg_access) : VM D (list Z) :=
  match l with
  | [] => vret []
  | a :: l => let* v := run_access a in let* vs := run_accesses l in vret (v :: vs)
  end.

(** C35. Over any sequence of MMIO and PCI register accesses that does not notify
    a queue, every access returns, reads give 32-bit values, and the device
    stays well formed: the selected queue is one of the eight, ring sizes stay
    powers of two, ring addresses 64-bit, and no access leaves the queue array
    or the configuration space. *)
Theorem register_accesses_safe (l : list reg_access) : safe (fun _ => True) (@run_config_write D _) -> Forall plain_reg_access l ->
  safe (Forall (in_u 32)) (run_accesses l).
Proof.
  intros Hc Hl. induction Hl as [|a l Ha _ IH]; [apply safe_ret, List.Forall_nil|]. cbn [run_accesses].
  apply (safe_bind (in_u 32)).
  - destruct a; cbn [run_access plain_reg_access] in *.
    + apply safe_mmio_read; tauto.
    + apply (safe_bind (fun _ => True)); [apply safe_mmio_write; tauto|intros _ _; apply safe_ret, in_u32_0].
    + apply safe_pci_read; tauto.
    + apply (safe_bind (fun _ => True)); [apply safe_pci_write; tauto|intros _ _; apply safe_ret, in_u32_0].
  - intros v Hv. apply (safe_bind (Forall (in_u 32))); [exact IH|]. intros vs Hvs. apply safe_ret, List.Forall_cons; assumption.
Qed.

(** ** Programming a queue *)

(** What a driver writes to set up queue [i]. *)
Definition program_queue (i num desc avail used : Z) : list reg_access :=
  [MmioWrite VIRTIO_MMIO_QUEUE_SEL i 2; MmioWrite VIRTIO_MMIO_QUEUE_NUM num 2;
   MmioWrite VIRTIO_MMIO_QUEUE_DESC_LOW (u32 desc) 2; MmioWrite VIRTIO_MMIO_QUEUE_DESC_HIGH (desc >> 32) 2;
   MmioWrite VIRTIO_MMIO_QUEUE_AVAIL_LOW (u32 avail) 2; MmioWrite VIRTIO_MMIO_QUEUE_AVAIL_HIGH (avail >> 32) 2;
   MmioWrite VIRTIO_MMIO_QUEUE_USED_LOW (u32 used) 2; MmioWrite VIRTIO_MMIO_QUEUE_USED_HIGH (used >> 32) 2;
   MmioWrite VIRTIO_MMIO_QUEUE_READY 1 2].

Lemma low_then_high a v : in_u 64 a -> in_u 64 v -> set_high32 (set_low32 a (u32 v)) (v >> 32) = v.
Proof.
  intros Ha Hv. apply Z.bits_inj'. intros n Hn. unfold set_high32, set_low32.
  rewrite Z.lor_spec, Z.land_spec, Z.lor_spec, Z.ldiff_spec, !u_testbit by lia. change 0xffffffff with (Z.ones 32).
  apply in_u_testbit in Hv; [|lia]. destruct Hv as [_ Hv]. destruct (Z.ltb_spec n 32) as [H1|H1].
  - rewrite Z.ones_spec_low by lia. rewrite Z.shiftl_spec_low by lia. cbn [negb andb]. btauto.
  - rewrite Z.ones_spec_high by lia. rewrite Z.shiftl_spec, Z.shiftr_spec by lia. replace (n - 32 + 32) with n by lia.
    destruct (Z.ltb_spec n 64); [btauto|]. rewrite (Hv n) by lia. btauto.
Qed.

(** Queue [i] is selected and is [q]; the rest of the device is that of [s0]. *)
Record programming (s0 : VS D) (i : Z) (q : QueueState) (s : VS D) : Prop := {
  pg_sel : queue_sel (vdev s) = i;
  pg_queue : queue (vdev s) !! Z.to_nat i = Some q;
  pg_others : forall j, j <> Z.to_nat i -> queue (vdev s) !! j = queue (vdev s0) !! j;
  pg_rest : vmach s = vmach s0 /\ vown s = vown s0
}.

Lemma programming_step s0 i q s f : 0 <= i -> programming s0 i q s ->
  exists s1, mod_sel_queue f s = (s1, inl tt) /\ programming s0 i (f q) s1.
Proof.
  intros Hi [P1 P2 P3 [P4 P5]]. destruct (mod_queue_spec s i q f Hi P2) as (s1 & E & M & O & V & L). exists s1.
  split; [unfold mod_sel_queue, vbind, vgets; rewrite P1; exact E|]. split; [rewrite V; exact P1|exact L| |split; congruence].
  intros j Hj. rewrite V. cbn. unfold aset. rewrite list_lookup_insert_ne by congruence. apply P3, Hj.
Qed.

(** A register write that updates the selected queue, in front of other accesses. *)
Lemma programming_access s0 i q s offset val f l : 0 <= i -> programming s0 i q s ->
  virtio_mmio_write garbage fuel offset val 2 = mod_sel_queue f ->
  exists s1, programming s0 i (f q) s1 /\ run_accesses (MmioWrite offset val 2 :: l) s =
    match run_accesses l s1 with (s', inl vs) => (s', inl (0 :: vs)) | (s', inr e) => (s', inr e) end.
Proof.
  intros Hi P E. destruct (programming_step s0 i q s f Hi P) as (s1 & E1 & P1). exists s1. split; [exact P1|].
  cbn [run_accesses run_access]. rewrite E. unfold vbind. rewrite E1. reflexivity.
Qed.

(** The nine writes with which a driver sets up queue [i] leave that queue
    ready with exactly the ring size and the three 64-bit ring addresses
    written, and no other queue, no guest memory and no device state changed. *)
Theorem queue_programmed (i num desc avail used : Z) (q : QueueState) (s : VS D) :
  0 <= i < MAX_QUEUE -> queue (vdev s) !! Z.to_nat i = Some q -> queue_wf q ->
  in_u 32 num -> (num .& u32 (num - 1)) = 0 -> 0 < num -> in_u 64 desc -> in_u 64 avail -> in_u 64 used ->
  exists s' vs, run_accesses (program_queue i num desc avail used) s = (s', inl vs) /\
    programming s i (mkQueue 1 num (q_last_avail_idx q) desc avail used (q_manual_recv q)) s'.
Proof.
  intros Hi Hq [W1 W2 W3 W4 W5 W6] Hn Hp Hpos Hd Ha Hu. unfold MAX_QUEUE in Hi. unfold program_queue.
  set (s1 := mkVS (set_queue_sel i (vdev s)) (vmach s) (vown s)).
  assert (P : programming s i q s1) by (split; [reflexivity|exact Hq|reflexivity|split; reflexivity]).
  assert (E0 : forall l, run_accesses (MmioWrite VIRTIO_MMIO_QUEUE_SEL i 2 :: l) s =
    match run_accesses l s1 with (s', inl vs) => (s', inl (0 :: vs)) | (s', inr e) => (s', inr e) end).
  { intros l. cbn [run_accesses run_access]. unfold vbind at 1 2. change (virtio_mmio_write garbage fuel VIRTIO_MMIO_QUEUE_SEL i 2) with (@write_queue_sel D i).
    unfold write_queue_sel, MAX_QUEUE. destruct (Z.ltb_spec i 8); [|lia]. reflexivity. }
  rewrite E0. clear E0. clearbody s1.
  assert (En : virtio_mmio_write garbage fuel VIRTIO_MMIO_QUEUE_NUM num 2 = mod_sel_queue (set_num num)).
  { change (virtio_mmio_write garbage fuel VIRTIO_MMIO_QUEUE_NUM num 2) with (@write_queue_num D num). unfold write_queue_num.
    rewrite Hp. destruct (Z.ltb_spec 0 num); [reflexivity|lia]. }
  destruct (programming_access _ _ _ _ _ _ _ [MmioWrite VIRTIO_MMIO_QUEUE_DESC_LOW (u32 desc) 2; MmioWrite VIRTIO_MMIO_QUEUE_DESC_HIGH (desc >> 32) 2;
    MmioWrite VIRTIO_MMIO_QUEUE_AVAIL_LOW (u32 avail) 2; MmioWrite VIRTIO_MMIO_QUEUE_AVAIL_HIGH (avail >> 32) 2;
    MmioWrite VIRTIO_MMIO_QUEUE_USED_LOW (u32 used) 2; MmioWrite VIRTIO_MMIO_QUEUE_USED_HIGH (used >> 32) 2;
    MmioWrite VIRTIO_MMIO_QUEUE_READY 1 2] (proj1 Hi) P En) as (s2 & P2 & ->). clear P En s1.
  repeat match goal with
  | P : programming _ _ _ ?t |- context [run_accesses (MmioWrite ?o ?v 2 :: ?l) ?t] =>
      let s' := fresh "s" in let P' := fresh "P" in
      destruct (programming_access _ _ _ _ o v _ l (proj1 Hi) P eq_refl) as (s' & P' & ->); clear P t
  end.
  cbn [run_accesses]. unfold vret. eexists _, _. split; [reflexivity|].
  match goal with P : programming _ _ ?q1 ?t |- programming _ _ ?q2 ?t => replace q2 with q1; [exact P|] end.
  cbn. rewrite !low_then_high by assumption. reflexivity.
Qed.

End Runs.

(** ** The devices of the machine *)

Lemma wf_fresh_queue q : queue_wf (reset_queue q).
Proof.
  split; cbn; try (unfold in_u, MAX_QUEUE_NUM; lia). split; [unfold in_u, MAX_QUEUE_NUM; lia|]. split; [reflexivity|unfold MAX_QUEUE_NUM; lia].
Qed.

Lemma wf_virtio_init irq id size : 0 <= irq < 32 -> in_u 32 id -> 4 <= size <= 256 -> dev_wf (virtio_init irq id size).
Proof.
  intros Hi Hd Hs. split; try (cbn; unfold in_u, MAX_QUEUE, MAX_CONFIG_SPACE_SIZE; lia).
  - cbn. split; [unfold in_u; lia|]. split; [exact Hd|unfold in_u; lia].
  - cbn [virtio_init virtio_reset queue set_queue]. apply List.Forall_map, List.Forall_forall. intros q _. apply wf_fresh_queue.
  - split; [reflexivity|]. apply List.Forall_forall. intros x Hx. apply repeat_spec in Hx. subst x. unfold in_u. lia.
Qed.

Definition config_bytes (l : list Z) : Prop := length l = 256%nat /\ Forall (in_u 8) l.

Lemma config_aset l i v : config_bytes l -> in_u 8 v -> config_bytes (aset l i v).
Proof. intros [L F] Hv. unfold aset. split; [rewrite length_insert; exact L|apply Forall_insert; assumption]. Qed.

Lemma config_copy_ok pos bytes l : config_bytes l -> Forall (in_u 8) bytes -> (pos + length bytes <= 256)%nat -> config_bytes (config_copy pos bytes l).
Proof.
  intros [L F] Hb Hp. split.
  - rewrite <- L. apply (splice_length l pos bytes). lia.
  - unfold config_copy. repeat (apply Forall_app; split); [apply Forall_take, F|exact Hb|apply Forall_drop, F].
Qed.

Lemma config_bit_ok k l : config_bytes l -> config_bytes (config_set_bit k l).
Proof. intros H. apply config_aset; [exact H|apply u_range; lia]. Qed.

Lemma config_bits_ok ks : forall l, config_bytes l -> config_bytes (fold_left (fun c k => config_set_bit k c) ks l).
Proof. induction ks as [|k ks IH]; intros l Hl; [exact Hl|]. cbn [fold_left]. apply IH, config_bit_ok, Hl. Qed.

Lemma byte_check l : forallb (fun b => (0 <=? b) && (b <? 256)) l = true -> Forall (in_u 8) l.
Proof. intros H. rewrite forallb_forall in H. apply List.Forall_forall. intros x Hx. specialize (H x Hx). bool_hyps. unfold in_u. lia. Qed.

Ltac config_tac :=
  repeat first [ assumption | apply config_bits_ok | apply config_bit_ok | (apply config_aset; [|unfold in_u; cbn; lia])
               | (apply config_copy_ok; [|apply byte_check; reflexivity|cbn; lia]) | case_goal ].

Lemma input_config_ok type l : config_bytes l -> config_bytes (input_config type l).
Proof.
  intros H. unfold input_config, input_ev_bits, button_bits, rel_bits. cbv zeta. destruct type; config_tac.
Qed.

(** The callback of the input device, and those of the devices that have none. *)
Lemma input_callback_safe : safe (fun _ => True) (@run_config_write _ input_device).
Proof.
  intros s [W Hc]. eexists _, tt. split; [reflexivity|]. split; [|exact I]. split; [|exact Hc]. destruct W. split; try assumption.
  cbn. apply input_config_ok. assumption.
Qed.

(** A keyboard whose name is read, and whose event queue is then set up. *)
Definition demo_keyboard : VS VIRTIOInput := virtio_input_init 3 VIRTIO_INPUT_TYPE_KEYBOARD demo_guest.

Lemma demo_keyboard_wf : vs_wf demo_keyboard.
Proof.
  split; [|reflexivity]. pose proof (wf_virtio_init 3 18 256 ltac:(lia) ltac:(unfold in_u; lia) ltac:(lia)) as W.
  destruct W as [W1 W2 W3 W4 W5 W6 W7 W8 W9 W10].
  split; [exact W1|exact W2|exact W3|exact W4|cbn; unfold in_u; lia|exact W6|reflexivity| |exact W9|exact W10].
  apply List.Forall_forall. intros q Hq. cbn in Hq. destruct Hq as [<-|Hq]; [|].
  - apply (wf_fresh_queue (mkQueue 0 0 0 0 0 0 true)).
  - repeat (destruct Hq as [<-|Hq]; [apply (wf_fresh_queue (mkQueue 0 0 0 0 0 0 false))|]). contradiction.
Qed.

Definition demo_accesses : list reg_access :=
  [MmioRead VIRTIO_MMIO_DEVICE_ID 2; MmioWrite VIRTIO_MMIO_CONFIG 1 0; MmioRead (VIRTIO_MMIO_CONFIG + 2) 0;
   MmioRead (VIRTIO_MMIO_CONFIG + 8) 2; MmioRead (VIRTIO_MMIO_CONFIG + 255) 2; PciRead 0x1000 0].

Lemma register_accesses_safe_witness : exists s' vs,
  run_accesses (fun _ => 0) 8 demo_accesses demo_keyboard = (s', inl vs) /\ vs_wf s' /\ Forall (in_u 32) vs.
Proof.
  apply (register_accesses_safe (fun _ => 0) 8 demo_accesses).
  - exact input_callback_safe.
  - unfold demo_accesses. repeat (apply List.Forall_cons; [cbv -[Z.le Z.lt Z.pow]; lia|]). apply List.Forall_nil.
  - exact demo_keyboard_wf.
Defined.

Lemma queue_programmed_witness : exists s' vs,
  run_accesses (fun _ => 0) 8 (program_queue 1 4 0x80000000 0x80000040 0x180000080) demo_keyboard = (s', inl vs) /\
  queue (vdev s') !! 1%nat = Some (mkQueue 1 4 0 0x80000000 0x80000040 0x180000080 false).
Proof.
  destruct (queue_programmed (fun _ => 0) 8 1 4 0x80000000 0x80000040 0x180000080 (reset_queue (mkQueue 0 0 0 0 0 0 false)) demo_keyboard)
    as (s' & vs & E & P).
  - unfold MAX_QUEUE. lia.
  - reflexivity.
  - apply wf_fresh_queue.
  - unfold in_u. lia.
  - reflexivity.
  - lia.
  - unfold in_u. lia.
  - unfold in_u. lia.
  - unfold in_u. lia.
  - exists s', vs. split; [exact E|]. exact (pg_queue _ _ _ _ P).
Defined.
