(* ===== verification/Uart.v ===== *)
(** * The UARTs and the console

    The console of [src/term_io.cpp], the SiFive UART of [src/uart.cpp] and the
    two DesignWare UARTs of [src/dw_apb_uart.cpp].  All three share the console,
    as [virt_machine_init] of [src/riscv_machine.cpp] wires them, and the
    DesignWare UARTs drive lines of the PLIC.

    The standard input is the list of what successive reads of one byte find:
    [Some b], or [None] when nothing has arrived and the descriptor, which is
    non-blocking, has nothing to give; the end of the list is the end of the
    file.  The output is the list of the bytes written. *)

From S2P Require Import Prelude RiscvDefs State IoMem Tlb Pmp Mmu Csr Trap Alu HartInv Frame Devices.
Open Scope Z_scope.
Open Scope c_scope.

(** ** The console *)

Record STDIODevice := mkStdio {
  stdin : list (option Z);
  out : list Z;
  console_esc_state : Z
}.

(** How an operation ends other than by returning: [exit(0)], a failing
    [assert], undefined behaviour. *)
Inductive ustop := UExit | UAssert | UUndefined.

(** [fread (buf, n, 1, stdin)]: the bytes stored, the rest of the input and
    whether the one item of [n] bytes is complete. *)
Fixpoint fread_item (n : nat) (l : list (option Z)) : list Z * list (option Z) * bool :=
  match n, l with
  | O, _ => ([], l, true)
  | S n', Some b :: l' => let '(got, rest, ok) := fread_item n' l' in (b :: got, rest, ok)
  | S _, None :: l' => ([], l', false)
  | S _, [] => ([], [], false)
  end.

(** The loop over the bytes read: the characters kept and the escape state;
    [None] is [exit(0)]. *)
Fixpoint console_loop (chs : list Z) (esc : Z) : option (list Z * Z) :=
  match chs with
  | [] => Some ([], esc)
  | ch :: chs' =>
      let keep (r : option (list Z * Z)) := match r with Some (l, e) => Some (ch :: l, e) | None => None end in
      if nz esc then
        if ch =? 120 then None
        else if ch =? 104 then console_loop chs' 0
        else if ch =? 1 then keep (console_loop chs' 0)
        else console_loop chs' 0
      else if ch =? 2 then console_loop chs' 1
      else keep (console_loop chs' esc)
  end.

(** [overlay l buf]: the bytes of [l] stored at the front of [buf]. *)
Definition overlay (l buf : list Z) : list Z := l ++ skipn (length l) buf.

Definition console_write (s : STDIODevice) (buf : list Z) : STDIODevice :=
  mkStdio (stdin s) (out s ++ buf) (console_esc_state s).

(** [console_read (s, buf, len)]: the device, the buffer and the result. *)
Definition console_read (s : STDIODevice) (buf : list Z) (len : Z) : STDIODevice * ((list Z * Z) + ustop) :=
  if len <=? 0 then (s, inl (buf, 0))
  else
    let '(got, rest, complete) := fread_item (Z.to_nat len) (stdin s) in
    let buf := overlay got buf in
    if negb complete then (mkStdio rest (out s) (console_esc_state s), inl (buf, 0))
    else
      (* one item has been read: the loop runs over buf[0] *)
      match console_loop (firstn 1 buf) (console_esc_state s) with
      | None => (mkStdio rest (out s) 0, inr UExit)
      | Some (kept, esc) => (mkStdio rest (out s) esc, inl (overlay kept buf, Z.of_nat (length kept)))
      end.

(** ** The SiFive UART *)

Module Sifive.

Definition SIFIVE_UART_TXFIFO := 0.
Definition SIFIVE_UART_RXFIFO := 4.
Definition SIFIVE_UART_TXCTRL := 8.
Definition SIFIVE_UART_RXCTRL := 12.
Definition SIFIVE_UART_IE := 16.
Definition SIFIVE_UART_IP := 20.
Definition SIFIVE_UART_DIV := 24.
Definition SIFIVE_UART_IP_RXWM := 2.

Record SiFiveUARTState := mkSifive {
  s_irq : Z;
  rx_fifo_len : Z;
  ie : Z;
  txctrl : Z;
  rxctrl : Z;
  div : Z
}.

(** [calloc] and the line of [virt_machine_init]. *)
Definition sifive_init : SiFiveUARTState := mkSifive 3 0 0 0 0 0.

(** [uart_read]: the console is read through, the UART itself is not changed. *)
Definition uart_read (s : SiFiveUARTState) (cs : STDIODevice) (offset : Z) : STDIODevice * (Z + ustop) :=
  if offset =? SIFIVE_UART_RXFIFO then
    match console_read cs [0] 1 with
    | (cs', inl (r, ret)) => (cs', inl (if nz ret then hd 0 r else 0x80000000))
    | (cs', inr e) => (cs', inr e)
    end
  else if offset =? SIFIVE_UART_TXFIFO then (cs, inl 0)
  else if offset =? SIFIVE_UART_IE then (cs, inl (ie s))
  else if offset =? SIFIVE_UART_IP then (cs, inl (if nz (rx_fifo_len s) then SIFIVE_UART_IP_RXWM else 0))
  else if offset =? SIFIVE_UART_TXCTRL then (cs, inl (txctrl s))
  else if offset =? SIFIVE_UART_RXCTRL then (cs, inl (rxctrl s))
  else if offset =? SIFIVE_UART_DIV then (cs, inl (div s))
  else (cs, inl 0).

(** [uart_write]; [uart_update_irq] only prints a message. *)
Definition uart_write (s : SiFiveUARTState) (cs : STDIODevice) (offset val : Z) : SiFiveUARTState * STDIODevice :=
  if offset =? SIFIVE_UART_TXFIFO then (s, console_write cs [u8 val])
  else if offset =? SIFIVE_UART_IE then (mkSifive (s_irq s) (rx_fifo_len s) val (txctrl s) (rxctrl s) (div s), cs)
  else if offset =? SIFIVE_UART_TXCTRL then (mkSifive (s_irq s) (rx_fifo_len s) (ie s) val (rxctrl s) (div s), cs)
  else if offset =? SIFIVE_UART_RXCTRL then (mkSifive (s_irq s) (rx_fifo_len s) (ie s) (txctrl s) val (div s), cs)
  else if offset =? SIFIVE_UART_DIV then (mkSifive (s_irq s) (rx_fifo_len s) (ie s) (txctrl s) (rxctrl s) val, cs)
  else (s, cs).

End Sifive.
Import Sifive.

(** ** The DesignWare UART *)

(** [DW_apb_uart_state] without the pointer to the console and the fields no
    code touches; the interrupt line is its number at the PLIC. *)
Record DW_apb_uart_state := mkDw {
  dw_irq : Z;
  last_irq_level : Z;
  div_latch : Z;
  rhr : Z;
  ier : Z;
  isr : Z;
  lcr : Z;
  mcr : Z;
  lsr : Z;
  msr : Z;
  spr : Z
}.

Definition set_last_irq_level v s := mkDw (dw_irq s) v (div_latch s) (rhr s) (ier s) (isr s) (lcr s) (mcr s) (lsr s) (msr s) (spr s).
Definition set_div_latch v s := mkDw (dw_irq s) (last_irq_level s) v (rhr s) (ier s) (isr s) (lcr s) (mcr s) (lsr s) (msr s) (spr s).
Definition set_rhr v s := mkDw (dw_irq s) (last_irq_level s) (div_latch s) v (ier s) (isr s) (lcr s) (mcr s) (lsr s) (msr s) (spr s).
Definition set_ier v s := mkDw (dw_irq s) (last_irq_level s) (div_latch s) (rhr s) v (isr s) (lcr s) (mcr s) (lsr s) (msr s) (spr s).
Definition set_isr v s := mkDw (dw_irq s) (last_irq_level s) (div_latch s) (rhr s) (ier s) v (lcr s) (mcr s) (lsr s) (msr s) (spr s).
Definition set_lcr v s := mkDw (dw_irq s) (last_irq_level s) (div_latch s) (rhr s) (ier s) (isr s) v (mcr s) (lsr s) (msr s) (spr s).
Definition set_mcr v s := mkDw (dw_irq s) (last_irq_level s) (div_latch s) (rhr s) (ier s) (isr s) (lcr s) v (lsr s) (msr s) (spr s).
Definition set_lsr v s := mkDw (dw_irq s) (last_irq_level s) (div_latch s) (rhr s) (ier s) (isr s) (lcr s) (mcr s) v (msr s) (spr s).
Definition set_msr v s := mkDw (dw_irq s) (last_irq_level s) (div_latch s) (rhr s) (ier s) (isr s) (lcr s) (mcr s) (lsr s) v (spr s).
Definition set_spr v s := mkDw (dw_irq s) (last_irq_level s) (div_latch s) (rhr s) (ier s) (isr s) (lcr s) (mcr s) (lsr s) (msr s) v.

Definition DW_APB_UART0_IRQ := 3.
Definition DW_APB_UART1_IRQ := 15.

(** [calloc] and the line of [virt_machine_init]. *)
Definition dw_apb_uart_init (irq : Z) : DW_apb_uart_state := mkDw irq 0 0 0 0 0 0 0 0 0 0.

(** *** The monad of the DesignWare UART: its registers, the console, the
    machine whose PLIC it drives. *)

Record US := mkUS { uart : DW_apb_uart_state; console : STDIODevice; umach : RISCVMachine }.

Definition UM (A : Type) : Type := US -> US * (A + ustop).

Definition uret {A} (a : A) : UM A := fun s => (s, inl a).
Definition ubind {A B} (m : UM A) (k : A -> UM B) : UM B := fun s =>
  match m s with (s', inl a) => k a s' | (s', inr e) => (s', inr e) end.
Definition ustopped {A} (e : ustop) : UM A := fun s => (s, inr e).
Definition ugets {A} (f : DW_apb_uart_state -> A) : UM A := fun s => (s, inl (f (uart s))).
Definition umod (f : DW_apb_uart_state -> DW_apb_uart_state) : UM unit := fun s =>
  (mkUS (f (uart s)) (console s) (umach s), inl tt).

Declare Scope u_scope.
Delimit Scope u_scope with u.
Notation "'let*' x ':=' m 'in' k" := (ubind m (fun x => k))
  (at level 10, x pattern, m at level 100, k at level 200) : u_scope.
Notation "m ;; k" := (ubind m (fun _ => k)) (at level 100, k at level 200, right associativity) : u_scope.
Open Scope u_scope.

(** [set_irq (s->irq, level)] *)
Definition uart_set_irq (irq level : Z) : UM unit := fun s =>
  match plic_set_irq (umach s) irq (nz level) with
  | (m, inl _) => (mkUS (uart s) (console s) m, inl tt)
  | (m, inr _) => (mkUS (uart s) (console s) m, inr UUndefined)
  end.

(** [cs->write_data (cs->opaque, &ch, 1)] *)
Definition uart_transmit (ch : Z) : UM unit := fun s =>
  (mkUS (uart s) (console_write (console s) [ch]) (umach s), inl tt).

(** [cs->read_data (cs->opaque, &s->rhr, 1)] *)
Definition uart_receive : UM Z := fun s =>
  match console_read (console s) [rhr (uart s)] 1 with
  | (cs, inl (buf, ret)) => (mkUS (set_rhr (hd 0 buf) (uart s)) cs (umach s), inl ret)
  | (cs, inr e) => (mkUS (uart s) cs (umach s), inr e)
  end.

(** The cause [update_isr] finds, in its order of priority. *)
Definition isr_nibble (s : DW_apb_uart_state) : Z :=
  if (ier s has 4) && (lsr s has 30) then 6
  else if (ier s has 1) && (lsr s has 1) then 4
  else if (ier s has 2) && (lsr s has 32) then 2
  else if (ier s has 8) && negb (msr s .& 15 =? 15) then 0
  else 1.

Definition update_isr : UM unit :=
  umod (fun s => set_isr (u8 ((isr s .& 0xF0) + isr_nibble s)) s) ;;
  let* i := ugets isr in
  let irq_level := Z.b2z (negb (i has 1)) in
  let* last := ugets last_irq_level in
  if negb (last =? irq_level) then
    umod (set_last_irq_level irq_level) ;;
    let* irq := ugets dw_irq in uart_set_irq irq irq_level
  else uret tt.

(** The divisor latch access bit. *)
Definition dlab (s : DW_apb_uart_state) : bool := lcr s has (1 << 7).

Definition read_rhr : UM Z :=
  let* d := ugets dlab in
  if d then ugets (fun s => div_latch s .& 255)
  else
    let* res := ugets rhr in
    umod (fun s => set_lsr (lsr s .&~ (1 << 0)) s) ;;
    umod (fun s => set_lsr (lsr s .&~ 30) s) ;;
    update_isr ;;
    uret res.

Definition dw_apb_uart_poll : UM unit :=
  let* l := ugets lsr in
  if negb (l has 1) then
    let* ret := uart_receive in
    umod (fun s => set_lsr (lsr s .| Z.b2z (nz ret)) s) ;;
    update_isr
  else uret tt.

Definition write_thr (val : Z) : UM unit :=
  let* d := ugets dlab in
  if d then umod (fun s => set_div_latch (u16 ((div_latch s .&~ 255) + val)) s)
  else uart_transmit val ;; dw_apb_uart_poll.

Definition read_ier : UM Z :=
  let* d := ugets dlab in
  if d then ugets (fun s => u8 (div_latch s >> 8)) else ugets ier.

Definition write_ier (val : Z) : UM unit :=
  let* d := ugets dlab in
  if d then umod (fun s => set_div_latch (u16 ((div_latch s .& 255) + val * 256)) s)
  else umod (set_ier (val .& 0xFF)) ;; update_isr.

Definition read_lsr : UM Z :=
  umod (fun s => set_lsr (lsr s .| ((1 << 6) .| (1 << 5))) s) ;;
  umod (fun s => set_lsr (lsr s .&~ ((1 << 1) .| (1 << 2) .| (1 << 3) .| (1 << 4) .| (1 << 7))) s) ;;
  dw_apb_uart_poll ;;
  update_isr ;;
  ugets lsr.

Definition read_msr : UM Z :=
  let* res := ugets msr in
  umod (fun s => set_msr (msr s .&~ 15) s) ;;
  update_isr ;;
  uret res.

(** The two [assert]s on the offset, and its register number. *)
Definition uart_reg (offset : Z) : UM Z :=
  if negb (offset mod 4 =? 0) then ustopped UAssert
  else if negb (offset <? 256) then ustopped UAssert
  else uret (offset / 4).

Definition dw_apb_uart_read (offset : Z) : UM Z :=
  let* r := uart_reg offset in
  if r =? 0 then read_rhr
  else if r =? 1 then read_ier
  else if r =? 2 then ugets isr
  else if r =? 3 then ugets lcr
  else if r =? 4 then ugets mcr
  else if r =? 5 then read_lsr
  else if r =? 6 then read_msr
  else if r =? 7 then ugets spr
  else uret 0.

Definition dw_apb_uart_write (offset val : Z) : UM unit :=
  let val := val .& 255 in
  let* r := uart_reg offset in
  if r =? 0 then write_thr val
  else if r =? 1 then write_ier val
  else if r =? 2 then uret tt
  else if r =? 3 then umod (set_lcr val)
  else if r =? 4 then umod (set_mcr val)
  else if r =? 7 then umod (set_spr val)
  else uret tt.

(** ** The three UARTs on one console *)

Record Uarts := mkUarts {
  sifive : SiFiveUARTState;
  dw0 : DW_apb_uart_state;
  dw1 : DW_apb_uart_state;
  u_console : STDIODevice;
  u_mach : RISCVMachine
}.

Inductive port := PSifive | PDw0 | PDw1.

#[export] Instance port_eq_dec : EqDecision port.
Proof. solve_decision. Defined.

Definition port_dw (u : Uarts) (p : port) : option DW_apb_uart_state :=
  match p with PSifive => None | PDw0 => Some (dw0 u) | PDw1 => Some (dw1 u) end.

(** The UARTs as [virt_machine_init] creates them. *)
Definition uarts_init (cs : STDIODevice) (m : RISCVMachine) : Uarts :=
  mkUarts sifive_init (dw_apb_uart_init DW_APB_UART0_IRQ) (dw_apb_uart_init DW_APB_UART1_IRQ) cs m.

(** Run an operation on a DesignWare UART. *)
Definition on_dw0 {A} (m : UM A) (u : Uarts) : Uarts * (A + ustop) :=
  let '(s, r) := m (mkUS (dw0 u) (u_console u) (u_mach u)) in
  (mkUarts (sifive u) (uart s) (dw1 u) (console s) (umach s), r).
Definition on_dw1 {A} (m : UM A) (u : Uarts) : Uarts * (A + ustop) :=
  let '(s, r) := m (mkUS (dw1 u) (u_console u) (u_mach u)) in
  (mkUarts (sifive u) (dw0 u) (uart s) (console s) (umach s), r).

(** An access of a guest to a UART. *)
Inductive uart_event :=
| EvRead (p : port) (offset : Z)
| EvWrite (p : port) (offset val : Z).

Definition uart_step (u : Uarts) (ev : uart_event) : Uarts * (Z + ustop) :=
  match ev with
  | EvRead PSifive o =>
      let '(cs, r) := uart_read (sifive u) (u_console u) o in
      (mkUarts (sifive u) (dw0 u) (dw1 u) cs (u_mach u), r)
  | EvRead PDw0 o => on_dw0 (dw_apb_uart_read o) u
  | EvRead PDw1 o => on_dw1 (dw_apb_uart_read o) u
  | EvWrite PSifive o v =>
      let '(s, cs) := uart_write (sifive u) (u_console u) o v in
      (mkUarts s (dw0 u) (dw1 u) cs (u_mach u), inl 0)
  | EvWrite PDw0 o v => on_dw0 (dw_apb_uart_write o v ;; uret 0) u
  | EvWrite PDw1 o v => on_dw1 (dw_apb_uart_write o v ;; uret 0) u
  end.

(** *** What the guest sees of the streams *)

(** The character an access hands to the guest: the receive register of the
    SiFive UART when its empty flag is clear, the holding register of a
    DesignWare UART when the line status announces one. *)
Definition received (u : Uarts) (ev : uart_event) (res : Z) : list Z :=
  match ev with
  | EvRead PSifive o => if (o =? SIFIVE_UART_RXFIFO) && negb (res =? 0x80000000) then [res] else []
  | EvRead p o =>
      match port_dw u p with
      | Some d => if (o =? 0) && negb (dlab d) && (lsr d has 1) then [res] else []
      | None => []
      end
  | EvWrite _ _ _ => []
  end.

(** The character an access transmits. *)
Definition transmitted (u : Uarts) (ev : uart_event) : list Z :=
  match ev with
  | EvRead _ _ => []
  | EvWrite PSifive o v => if o =? SIFIVE_UART_TXFIFO then [u8 v] else []
  | EvWrite p o v =>
      match port_dw u p with
      | Some d => if (o =? 0) && negb (dlab d) then [u8 v] else []
      | None => []
      end
  end.

Definition ev_port (ev : uart_event) : port :=
  match ev with EvRead p _ => p | EvWrite p _ _ => p end.

(** A run: the final state, the characters received with the port that
    delivered them, the characters transmitted; [None] when an access does not
    return. *)
Fixpoint uart_run (u : Uarts) (evs : list uart_event) : option (Uarts * list (port * Z) * list Z) :=
  match evs with
  | [] => Some (u, [], [])
  | ev :: evs' =>
      match uart_step u ev with
      | (u1, inl res) =>
          match uart_run u1 evs' with
          | Some (u', rx, tx) =>
              Some (u', map (pair (ev_port ev)) (received u ev res) ++ rx, transmitted u ev ++ tx)
          | None => None
          end
      | (_, inr _) => None
      end
  end.

(** The character a UART holds for the guest. *)
Definition held_char (d : DW_apb_uart_state) : list Z := if lsr d has 1 then [rhr d] else [].

Definition held (u : Uarts) (p : port) : list Z :=
  match port_dw u p with Some d => held_char d | None => [] end.

(** The characters of one port. *)
Definition of_port (p : port) (l : list (port * Z)) : list Z :=
  map snd (filter (fun x => x.1 = p) l).

(** The bytes that have arrived. *)
Definition arrived (l : list (option Z)) : list Z := omap id l.

(** The characters typed at the console that reach the guest: [C-b] starts an
    escape of two characters, of which [C-b C-a] alone stands for a
    character. *)
Fixpoint unescape (l : list Z) : list Z :=
  match l with
  | [] => []
  | c :: l' =>
      if c =? 2 then match l' with d :: l'' => if d =? 1 then 1 :: unescape l'' else unescape l'' | [] => [] end
      else c :: unescape l'
  end.

(** [C-b x] has been typed. *)
Fixpoint quits (l : list Z) : bool :=
  match l with
  | [] => false
  | c :: l' =>
      if c =? 2 then match l' with d :: l'' => (d =? 120) || quits l'' | [] => false end
      else quits l'
  end.

(** The part of an escape that has been read already. *)
Definition escaped (cs : STDIODevice) : list Z := if nz (console_esc_state cs) then [2] else [].

(** The condition under which a DesignWare UART asks for an interrupt: an
    enabled source is active. *)
Definition irq_condition (s : DW_apb_uart_state) : bool :=
  (ier s has 4) && (lsr s has 30) || (ier s has 1) && (lsr s has 1) ||
  (ier s has 2) && (lsr s has 32) || (ier s has 8) && negb (msr s .& 15 =? 15).

(** The offsets the DesignWare UARTs accept. *)
Definition offset_ok (ev : uart_event) : bool :=
  match ev with
  | EvRead PSifive _ | EvWrite PSifive _ _ => true
  | EvRead _ o | EvWrite _ o _ => (o mod 4 =? 0) && (0 <=? o) && (o <? 256)
  end.

(** ** The console *)

Lemma console_loop_app l1 : forall l2 esc,
  console_loop (l1 ++ l2) esc =
    match console_loop l1 esc with
    | Some (k1, e1) => match console_loop l2 e1 with Some (k2, e2) => Some (k1 ++ k2, e2) | None => None end
    | None => None
    end.
Proof.
  induction l1 as [|c l1 IH]; intros l2 esc.
  - cbn. destruct (console_loop l2 esc) as [[??]|]; reflexivity.
  - cbn [console_loop app]. repeat case_match; rewrite ?IH in *; simplify_eq; try reflexivity;
      repeat (case_match; simplify_eq; try reflexivity).
Qed.

(** The loop, one character at a time, computes [unescape]. *)
Lemma console_loop_unescape n : forall l, (length l <= n)%nat ->
  (forall k e, console_loop l 0 = Some (k, e) -> k = unescape l) /\
  (forall k e, console_loop l 1 = Some (k, e) -> k = unescape (2 :: l)) /\
  (console_loop l 0 = None <-> quits l = true) /\ (console_loop l 1 = None <-> quits (2 :: l) = true).
Proof.
  induction n as [|n IH]; intros [|c l] Hn; cbn in Hn; try lia.
  - cbn. repeat split; intros; simplify_eq; try reflexivity; discriminate.
  - cbn. repeat split; intros; simplify_eq; try reflexivity; discriminate.
  - destruct (IH l ltac:(lia)) as (H0 & H1 & Q0 & Q1). clear IH.
    assert (E0 : console_loop (c :: l) 0 = if c =? 2 then console_loop l 1 else
      match console_loop l 0 with Some (k, e) => Some (c :: k, e) | None => None end) by reflexivity.
    assert (E1 : console_loop (c :: l) 1 = if c =? 120 then None else if c =? 104 then console_loop l 0
      else if c =? 1 then match console_loop l 0 with Some (k, e) => Some (c :: k, e) | None => None end
      else console_loop l 0) by reflexivity.
    assert (U1 : unescape (2 :: c :: l) = if c =? 1 then 1 :: unescape l else unescape l) by reflexivity.
    assert (V1 : quits (2 :: c :: l) = (c =? 120) || quits l) by reflexivity.
    assert (U0 : unescape (c :: l) = if c =? 2 then unescape (2 :: l) else c :: unescape l)
      by (destruct (Z.eqb_spec c 2) as [->|]; [reflexivity|]; cbn; destruct (Z.eqb_spec c 2); [lia|reflexivity]).
    assert (V0 : quits (c :: l) = if c =? 2 then quits (2 :: l) else quits l)
      by (destruct (Z.eqb_spec c 2) as [->|]; [reflexivity|]; cbn; destruct (Z.eqb_spec c 2); [lia|reflexivity]).
    rewrite E0, E1, U0, U1, V0, V1. clear E0 E1 U0 U1 V0 V1. repeat split.
    + intros k e. destruct (c =? 2); [apply H1|].
      destruct (console_loop l 0) as [[k0 e0]|]; [|discriminate]. intros [= <- <-]. f_equal. eapply H0. reflexivity.
    + intros k e. destruct (Z.eqb_spec c 120); [discriminate|]. destruct (Z.eqb_spec c 104).
      { destruct (Z.eqb_spec c 1); [lia|]. apply H0. }
      destruct (Z.eqb_spec c 1) as [->|]; [|apply H0].
      destruct (console_loop l 0) as [[k0 e0]|]; [|discriminate]. intros [= <- <-]. f_equal. eapply H0. reflexivity.
    + destruct (c =? 2); [apply Q1|]. intros H. apply Q0. destruct (console_loop l 0) as [[??]|]; [discriminate|reflexivity].
    + destruct (c =? 2); [apply Q1|]. intros H. apply Q0 in H. rewrite H. reflexivity.
    + destruct (Z.eqb_spec c 120); [reflexivity|]. cbn [orb]. intros H. apply Q0.
      destruct (c =? 104), (c =? 1), (console_loop l 0) as [[??]|]; (reflexivity || discriminate).
    + destruct (Z.eqb_spec c 120); [reflexivity|]. cbn [orb]. intros H. apply Q0 in H. rewrite H.
      destruct (c =? 104), (c =? 1); reflexivity.
Qed.

(** The console between two moments: the input consumed is what was kept, and
    [tx] has been written. *)
Definition io (cs cs' : STDIODevice) (kept tx : list Z) : Prop :=
  exists consumed, stdin cs = consumed ++ stdin cs' /\
    console_loop (arrived consumed) (console_esc_state cs) = Some (kept, console_esc_state cs') /\
    out cs' = out cs ++ tx.

(** The input that is left consists of bytes and does not ask to quit. *)
Definition alive (cs : STDIODevice) : Prop :=
  (console_esc_state cs = 0 \/ console_esc_state cs = 1) /\ Forall (in_u 8) (arrived (stdin cs)) /\
  console_loop (arrived (stdin cs)) (console_esc_state cs) <> None.

Lemma arrived_app l1 l2 : arrived (l1 ++ l2) = arrived l1 ++ arrived l2.
Proof. apply omap_app. Qed.

Lemma io_refl cs : io cs cs [] [].
Proof. exists []. rewrite app_nil_r. auto. Qed.

Lemma io_trans cs1 cs2 cs3 k1 k2 t1 t2 : io cs1 cs2 k1 t1 -> io cs2 cs3 k2 t2 -> io cs1 cs3 (k1 ++ k2) (t1 ++ t2).
Proof.
  intros (c1 & A1 & B1 & O1) (c2 & A2 & B2 & O2). exists (c1 ++ c2). split; [rewrite A1, A2; apply app_assoc|].
  split; [|rewrite O2, O1; symmetry; apply app_assoc]. rewrite arrived_app, console_loop_app, B1, B2. reflexivity.
Qed.

Lemma console_esc_range l : forall esc k e, esc = 0 \/ esc = 1 -> console_loop l esc = Some (k, e) -> e = 0 \/ e = 1.
Proof.
  induction l as [|c l IH]; intros esc k e He; cbn; [intros [= <- <-]; exact He|].
  repeat case_match; intros; simplify_eq; eauto.
Qed.

Lemma io_alive cs cs' k t : io cs cs' k t -> alive cs -> alive cs'.
Proof.
  intros (c & A & B & O) (He & Hb & Hl). split; [eapply console_esc_range; eassumption|].
  rewrite A, arrived_app in Hb. apply Forall_app in Hb as [_ Hb]. split; [exact Hb|]. intros H. apply Hl. rewrite A, arrived_app, console_loop_app, B, H. reflexivity.
Qed.

Lemma console_read1 cs b : alive cs ->
  exists cs' b' ret kept, console_read cs [b] 1 = (cs', inl ([b'], ret)) /\ io cs cs' kept [] /\
    (ret = 0 /\ kept = [] \/ ret = 1 /\ kept = [b'] /\ in_u 8 b').
Proof.
  intros (He & Hb & Hl). unfold console_read. change (1 <=? 0) with false. cbv iota. change (Z.to_nat 1) with 1%nat.
  destruct (stdin cs) as [|[c|] rest] eqn:E; cbn [fread_item].
  - eexists _, b, 0, []. split; [reflexivity|]. split; [|auto]. exists []. cbn. rewrite app_nil_r. auto.
  - cbn [negb overlay firstn app length skipn].
    assert (Hs : arrived (stdin cs) = [c] ++ arrived rest) by (rewrite E; reflexivity).
    rewrite <- E, Hs, console_loop_app in Hl. rewrite <- E, Hs in Hb. apply Forall_app in Hb as [Hb _]. apply Forall_cons_iff in Hb as [Hb _].
    destruct (console_loop [c] (console_esc_state cs)) as [[k e]|] eqn:F; [|congruence].
    assert (Hk : k = [] \/ k = [c]).
    { revert F. cbn. repeat case_match; intros; simplify_eq; auto. }
    exists (mkStdio rest (out cs) e). destruct Hk as [-> | ->]; [exists c, 0, []|exists c, 1, [c]].
    all: split; [reflexivity|]; split; [|auto]; exists [Some c]; cbn [stdin]; (split; [exact E|]);
      split; [exact F|symmetry; apply app_nil_r].
  - eexists _, b, 0, []. split; [reflexivity|]. split; [|auto]. exists [None]. cbn. rewrite app_nil_r. auto.
Qed.

(** ** One DesignWare UART *)

(** The PLIC's view of the line is the level last announced. *)
Record linked (s : US) : Prop := {
  l_irq : 0 <= dw_irq (uart s) < 32;
  l_harts : ncpus (umach s) = Z.of_nat (length (cpu_state (umach s)));
  l_level : last_irq_level (uart s) = Z.b2z (Z.testbit (plic_pending_irq (umach s)) (dw_irq (uart s)))
}.

(** ... and that level is the interrupt condition. *)
Definition settled (s : US) : Prop :=
  linked s /\ Z.testbit (plic_pending_irq (umach s)) (dw_irq (uart s)) = irq_condition (uart s) /\
  (isr (uart s) = isr_nibble (uart s) \/ isr (uart s) = 0 /\ irq_condition (uart s) = false).

(** What an operation leaves alone at the PLIC. *)
Definition plic_frame (irq : Z) (m m' : RISCVMachine) : Prop :=
  mem_map m' = mem_map m /\ hmem m' = hmem m /\ plic_served_irq m' = plic_served_irq m /\
  (ncpus m = Z.of_nat (length (cpu_state m)) -> ncpus m' = Z.of_nat (length (cpu_state m'))) /\
  forall j, j <> irq -> Z.testbit (plic_pending_irq m') j = Z.testbit (plic_pending_irq m) j.

Lemma plic_frame_refl irq m : plic_frame irq m m.
Proof. repeat split; auto. Qed.

Lemma plic_frame_trans irq m1 m2 m3 : plic_frame irq m1 m2 -> plic_frame irq m2 m3 -> plic_frame irq m1 m3.
Proof.
  intros (A1 & B1 & C1 & D1 & E1) (A2 & B2 & C2 & D2 & E2). repeat split; try congruence; auto.
  intros j Hj. rewrite E2, E1 by exact Hj. reflexivity.
Qed.

Lemma nibble_condition d : negb (u8 ((isr d .& 0xF0) + isr_nibble d) has 1) = irq_condition d.
Proof.
  assert (H : u8 ((isr d .& 0xF0) + isr_nibble d) has 1 = Z.testbit (isr_nibble d) 0).
  { change 1 with (2 ^ 0) at 1. rewrite has_pow2 by lia. rewrite u_testbit by lia. rewrite !Z.bit0_odd, Z.odd_add.
    rewrite <- (Z.bit0_odd (isr d .& 240)), Z.land_spec. change (Z.testbit 240 0) with false.
    rewrite andb_false_r, xorb_false_l. reflexivity. }
  rewrite H. unfold isr_nibble, irq_condition.
  destruct (ier d has 4), (lsr d has 30), (ier d has 1), (lsr d has 1), (ier d has 2), (lsr d has 32), (ier d has 8), (msr d .& 15 =? 15);
    reflexivity.
Qed.

(** The registers after [update_isr]. *)
Definition updated (d : DW_apb_uart_state) : DW_apb_uart_state :=
  set_last_irq_level (Z.b2z (irq_condition d)) (set_isr (u8 ((isr d .& 0xF0) + isr_nibble d)) d).

Lemma update_isr_spec s : linked s -> isr (uart s) .& 0xF0 = 0 ->
  exists m', update_isr s = (mkUS (updated (uart s)) (console s) m', inl tt) /\
    plic_frame (dw_irq (uart s)) (umach s) m' /\ settled (mkUS (updated (uart s)) (console s) m').
Proof.
  intros [Hi Hh Hl] Hz. unfold update_isr, ubind, umod, ugets, uret. cbn [uart console umach isr set_isr last_irq_level dw_irq].
  rewrite nibble_condition. set (c := irq_condition (uart s)).
  assert (Hn : isr_nibble (updated (uart s)) = isr (updated (uart s))).
  { change (isr (updated (uart s))) with (u8 ((isr (uart s) .& 0xF0) + isr_nibble (uart s))). rewrite Hz.
    change (isr_nibble (updated (uart s))) with (isr_nibble (uart s)).
    unfold isr_nibble. repeat case_match; reflexivity. }
  assert (Hc : irq_condition (updated (uart s)) = c) by reflexivity.
  destruct (Z.eqb_spec (last_irq_level (uart s)) (Z.b2z c)) as [E|E]; cbn [negb].
  - exists (umach s). split; [|split; [apply plic_frame_refl|]].
    + unfold updated. fold c. rewrite <- E. reflexivity.
    + assert (Hp : Z.testbit (plic_pending_irq (umach s)) (dw_irq (uart s)) = c)
        by (apply Z.b2z_inj; rewrite <- Hl; exact E).
      split; [|split; [exact Hp|left; symmetry; exact Hn]]. split; [exact Hi|exact Hh|].
      cbn [uart umach]. change (dw_irq (updated (uart s))) with (dw_irq (uart s)). rewrite Hp. reflexivity.
  - unfold uart_set_irq. cbn [umach uart console set_last_irq_level set_isr dw_irq].
    replace (nz (Z.b2z c)) with c by (destruct c; reflexivity).
    destruct (plic_set_irq_frame (umach s) (dw_irq (uart s)) c Hh Hi) as (m' & -> & E1 & E2 & E3 & E4 & P).
    exists m'. split; [reflexivity|]. split.
    + repeat split; auto. intros j Hj. rewrite P. destruct (Z.eqb_spec j (dw_irq (uart s))); [congruence|reflexivity].
    + assert (Hp : Z.testbit (plic_pending_irq m') (dw_irq (uart s)) = c) by (rewrite P, Z.eqb_refl; reflexivity).
      split; [|split; [exact Hp|left; symmetry; exact Hn]]. split; [exact Hi|exact E3|].
      cbn [uart umach]. change (dw_irq (updated (uart s))) with (dw_irq (uart s)). rewrite Hp. reflexivity.
Qed.

(** Between a register change and [update_isr]. *)
Definition tuned (s : US) : Prop := linked s /\ isr (uart s) .& 0xF0 = 0.

Lemma settled_tuned s : settled s -> tuned s.
Proof.
  intros (H & _ & [E | [E _]]); (split; [exact H|]); rewrite E; [|reflexivity]. unfold isr_nibble. repeat case_match; reflexivity.
Qed.

Lemma tuned_ext s s' : tuned s -> umach s' = umach s -> dw_irq (uart s') = dw_irq (uart s) ->
  last_irq_level (uart s') = last_irq_level (uart s) -> isr (uart s') = isr (uart s) -> tuned s'.
Proof. intros [[H1 H2 H3] H4] E1 E2 E3 E4. split; [split|]; congruence. Qed.

Lemma settled_ext s s' : settled s -> umach s' = umach s -> dw_irq (uart s') = dw_irq (uart s) ->
  last_irq_level (uart s') = last_irq_level (uart s) -> isr (uart s') = isr (uart s) ->
  ier (uart s') = ier (uart s) -> lsr (uart s') = lsr (uart s) -> msr (uart s') = msr (uart s) -> settled s'.
Proof.
  intros ([H1 H2 H3] & H4 & H5) E1 E2 E3 E4 E5 E6 E7. split; [split; congruence|].
  unfold irq_condition, isr_nibble in *. rewrite E1, E2, E4, E5, E6, E7. auto.
Qed.

(** What an operation of a DesignWare UART does: it returns in a state that
    satisfies [P], moves the console by [kept] and [tx], and touches its own
    line only. *)
Definition runs (P : US -> Prop) {A} (m : UM A) (s : US) (Q : A -> DW_apb_uart_state -> list Z -> list Z -> Prop) : Prop :=
  exists s' a kept tx, m s = (s', inl a) /\ P s' /\ dw_irq (uart s') = dw_irq (uart s) /\
    plic_frame (dw_irq (uart s)) (umach s) (umach s') /\
    io (console s) (console s') kept tx /\ Q a (uart s') kept tx.

Lemma runs_bind P1 P2 {A B} (m : UM A) (k : A -> UM B) s Q R : runs P1 m s Q ->
  (forall s' a kept tx, P1 s' -> io (console s) (console s') kept tx -> Q a (uart s') kept tx ->
     runs P2 (k a) s' (fun b d kept' tx' => R b d (kept ++ kept') (tx ++ tx'))) ->
  runs P2 (ubind m k) s R.
Proof.
  intros (s1 & a & k1 & t1 & E & S & I & F & C & HQ) Hk.
  destruct (Hk s1 a k1 t1 S C HQ) as (s2 & b & k2 & t2 & E2 & S2 & I2 & F2 & C2 & HR).
  exists s2, b, (k1 ++ k2), (t1 ++ t2). unfold ubind. rewrite E. split; [exact E2|]. split; [exact S2|].
  split; [congruence|]. split; [rewrite I in F2; eapply plic_frame_trans; eassumption|].
  split; [eapply io_trans; eassumption|exact HR].
Qed.

Lemma runs_quiet (P : US -> Prop) {A} (m : UM A) s a (Q : A -> DW_apb_uart_state -> list Z -> list Z -> Prop) :
  m s = (s, inl a) -> P s -> Q a (uart s) [] [] -> runs P m s Q.
Proof.
  intros E H HQ. exists s, a, [], []. split; [exact E|]. split; [exact H|]. split; [reflexivity|].
  split; [apply plic_frame_refl|]. split; [apply io_refl|exact HQ].
Qed.

Lemma runs_gets P {A B} (f : DW_apb_uart_state -> A) (k : A -> UM B) s R : runs P (k (f (uart s))) s R ->
  runs P (ubind (ugets f) k) s R.
Proof. exact (fun H => H). Qed.

(** A register change on the way to an [update_isr]. *)
Lemma runs_umod (P : US -> Prop) {B} f (k : unit -> UM B) s R :
  dw_irq (f (uart s)) = dw_irq (uart s) ->
  runs P (k tt) (mkUS (f (uart s)) (console s) (umach s)) R -> runs P (ubind (umod f) k) s R.
Proof.
  intros Hf (s' & a & kp & tx & E & S & I & F & C & HQ). cbn [uart console umach] in *. rewrite Hf in *.
  exists s', a, kp, tx. auto 10.
Qed.

Lemma runs_update s (Q : unit -> DW_apb_uart_state -> list Z -> list Z -> Prop) : tuned s ->
  Q tt (updated (uart s)) [] [] -> runs settled update_isr s Q.
Proof.
  intros [L Z] HQ. destruct (update_isr_spec s L Z) as (m' & E & F & S).
  eexists _, tt, [], []. split; [exact E|]. split; [exact S|]. split; [reflexivity|]. split; [exact F|]. split; [apply io_refl|exact HQ].
Qed.

(** The bit of the line status that announces a character. *)
Lemma has1 x : x has 1 = Z.testbit x 0.
Proof. exact (has_pow2 x 0 ltac:(lia)). Qed.

(** Polling moves at most one character from the console to an empty holding
    register. *)
Lemma poll_runs (P : US -> Prop) s (Q : unit -> DW_apb_uart_state -> list Z -> list Z -> Prop) :
  tuned s -> P s -> (forall s, settled s -> P s) -> alive (console s) ->
  (forall d kept, held_char d = held_char (uart s) ++ kept -> Q tt d kept []) ->
  runs P dw_apb_uart_poll s Q.
Proof.
  intros Ht Hp HP Ha HQ. unfold dw_apb_uart_poll. apply runs_gets. destruct (lsr (uart s) has 1) eqn:E; cbn [negb].
  { apply (runs_quiet P _ s tt); [reflexivity|exact Hp|]. apply HQ. symmetry. apply app_nil_r. }
  destruct (console_read1 (console s) (rhr (uart s)) Ha) as (cs' & b & ret & kept & C & I & K).
  apply (runs_bind tuned P _ _ _ (fun r d k t => r = ret /\ d = set_rhr b (uart s) /\ k = kept /\ t = [])).
  { unfold runs, uart_receive. rewrite C. eexists _, ret, kept, []. split; [reflexivity|].
    split; [eapply tuned_ext; [exact Ht|reflexivity..]|]. split; [reflexivity|]. split; [apply plic_frame_refl|]. split; [exact I|auto]. }
  intros s' a k t Ht' _ (-> & Ed & -> & ->). apply runs_umod; [reflexivity|].
  cut (runs settled update_isr (mkUS (set_lsr (lsr (uart s') .| Z.b2z (nz ret)) (uart s')) (console s') (umach s'))
         (fun b0 d k t => Q b0 d (kept ++ k) ([] ++ t))).
  { intros (s2 & a2 & k2 & t2 & E2 & S2 & R2). exists s2, a2, k2, t2. auto. }
  apply runs_update; [eapply tuned_ext; [exact Ht'|reflexivity..]|]. rewrite app_nil_r. apply HQ. unfold held_char at 2. rewrite E. cbn [app].
  rewrite Ed. unfold held_char. cbn [updated lsr rhr set_lsr set_rhr uart set_last_irq_level set_isr].
  rewrite has1, Z.lor_spec, <- has1, E. destruct K as [[-> ->] | (-> & -> & _)]; reflexivity.
Qed.

(** The accesses, one register at a time. *)

Lemma read_rhr_runs s : settled s ->
  runs settled read_rhr s (fun res d kept tx => kept = [] /\ tx = [] /\
    held_char (uart s) = (if negb (dlab (uart s)) && (lsr (uart s) has 1) then [res] else []) ++ held_char d).
Proof.
  intros Hs. unfold read_rhr. apply runs_gets. destruct (dlab (uart s)) eqn:E; cbn [negb andb].
  { eapply runs_quiet; [reflexivity|exact Hs|]. auto. }
  apply runs_gets. do 2 (apply runs_umod; [reflexivity|]). cbn [uart console umach].
  eapply runs_bind.
  - apply runs_update with (Q := fun _ d k t => held_char d = [] /\ k = [] /\ t = []); [eapply tuned_ext; [apply settled_tuned, Hs|reflexivity..]|].
    split; [|auto]. cbn [uart]. unfold held_char. cbn [updated lsr set_lsr set_last_irq_level set_isr].
    rewrite has1, !Z.ldiff_spec. change (Z.testbit (1 << 0) 0) with true. rewrite andb_false_r. reflexivity.
  - intros s' a k t Hs' _ (Hh & -> & ->). eapply runs_quiet; [reflexivity|exact Hs'|]. rewrite Hh. cbn [app].
    unfold held_char. destruct (lsr (uart s) has 1); auto.
Qed.

Lemma read_lsr_runs s : settled s -> alive (console s) ->
  runs settled read_lsr s (fun res d kept tx => tx = [] /\ held_char d = held_char (uart s) ++ kept /\
    res has 1 = negb (match held_char d with [] => true | _ => false end)).
Proof.
  intros Hs Ha. unfold read_lsr. do 2 (apply runs_umod; [reflexivity|]). cbn [uart console umach].
  set (s1 := mkUS _ _ _). assert (Ht : tuned s1) by (eapply tuned_ext; [apply settled_tuned, Hs|reflexivity..]).
  assert (Hh : held_char (uart s1) = held_char (uart s)).
  { subst s1. unfold held_char. cbn [uart lsr rhr set_lsr]. rewrite !has1, Z.ldiff_spec, Z.lor_spec. cbn. rewrite andb_true_r, orb_false_r. reflexivity. }
  eapply runs_bind.
  { apply (poll_runs tuned) with (Q := fun _ d k t => t = [] /\ held_char d = held_char (uart s) ++ k);
      [exact Ht|exact Ht|exact settled_tuned|exact Ha|]. intros d kept ->. rewrite Hh. auto. }
  intros s2 [] kept tx Ht2 _ (-> & E2). eapply runs_bind.
  { apply runs_update with (Q := fun _ d k t => held_char d = held_char (uart s2) /\ k = [] /\ t = []); [exact Ht2|auto]. }
  intros s3 [] k t Hs3 _ (E3 & -> & ->). eapply runs_quiet; [reflexivity|exact Hs3|]. rewrite !app_nil_r. cbn [app].
  split; [reflexivity|]. split; [congruence|]. unfold held_char. destruct (lsr (uart s3) has 1); reflexivity.
Qed.

Lemma quiet_change f s (Q : unit -> DW_apb_uart_state -> list Z -> list Z -> Prop) : settled s ->
  dw_irq (f (uart s)) = dw_irq (uart s) -> last_irq_level (f (uart s)) = last_irq_level (uart s) -> isr (f (uart s)) = isr (uart s) ->
  ier (f (uart s)) = ier (uart s) -> lsr (f (uart s)) = lsr (uart s) -> msr (f (uart s)) = msr (uart s) ->
  Q tt (f (uart s)) [] [] -> runs settled (umod f) s Q.
Proof.
  intros Hs E1 E2 E3 E4 E5 E6 HQ. eexists _, tt, [], []. split; [reflexivity|].
  split; [eapply settled_ext; [exact Hs|cbn; assumption || reflexivity..]|]. split; [exact E1|]. split; [apply plic_frame_refl|].
  split; [apply io_refl|exact HQ].
Qed.

Lemma uart_reg_ok {B} o (k : Z -> UM B) s P R : o mod 4 = 0 -> o < 256 -> runs P (k (o / 4)) s R ->
  runs P (ubind (uart_reg o) k) s R.
Proof.
  intros H1 H2. unfold uart_reg. rewrite H1. destruct (Z.ltb_spec o 256); [|lia]. exact (fun H => H).
Qed.

(** The character a read of a DesignWare UART hands to the guest. *)
Definition dw_received (d : DW_apb_uart_state) (o res : Z) : list Z :=
  if (o =? 0) && negb (dlab d) && (lsr d has 1) then [res] else [].
Definition dw_transmitted (d : DW_apb_uart_state) (o v : Z) : list Z :=
  if (o =? 0) && negb (dlab d) then [u8 v] else [].

Lemma dw_read_runs o s : settled s -> alive (console s) -> o mod 4 = 0 -> 0 <= o < 256 ->
  runs settled (dw_apb_uart_read o) s (fun res d kept tx => tx = [] /\
    held_char (uart s) ++ kept = dw_received (uart s) o res ++ held_char d).
Proof.
  intros Hs Ha H4 Ho. unfold dw_apb_uart_read. apply uart_reg_ok; [exact H4|lia|].
  assert (H0 : (o =? 0) = (o / 4 =? 0)).
  { pose proof (Z.div_mod o 4). destruct (Z.eqb_spec o 0), (Z.eqb_spec (o / 4) 0); subst; try reflexivity; lia. }
  unfold dw_received. rewrite H0.
  assert (Hq : forall A (f : DW_apb_uart_state -> A), runs settled (ugets f) s
    (fun _ d kept tx => tx = [] /\ held_char (uart s) ++ kept = [] ++ held_char d)).
  { intros A f. eapply runs_quiet; [reflexivity|exact Hs|]. rewrite app_nil_r. auto. }
  destruct (o / 4 =? 0); cbn [andb].
  { destruct (read_rhr_runs s Hs) as (s' & a & k & t & E & S & I & F & C & -> & -> & Hh).
    exists s', a, [], []. rewrite app_nil_r. auto 10. }
  destruct (o / 4 =? 1). { unfold read_ier. apply runs_gets. destruct (dlab (uart s)); apply Hq. }
  destruct (o / 4 =? 2); [apply Hq|]. destruct (o / 4 =? 3); [apply Hq|]. destruct (o / 4 =? 4); [apply Hq|].
  destruct (o / 4 =? 5).
  { destruct (read_lsr_runs s Hs Ha) as (s' & a & k & t & E & S & I & F & C & -> & Hh & _).
    exists s', a, k, []. auto 10. }
  destruct (o / 4 =? 6).
  { unfold read_msr. apply runs_gets. apply runs_umod; [reflexivity|]. eapply runs_bind.
    - apply runs_update with (Q := fun _ d k t => held_char d = held_char (uart s) /\ k = [] /\ t = []);
        [eapply tuned_ext; [apply settled_tuned, Hs|reflexivity..]|auto].
    - intros s' [] k t Hs' _ (Hh & -> & ->). eapply runs_quiet; [reflexivity|exact Hs'|]. rewrite !app_nil_r. auto. }
  destruct (o / 4 =? 7); [apply Hq|]. apply (Hq _ (fun _ => 0)).
Qed.

Lemma dw_write_runs o v s : settled s -> alive (console s) -> o mod 4 = 0 -> 0 <= o < 256 ->
  runs settled (dw_apb_uart_write o v) s (fun _ d kept tx => tx = dw_transmitted (uart s) o v /\
    held_char (uart s) ++ kept = held_char d).
Proof.
  intros Hs Ha H4 Ho. unfold dw_apb_uart_write. apply uart_reg_ok; [exact H4|lia|].
  assert (H0 : (o =? 0) = (o / 4 =? 0)).
  { pose proof (Z.div_mod o 4). destruct (Z.eqb_spec o 0), (Z.eqb_spec (o / 4) 0); subst; try reflexivity; lia. }
  assert (Hv : v .& 255 = u8 v) by apply (Z.land_ones v 8 ltac:(lia)).
  unfold dw_transmitted. rewrite H0, Hv. destruct (o / 4 =? 0); cbn [andb].
  { unfold write_thr. apply runs_gets. destruct (dlab (uart s)); cbn [negb].
    - apply quiet_change; try reflexivity; [exact Hs|]. rewrite app_nil_r. auto.
    - apply (runs_bind settled settled _ _ _ (fun _ d k t => d = uart s /\ k = [] /\ t = [u8 v])).
      + eexists _, tt, [], [u8 v]. split; [reflexivity|]. split; [eapply settled_ext; [exact Hs|reflexivity..]|].
        split; [reflexivity|]. split; [apply plic_frame_refl|]. split; [|auto]. exists []. auto.
      + intros s' [] k t Hs' C (Hd & -> & ->). apply poll_runs; auto using settled_tuned; [eapply io_alive; eassumption|].
        intros d kept ->. rewrite Hd. auto. }
  destruct (o / 4 =? 1).
  { unfold write_ier. apply runs_gets. destruct (dlab (uart s)).
    - apply quiet_change; try reflexivity; [exact Hs|]. rewrite app_nil_r. auto.
    - apply runs_umod; [reflexivity|]. apply runs_update; [eapply tuned_ext; [apply settled_tuned, Hs|reflexivity..]|].
      rewrite app_nil_r. auto. }
  assert (Hq : forall f, (forall d, dw_irq (f d) = dw_irq d /\ last_irq_level (f d) = last_irq_level d /\ isr (f d) = isr d /\
      ier (f d) = ier d /\ lsr (f d) = lsr d /\ msr (f d) = msr d /\ held_char (f d) = held_char d) ->
    runs settled (umod f) s (fun _ d kept tx => tx = [] /\ held_char (uart s) ++ kept = held_char d)).
  { intros f Hf. destruct (Hf (uart s)) as (E1 & E2 & E3 & E4 & E5 & E6 & E7). apply quiet_change; try assumption.
    rewrite app_nil_r, E7. auto. }
  assert (Hr : runs settled (uret tt) s (fun _ d kept tx => tx = [] /\ held_char (uart s) ++ kept = held_char d)).
  { eapply runs_quiet; [reflexivity|exact Hs|]. rewrite app_nil_r. auto. }
  repeat match goal with |- context [if ?b then _ else _] => destruct b end; try exact Hr; apply Hq; intros d; repeat split; reflexivity.
Qed.

(** ** All UARTs *)

Definition uinv (u : Uarts) : Prop :=
  settled (mkUS (dw0 u) (u_console u) (u_mach u)) /\ settled (mkUS (dw1 u) (u_console u) (u_mach u)) /\
  dw_irq (dw0 u) = DW_APB_UART0_IRQ /\ dw_irq (dw1 u) = DW_APB_UART1_IRQ /\ alive (u_console u).

(** The machine apart from the two lines. *)
Definition lines_frame (m m' : RISCVMachine) : Prop :=
  mem_map m' = mem_map m /\ hmem m' = hmem m /\ plic_served_irq m' = plic_served_irq m /\
  forall j, j <> DW_APB_UART0_IRQ -> j <> DW_APB_UART1_IRQ ->
    Z.testbit (plic_pending_irq m') j = Z.testbit (plic_pending_irq m) j.

(** The other UART does not notice. *)
Lemma settled_other d cs cs' m m' irq : settled (mkUS d cs m) -> dw_irq d <> irq -> plic_frame irq m m' ->
  settled (mkUS d cs' m').
Proof.
  intros ([H1 H2 H3] & H4 & H5) Hn (_ & _ & _ & Fh & Fp). cbn [uart umach console] in *.
  split; [split; cbn [uart umach]; rewrite ?Fp by exact Hn; auto|]. cbn [uart umach]. rewrite Fp by exact Hn. auto.
Qed.

(** What one access does to the streams. *)
Definition stepped (u : Uarts) (ev : uart_event) (u' : Uarts) (res : Z) (kept : list Z) : Prop :=
  uinv u' /\ io (u_console u) (u_console u') kept (transmitted u ev) /\ lines_frame (u_mach u) (u_mach u') /\
  forall p, held u p ++ (if decide (p = ev_port ev) then kept else []) =
            (if decide (p = ev_port ev) then received u ev res else []) ++ held u' p.

Lemma stepped_dw0 {A} (m : UM A) u ev f rx : uinv u -> ev_port ev = PDw0 ->
  runs settled m (mkUS (dw0 u) (u_console u) (u_mach u))
    (fun a d kept tx => tx = transmitted u ev /\ held_char (dw0 u) ++ kept = rx a ++ held_char d) ->
  (forall a, rx a = received u ev (f a)) ->
  exists u' a kept, on_dw0 m u = (u', inl a) /\ stepped u ev u' (f a) kept.
Proof.
  intros (S0 & S1 & I0 & I1 & Ha) Hp (s' & a & kept & tx & E & S & I & F & C & -> & H) Hr. cbn [uart console umach] in *.
  eexists _, a, kept. unfold on_dw0. rewrite E. split; [reflexivity|].
  assert (Hu : settled (mkUS (uart s') (console s') (umach s'))) by (destruct s'; exact S).
  split; [|split; [exact C|split]]; cbn [u_console u_mach].
  - split; [exact Hu|]. split; [refine (settled_other _ _ _ _ _ _ S1 _ F); cbn [uart]; rewrite I0, I1; discriminate|].
    cbn. rewrite I. split; [exact I0|]. split; [exact I1|]. eapply io_alive; eassumption.
  - destruct F as (F1 & F2 & F3 & _ & F5). repeat split; auto. intros j Hj _. apply F5. congruence.
  - rewrite Hp. intros p. destruct (decide (p = PDw0)) as [->|]; [rewrite <- Hr; exact H|]. destruct p; cbn; rewrite ?app_nil_r; congruence.
Qed.

Lemma stepped_dw1 {A} (m : UM A) u ev f rx : uinv u -> ev_port ev = PDw1 ->
  runs settled m (mkUS (dw1 u) (u_console u) (u_mach u))
    (fun a d kept tx => tx = transmitted u ev /\ held_char (dw1 u) ++ kept = rx a ++ held_char d) ->
  (forall a, rx a = received u ev (f a)) ->
  exists u' a kept, on_dw1 m u = (u', inl a) /\ stepped u ev u' (f a) kept.
Proof.
  intros (S0 & S1 & I0 & I1 & Ha) Hp (s' & a & kept & tx & E & S & I & F & C & -> & H) Hr. cbn [uart console umach] in *.
  eexists _, a, kept. unfold on_dw1. rewrite E. split; [reflexivity|].
  assert (Hu : settled (mkUS (uart s') (console s') (umach s'))) by (destruct s'; exact S).
  split; [|split; [exact C|split]]; cbn [u_console u_mach].
  - split; [refine (settled_other _ _ _ _ _ _ S0 _ F); cbn [uart]; rewrite I0, I1; discriminate|]. split; [exact Hu|].
    cbn. rewrite I. split; [exact I0|]. split; [exact I1|]. eapply io_alive; eassumption.
  - destruct F as (F1 & F2 & F3 & _ & F5). repeat split; auto. intros j _ Hj. apply F5. congruence.
  - rewrite Hp. intros p. destruct (decide (p = PDw1)) as [->|]; [rewrite <- Hr; exact H|]. destruct p; cbn; rewrite ?app_nil_r; congruence.
Qed.

(** A change of the console alone. *)
Lemma settled_console d cs cs' m : settled (mkUS d cs m) -> settled (mkUS d cs' m).
Proof. intros H. eapply settled_ext; [exact H|reflexivity..]. Qed.

Lemma stepped_sifive u s' cs' ev res kept : uinv u -> ev_port ev = PSifive -> alive cs' ->
  io (u_console u) cs' kept (transmitted u ev) -> received u ev res = kept ->
  stepped u ev (mkUarts s' (dw0 u) (dw1 u) cs' (u_mach u)) res kept.
Proof.
  intros (S0 & S1 & I0 & I1 & Ha) Hp Ha' C Hr. split; [|split; [exact C|split]].
  - split; [eapply settled_console, S0|]. split; [eapply settled_console, S1|]. auto.
  - repeat split; auto.
  - rewrite Hp. intros p. destruct (decide (p = PSifive)) as [->|]; [rewrite Hr; cbn; rewrite app_nil_r; reflexivity|].
    destruct p; cbn; rewrite ?app_nil_r; congruence.
Qed.

Lemma uart_step_spec u ev : uinv u -> offset_ok ev = true ->
  exists u' res kept, uart_step u ev = (u', inl res) /\ stepped u ev u' res kept.
Proof.
  intros Hu Ho. pose proof Hu as (S0 & S1 & I0 & I1 & Ha). destruct ev as [[] o|[] o v]; cbn [offset_ok] in Ho; bool_hyps.
  - unfold uart_step, uart_read. destruct (Z.eqb_spec o SIFIVE_UART_RXFIFO) as [->|].
    + destruct (console_read1 (u_console u) 0 Ha) as (cs' & b & ret & kept & -> & C & K).
      eexists _, _, kept. split; [reflexivity|]. apply stepped_sifive; auto; [eapply io_alive; eassumption|].
      destruct K as [[-> ->] | (-> & -> & Hb)]; [reflexivity|]. cbn. destruct (Z.eqb_spec b 0x80000000); [|reflexivity].
      unfold in_u in Hb. lia.
    + repeat case_match; simplify_eq; eexists _, _, []; (split; [reflexivity|]);
        apply stepped_sifive; auto using io_refl; cbn; destruct (Z.eqb_spec o SIFIVE_UART_RXFIFO); (reflexivity || congruence).
  - apply (stepped_dw0 _ u (EvRead PDw0 o) id (dw_received (dw0 u) o)); auto. apply dw_read_runs; auto; lia.
  - apply (stepped_dw1 _ u (EvRead PDw1 o) id (dw_received (dw1 u) o)); auto. apply dw_read_runs; auto; lia.
  - unfold uart_step, uart_write. destruct (Z.eqb_spec o SIFIVE_UART_TXFIFO) as [->|].
    + eexists _, _, []. split; [reflexivity|]. apply stepped_sifive; auto. exists []. auto.
    + repeat case_match; simplify_eq; eexists _, _, []; (split; [reflexivity|]);
        apply stepped_sifive; auto; cbn; destruct (Z.eqb_spec o SIFIVE_UART_TXFIFO); (apply io_refl || congruence).
  - apply (stepped_dw0 _ u (EvWrite PDw0 o v) id (fun _ => [])); auto.
    eapply runs_bind; [apply dw_write_runs; auto; lia|]. intros s' [] k t Hs' _ [-> Hh]. eapply runs_quiet; [reflexivity|exact Hs'|].
    rewrite !app_nil_r. auto.
  - apply (stepped_dw1 _ u (EvWrite PDw1 o v) id (fun _ => [])); auto.
    eapply runs_bind; [apply dw_write_runs; auto; lia|]. intros s' [] k t Hs' _ [-> Hh]. eapply runs_quiet; [reflexivity|exact Hs'|].
    rewrite !app_nil_r. auto.
Qed.

Lemma of_port_map p q l : of_port p (map (pair q) l) = if decide (p = q) then l else [].
Proof.
  unfold of_port. induction l as [|x l IH]; cbn [map]; [destruct (decide (p = q)); reflexivity|].
  rewrite filter_cons. cbn [fst]. destruct (decide (q = p)), (decide (p = q)); try congruence.
  cbn [map snd]. rewrite IH. reflexivity.
Qed.

Lemma of_port_app p l1 l2 : of_port p (l1 ++ l2) = of_port p l1 ++ of_port p l2.
Proof. unfold of_port. rewrite list.filter_app. apply map_app. Qed.

Lemma lines_frame_trans m1 m2 m3 : lines_frame m1 m2 -> lines_frame m2 m3 -> lines_frame m1 m3.
Proof.
  intros (A1 & B1 & C1 & D1) (A2 & B2 & C2 & D2). repeat split; try congruence.
  intros j H0 H1. rewrite D2, D1 by assumption. reflexivity.
Qed.

Lemma uart_run_spec evs : forall u, uinv u -> forallb offset_ok evs = true ->
  exists u' rx tx acc, uart_run u evs = Some (u', rx, tx) /\ uinv u' /\ lines_frame (u_mach u) (u_mach u') /\
    io (u_console u) (u_console u') (map snd acc) tx /\
    forall p, held u p ++ of_port p acc = of_port p rx ++ held u' p.
Proof.
  induction evs as [|ev evs IH]; intros u Hu Ho.
  - exists u, [], [], []. split; [reflexivity|]. split; [exact Hu|]. split; [repeat split; auto|].
    split; [apply io_refl|]. intros p. cbn. apply app_nil_r.
  - cbn [forallb] in Ho. apply andb_true_iff in Ho as [H1 H2].
    destruct (uart_step_spec u ev Hu H1) as (u1 & res & kept & E & Hu1 & C & F & H).
    destruct (IH u1 Hu1 H2) as (u' & rx & tx & acc & E' & Hu' & F' & C' & H'). cbn [uart_run]. rewrite E, E'.
    eexists _, _, _, (map (pair (ev_port ev)) kept ++ acc). split; [reflexivity|]. split; [exact Hu'|].
    split; [eapply lines_frame_trans; eassumption|]. split.
    + rewrite map_app, map_map. cbn [snd]. rewrite map_id. eapply io_trans; eassumption.
    + intros p. rewrite !of_port_app, !of_port_map, app_assoc, H, <- !app_assoc. f_equal. apply H'.
Qed.

Lemma unescape_escaped cs l k e : console_esc_state cs = 0 \/ console_esc_state cs = 1 ->
  console_loop l (console_esc_state cs) = Some (k, e) -> k = unescape (escaped cs ++ l).
Proof.
  intros He H. destruct (console_loop_unescape (length l) l ltac:(lia)) as (H0 & H1 & _). unfold escaped.
  destruct He as [E|E]; rewrite E in *; cbn [nz negb Z.eqb app]; [eapply H0|eapply H1]; exact H.
Qed.

(** The UARTs of a new machine: nothing typed so far, both lines low. *)
Lemma uinv_init cs m : ncpus m = Z.of_nat (length (cpu_state m)) ->
  Z.testbit (plic_pending_irq m) DW_APB_UART0_IRQ = false -> Z.testbit (plic_pending_irq m) DW_APB_UART1_IRQ = false ->
  console_esc_state cs = 0 -> Forall (in_u 8) (arrived (stdin cs)) -> quits (arrived (stdin cs)) = false ->
  uinv (uarts_init cs m).
Proof.
  intros Hn H0 H1 He Hb Hq. unfold uinv, settled. cbn [uarts_init dw0 dw1 u_console u_mach uart umach dw_irq dw_apb_uart_init].
  rewrite H0, H1. repeat split; auto; cbn [uart umach dw_irq dw_apb_uart_init last_irq_level];
    rewrite ?H0, ?H1; try reflexivity; try (unfold DW_APB_UART0_IRQ, DW_APB_UART1_IRQ; lia).
  rewrite He. intros Hc. apply (console_loop_unescape _ _ (Nat.le_refl _)) in Hc. congruence.
Qed.



(** ** Where the code departs from its intent *)

(** [C-b C-b] does not send [C-b], as the help text promises: no input makes the
    guest see that character. *)
Remark ctrl_b_never_sent l : ~ In 2 (unescape l).
Proof.
  assert (H : forall n l, (length l <= n)%nat -> ~ In 2 (unescape l)).
  { induction n as [|n IH]; intros [|c l'] Hn; cbn in Hn |- *; try lia; auto.
    destruct (Z.eqb_spec c 2).
    - destruct l' as [|d l'']; auto. cbn in Hn. destruct (d =? 1); [|apply IH; lia]. intros [|Hi]; [lia|]. eapply IH; [|exact Hi]. lia.
    - intros [|Hi]; [lia|]. eapply IH; [|exact Hi]. lia. }
  exact (H _ l (Nat.le_refl _)).
Qed.

(** [fread (buf, len, 1, stdin)] counts items of [len] bytes, not bytes: a read
    of more than one byte delivers the first byte and drops the others, and one
    that finds too few bytes drops them all. *)
Remark console_read_drops :
  console_read (mkStdio [Some 97; Some 98] [] 0) [0; 0] 2 = (mkStdio [] [] 0, inl ([97; 98], 1)) /\
  console_read (mkStdio [Some 97; None] [] 0) [0; 0] 2 = (mkStdio [] [] 0, inl ([97; 0], 0)).
Proof. split; reflexivity. Qed.

(** The modem status interrupt, once enabled, cannot be withdrawn: reading the
    modem status clears the bits whose absence is the condition. *)
Remark modem_interrupt_stuck d : ier d has 8 = true -> irq_condition (set_msr (msr d .&~ 15) d) = true.
Proof.
  intros H. unfold irq_condition. cbn [ier lsr msr set_msr]. rewrite H.
  replace ((msr d .&~ 15) .& 15) with 0 by bitwise.
  rewrite orb_true_r. reflexivity.
Qed.

(** The range of a DesignWare UART on the bus is 4096 bytes long, but an access
    above 255 ends the simulation. *)
Remark high_offset_aborts s o v : o mod 4 = 0 -> 256 <= o ->
  dw_apb_uart_read o s = (s, inr UAssert) /\ dw_apb_uart_write o v s = (s, inr UAssert).
Proof.
  intros H4 Ho. unfold dw_apb_uart_read, dw_apb_uart_write, ubind, uart_reg. rewrite H4.
  destruct (Z.ltb_spec o 256); [lia|]. split; reflexivity.
Qed.

(** ** Witnesses *)

Definition typed : STDIODevice := mkStdio [Some 104; None; Some 2; Some 1; Some 105; Some 106] [] 0.

(** Enable the receive interrupt of UART 0, read through both UARTs and the
    SiFive UART, transmit two characters. *)
Definition session : list uart_event :=
  [EvWrite PDw0 4 1; EvRead PDw0 20; EvRead PDw0 0; EvRead PSifive 4; EvRead PSifive 4; EvRead PSifive 4;
   EvWrite PDw1 0 0x141; EvRead PDw0 20; EvWrite PSifive 0 66; EvRead PDw1 0].



(** The session of the witnesses in full. *)
Example session_streams :
  match uart_run (uarts_init typed two_harts) session with
  | Some (u', rx, tx) => rx = [(PDw0, 104); (PSifive, 1); (PDw1, 105)] /\ tx = [65; 66] /\
      held u' PDw0 = [106] /\ stdin (u_console u') = [] /\ plic_pending_irq (u_mach u') = 0x2c
  | None => False
  end.
Proof. vm_compute. auto. Qed.

(** Claiming an interrupt clears its pending bit, and a UART announces changes of
    its line only: a character that is still unread when the interrupt is
    completed does not interrupt again. *)
Remark claimed_level_lost :
  match uart_run (uarts_init typed two_harts) [EvWrite PDw0 4 1; EvRead PDw0 20] with
  | Some (u, _, _) =>
      let '(m1, r) := plic_claim (u_mach u) 0 in
      let '(m2, _) := plic_write m1 (PLIC_CONTEXT_BASE + 4) 3 2 in
      r = inl 3 /\ irq_condition (dw0 u) = true /\ Z.testbit (plic_mask m2) DW_APB_UART0_IRQ = false
  | None => False
  end.
Proof. vm_compute. auto. Qed.
