(* ===== verification/Fdt.v ===== *)
(** * The flattened device tree

    [src/fdt.cpp]: the builder of the device tree blob, its serialisation and
    the description [riscv_build_fdt] gives of the machine.  The table of words
    and the table of strings are their bytes, with the capacity the code has
    allocated for each; a signed overflow of a size is [FOverflow], a string
    that is not terminated is [FUndefined].  [realloc] is taken to succeed.

    A reader of the version 17 format, written from the devicetree
    specification, is the reference: reading a finished blob gives back what was
    built. *)

From Stdlib Require Import String Ascii.
From S2P Require Import Prelude RiscvDefs State IoMem Tlb Pmp Mmu Csr Trap Alu HartInv Frame Devices.
Open Scope Z_scope.
Open Scope c_scope.

(** ** The builder's state *)

Record FDTState := mkFdt {
  tab : list Z;
  tab_size : Z;
  open_node_count : Z;
  string_table : list Z;
  string_table_size : Z
}.

Inductive fstop := FAssert | FOverflow | FUndefined.

Definition FM (A : Type) : Type := FDTState -> (FDTState * A) + fstop.

Definition fret {A} (a : A) : FM A := fun s => inl (s, a).
Definition fbind {A B} (m : FM A) (k : A -> FM B) : FM B := fun s =>
  match m s with inl (s', a) => k a s' | inr e => inr e end.
Definition fstopped {A} (e : fstop) : FM A := fun _ => inr e.

Declare Scope f_scope.
Delimit Scope f_scope with f.
Notation "'let*' x ':=' m 'in' k" := (fbind m (fun x => k))
  (at level 10, x pattern, m at level 100, k at level 200) : f_scope.
Notation "m ;; k" := (fbind m (fun _ => k)) (at level 100, k at level 200, right associativity) : f_scope.
Open Scope f_scope.

Definition FDT_MAGIC := 0xd00dfeed.
Definition FDT_VERSION := 17.
Definition FDT_BEGIN_NODE := 1.
Definition FDT_END_NODE := 2.
Definition FDT_PROP := 3.
Definition FDT_NOP := 4.
Definition FDT_END := 9.

(** The bytes of [cpu_to_be32 (v)] in memory. *)
Definition be32 (v : Z) : list Z := rev (le_bytes 4 v).

Definition INT_MAX := 2 ^ 31 - 1.

(** [s->tab_len], in words. *)
Definition tab_len (s : FDTState) : Z := Z.of_nat (length (tab s)) / 4.
Definition string_table_len (s : FDTState) : Z := Z.of_nat (length (string_table s)).

(** The bytes a C string occupies, up to its terminator. *)
Fixpoint cstr (l : list Z) : option (list Z) :=
  match l with
  | [] => None
  | b :: l' => if b =? 0 then Some [] else (cons b) <$> cstr l'
  end.

(** [(const uint8_t * )str] with its terminator. *)
Definition cbytes (str : list Z) : list Z := str ++ [0].

Definition fdt_init : FDTState := mkFdt [] 0 0 [] 0.

(** The growth of either table: the new capacity. *)
Definition grow (len size : Z) : option Z :=
  if size <? len
  then if size * 3 <=? INT_MAX then Some (Z.max len (size * 3 / 2)) else None
  else Some size.

Definition fdt_alloc_len (len : Z) : FM unit := fun s =>
  if negb (len <=? INT_MAX) then inr FOverflow
  else match grow len (tab_size s) with
       | Some n => inl (mkFdt (tab s) n (open_node_count s) (string_table s) (string_table_size s), tt)
       | None => inr FOverflow
       end.

(** Store [bytes] behind the words written so far; outside the allocation it is
    undefined. *)
Definition tab_store (bytes : list Z) : FM unit := fun s =>
  let tab' := tab s ++ bytes in
  if Z.of_nat (length tab') <=? 4 * tab_size s
  then inl (mkFdt tab' (tab_size s) (open_node_count s) (string_table s) (string_table_size s), tt)
  else inr FUndefined.

Definition fget {A} (f : FDTState -> A) : FM A := fun s => inl (s, f s).

Definition fdt_put32 (v : Z) : FM unit :=
  let* n := fget tab_len in
  fdt_alloc_len (n + 1) ;;
  tab_store (be32 v).

(** The zeros [memset] writes behind [len] bytes: [-len & 3] of them. *)
Definition padding (len : Z) : list Z := repeat 0 (Z.to_nat ((- len) .& 3)).

Definition fdt_put_data (data : list Z) : FM unit :=
  let len := Z.of_nat (length data) in
  if negb (len + 3 <=? INT_MAX) then fstopped FOverflow
  else
    let len1 := (len + 3) / 4 in
    let* n := fget tab_len in
    fdt_alloc_len (n + len1) ;;
    tab_store (data ++ padding len).

Definition add_open (d : Z) : FM unit := fun s =>
  inl (mkFdt (tab s) (tab_size s) (open_node_count s + d) (string_table s) (string_table_size s), tt).

Definition fdt_begin_node (name : list Z) : FM unit :=
  fdt_put32 FDT_BEGIN_NODE ;;
  fdt_put_data (cbytes name) ;;
  add_open 1.

(** [%lx]: the hexadecimal digits, at least one. *)
Fixpoint hex_digits (n : nat) (v : Z) : list Z :=
  match n with
  | O => []
  | S n' =>
      let d := v mod 16 in
      (if v <? 16 then [] else hex_digits n' (v / 16)) ++ [if d <? 10 then 48 + d else 87 + d]
  end.

(** [snprintf (buf, 256, "%s@%lx", name, n)] *)
Definition node_num_name (name : list Z) (n : Z) : list Z :=
  firstn 255 (name ++ [64] ++ hex_digits 16 n).

Definition fdt_begin_node_num (name : list Z) (n : Z) : FM unit := fdt_begin_node (node_num_name name n).

Definition fdt_end_node : FM unit :=
  fdt_put32 FDT_END_NODE ;;
  add_open (-1).

(** The search of [fdt_get_string_offset] from [pos]: [Some None] when the name
    is not in the table, [None] when a string is not terminated. *)
Fixpoint find_string (fuel : nat) (table : list Z) (pos : nat) (name : list Z) : option (option Z) :=
  match fuel with
  | O => Some None
  | S fuel' =>
      if (pos <? length table)%nat then
        match cstr (skipn pos table) with
        | None => None
        | Some x =>
            if decide (x = name) then Some (Some (Z.of_nat pos))
            else find_string fuel' table (pos + length x + 1) name
        end
      else Some None
  end.

Definition fdt_get_string_offset (name : list Z) : FM Z := fun s =>
  match find_string (S (length (string_table s))) (string_table s) 0 name with
  | None => inr FUndefined
  | Some (Some pos) => inl (s, pos)
  | Some None =>
      let new_len := string_table_len s + Z.of_nat (length name) + 1 in
      if negb (new_len <=? INT_MAX) then inr FOverflow
      else match grow new_len (string_table_size s) with
           | None => inr FOverflow
           | Some n => inl (mkFdt (tab s) (tab_size s) (open_node_count s) (string_table s ++ cbytes name) n, string_table_len s)
           end
  end.

Definition fdt_prop (prop_name data : list Z) : FM unit :=
  fdt_put32 FDT_PROP ;;
  fdt_put32 (Z.of_nat (length data)) ;;
  let* off := fdt_get_string_offset prop_name in
  fdt_put32 off ;;
  fdt_put_data data.

(** [for (i = 0; i < tab_len; i++) fdt_put32 (s, tab[i]);] *)
Fixpoint put_cells (cells : list Z) : FM unit :=
  match cells with
  | [] => fret tt
  | v :: cells' => fdt_put32 v ;; put_cells cells'
  end.

Definition fdt_prop_tab_u32 (prop_name cells : list Z) : FM unit :=
  fdt_put32 FDT_PROP ;;
  fdt_put32 (Z.of_nat (length cells) * 4) ;;
  let* off := fdt_get_string_offset prop_name in
  fdt_put32 off ;;
  put_cells cells.

Definition fdt_prop_u32 (prop_name : list Z) (val : Z) : FM unit := fdt_prop_tab_u32 prop_name [val].

Definition fdt_prop_u64 (prop_name : list Z) (val : Z) : FM unit :=
  fdt_prop_tab_u32 prop_name [val >> 32; u32 val].

Definition fdt_prop_tab_u64_2 (prop_name : list Z) (v0 v1 : Z) : FM unit :=
  fdt_prop_tab_u32 prop_name [v0 >> 32; u32 v0; v1 >> 32; u32 v1].

Definition fdt_prop_str (prop_name str : list Z) : FM unit := fdt_prop prop_name (cbytes str).

Definition fdt_prop_tab_str (prop_name : list Z) (strs : list (list Z)) : FM unit :=
  fdt_prop prop_name (flat_map cbytes strs).

(** [while ((pos & 7) != 0) dst[pos++] = 0;] *)
Definition align8 (l : list Z) : list Z := l ++ repeat 0 (Z.to_nat ((- Z.of_nat (length l)) .& 7)).

(** [struct fdt_header] in memory. *)
Definition fdt_header (totalsize off_dt_struct off_dt_strings off_mem_rsvmap size_dt_strings size_dt_struct : Z) : list Z :=
  flat_map be32 [FDT_MAGIC; totalsize; off_dt_struct; off_dt_strings; off_mem_rsvmap; FDT_VERSION; 16; 0;
                 size_dt_strings; size_dt_struct].

(** [fdt_output]: the bytes written to [dst]; the result of the function is
    their number. *)
Definition fdt_output : FM (list Z) :=
  let* n := fget open_node_count in
  if negb (n =? 0) then fstopped FAssert
  else
    fdt_put32 FDT_END ;;
    let* structs := fget tab in
    let* strings := fget string_table in
    let pos1 := repeat 0 40 in
    let pos2 := align8 (pos1 ++ structs) in
    let pos3 := pos2 ++ repeat 0 16 in
    let pos4 := align8 (pos3 ++ strings) in
    fret (fdt_header (Z.of_nat (length pos4)) 40 (Z.of_nat (length pos3)) (Z.of_nat (length pos2))
            (Z.of_nat (length strings)) (Z.of_nat (length structs)) ++ skipn 40 pos4).

(** ** The description of the machine *)

(** A C string literal. *)
Definition str (x : string) : list Z := map (fun c => Z.of_N (N_of_ascii c)) (list_ascii_of_string x).
Coercion str : string >-> list.
Open Scope string_scope.
Open Scope list_scope.
Open Scope Z_scope.
Open Scope f_scope.

Definition RTC_FREQ := 1000000.
Definition CPU_FREQUENCY := 2000000000.
Definition VIRTIO_BASE_ADDR := 0x40010000.
Definition VIRTIO_SIZE := 0x1000.
Definition VIRTIO_IRQ := 4.
Definition FRAMEBUFFER_BASE_ADDR := 0x41000000.
Definition DW_APB_UART0_BASE_ADDR := 0x12002000.
Definition DW_APB_UART1_BASE_ADDR := 0x12007000.
Definition DW_APB_UART0_SIZE := 0x1000.
Definition UART0_IRQ := 3.
Definition UART1_IRQ := 15.

Record FBDevice := mkFb { fb_width : Z; fb_height : Z; fb_stride : Z; fb_size : Z }.

(** The fields of [RISCVMachine] that only the device tree needs. *)
Record Layout := mkLayout {
  ram_size : Z;
  clint_base_addr : Z;
  clint_size : Z;
  plic_base_addr : Z;
  plic_size : Z;
  virtio_count : Z;
  fb_dev : option FBDevice
}.

(** [for (int i = 0; i < n; ++i) body] with the loop variable from [lo]. *)
Fixpoint ffor (n : nat) (lo : Z) (body : Z -> FM unit) : FM unit :=
  match n with
  | O => fret tt
  | S n' => body lo ;; ffor n' (lo + 1) body
  end.

(** The letters of the set bits of [misa] behind ["rv64"]. *)
Definition isa_string (misa : Z) : list Z :=
  str "rv64" ++ flat_map (fun i => if misa has (1 << Z.of_nat i) then [97 + Z.of_nat i] else []) (seq 0 26).

(** [m->cpu_state[hartid]->misa] *)
Definition hart_misa (m : RISCVMachine) (hartid : Z) : FM Z :=
  match get_hart m hartid with Some c => fret (u32 (misa c)) | None => fstopped FUndefined end.

(** [hartid2handle[hartid]]: the handles are counted from 1. *)
Definition hart_handle (hartid : Z) : Z := hartid + 1.

Definition fdt_cpu (m : RISCVMachine) (hartid : Z) : FM unit :=
  fdt_begin_node_num "cpu" hartid ;;
  fdt_prop_str "device_type" "cpu" ;;
  fdt_prop_u32 "reg" hartid ;;
  fdt_prop_str "status" "okay" ;;
  fdt_prop_str "compatible" "riscv" ;;
  let* misa := hart_misa m hartid in
  fdt_prop_str "riscv,isa" (isa_string misa) ;;
  fdt_prop_str "mmu-type" "riscv,sv48" ;;
  fdt_prop_u32 "clock-frequency" CPU_FREQUENCY ;;
  fdt_begin_node "interrupt-controller" ;;
  fdt_prop_u32 "#interrupt-cells" 1 ;;
  fdt_prop "interrupt-controller" [] ;;
  fdt_prop_str "compatible" "riscv,cpu-intc" ;;
  fdt_prop_u32 "phandle" (hart_handle hartid) ;;
  fdt_prop_u32 "linux,phandle" (hart_handle hartid) ;;
  fdt_end_node ;;
  fdt_end_node.

(** The interrupt cells of all harts: two interrupts of each. *)
Definition hart_cells (n : nat) (irq0 irq1 : Z) : list Z :=
  flat_map (fun h => [hart_handle (Z.of_nat h); irq0; hart_handle (Z.of_nat h); irq1]) (seq 0 n).

Definition fdt_clint (n : nat) (y : Layout) : FM unit :=
  fdt_begin_node_num "clint" (clint_base_addr y) ;;
  fdt_prop_str "compatible" "riscv,clint0" ;;
  fdt_prop_tab_u32 "interrupts-extended" (hart_cells n 3 7) ;;
  fdt_prop_tab_u64_2 "reg" (clint_base_addr y) (clint_size y) ;;
  fdt_end_node.

Definition fdt_plic (n : nat) (y : Layout) (plic_phandle : Z) : FM unit :=
  fdt_begin_node_num "plic" (plic_base_addr y) ;;
  fdt_prop_u32 "#interrupt-cells" 1 ;;
  fdt_prop "interrupt-controller" [] ;;
  fdt_prop_str "compatible" "riscv,plic0" ;;
  fdt_prop_u32 "riscv,ndev" 31 ;;
  fdt_prop_tab_u64_2 "reg" (plic_base_addr y) (plic_size y) ;;
  fdt_prop_tab_u32 "interrupts-extended" (hart_cells n 9 11) ;;
  fdt_prop_u32 "phandle" plic_phandle ;;
  fdt_end_node.

Definition fdt_virtio (plic_phandle i : Z) : FM unit :=
  fdt_begin_node_num "virtio" (VIRTIO_BASE_ADDR + i * VIRTIO_SIZE) ;;
  fdt_prop_str "compatible" "virtio,mmio" ;;
  fdt_prop_tab_u64_2 "reg" (VIRTIO_BASE_ADDR + i * VIRTIO_SIZE) VIRTIO_SIZE ;;
  fdt_prop_tab_u32 "interrupts-extended" [plic_phandle; VIRTIO_IRQ + i] ;;
  fdt_end_node.

Definition fdt_uart (plic_phandle uart_no : Z) : FM unit :=
  let base_addr := if uart_no =? 0 then DW_APB_UART0_BASE_ADDR else DW_APB_UART1_BASE_ADDR in
  fdt_begin_node_num "uart" base_addr ;;
  fdt_prop_tab_u64_2 "reg" base_addr DW_APB_UART0_SIZE ;;
  fdt_prop_u32 "current-speed" 115200 ;;
  fdt_prop_u32 "clock-frequency" 25000000 ;;
  fdt_prop_u32 "reg-shift" 2 ;;
  fdt_prop_u32 "reg-io-width" 4 ;;
  fdt_prop_str "compatible" "ns16550a" ;;
  fdt_prop_u32 "interrupt-parent" plic_phandle ;;
  fdt_prop_u32 "interrupts" (if uart_no =? 0 then UART0_IRQ else UART1_IRQ) ;;
  fdt_end_node.

Definition fdt_framebuffer (fb : option FBDevice) : FM unit :=
  match fb with
  | None => fret tt
  | Some f =>
      fdt_begin_node_num "framebuffer" FRAMEBUFFER_BASE_ADDR ;;
      fdt_prop_str "compatible" "simple-framebuffer" ;;
      fdt_prop_tab_u64_2 "reg" FRAMEBUFFER_BASE_ADDR (fb_size f) ;;
      fdt_prop_u32 "width" (fb_width f) ;;
      fdt_prop_u32 "height" (fb_height f) ;;
      fdt_prop_u32 "stride" (fb_stride f) ;;
      fdt_prop_str "format" "a8r8g8b8" ;;
      fdt_end_node
  end.

Definition fdt_chosen (cmd_line : option (list Z)) (initrd_start initrd_end : Z) : FM unit :=
  fdt_begin_node "chosen" ;;
  fdt_prop_str "bootargs" (default (str "") cmd_line) ;;
  (if nz initrd_start && (initrd_start <? initrd_end)
   then fdt_prop_u64 "linux,initrd-start" initrd_start ;;
        fdt_prop_u64 "linux,initrd-end" initrd_end
   else fret tt) ;;
  fdt_end_node.

Definition fdt_cpus (m : RISCVMachine) : FM unit :=
  fdt_begin_node "cpus" ;;
  fdt_prop_u32 "#address-cells" 1 ;;
  fdt_prop_u32 "#size-cells" 0 ;;
  fdt_prop_u32 "timebase-frequency" RTC_FREQ ;;
  ffor (Z.to_nat (ncpus m)) 0 (fdt_cpu m) ;;
  fdt_end_node.

Definition fdt_memory (m : RISCVMachine) (y : Layout) : FM unit :=
  fdt_begin_node_num "memory" (ram_base_addr m) ;;
  fdt_prop_str "device_type" "memory" ;;
  fdt_prop_tab_u32 "reg" [ram_base_addr m >> 32; u32 (ram_base_addr m); ram_size y >> 32; u32 (ram_size y)] ;;
  fdt_end_node.

Definition fdt_soc (m : RISCVMachine) (y : Layout) : FM unit :=
  let plic_phandle := ncpus m + 1 in
  fdt_begin_node "soc" ;;
  fdt_prop_u32 "#address-cells" 2 ;;
  fdt_prop_u32 "#size-cells" 2 ;;
  fdt_prop_tab_str "compatible" [str "ucbbar,majordomo-bar-soc"; str "simple-bus"] ;;
  fdt_prop "ranges" [] ;;
  fdt_clint (Z.to_nat (ncpus m)) y ;;
  fdt_plic (Z.to_nat (ncpus m)) y plic_phandle ;;
  ffor (Z.to_nat (virtio_count y)) 0 (fdt_virtio plic_phandle) ;;
  ffor 2 0 (fdt_uart plic_phandle) ;;
  fdt_framebuffer (fb_dev y) ;;
  fdt_end_node.

(** [riscv_build_fdt] without a [dtb_name]: the bytes of the blob.  The table
    of interrupt cells has room for [MAX_CPUS] harts. *)
Definition riscv_build_fdt (m : RISCVMachine) (y : Layout) (cmd_line : option (list Z)) (initrd_start initrd_end : Z) : list Z + fstop :=
  if MAX_CPUS <? ncpus m then inr FUndefined else
  let build :=
    fdt_begin_node "" ;;
    fdt_prop_u32 "#address-cells" 2 ;;
    fdt_prop_u32 "#size-cells" 2 ;;
    fdt_prop_str "compatible" "ucbbar,majordomo-bar_dev" ;;
    fdt_prop_str "model" "ucbbar,majordomo-bare" ;;
    fdt_cpus m ;;
    fdt_memory m y ;;
    fdt_soc m y ;;
    fdt_chosen cmd_line initrd_start initrd_end ;;
    fdt_end_node ;;
    fdt_output in
  match build fdt_init with inl (_, blob) => inl blob | inr e => inr e end.

(** ** Reading a blob *)

Inductive fdt_token :=
| TBegin (name : list Z)
| TProp (name data : list Z)
| TEnd.

Definition rd32 (l : list Z) : option (Z * list Z) :=
  match l with
  | a :: b :: c :: d :: r => Some (le_value [d; c; b; a], r)
  | _ => None
  end.

(** The structure block from [l] on: names and values are padded to multiples
    of four bytes, property names are offsets into [strings]. *)
Fixpoint read_struct (fuel : nat) (strings l : list Z) : option (list fdt_token) :=
  match fuel with
  | O => None
  | S fuel' =>
      let pad n := (n + Z.to_nat ((- Z.of_nat n) .& 3))%nat in
      match rd32 l with
      | None => None
      | Some (t, r) =>
          if t =? FDT_END then Some []
          else if t =? FDT_NOP then read_struct fuel' strings r
          else if t =? FDT_END_NODE then cons TEnd <$> read_struct fuel' strings r
          else if t =? FDT_BEGIN_NODE then
            match cstr r with
            | Some name => cons (TBegin name) <$> read_struct fuel' strings (skipn (pad (length name + 1)%nat) r)
            | None => None
            end
          else if t =? FDT_PROP then
            match rd32 r with
            | Some (len, r1) =>
                match rd32 r1 with
                | Some (nameoff, r2) =>
                    let n := Z.to_nat len in
                    if (length r2 <? n)%nat then None
                    else match cstr (skipn (Z.to_nat nameoff) strings) with
                         | Some name => cons (TProp name (firstn n r2)) <$> read_struct fuel' strings (skipn (pad n) r2)
                         | None => None
                         end
                | None => None
                end
            | None => None
            end
          else None
      end
  end.

(** The big-endian word at byte [pos] of the blob. *)
Definition word_at (blob : list Z) (pos : nat) : option Z := fst <$> rd32 (skipn pos blob).

Definition read_fdt (blob : list Z) : option (list fdt_token) :=
  match word_at blob 0, word_at blob 4, word_at blob 8, word_at blob 12, word_at blob 20 with
  | Some magic, Some totalsize, Some off_struct, Some off_strings, Some version =>
      if (magic =? FDT_MAGIC) && (totalsize =? Z.of_nat (length blob)) && (version =? FDT_VERSION)
      then read_struct (length blob) (skipn (Z.to_nat off_strings) blob) (skipn (Z.to_nat off_struct) blob)
      else None
  | _, _, _, _, _ => None
  end.

(** ** Trees *)

(** A node with its properties and children. *)
#[warnings="-register-all"]
Inductive dt_node := Node (name : list Z) (props : list (list Z * list Z)) (children : list dt_node).

(** The calls that build a tree. *)
Fixpoint build_node (t : dt_node) : FM unit :=
  let '(Node name props children) := t in
  fdt_begin_node name ;;
  (fix build_props ps : FM unit :=
     match ps with
     | [] => fret tt
     | (n, d) :: ps' => fdt_prop n d ;; build_props ps'
     end) props ;;
  (fix build_nodes ts : FM unit :=
     match ts with
     | [] => fret tt
     | t' :: ts' => build_node t' ;; build_nodes ts'
     end) children ;;
  fdt_end_node.

Fixpoint node_tokens (t : dt_node) : list fdt_token :=
  let '(Node name props children) := t in
  [TBegin name] ++ map (fun p => TProp p.1 p.2) props ++ flat_map node_tokens children ++ [TEnd].

(** A C string: bytes other than the terminator. *)
Definition cstring (l : list Z) : Prop := Forall (fun b => 0 < b < 256) l.

Definition token_ok (t : fdt_token) : Prop :=
  match t with
  | TBegin n => cstring n
  | TProp n d => cstring n /\ Forall (in_u 8) d
  | TEnd => True
  end.

(** An upper bound of the bytes a token takes in both tables. *)
Definition token_size (t : fdt_token) : Z :=
  match t with
  | TBegin n => Z.of_nat (length n) + 8
  | TProp n d => Z.of_nat (length n) + Z.of_nat (length d) + 16
  | TEnd => 4
  end.

Definition tokens_size (l : list fdt_token) : Z := fold_right (fun t z => token_size t + z) 0 l.

(** The change of [open_node_count]. *)
Definition token_depth (t : fdt_token) : Z := match t with TBegin _ => 1 | TProp _ _ => 0 | TEnd => -1 end.
Definition tokens_depth (l : list fdt_token) : Z := fold_right (fun t z => token_depth t + z) 0 l.

(** The sizes for which no [int] of the builder overflows. *)
Definition FDT_LIMIT := 2 ^ 28.

(** ** Words and strings *)

Lemma be32_length v : length (be32 v) = 4%nat.
Proof. reflexivity. Qed.

Lemma be32_u v : be32 (u32 v) = be32 v.
Proof.
  unfold be32. change 32 with (8 * Z.of_nat 4). rewrite le_bytes_uN. reflexivity.
Qed.

Lemma rd32_be32 v r : in_u 32 v -> rd32 (be32 v ++ r) = Some (v, r).
Proof.
  intros H. change (be32 v ++ r) with (rev (le_bytes 4 v) ++ r). cbn [le_bytes rev app rd32].
  change [u8 v; u8 (v >> 8); u8 (v >> 8 >> 8); u8 (v >> 8 >> 8 >> 8)] with (le_bytes 4 v).
  rewrite le_value_bytes. change (8 * Z.of_nat 4) with 32. rewrite (u_small 32 v H). reflexivity.
Qed.

Lemma cstr_app x r : cstring x -> cstr (x ++ 0 :: r) = Some x.
Proof.
  intros H. induction H as [|b x Hb H IH]; [reflexivity|]. cbn [app cstr]. destruct (Z.eqb_spec b 0); [lia|]. rewrite IH. reflexivity.
Qed.

Lemma cstr_more l x e : cstr l = Some x -> cstr (l ++ e) = Some x.
Proof.
  revert x. induction l as [|b l IH]; intros x; cbn [cstr app]; [discriminate|]. destruct (b =? 0); [auto|].
  destruct (cstr l) as [y|]; cbn; [|discriminate]. intros [= <-]. rewrite (IH y eq_refl). reflexivity.
Qed.

Lemma cstr_skipn_more p l x e : cstr (skipn p l) = Some x -> cstr (skipn p (l ++ e)) = Some x.
Proof.
  intros H. rewrite skipn_app. assert (p <= length l)%nat.
  { destruct (Nat.le_gt_cases p (length l)); [assumption|]. rewrite skipn_all2 in H by lia. discriminate. }
  replace (p - length l)%nat with 0%nat by lia. apply cstr_more, H.
Qed.

Lemma padding_length n : Z.of_nat (length (padding (Z.of_nat n))) = (- Z.of_nat n) mod 4.
Proof.
  unfold padding. rewrite repeat_length. change 3 with (Z.ones 2). rewrite Z.land_ones by lia. change (2 ^ 2) with 4.
  rewrite Z2Nat.id; [reflexivity|]. apply Z.mod_pos_bound. lia.
Qed.

(** ** The tables never overflow *)

Record cap (s : FDTState) : Prop := {
  c_words : Z.of_nat (length (tab s)) mod 4 = 0;
  c_tab : Z.of_nat (length (tab s)) <= 4 * tab_size s;
  c_tab_size : 0 <= tab_size s <= 2 ^ 29;
  c_str_size : 0 <= string_table_size s <= 2 ^ 29
}.

Lemma grow_spec len size : 0 <= len <= FDT_LIMIT -> 0 <= size <= 2 ^ 29 ->
  exists n, grow len size = Some n /\ len <= n /\ size <= n /\ 0 <= n <= 2 ^ 29.
Proof.
  unfold grow, FDT_LIMIT, INT_MAX. intros Hl Hs. destruct (Z.ltb_spec size len); [|exists size; split; [reflexivity|lia]].
  destruct (Z.leb_spec (size * 3) (2 ^ 31 - 1)); [|lia].
  eexists. split; [reflexivity|]. assert (size * 3 / 2 <= 2 ^ 29) by (apply Z.div_le_upper_bound; lia).
  assert (size <= size * 3 / 2) by (apply Z.div_le_lower_bound; lia). lia.
Qed.

(** [m] appends [bytes] to the words. *)
Definition stores (m : FM unit) (bytes : list Z) : Prop :=
  forall s, cap s -> Z.of_nat (length (tab s)) + Z.of_nat (length bytes) <= FDT_LIMIT ->
    exists n, let s' := mkFdt (tab s ++ bytes) n (open_node_count s) (string_table s) (string_table_size s) in
      m s = inl (s', tt) /\ cap s'.

Lemma alloc_store k bytes : Z.of_nat (length bytes) = 4 * k ->
  stores (let* n := fget tab_len in fdt_alloc_len (n + k) ;; tab_store bytes) bytes.
Proof.
  intros Hk s [H1 H2 H3 H4] Hl. unfold fbind, fget, fdt_alloc_len, tab_len.
  assert (Hd : Z.of_nat (length (tab s)) / 4 * 4 = Z.of_nat (length (tab s))) by (pose proof (Z.div_mod (Z.of_nat (length (tab s))) 4); lia).
  unfold FDT_LIMIT in *. destruct (Z.leb_spec (Z.of_nat (length (tab s)) / 4 + k) INT_MAX); [|unfold INT_MAX in *; lia]. cbn [negb].
  destruct (grow_spec (Z.of_nat (length (tab s)) / 4 + k) (tab_size s)) as (n & -> & A & B & C); [unfold FDT_LIMIT; lia|exact H3|].
  unfold tab_store. cbn [tab tab_size open_node_count string_table string_table_size].
  rewrite length_app, Nat2Z.inj_add. destruct (Z.leb_spec (Z.of_nat (length (tab s)) + Z.of_nat (length bytes)) (4 * n)); [|lia].
  exists n. split; [reflexivity|]. split; cbn [tab tab_size string_table_size]; rewrite ?length_app, ?Nat2Z.inj_add; try lia.
  rewrite Hk. rewrite Z.mul_comm, Z.mod_add by lia. exact H1.
Qed.

Lemma put32_stores v : stores (fdt_put32 v) (be32 v).
Proof. apply (alloc_store 1 (be32 v)). reflexivity. Qed.

Lemma put_data_stores data : stores (fdt_put_data data) (data ++ padding (Z.of_nat (length data))).
Proof.
  intros s Hc Hl. unfold fdt_put_data.
  assert (Hp : Z.of_nat (length (data ++ padding (Z.of_nat (length data)))) = 4 * ((Z.of_nat (length data) + 3) / 4)).
  { rewrite length_app, Nat2Z.inj_add, padding_length. clear. Z.to_euclidean_division_equations; lia. }
  pose proof Hl as Hl'. rewrite Hp in Hl'. destruct (Z.leb_spec (Z.of_nat (length data) + 3) INT_MAX) as [|Hn]; cbn [negb].
  - apply (alloc_store ((Z.of_nat (length data) + 3) / 4)); assumption.
  - unfold INT_MAX, FDT_LIMIT in *. exfalso. clear - Hl' Hn. Z.to_euclidean_division_equations; lia.
Qed.

Lemma stores_bind m1 m2 b1 b2 : stores m1 b1 -> stores m2 b2 -> stores (m1 ;; m2) (b1 ++ b2).
Proof.
  intros H1 H2 s Hc Hl. rewrite length_app, Nat2Z.inj_add in Hl. destruct (H1 s Hc) as (n & E & C1); [lia|].
  destruct (H2 _ C1) as (n2 & E2 & C2); [cbn [tab]; rewrite length_app; lia|].
  exists n2. cbn [tab open_node_count string_table string_table_size] in *. rewrite <- app_assoc in *. split; [|exact C2].
  unfold fbind. rewrite E. exact E2.
Qed.

Lemma put_cells_stores cells : stores (put_cells cells) (flat_map be32 cells).
Proof.
  induction cells as [|v cells IH]; [|apply stores_bind; [apply put32_stores|exact IH]].
  intros s Hc _. exists (tab_size s). cbn [flat_map]. rewrite app_nil_r. destruct s. split; [reflexivity|exact Hc].
Qed.

(** ** The string table *)

Definition strings_of (names : list (list Z)) : list Z := flat_map cbytes names.

Definition strings_ok (table : list Z) : Prop := exists names, table = strings_of names /\ Forall cstring names.

Lemma cbytes_length x : length (cbytes x) = S (length x).
Proof. unfold cbytes. rewrite length_app. cbn. lia. Qed.

Lemma find_string_spec name names : forall fuel pre, Forall cstring names ->
  (length (strings_of names) < fuel)%nat ->
  let table := pre ++ strings_of names in
  find_string fuel table (length pre) name = Some None \/
  exists pos, find_string fuel table (length pre) name = Some (Some (Z.of_nat pos)) /\
    cstr (skipn pos table) = Some name /\ (pos < length table)%nat.
Proof.
  induction names as [|x names IH]; intros [|fuel] pre Hn Hf; cbv zeta; cbn [strings_of flat_map] in *; try (cbn in Hf; lia).
  - left. cbn [find_string]. rewrite app_nil_r, Nat.ltb_irrefl. reflexivity.
  - fold (strings_of names) in *. inversion_clear Hn as [|? ? Hx Hns]. rewrite length_app, cbytes_length in Hf.
    cbn [find_string]. destruct (Nat.ltb_spec (length pre) (length (pre ++ cbytes x ++ strings_of names))) as [|Hge];
      [|rewrite !length_app, cbytes_length in Hge; lia].
    assert (Hc : cstr (skipn (length pre) (pre ++ cbytes x ++ strings_of names)) = Some x).
    { rewrite skipn_app, skipn_all, Nat.sub_diag. cbn [app skipn]. unfold cbytes. rewrite <- app_assoc. apply cstr_app, Hx. }
    rewrite Hc. destruct (decide (x = name)) as [->|Hne].
    + right. exists (length pre). auto.
    + replace (length pre + length x + 1)%nat with (length (pre ++ cbytes x)) by (rewrite length_app, cbytes_length; lia).
      rewrite app_assoc. apply IH; [exact Hns|lia].
Qed.

Lemma get_string_offset_spec s name : cap s -> strings_ok (string_table s) -> cstring name ->
  Z.of_nat (length (string_table s)) + Z.of_nat (length name) + 1 <= FDT_LIMIT ->
  exists ext n off, let s' := mkFdt (tab s) (tab_size s) (open_node_count s) (string_table s ++ ext) n in
    fdt_get_string_offset name s = inl (s', Z.of_nat off) /\ cap s' /\ strings_ok (string_table s') /\
    cstr (skipn off (string_table s')) = Some name /\ Z.of_nat off < FDT_LIMIT /\
    (length ext <= length name + 1)%nat.
Proof.
  intros [C1 C2 C3 C4] (names & Et & Hn) Hc Hl. unfold fdt_get_string_offset.
  pose proof (find_string_spec name names (S (length (string_table s))) [] Hn ltac:(rewrite Et; lia)) as F.
  cbv zeta in F. cbn [app length] in F. rewrite <- Et in F. destruct F as [-> | (pos & -> & Hp & Hlt)].
  - destruct (Z.leb_spec (string_table_len s + Z.of_nat (length name) + 1) INT_MAX) as [|Hge];
      [|unfold INT_MAX, FDT_LIMIT, string_table_len in *; lia]. cbn [negb].
    destruct (grow_spec (string_table_len s + Z.of_nat (length name) + 1) (string_table_size s)) as (n & -> & A & B & D);
      [unfold string_table_len; lia|exact C4|].
    exists (cbytes name), n, (length (string_table s)). cbv zeta. cbn [string_table]. split; [reflexivity|].
    split; [split; assumption|]. split; [|split; [|split; [unfold FDT_LIMIT in *; lia|rewrite cbytes_length; lia]]].
    + exists (names ++ [name]). unfold strings_of. rewrite flat_map_app. cbn [flat_map]. rewrite app_nil_r.
      split; [unfold strings_of in Et; congruence|]. apply Forall_app. auto.
    + rewrite skipn_app, skipn_all, Nat.sub_diag. apply cstr_app, Hc.
  - exists [], (string_table_size s), pos. cbv zeta. rewrite app_nil_r. cbn [string_table]. split; [destruct s; reflexivity|].
    split; [split; assumption|]. split; [exists names; auto|]. split; [exact Hp|]. split; [unfold FDT_LIMIT in *; lia|]. cbn. lia.
Qed.

(** ** The tokens a call writes *)

(** The bytes of a token, given the offset of its name. *)
Definition enc (e : fdt_token * nat) : list Z :=
  match e.1 with
  | TBegin n => be32 FDT_BEGIN_NODE ++ cbytes n ++ padding (Z.of_nat (length (cbytes n)))
  | TProp n d => be32 FDT_PROP ++ be32 (Z.of_nat (length d)) ++ be32 (Z.of_nat e.2) ++ d ++ padding (Z.of_nat (length d))
  | TEnd => be32 FDT_END_NODE
  end.

Definition name_at (table : list Z) (e : fdt_token * nat) : Prop :=
  match e.1 with
  | TProp n _ => cstr (skipn e.2 table) = Some n /\ Z.of_nat e.2 < FDT_LIMIT
  | _ => True
  end.

Record good (s : FDTState) (es : list (fdt_token * nat)) : Prop := {
  g_cap : cap s;
  g_strings : strings_ok (string_table s);
  g_tab : tab s = flat_map enc es;
  g_names : Forall (name_at (string_table s)) es;
  g_tokens : Forall token_ok (map fst es)
}.

Definition weight (s : FDTState) : Z := Z.of_nat (length (tab s)) + Z.of_nat (length (string_table s)).

Definition emits {A} (m : FM A) (toks : list fdt_token) (a : A) : Prop :=
  forall s es, good s es -> weight s + tokens_size toks <= FDT_LIMIT ->
    exists s' es', m s = inl (s', a) /\ good s' (es ++ es') /\ map fst es' = toks /\
      open_node_count s' = open_node_count s + tokens_depth toks /\ weight s' <= weight s + tokens_size toks.

Lemma tokens_size_app l1 l2 : tokens_size (l1 ++ l2) = tokens_size l1 + tokens_size l2.
Proof. unfold tokens_size. induction l1 as [|t l1 IH]; cbn [app fold_right]; [lia|]. rewrite IH. lia. Qed.

Lemma tokens_depth_app l1 l2 : tokens_depth (l1 ++ l2) = tokens_depth l1 + tokens_depth l2.
Proof. unfold tokens_depth. induction l1 as [|t l1 IH]; cbn [app fold_right]; [lia|]. rewrite IH. lia. Qed.

Lemma tokens_size_nonneg l : 0 <= tokens_size l.
Proof. unfold tokens_size. induction l as [|[] l IH]; cbn [fold_right token_size]; lia. Qed.

Lemma emits_ret {A} (a : A) : emits (fret a) [] a.
Proof. intros s es G _. exists s, []. rewrite app_nil_r. cbn. split; [reflexivity|]. split; [exact G|]. split; [reflexivity|]. lia. Qed.

Lemma emits_bind {A B} (m : FM A) (k : A -> FM B) t1 t2 a b : emits m t1 a -> emits (k a) t2 b -> emits (fbind m k) (t1 ++ t2) b.
Proof.
  intros H1 H2 s es G W. rewrite tokens_size_app in W. pose proof (tokens_size_nonneg t2).
  destruct (H1 s es G) as (s1 & e1 & E1 & G1 & M1 & O1 & W1); [lia|].
  destruct (H2 s1 _ G1) as (s2 & e2 & E2 & G2 & M2 & O2 & W2); [lia|].
  exists s2, (e1 ++ e2). unfold fbind. rewrite E1. split; [exact E2|]. split; [rewrite app_assoc; exact G2|].
  rewrite map_app, tokens_size_app, tokens_depth_app. split; [congruence|]. lia.
Qed.

(** Appending a token whose name is in the table. *)
Lemma good_snoc s es e n o ext m : good s es -> cap (mkFdt (tab s ++ enc e) n o (string_table s ++ ext) m) ->
  strings_ok (string_table s ++ ext) -> name_at (string_table s ++ ext) e -> token_ok e.1 ->
  good (mkFdt (tab s ++ enc e) n o (string_table s ++ ext) m) (es ++ [e]).
Proof.
  intros [G1 G2 G3 G4 G5] C S N T. split; cbn [tab string_table]; [exact C|exact S| | |].
  - rewrite flat_map_app, G3. cbn. rewrite app_nil_r. reflexivity.
  - apply Forall_app. split; [|auto]. eapply Forall_impl; [|exact G4]. intros [[|n' d|] o']; unfold name_at; cbn; auto.
    intros [Hc Ho]. split; [apply cstr_skipn_more, Hc|exact Ho].
  - rewrite map_app. apply Forall_app. cbn. auto.
Qed.

(** The calls that write words only. *)
Lemma emits_stores m e d : stores m (enc e) -> (forall table, name_at table e) -> token_ok e.1 -> token_depth e.1 = d ->
  Z.of_nat (length (enc e)) <= token_size e.1 -> emits (m ;; add_open d) [e.1] tt.
Proof.
  intros H N T D L s es G W. cbn [tokens_size fold_right] in W. destruct (H s (g_cap _ _ G)) as (n & E & C).
  { unfold weight in W. lia. }
  unfold fbind. rewrite E. eexists _, [e]. split; [reflexivity|]. cbn [open_node_count tab string_table string_table_size tab_size].
  pose proof (good_snoc s es e n (open_node_count s + d) [] (string_table_size s)) as K. rewrite app_nil_r in K.
  split; [apply K; auto; [destruct C; split; assumption|apply G]|].
  split; [reflexivity|]. unfold weight. cbn [tab string_table open_node_count]. rewrite length_app. cbn. lia.
Qed.

Lemma emits_begin name : cstring name -> emits (fdt_begin_node name) [TBegin name] tt.
Proof.
  intros Hn s es. change (fdt_begin_node name) with (fdt_put32 FDT_BEGIN_NODE ;; (fdt_put_data (cbytes name) ;; add_open 1)).
  replace ((fdt_put32 FDT_BEGIN_NODE ;; (fdt_put_data (cbytes name) ;; add_open 1)) s)
    with (((fdt_put32 FDT_BEGIN_NODE ;; fdt_put_data (cbytes name)) ;; add_open 1) s)
    by (unfold fbind; destruct (fdt_put32 FDT_BEGIN_NODE s) as [[? ?]|]; reflexivity).
  apply (emits_stores _ (TBegin name, 0%nat)); auto; [|exact (fun _ => I)|].
  - apply stores_bind; [apply put32_stores|apply put_data_stores].
  - cbn [enc fst]. rewrite !length_app, be32_length, !Nat2Z.inj_add, padding_length, cbytes_length. cbn [token_size].
    pose proof (Z.mod_pos_bound (- Z.of_nat (S (length name))) 4). lia.
Qed.

Lemma emits_end : emits fdt_end_node [TEnd] tt.
Proof. apply (emits_stores _ (TEnd, 0%nat)); [apply put32_stores|exact (fun _ => I)|exact I|reflexivity|reflexivity]. Qed.

(** The calls that write a property, whatever writes its value. *)
Lemma emits_value n d W : stores W (d ++ padding (Z.of_nat (length d))) -> cstring n -> Forall (in_u 8) d ->
  emits (fdt_put32 FDT_PROP ;; fdt_put32 (Z.of_nat (length d)) ;; let* off := fdt_get_string_offset n in fdt_put32 off ;; W) [TProp n d] tt.
Proof.
  intros HW Hn Hd s es G Hl. cbn [tokens_size fold_right token_size] in Hl. unfold weight in Hl.
  pose proof (Z.mod_pos_bound (- Z.of_nat (length d)) 4 ltac:(lia)) as Hm. pose proof (padding_length (length d)) as Hp.
  destruct (stores_bind _ _ _ _ (put32_stores FDT_PROP) (put32_stores (Z.of_nat (length d))) s (g_cap _ _ G)) as (n1 & E1 & C1).
  { rewrite length_app, !be32_length. lia. }
  destruct (get_string_offset_spec _ n C1) as (ext & n2 & off & E2 & C2 & S2 & F2 & L2 & X2); cbn [string_table] in *;
    [exact (g_strings _ _ G)|exact Hn|lia|].
  destruct (stores_bind _ _ _ _ (put32_stores (Z.of_nat off)) HW _ C2) as (n3 & E3 & C3).
  { cbn [tab]. rewrite !length_app, !be32_length. lia. }
  cbn [tab tab_size open_node_count string_table string_table_size] in *.
  assert (Eb : (tab s ++ be32 FDT_PROP ++ be32 (Z.of_nat (length d))) ++ be32 (Z.of_nat off) ++ d ++ padding (Z.of_nat (length d)) =
    tab s ++ enc (TProp n d, off)) by (cbn [enc fst snd]; rewrite <- !app_assoc; reflexivity). rewrite Eb in *.
  eexists _, [(TProp n d, off)]. split; [|split; [apply good_snoc; [exact G|exact C3|exact S2|split; assumption|split; assumption]|]].
  - revert E1 E3. unfold fbind. destruct (fdt_put32 FDT_PROP s) as [[s0 []]|]; [|discriminate]. intros ->. rewrite E2. exact (fun E => E).
  - split; [reflexivity|]. unfold weight. cbn [open_node_count tab string_table tokens_size tokens_depth fold_right token_depth token_size].
    split; [lia|]. cbn [enc fst snd]. rewrite !length_app, !be32_length. lia.
Qed.

Lemma emits_prop n d : cstring n -> Forall (in_u 8) d -> emits (fdt_prop n d) [TProp n d] tt.
Proof. apply emits_value, put_data_stores. Qed.

(** The bytes of a table of cells. *)
Definition cells_bytes (cells : list Z) : list Z := flat_map be32 cells.

Lemma cells_length cells : Z.of_nat (length (cells_bytes cells)) = Z.of_nat (length cells) * 4.
Proof. unfold cells_bytes. induction cells; cbn [flat_map length]; [reflexivity|]. rewrite length_app, be32_length. lia. Qed.

Lemma cells_wf cells : Forall (in_u 8) (cells_bytes cells).
Proof.
  unfold cells_bytes. induction cells as [|v l IH]; cbn [flat_map]; [constructor|]. apply Forall_app. split; [|exact IH].
  apply Forall_rev, le_bytes_wf.
Qed.

Lemma emits_cells n cells : cstring n -> emits (fdt_prop_tab_u32 n cells) [TProp n (cells_bytes cells)] tt.
Proof.
  intros Hn. unfold fdt_prop_tab_u32. rewrite <- cells_length. apply emits_value; [|exact Hn|apply cells_wf].
  assert (Hp : padding (Z.of_nat (length (cells_bytes cells))) = []).
  { apply nil_length_inv. apply Nat2Z.inj. rewrite padding_length, cells_length. clear. cbn. Z.to_euclidean_division_equations; lia. }
  rewrite Hp, app_nil_r. apply put_cells_stores.
Qed.

(** ** Reading what was written *)

Ltac small_word := unfold in_u; vm_compute; split; congruence.

Lemma skip_value d r : skipn (length d + Z.to_nat ((- Z.of_nat (length d)) .& 3)) (d ++ padding (Z.of_nat (length d)) ++ r) = r.
Proof.
  rewrite app_assoc. rewrite skipn_app, skipn_all2 by (rewrite length_app; unfold padding; rewrite repeat_length; lia).
  rewrite length_app. unfold padding. rewrite repeat_length, Nat.sub_diag. reflexivity.
Qed.

Lemma read_enc f strings e r : name_at strings e -> token_ok e.1 -> Z.of_nat (length (enc e)) <= FDT_LIMIT ->
  read_struct (S f) strings (enc e ++ r) = cons e.1 <$> read_struct f strings r.
Proof.
  destruct e as [[n|n d|] off]; intros N T L; cbn [enc fst snd] in *; cbn [read_struct].
  - rewrite <- app_assoc, rd32_be32 by small_word. cbn [Z.eqb FDT_END FDT_NOP FDT_END_NODE FDT_BEGIN_NODE Pos.eqb].
    rewrite <- app_assoc. replace (cstr (cbytes n ++ padding (Z.of_nat (length (cbytes n))) ++ r)) with (Some n).
    + replace (length n + 1)%nat with (length (cbytes n)) by (rewrite cbytes_length; lia). rewrite skip_value. reflexivity.
    + unfold cbytes at 1. rewrite <- app_assoc. symmetry. apply cstr_app, T.
  - destruct N as [N No]. destruct T as [Tn Td]. rewrite !length_app, !be32_length in L. unfold FDT_LIMIT in L, No.
    rewrite <- !app_assoc, rd32_be32 by small_word.
    cbn [Z.eqb FDT_END FDT_NOP FDT_END_NODE FDT_BEGIN_NODE FDT_PROP Pos.eqb].
    cbn [snd] in No, N. do 2 (rewrite rd32_be32 by (unfold in_u; lia); cbv beta iota zeta). rewrite !Nat2Z.id, !length_app.
    match goal with |- context [(?a <? ?b)%nat] => destruct (Nat.ltb_spec a b); [lia|] end.
    rewrite N, skip_value, firstn_app, Nat.sub_diag, firstn_all, app_nil_r. reflexivity.
  - rewrite rd32_be32 by small_word. reflexivity.
Qed.

Lemma read_all strings rest es : forall f, Forall (name_at strings) es -> Forall token_ok (map fst es) ->
  Z.of_nat (length (flat_map enc es)) <= FDT_LIMIT -> (length es < f)%nat ->
  read_struct f strings (flat_map enc es ++ be32 FDT_END ++ rest) = Some (map fst es).
Proof.
  induction es as [|e es IH]; intros [|f] N T L F; try (cbn in F; lia).
  - cbn [flat_map app read_struct]. rewrite rd32_be32 by small_word. reflexivity.
  - cbn [flat_map map] in *. inversion_clear N as [|? ? Ne Ns]. inversion_clear T as [|? ? Te Ts]. rewrite length_app in L.
    rewrite <- app_assoc, read_enc by (auto; lia). rewrite IH; auto; [lia|]. cbn in F. lia.
Qed.

Lemma enc_length es : (4 * length es <= length (flat_map enc es))%nat.
Proof.
  induction es as [|[[|n d|] o] es IH]; [cbn; lia|..]; cbn [flat_map enc fst snd length]; rewrite !length_app, ?be32_length; lia.
Qed.

Lemma align8_length l : Z.of_nat (length (align8 l)) mod 8 = 0 /\ (length l <= length (align8 l) <= length l + 7)%nat.
Proof.
  unfold align8. rewrite length_app, repeat_length. change 7 with (Z.ones 3). rewrite Z.land_ones by lia. change (2 ^ 3) with 8.
  pose proof (Z.mod_pos_bound (- Z.of_nat (length l)) 8 ltac:(lia)). split; [|lia]. rewrite Nat2Z.inj_add, Z2Nat.id by lia.
  clear. Z.to_euclidean_division_equations; lia.
Qed.

Lemma header_length a b c d e f : length (fdt_header a b c d e f) = 40%nat.
Proof. reflexivity. Qed.

(** The words of the header. *)
Lemma header_word a b c d e f rest i v : nth_error [FDT_MAGIC; a; b; c; d; FDT_VERSION; 16; 0; e; f] i = Some v -> in_u 32 v ->
  word_at (fdt_header a b c d e f ++ rest) (4 * i) = Some v.
Proof.
  intros H Hv. unfold word_at, fdt_header. set (l := [FDT_MAGIC; a; b; c; d; FDT_VERSION; 16; 0; e; f]) in *.
  revert i H. generalize l. clear l. induction l as [|x l IH]; intros [|i] H; try discriminate.
  - injection H as ->. change (fst <$> rd32 ((be32 v ++ flat_map be32 l) ++ rest) = Some v). rewrite <- app_assoc, rd32_be32 by exact Hv. reflexivity.
  - cbn [flat_map]. replace (4 * S i)%nat with (length (be32 x) + 4 * i)%nat by (rewrite be32_length; lia).
    rewrite <- app_assoc, skipn_app, skipn_all2, Nat.add_comm, Nat.add_sub by lia. apply (IH i H).
Qed.

(** A finished builder: the blob reads back. *)
Lemma output_reads s es : good s es -> open_node_count s = 0 -> weight s + 4 <= FDT_LIMIT ->
  exists s' blob, fdt_output s = inl (s', blob) /\ read_fdt blob = Some (map fst es) /\ Z.of_nat (length blob) mod 8 = 0.
Proof.
  intros [G1 G2 G3 G4 G5] Ho W. unfold fdt_output, fbind at 1, fget. rewrite Ho. cbn [Z.eqb negb].
  unfold weight, FDT_LIMIT in W. destruct (put32_stores FDT_END s G1) as (n & E & C); [rewrite be32_length; unfold FDT_LIMIT; lia|].
  unfold fbind. rewrite E. cbn [tab string_table]. set (S1 := tab s ++ be32 FDT_END). set (T := string_table s).
  assert (L1 : length S1 = (length (tab s) + 4)%nat) by (unfold S1; rewrite length_app, be32_length; reflexivity).
  set (Z40 := repeat 0 40). set (p2 := align8 (Z40 ++ S1)). set (p3 := p2 ++ repeat 0 16). set (p4 := align8 (p3 ++ T)).
  destruct (align8_length (Z40 ++ S1)) as [_ A2]. fold p2 in A2. destruct (align8_length (p3 ++ T)) as [A4 B4]. fold p4 in A4, B4.
  assert (L3 : length p3 = (length p2 + 16)%nat) by (unfold p3; rewrite length_app, repeat_length; reflexivity).
  rewrite length_app in A2, B4. change (length Z40) with 40%nat in A2. fold T in W.
  eexists _, _. split; [reflexivity|]. set (H := fdt_header _ _ _ _ _ _). set (body := skipn 40 p4).
  assert (E4 : exists x, p4 = Z40 ++ S1 ++ x) by (unfold p4, p3, p2, align8; eexists; rewrite <- !app_assoc; reflexivity).
  assert (E3 : exists y, p4 = p3 ++ T ++ y) by (unfold p4, align8; eexists; rewrite <- !app_assoc; reflexivity).
  destruct E4 as [x E4]. destruct E3 as [y E3].
  assert (Lb : length (H ++ body) = length p4).
  { rewrite length_app. change (length H) with 40%nat. unfold body. rewrite length_skipn. lia. }
  assert (Hs : skipn 40 (H ++ body) = S1 ++ x).
  { change 40%nat with (length H). rewrite skipn_app, skipn_all, Nat.sub_diag. cbn [app skipn]. unfold body. rewrite E4. reflexivity. }
  assert (Ht : skipn (length p3) (H ++ body) = T ++ y).
  { replace (length p3) with ((length p3 - 40) + 40)%nat by lia. rewrite <- skipn_skipn, Hs.
    change (S1 ++ x) with (skipn 40 (Z40 ++ S1 ++ x)). rewrite <- E4, skipn_skipn.
    replace ((length p3 - 40) + 40)%nat with (length p3) by lia. rewrite E3, skipn_app, skipn_all, Nat.sub_diag. reflexivity. }
  split; [|rewrite Lb; exact A4]. unfold read_fdt.
  pose proof (header_word (Z.of_nat (length p4)) 40 (Z.of_nat (length p3)) (Z.of_nat (length p2)) (Z.of_nat (length T)) (Z.of_nat (length S1)) body) as K.
  fold H in K. assert (Hl : in_u 32 (Z.of_nat (length p4)) /\ in_u 32 (Z.of_nat (length p3))) by (unfold in_u; lia). destruct Hl as [Hl4 Hl3].
  assert (K0 : word_at (H ++ body) 0 = Some FDT_MAGIC) by (apply (K 0%nat); [reflexivity|small_word]).
  assert (K1 : word_at (H ++ body) 4 = Some (Z.of_nat (length p4))) by (apply (K 1%nat); [reflexivity|exact Hl4]).
  assert (K2 : word_at (H ++ body) 8 = Some 40) by (apply (K 2%nat); [reflexivity|small_word]).
  assert (K3 : word_at (H ++ body) 12 = Some (Z.of_nat (length p3))) by (apply (K 3%nat); [reflexivity|exact Hl3]).
  assert (K5 : word_at (H ++ body) 20 = Some FDT_VERSION) by (apply (K 5%nat); [reflexivity|small_word]).
  rewrite K0, K1, K2, K3, K5. rewrite Lb, !Z.eqb_refl. cbn [andb]. rewrite Nat2Z.id. change (Z.to_nat 40) with 40%nat. rewrite Hs, Ht.
  unfold S1. rewrite <- app_assoc, G3. apply read_all; auto.
  - eapply Forall_impl; [|exact G4]. intros [[|nn d|] o]; unfold name_at; cbn; auto. intros [P Q]. split; [apply cstr_skipn_more, P|exact Q].
  - rewrite <- G3. unfold FDT_LIMIT. lia.
  - pose proof (enc_length es). rewrite <- G3 in *. lia.
Qed.

(** ** Trees read back *)

(** The properties and children of a node from behind its [TBegin] to its
    [TEnd], and what follows. *)
Fixpoint read_body (fuel : nat) (toks : list fdt_token) : option (list (list Z * list Z) * list dt_node * list fdt_token) :=
  match fuel with
  | O => None
  | S fuel' =>
      match toks with
      | [] => None
      | TEnd :: r => Some ([], [], r)
      | TProp n d :: r =>
          match read_body fuel' r with Some (ps, cs, r') => Some ((n, d) :: ps, cs, r') | None => None end
      | TBegin n :: r =>
          match read_body fuel' r with
          | Some (ps, cs, r') =>
              match read_body fuel' r' with
              | Some (ps2, cs2, r2) => Some (ps2, Node n ps cs :: cs2, r2)
              | None => None
              end
          | None => None
          end
      end
  end.

Definition tree_of (toks : list fdt_token) : option dt_node :=
  match toks with
  | TBegin n :: r =>
      match read_body (length toks) r with
      | Some (ps, cs, []) => Some (Node n ps cs)
      | _ => None
      end
  | _ => None
  end.

(** The tree in a blob. *)
Definition read_tree (blob : list Z) : option dt_node :=
  match read_fdt blob with Some toks => tree_of toks | None => None end.

Definition body_tokens (t : dt_node) : list fdt_token :=
  let '(Node name props children) := t in
  map (fun p => TProp p.1 p.2) props ++ flat_map node_tokens children ++ [TEnd].

(** Induction over a tree with the hypothesis for every child. *)
Lemma dt_node_ind_children (P : dt_node -> Prop) : (forall n ps cs, Forall P cs -> P (Node n ps cs)) -> forall t, P t.
Proof.
  intros H. fix IH 1. intros [n ps cs]. apply H. induction cs as [|c cs IHc]; constructor; [apply IH|exact IHc].
Qed.

Ltac lengths_in H := repeat (progress (cbn [length app] in H) || rewrite length_app in H).

Lemma read_body_node : forall t fuel r, (length (node_tokens t) <= fuel)%nat ->
  let '(Node _ ps cs) := t in read_body fuel (body_tokens t ++ r) = Some (ps, cs, r).
Proof.
  induction t as [name ps cs IH] using dt_node_ind_children. intros fuel r. cbn [node_tokens body_tokens app length]. revert fuel.
  induction ps as [|[n d] ps IHp]; intros fuel Hf; cbn [map app] in *.
  - revert fuel Hf. induction cs as [|c cs IHc]; intros fuel Hf; cbn [flat_map app] in *.
    + destruct fuel as [|fuel]; [cbn in Hf; lia|]. reflexivity.
    + inversion_clear IH as [|? ? Hc Hcs]. specialize (IHc Hcs). destruct c as [n' ps' cs']. cbn [node_tokens body_tokens app] in *.
      destruct fuel as [|fuel]; [lia|]. lengths_in Hf.
      cbn [app read_body]. rewrite <- !app_assoc.
      specialize (Hc fuel (flat_map node_tokens cs ++ [TEnd] ++ r)). rewrite <- !app_assoc in Hc. rewrite Hc by (rewrite <- ?app_assoc; cbn [length]; rewrite !length_app; cbn [length]; lia).
      rewrite app_assoc, IHc; [reflexivity|]. rewrite !length_app. cbn [length]. lia.
  - destruct fuel as [|fuel]; [lia|]. cbn [read_body app fst snd length] in *. rewrite IHp by lia. reflexivity.
Qed.

Lemma tree_of_tokens t : tree_of (node_tokens t) = Some t.
Proof.
  pose proof (read_body_node t (length (node_tokens t)) [] ltac:(lia)) as H. destruct t as [n ps cs].
  unfold tree_of. cbn [node_tokens app] in *. rewrite app_nil_r in H. cbn [body_tokens] in H. rewrite H. reflexivity.
Qed.

Lemma emits_props ps : Forall token_ok (map (fun p => TProp p.1 p.2) ps) ->
  emits ((fix build_props ps : FM unit := match ps with [] => fret tt | (n, d) :: ps' => fdt_prop n d ;; build_props ps' end) ps)
    (map (fun p => TProp p.1 p.2) ps) tt.
Proof.
  induction ps as [|[n d] ps IH]; intros H; cbn [map] in *; [apply emits_ret|]. inversion_clear H as [|? ? Hp Hs]. destruct Hp as [Hn Hd].
  apply (emits_bind _ _ [TProp n d] _ tt); [apply emits_prop; assumption|apply IH, Hs].
Qed.

Lemma build_emits : forall t, Forall token_ok (node_tokens t) -> emits (build_node t) (node_tokens t) tt.
Proof.
  induction t as [name ps cs IH] using dt_node_ind_children. intros H. cbn [node_tokens build_node app] in *. inversion_clear H as [|? ? Hn Hr]. fold (map (fun p => TProp p.1 p.2) ps) in *.
  apply Forall_app in Hr as [Hp Hr]. apply Forall_app in Hr as [Hc _].
  apply (emits_bind _ _ [TBegin name] _ tt); [apply emits_begin, Hn|]. apply (emits_bind _ _ _ _ tt); [apply emits_props, Hp|].
  apply (emits_bind _ _ _ _ tt); [|apply emits_end]. clear - IH Hc.
  induction cs as [|c cs IHc]; cbn [flat_map] in *; [apply emits_ret|]. apply Forall_app in Hc as [H1 H2].
  inversion_clear IH as [|? ? Hc Hcs].
  apply (emits_bind _ _ _ _ tt); [apply Hc, H1|apply IHc; assumption].
Qed.

Lemma node_depth : forall t, tokens_depth (node_tokens t) = 0.
Proof.
  induction t as [name ps cs IH] using dt_node_ind_children. cbn [node_tokens]. rewrite !tokens_depth_app.
  assert (H1 : tokens_depth (map (fun p => TProp p.1 p.2) ps) = 0) by (clear; induction ps as [|p ps IHp]; [reflexivity|exact IHp]).
  assert (H2 : tokens_depth (flat_map node_tokens cs) = 0).
  { clear - IH. induction IH as [|c cs Hc Hcs IHc]; cbn [flat_map]; [reflexivity|]. rewrite tokens_depth_app, Hc, IHc. reflexivity. }
  rewrite H1, H2. reflexivity.
Qed.

Lemma good_init : good fdt_init [].
Proof. split; [split; [reflexivity|reflexivity|split; discriminate..]| |reflexivity|constructor|constructor]. exists []. split; [reflexivity|constructor]. Qed.

(** A program that emits a tree, followed by [fdt_output]. *)
Lemma tree_output {A} (m : FM A) a t : emits m (node_tokens t) a -> tokens_size (node_tokens t) + 4 <= FDT_LIMIT ->
  exists s blob, (m ;; fdt_output) fdt_init = inl (s, blob) /\ read_tree blob = Some t /\ Z.of_nat (length blob) mod 8 = 0.
Proof.
  intros He Hl. destruct (He fdt_init [] good_init) as (s & es & E & G & M & O & W); [change (weight fdt_init) with 0; lia|]. rewrite node_depth in O.
  destruct (output_reads s es G) as (s' & blob & E' & R & L); [exact O|change (weight fdt_init) with 0 in W; lia|].
  exists s', blob. unfold fbind. rewrite E. split; [exact E'|]. unfold read_tree. rewrite R, M, tree_of_tokens. auto.
Qed.

(** C39. A device tree survives serialisation: for every tree whose names are C
    strings and whose total size is below 2^28 bytes, building it with
    [fdt_begin_node], [fdt_prop] and [fdt_end_node] and writing it with
    [fdt_output] succeeds without leaving any table, and a reader of the version
    17 format finds exactly that tree in the blob, shared property names
    included; the length of the blob is a multiple of 8. *)
Theorem fdt_roundtrip (t : dt_node) :
  Forall token_ok (node_tokens t) -> tokens_size (node_tokens t) + 4 <= FDT_LIMIT ->
  exists s blob, (build_node t ;; fdt_output) fdt_init = inl (s, blob) /\
    read_tree blob = Some t /\ Z.of_nat (length blob) mod 8 = 0.
Proof. intros H L. apply (tree_output _ tt); [apply build_emits, H|exact L]. Qed.

(** ** The tree of the machine *)

(** [lo, lo + 1, ...], [n] of them. *)
Definition zseq (lo : Z) (n : nat) : list Z := map (fun k => lo + Z.of_nat k) (seq 0 n).

Definition cells_prop (name : string) (cells : list Z) : list Z * list Z := (str name, cells_bytes cells).
Definition str_prop (name : string) (s : list Z) : list Z * list Z := (str name, cbytes s).
Definition split64 (v : Z) : list Z := [v >> 32; u32 v].

Definition cpu_node (m : RISCVMachine) (h : Z) : dt_node :=
  Node (node_num_name "cpu" h)
    [str_prop "device_type" "cpu"; cells_prop "reg" [h]; str_prop "status" "okay"; str_prop "compatible" "riscv";
     str_prop "riscv,isa" (isa_string (match get_hart m h with Some c => u32 (misa c) | None => 0 end));
     str_prop "mmu-type" "riscv,sv48"; cells_prop "clock-frequency" [CPU_FREQUENCY]]
    [Node "interrupt-controller"
       [cells_prop "#interrupt-cells" [1]; (str "interrupt-controller", []); str_prop "compatible" "riscv,cpu-intc";
        cells_prop "phandle" [h + 1]; cells_prop "linux,phandle" [h + 1]] []].

Definition virtio_node (plic_phandle i : Z) : dt_node :=
  let base := VIRTIO_BASE_ADDR + i * VIRTIO_SIZE in
  Node (node_num_name "virtio" base)
    [str_prop "compatible" "virtio,mmio"; cells_prop "reg" (split64 base ++ split64 VIRTIO_SIZE);
     cells_prop "interrupts-extended" [plic_phandle; VIRTIO_IRQ + i]] [].

Definition uart_node (plic_phandle base irq : Z) : dt_node :=
  Node (node_num_name "uart" base)
    [cells_prop "reg" (split64 base ++ split64 0x1000); cells_prop "current-speed" [115200]; cells_prop "clock-frequency" [25000000];
     cells_prop "reg-shift" [2]; cells_prop "reg-io-width" [4]; str_prop "compatible" "ns16550a";
     cells_prop "interrupt-parent" [plic_phandle]; cells_prop "interrupts" [irq]] [].

Definition fb_nodes (fb : option FBDevice) : list dt_node :=
  match fb with
  | None => []
  | Some f =>
      [Node (node_num_name "framebuffer" FRAMEBUFFER_BASE_ADDR)
         [str_prop "compatible" "simple-framebuffer"; cells_prop "reg" (split64 FRAMEBUFFER_BASE_ADDR ++ split64 (fb_size f));
          cells_prop "width" [fb_width f]; cells_prop "height" [fb_height f]; cells_prop "stride" [fb_stride f];
          str_prop "format" "a8r8g8b8"] []]
  end.

Definition clint_node (n : nat) (y : Layout) : dt_node :=
  Node (node_num_name "clint" (clint_base_addr y))
    [str_prop "compatible" "riscv,clint0"; cells_prop "interrupts-extended" (hart_cells n 3 7);
     cells_prop "reg" (split64 (clint_base_addr y) ++ split64 (clint_size y))] [].

Definition plic_node (n : nat) (y : Layout) (plic_phandle : Z) : dt_node :=
  Node (node_num_name "plic" (plic_base_addr y))
    [cells_prop "#interrupt-cells" [1]; (str "interrupt-controller", []); str_prop "compatible" "riscv,plic0";
     cells_prop "riscv,ndev" [31]; cells_prop "reg" (split64 (plic_base_addr y) ++ split64 (plic_size y));
     cells_prop "interrupts-extended" (hart_cells n 9 11); cells_prop "phandle" [plic_phandle]] [].

Definition cpus_node (m : RISCVMachine) : dt_node :=
  Node "cpus" [cells_prop "#address-cells" [1]; cells_prop "#size-cells" [0]; cells_prop "timebase-frequency" [RTC_FREQ]]
    (map (cpu_node m) (zseq 0 (Z.to_nat (ncpus m)))).

Definition memory_node (m : RISCVMachine) (y : Layout) : dt_node :=
  Node (node_num_name "memory" (ram_base_addr m))
    [str_prop "device_type" "memory"; cells_prop "reg" (split64 (ram_base_addr m) ++ split64 (ram_size y))] [].

Definition soc_node (m : RISCVMachine) (y : Layout) : dt_node :=
  let n := Z.to_nat (ncpus m) in
  let plic := ncpus m + 1 in
  Node "soc"
    [cells_prop "#address-cells" [2]; cells_prop "#size-cells" [2];
     (str "compatible", cbytes "ucbbar,majordomo-bar-soc" ++ cbytes "simple-bus"); (str "ranges", [])]
    ([clint_node n y; plic_node n y plic] ++ map (virtio_node plic) (zseq 0 (Z.to_nat (virtio_count y))) ++
     [uart_node plic DW_APB_UART0_BASE_ADDR UART0_IRQ; uart_node plic DW_APB_UART1_BASE_ADDR UART1_IRQ] ++ fb_nodes (fb_dev y)).

Definition chosen_node (cmd_line : option (list Z)) (initrd_start initrd_end : Z) : dt_node :=
  Node "chosen"
    (str_prop "bootargs" (default [] cmd_line) ::
     (if nz initrd_start && (initrd_start <? initrd_end)
      then [cells_prop "linux,initrd-start" (split64 initrd_start); cells_prop "linux,initrd-end" (split64 initrd_end)] else [])) [].

Definition machine_node (m : RISCVMachine) (y : Layout) (cmd_line : option (list Z)) (initrd_start initrd_end : Z) : dt_node :=
  Node ""
    [cells_prop "#address-cells" [2]; cells_prop "#size-cells" [2]; str_prop "compatible" "ucbbar,majordomo-bar_dev";
     str_prop "model" "ucbbar,majordomo-bare"]
    [cpus_node m; memory_node m y; soc_node m y; chosen_node cmd_line initrd_start initrd_end].

(** *** Strings the machine uses *)

Lemma cstring_dec l : forallb (fun b => (0 <? b) && (b <? 256)) l = true -> cstring l.
Proof. intros H. unfold cstring. apply List.Forall_forall. intros b Hb. rewrite forallb_forall in H. specialize (H b Hb). cbv beta in H. bool_hyps. lia. Qed.

Lemma cstring_bytes l : cstring l -> Forall (in_u 8) (cbytes l).
Proof.
  intros H. unfold cbytes. apply Forall_app. split; [|repeat constructor; cbv; congruence].
  eapply Forall_impl; [|exact H]. intros b Hb. cbv beta in Hb. unfold in_u. lia.
Qed.

Lemma hex_cstring n : forall v, cstring (hex_digits n v).
Proof.
  induction n as [|n IH]; intros v; cbn [hex_digits]; [constructor|]. apply Forall_app. split; [destruct (v <? 16); [constructor|apply IH]|].
  repeat constructor; pose proof (Z.mod_pos_bound v 16 ltac:(lia)); destruct (Z.ltb_spec (v mod 16) 10); lia.
Qed.

Lemma num_name_cstring name v : cstring name -> cstring (node_num_name name v).
Proof. intros H. apply Forall_take, Forall_app. split; [exact H|]. constructor; [lia|apply hex_cstring]. Qed.

Lemma isa_cstring v : cstring (isa_string v).
Proof.
  unfold isa_string. apply Forall_app. split; [apply cstring_dec; reflexivity|]. apply Forall_flat_map, List.Forall_forall.
  intros i Hi. apply in_seq in Hi. destruct (v has _); repeat constructor; lia.
Qed.

Create HintDb fdt.
#[export] Hint Resolve num_name_cstring isa_cstring cstring_bytes cells_wf : fdt.
#[export] Hint Extern 2 (cstring (str _)) => (apply cstring_dec; reflexivity) : fdt.
#[export] Hint Extern 2 (Forall _ []) => constructor : fdt.

Lemma emits_str n s : cstring n -> cstring s -> emits (fdt_prop_str n s) [TProp n (cbytes s)] tt.
Proof. intros Hn Hs. apply emits_prop; auto with fdt. Qed.

Lemma emits_ffor body f n : forall lo, (forall i, lo <= i < lo + Z.of_nat n -> emits (body i) (node_tokens (f i)) tt) ->
  emits (ffor n lo body) (flat_map node_tokens (map f (zseq lo n))) tt.
Proof.
  induction n as [|n IH]; intros lo H; [apply emits_ret|]. cbn [ffor]. unfold zseq. cbn [seq map flat_map].
  apply (emits_bind _ _ _ _ tt).
  - replace (lo + Z.of_nat 0) with lo by lia. apply H. lia.
  - specialize (IH (lo + 1)). unfold zseq in IH.
    replace (map (fun k => lo + Z.of_nat k) (seq 1 n)) with (map (fun k => lo + 1 + Z.of_nat k) (seq 0 n))
      by (rewrite <- seq_shift, map_map; apply map_ext; intros; lia). apply IH. intros i Hi. apply H. lia.
Qed.

(** One call of the builder in a sequence. *)
Ltac emit_call :=
  lazymatch goal with
  | |- emits (fdt_begin_node_num _ _) _ _ => apply emits_begin; auto with fdt
  | |- emits (fdt_begin_node _) _ _ => apply emits_begin; auto with fdt
  | |- emits (fdt_prop_str _ _) _ _ => apply emits_str; auto with fdt
  | |- emits (fdt_prop _ _) _ _ => apply emits_prop; auto with fdt
  | |- emits fdt_end_node _ _ => apply emits_end
  | |- emits (fret _) _ _ => apply emits_ret
  | |- emits _ _ _ => apply emits_cells; auto with fdt
  end.
Ltac emit := repeat (eapply (emits_bind _ _ [_] _ tt); [emit_call|]); try emit_call.

Section MachineTree.
Context (m : RISCVMachine) (y : Layout).

Lemma emits_cast {A} (p : FM A) t1 t2 a : emits p t1 a -> t1 = t2 -> emits p t2 a.
Proof. intros H <-. exact H. Qed.

Lemma cpu_emits h : get_hart m h <> None -> emits (fdt_cpu m h) (node_tokens (cpu_node m h)) tt.
Proof.
  intros Hh. unfold fdt_cpu, hart_misa, cpu_node. destruct (get_hart m h) as [c|]; [|congruence].
  eapply emits_cast.
  - do 5 (eapply (emits_bind _ _ [_] _ tt); [emit_call|]). eapply (emits_bind _ _ [] _ (u32 (misa c))); [apply emits_ret|]. emit.
  - reflexivity.
Qed.

Lemma clint_emits n : emits (fdt_clint n y) (node_tokens (clint_node n y)) tt.
Proof. eapply emits_cast; [unfold fdt_clint; emit|reflexivity]. Qed.

Lemma plic_emits n h : emits (fdt_plic n y h) (node_tokens (plic_node n y h)) tt.
Proof. eapply emits_cast; [unfold fdt_plic; emit|reflexivity]. Qed.

Lemma virtio_emits h i : emits (fdt_virtio h i) (node_tokens (virtio_node h i)) tt.
Proof. eapply emits_cast; [unfold fdt_virtio; emit|reflexivity]. Qed.

Lemma uart_emits h i : emits (fdt_uart h i) (node_tokens (uart_node h
  (if i =? 0 then DW_APB_UART0_BASE_ADDR else DW_APB_UART1_BASE_ADDR) (if i =? 0 then UART0_IRQ else UART1_IRQ))) tt.
Proof. eapply emits_cast; [unfold fdt_uart; emit|reflexivity]. Qed.

Lemma fb_emits : emits (fdt_framebuffer (fb_dev y)) (flat_map node_tokens (fb_nodes (fb_dev y))) tt.
Proof. destruct (fb_dev y) as [f|]; [|apply emits_ret]. eapply emits_cast; [unfold fdt_framebuffer; emit|reflexivity]. Qed.

Lemma memory_emits : emits (fdt_memory m y) (node_tokens (memory_node m y)) tt.
Proof. eapply emits_cast; [unfold fdt_memory; emit|reflexivity]. Qed.

Lemma cpus_emits : ncpus m = Z.of_nat (length (cpu_state m)) -> emits (fdt_cpus m) (node_tokens (cpus_node m)) tt.
Proof.
  intros Hn. unfold fdt_cpus. eapply emits_cast.
  - do 4 (eapply (emits_bind _ _ [_] _ tt); [emit_call|]). eapply (emits_bind _ _ _ _ tt); [|emit_call].
    apply (emits_ffor _ (cpu_node m)). intros i Hi. apply cpu_emits. unfold get_hart. destruct (Z.leb_spec 0 i); [|lia].
    apply not_eq_None_Some, lookup_lt_is_Some. lia.
  - reflexivity.
Qed.

Lemma soc_emits : emits (fdt_soc m y) (node_tokens (soc_node m y)) tt.
Proof.
  unfold fdt_soc. cbv zeta. eapply emits_cast.
  - do 3 (eapply (emits_bind _ _ [_] _ tt); [emit_call|]).
    eapply (emits_bind _ _ [_] _ tt); [apply emits_prop; [auto with fdt|]|].
    { cbn [flat_map]. apply Forall_app. split; [auto with fdt|]. rewrite app_nil_r. auto with fdt. }
    eapply (emits_bind _ _ [_] _ tt); [emit_call|].
    eapply (emits_bind _ _ _ _ tt); [apply clint_emits|]. eapply (emits_bind _ _ _ _ tt); [apply plic_emits|].
    eapply (emits_bind _ _ _ _ tt); [apply (emits_ffor _ (virtio_node (ncpus m + 1))); intros; apply virtio_emits|].
    eapply (emits_bind _ _ _ _ tt); [eapply (emits_ffor _ (fun i => uart_node (ncpus m + 1) _ _)); intros; apply uart_emits|].
    eapply (emits_bind _ _ _ _ tt); [apply fb_emits|emit_call].
  - unfold soc_node. cbv zeta. cbn [node_tokens]. rewrite !flat_map_app, <- !app_assoc. reflexivity.
Qed.

Lemma chosen_emits cmd_line i0 i1 : cstring (default [] cmd_line) ->
  emits (fdt_chosen cmd_line i0 i1) (node_tokens (chosen_node cmd_line i0 i1)) tt.
Proof.
  intros Hc. unfold fdt_chosen, chosen_node. change (default (str "") cmd_line) with (default [] cmd_line).
  eapply emits_cast.
  - do 2 (eapply (emits_bind _ _ [_] _ tt); [emit_call|]). eapply (emits_bind _ _ (if nz i0 && (i0 <? i1) then _ else _) _ tt); [|emit_call].
    destruct (nz i0 && (i0 <? i1)); [|apply emits_ret]. eapply (emits_bind _ _ [_] [_] tt); emit_call.
  - destruct (nz i0 && (i0 <? i1)); reflexivity.
Qed.

Lemma machine_emits cmd_line i0 i1 : ncpus m = Z.of_nat (length (cpu_state m)) -> cstring (default [] cmd_line) ->
  emits (fdt_begin_node "" ;; fdt_prop_u32 "#address-cells" 2 ;; fdt_prop_u32 "#size-cells" 2 ;;
         fdt_prop_str "compatible" "ucbbar,majordomo-bar_dev" ;; fdt_prop_str "model" "ucbbar,majordomo-bare" ;;
         fdt_cpus m ;; fdt_memory m y ;; fdt_soc m y ;; fdt_chosen cmd_line i0 i1 ;; fdt_end_node)
    (node_tokens (machine_node m y cmd_line i0 i1)) tt.
Proof.
  intros Hn Hc. eapply emits_cast.
  - do 5 (eapply (emits_bind _ _ [_] _ tt); [emit_call|]). eapply (emits_bind _ _ _ _ tt); [apply cpus_emits, Hn|].
    eapply (emits_bind _ _ _ _ tt); [apply memory_emits|]. eapply (emits_bind _ _ _ _ tt); [apply soc_emits|].
    eapply (emits_bind _ _ _ _ tt); [apply chosen_emits, Hc|emit_call].
  - unfold machine_node. cbn [node_tokens flat_map]. rewrite app_nil_r, <- !app_assoc. reflexivity.
Qed.

End MachineTree.

(** *** Its size *)

Ltac literal_lengths :=
  repeat match goal with
  | |- context [length (str ?x)] => let n := eval vm_compute in (length (str x)) in change (length (str x)) with n
  end.

(** The size of a node whose properties and names are spelt out. *)
Ltac node_bound :=
  cbn [node_tokens map app flat_map tokens_size fold_right token_size fst snd cells_prop str_prop];
  repeat rewrite cells_length; repeat rewrite cbytes_length; repeat rewrite length_app; cbn [length split64 app]; literal_lengths.

Lemma num_name_length name v : (length (node_num_name name v) <= 255)%nat.
Proof. unfold node_num_name. rewrite length_firstn. lia. Qed.

Lemma isa_length v : (length (isa_string v) <= 30)%nat.
Proof.
  unfold isa_string. rewrite length_app. change (length (str "rv64")) with 4%nat. set (f := fun i : nat => _).
  assert (H : forall l, (length (flat_map f l) <= length l)%nat).
  { induction l as [|i l IH]; cbn [flat_map length]; [lia|]. rewrite length_app. unfold f at 1. destruct (v has _); cbn [length]; lia. }
  specialize (H (seq 0 26)). rewrite length_seq in H. lia.
Qed.

Lemma hart_cells_length n a b : length (hart_cells n a b) = (4 * n)%nat.
Proof.
  unfold hart_cells. rewrite <- (length_seq n 0) at 2. generalize (seq 0 n). induction l as [|h l IH]; [reflexivity|].
  cbn [flat_map app length]. rewrite IH. lia.
Qed.

Lemma zseq_length lo n : length (zseq lo n) = n.
Proof. unfold zseq. rewrite length_map. apply length_seq. Qed.

Lemma tokens_size_nodes K l : Forall (fun t => tokens_size (node_tokens t) <= K) l ->
  tokens_size (flat_map node_tokens l) <= K * Z.of_nat (length l).
Proof. intros H. induction H as [|t l Ht H IH]; cbn [flat_map length]; [cbn; lia|]. rewrite tokens_size_app. lia. Qed.

Lemma tokens_size_map K f lo n : (forall i, tokens_size (node_tokens (f i)) <= K) ->
  tokens_size (flat_map node_tokens (map f (zseq lo n))) <= K * Z.of_nat n.
Proof.
  intros H. pose proof (tokens_size_nodes K (map f (zseq lo n))) as B. rewrite length_map, zseq_length in B. apply B.
  apply List.Forall_forall. intros t Ht. apply in_map_iff in Ht as (i & <- & _). apply H.
Qed.

Lemma node_size n ps cs : tokens_size (node_tokens (Node n ps cs)) =
  Z.of_nat (length n) + 12 + tokens_size (map (fun p => TProp p.1 p.2) ps) + tokens_size (flat_map node_tokens cs).
Proof. cbn [node_tokens]. rewrite !tokens_size_app. cbn [tokens_size fold_right token_size]. lia. Qed.

Section MachineSize.
Context (m : RISCVMachine) (y : Layout).

Lemma cpu_size h : tokens_size (node_tokens (cpu_node m h)) <= 1000.
Proof.
  unfold cpu_node. set (v := match get_hart m h with Some c => _ | None => _ end).
  pose proof (num_name_length "cpu" h). pose proof (isa_length v). node_bound. lia.
Qed.

Lemma virtio_size h i : tokens_size (node_tokens (virtio_node h i)) <= 1000.
Proof. unfold virtio_node. cbv zeta. pose proof (num_name_length "virtio" (VIRTIO_BASE_ADDR + i * VIRTIO_SIZE)). node_bound. lia. Qed.

Lemma uart_size h b i : tokens_size (node_tokens (uart_node h b i)) <= 1000.
Proof. unfold uart_node. pose proof (num_name_length "uart" b). node_bound. lia. Qed.

Lemma fb_size_bound : tokens_size (flat_map node_tokens (fb_nodes (fb_dev y))) <= 1000.
Proof.
  destruct (fb_dev y) as [f|]; [|cbn; lia]. unfold fb_nodes. pose proof (num_name_length "framebuffer" FRAMEBUFFER_BASE_ADDR). node_bound. lia.
Qed.

Lemma clint_plic_size n h : (n <= 8)%nat ->
  tokens_size (node_tokens (clint_node n y)) <= 1000 /\ tokens_size (node_tokens (plic_node n y h)) <= 1000.
Proof.
  intros Hn. unfold clint_node, plic_node. pose proof (num_name_length "clint" (clint_base_addr y)).
  pose proof (num_name_length "plic" (plic_base_addr y)). split; node_bound; rewrite hart_cells_length; lia.
Qed.

Lemma machine_size cmd_line i0 i1 : ncpus m <= MAX_CPUS -> virtio_count y <= 28 -> Z.of_nat (length (default [] cmd_line)) <= 2 ^ 20 ->
  tokens_size (node_tokens (machine_node m y cmd_line i0 i1)) + 4 <= FDT_LIMIT.
Proof.
  intros Hn Hv Hc. unfold MAX_CPUS in Hn. unfold machine_node, cpus_node, memory_node, soc_node, chosen_node, FDT_LIMIT. cbv zeta.
  rewrite !node_size. cbn [flat_map]. rewrite !tokens_size_app, !node_size, !flat_map_app, !tokens_size_app. cbn [flat_map].
  rewrite !tokens_size_app. set (n := Z.to_nat (ncpus m)). set (h := ncpus m + 1).
  pose proof (tokens_size_map 1000 (cpu_node m) 0 n cpu_size). pose proof (tokens_size_map 1000 (virtio_node h) 0 (Z.to_nat (virtio_count y)) (virtio_size h)).
  pose proof (clint_plic_size n h ltac:(lia)) as [? ?]. pose proof fb_size_bound.
  pose proof (uart_size h DW_APB_UART0_BASE_ADDR UART0_IRQ). pose proof (uart_size h DW_APB_UART1_BASE_ADDR UART1_IRQ).
  pose proof (num_name_length "memory" (ram_base_addr m)).
  assert (Hi : tokens_size (map (fun p => TProp p.1 p.2) (if nz i0 && (i0 <? i1) then
    [cells_prop "linux,initrd-start" (split64 i0); cells_prop "linux,initrd-end" (split64 i1)] else [])) <= 100)
    by (destruct (nz i0 && (i0 <? i1)); [node_bound|cbn]; lia).
  unfold tokens_size in Hi. cbn [map tokens_size fold_right token_size fst snd cells_prop str_prop].
  repeat rewrite cells_length; repeat rewrite cbytes_length; repeat rewrite length_app; repeat rewrite cbytes_length; cbn [length split64 app]; literal_lengths.
  change (tokens_size []) with 0. lia.
Qed.

End MachineSize.

(** *** Interrupt links *)

(** The values of the properties of one name, anywhere in a tree. *)
Fixpoint props_named (key : list Z) (t : dt_node) : list (list Z) :=
  let '(Node _ ps cs) := t in
  map snd (filter (fun p => p.1 = key) ps) ++ flat_map (props_named key) cs.

(** The cells of a value. *)
Fixpoint cells_of (l : list Z) : list Z :=
  match l with
  | a :: b :: c :: d :: r => le_value [d; c; b; a] :: cells_of r
  | _ => []
  end.

(** Every other element: the handles among pairs of a handle and an interrupt. *)
Fixpoint evens (l : list Z) : list Z :=
  match l with
  | a :: _ :: r => a :: evens r
  | _ => []
  end.

(** The handles declared and the handles interrupts refer to. *)
Definition phandles (t : dt_node) : list Z := flat_map cells_of (props_named (str "phandle") t).
Definition interrupt_refs (t : dt_node) : list Z :=
  flat_map (fun d => evens (cells_of d)) (props_named (str "interrupts-extended") t) ++
  flat_map cells_of (props_named (str "interrupt-parent") t).

Lemma cells_of_bytes cells : Forall (in_u 32) cells -> cells_of (cells_bytes cells) = cells.
Proof.
  intros H. induction H as [|v l Hv H IH]; [reflexivity|]. cbn [cells_bytes flat_map]. change (be32 v) with (rev (le_bytes 4 v)).
  cbn [le_bytes rev app cells_of]. change [u8 v; u8 (v >> 8); u8 (v >> 8 >> 8); u8 (v >> 8 >> 8 >> 8)] with (le_bytes 4 v).
  rewrite le_value_bytes. change (8 * Z.of_nat 4) with 32. rewrite (u_small 32 v Hv). f_equal. exact IH.
Qed.

(** Select the properties of one name from a literal list. *)
Ltac select_props :=
  cbn [props_named flat_map map app];
  repeat (rewrite filter_cons; cbn [fst cells_prop str_prop];
          match goal with |- context [decide (str ?a = str ?b)] =>
            destruct (decide (str a = str b)) as [HE|HE];
            [try (exfalso; vm_compute in HE; discriminate HE)|try (exfalso; exact (HE eq_refl))]; clear HE
          end);
  rewrite ?filter_nil; cbn [map app snd flat_map].

(** The handles, the extended interrupts and the interrupt parents of a tree,
    and of a list of trees. *)
Definition tri : Type := (list (list Z) * list (list Z) * list (list Z))%type.
Definition tadd (a b : tri) : tri := (a.1.1 ++ b.1.1, a.1.2 ++ b.1.2, a.2 ++ b.2).
Definition links (t : dt_node) : tri :=
  (props_named (str "phandle") t, props_named (str "interrupts-extended") t, props_named (str "interrupt-parent") t).
Definition links_of (l : list dt_node) : tri := foldr (fun t a => tadd (links t) a) ([], [], []) l.

Lemma links_node n ps cs : links (Node n ps cs) = tadd (links (Node n ps [])) (links_of cs).
Proof.
  unfold links. cbn [props_named flat_map]. rewrite !app_nil_r.
  assert (H : links_of cs = (flat_map (props_named (str "phandle")) cs, flat_map (props_named (str "interrupts-extended")) cs,
    flat_map (props_named (str "interrupt-parent")) cs)).
  { induction cs as [|c cs IH]; [reflexivity|]. cbn [links_of foldr flat_map]. fold (links_of cs). rewrite IH. reflexivity. }
  rewrite H. reflexivity.
Qed.

Lemma links_of_app l1 l2 : links_of (l1 ++ l2) = tadd (links_of l1) (links_of l2).
Proof.
  induction l1 as [|t l1 IH]; [cbn [app]; destruct (links_of l2) as [[??]?]; reflexivity|]. cbn [app links_of foldr].
  fold (links_of (l1 ++ l2)) (links_of l1). rewrite IH. unfold tadd. cbn. rewrite !app_assoc. reflexivity.
Qed.

Lemma links_of_map (g : Z -> dt_node) l f1 f2 f3 : (forall i, links (g i) = (f1 i, f2 i, f3 i)) ->
  links_of (map g l) = (flat_map f1 l, flat_map f2 l, flat_map f3 l).
Proof.
  intros H. induction l as [|x l IH]; [reflexivity|]. cbn [map links_of foldr]. fold (links_of (map g l)). rewrite IH, H. reflexivity.
Qed.

Ltac forall_words := repeat (constructor; [first [assumption|unfold in_u; lia]|]); constructor.

Section Links.
Context (m : RISCVMachine) (y : Layout).

Lemma cpu_links h : links (cpu_node m h) = ([cells_bytes [h + 1]], [], []).
Proof. unfold links, cpu_node. select_props. reflexivity. Qed.

Lemma clint_links n : links (clint_node n y) = ([], [cells_bytes (hart_cells n 3 7)], []).
Proof. unfold links, clint_node. select_props. reflexivity. Qed.

Lemma plic_links n p : links (plic_node n y p) = ([cells_bytes [p]], [cells_bytes (hart_cells n 9 11)], []).
Proof. unfold links, plic_node. select_props. reflexivity. Qed.

Lemma virtio_links p i : links (virtio_node p i) = ([], [cells_bytes [p; VIRTIO_IRQ + i]], []).
Proof. unfold links, virtio_node. select_props. reflexivity. Qed.

Lemma uart_links p b i : links (uart_node p b i) = ([], [], [cells_bytes [p]]).
Proof. unfold links, uart_node. select_props. reflexivity. Qed.

Lemma fb_links : links_of (fb_nodes (fb_dev y)) = ([], [], []).
Proof. destruct (fb_dev y) as [f|]; [|reflexivity]. unfold links_of, links, fb_nodes. cbn [foldr]. select_props. reflexivity. Qed.

Lemma other_links c i0 i1 : links (memory_node m y) = ([], [], []) /\ links (chosen_node c i0 i1) = ([], [], []).
Proof.
  split; [unfold links, memory_node; select_props; reflexivity|].
  unfold links, chosen_node; destruct (nz i0 && (i0 <? i1)); select_props; reflexivity.
Qed.

(** The three properties of the whole machine. *)
Lemma machine_links c i0 i1 : let n := Z.to_nat (ncpus m) in let p := ncpus m + 1 in
  links (machine_node m y c i0 i1) =
    (flat_map (fun h => [cells_bytes [h + 1]]) (zseq 0 n) ++ [cells_bytes [p]],
     [cells_bytes (hart_cells n 3 7); cells_bytes (hart_cells n 9 11)] ++
       flat_map (fun i => [cells_bytes [p; VIRTIO_IRQ + i]]) (zseq 0 (Z.to_nat (virtio_count y))),
     [cells_bytes [p]; cells_bytes [p]]).
Proof.
  intros n p. destruct (other_links c i0 i1) as [Hm Hc].
  assert (H0 : links (Node "cpus" [cells_prop "#address-cells" [1]; cells_prop "#size-cells" [0]; cells_prop "timebase-frequency" [RTC_FREQ]] []) = ([], [], []) /\
    links (Node "soc" [cells_prop "#address-cells" [2]; cells_prop "#size-cells" [2];
      (str "compatible", cbytes "ucbbar,majordomo-bar-soc" ++ cbytes "simple-bus"); (str "ranges", [])] []) = ([], [], []) /\
    links (Node "" [cells_prop "#address-cells" [2]; cells_prop "#size-cells" [2]; str_prop "compatible" "ucbbar,majordomo-bar_dev";
      str_prop "model" "ucbbar,majordomo-bare"] []) = ([], [], [])) by (unfold links; repeat split; select_props; reflexivity).
  destruct H0 as (H1 & H2 & H3). unfold machine_node. rewrite links_node, H3. unfold links_of. cbn [foldr].
  unfold cpus_node, soc_node. cbv zeta. fold n p.
  rewrite (links_node "cpus"), H1, (links_node "soc"), H2, Hm, Hc, !links_of_app, fb_links.
  rewrite (links_of_map _ _ _ _ _ cpu_links), (links_of_map _ _ _ _ _ (virtio_links p)).
  unfold links_of. cbn [foldr]. rewrite clint_links, plic_links, !uart_links. unfold tadd. cbn [fst snd app].
  assert (E : forall l : list Z, flat_map (fun _ => []) l = ([] : list (list Z))) by (induction l; auto).
  rewrite !E, !app_nil_r. reflexivity.
Qed.

Lemma evens_hart_cells n a b : evens (hart_cells n a b) = flat_map (fun h => [h + 1; h + 1]) (zseq 0 n).
Proof.
  unfold hart_cells, zseq, hart_handle. induction (seq 0 n) as [|h l IH]; cbn [flat_map map app evens]; [reflexivity|].
  rewrite IH. reflexivity.
Qed.

Lemma zseq_in x lo n : In x (zseq lo n) <-> lo <= x < lo + Z.of_nat n.
Proof.
  unfold zseq. rewrite in_map_iff. split; [intros (k & <- & Hk); apply in_seq in Hk; lia|].
  intros H. exists (Z.to_nat (x - lo)). rewrite in_seq. lia.
Qed.

Lemma hart_cells_range n a b : (n <= 8)%nat -> in_u 32 a -> in_u 32 b -> Forall (in_u 32) (hart_cells n a b).
Proof.
  intros Hn Ha Hb. unfold hart_cells, hart_handle. apply Forall_flat_map, List.Forall_forall. intros h Hh. apply in_seq in Hh.
  forall_words.
Qed.

(** The handles are distinct, and every interrupt goes to one of them. *)
Lemma links_consistent c i0 i1 : 0 <= ncpus m <= MAX_CPUS -> virtio_count y <= 28 ->
  let t := machine_node m y c i0 i1 in
  NoDup (phandles t) /\ forall x, In x (interrupt_refs t) -> In x (phandles t).
Proof.
  intros Hn Hv t. unfold MAX_CPUS in Hn. pose proof (machine_links c i0 i1) as L. cbv zeta in L. fold t in L. clearbody t. unfold links in L.
  pose proof (f_equal (fun x : tri => x.1.1) L) as L1. pose proof (f_equal (fun x : tri => x.1.2) L) as L2.
  pose proof (f_equal (fun x : tri => x.2) L) as L3. cbn [fst snd] in L1, L2, L3. clear L. set (n := Z.to_nat (ncpus m)) in *.
  assert (Hp : phandles t = zseq 1 (S n)).
  { unfold phandles. rewrite L1, flat_map_app. cbn [flat_map]. rewrite cells_of_bytes, app_nil_r by (forall_words).
    unfold zseq. rewrite seq_S, map_app. cbn [map]. f_equal; [|f_equal; lia].
    assert (H : forall l, Forall (fun h => (h < 8)%nat) l -> flat_map cells_of (flat_map (fun h => [cells_bytes [h + 1]]) (map (fun k => 0 + Z.of_nat k) l)) =
      map (fun k => 1 + Z.of_nat k) l).
    { intros l Hl. induction Hl as [|h l Hh Hl IH]; [reflexivity|]. cbn [map flat_map app]. rewrite cells_of_bytes by (forall_words).
      rewrite IH. cbn [app]. f_equal. lia. }
    apply H, List.Forall_forall. intros h Hh. apply in_seq in Hh. lia. }
  rewrite Hp. split.
  - unfold zseq. apply NoDup_fmap_2; [intros a b Hab; lia|apply NoDup_ListNoDup, seq_NoDup].
  - intros x Hx. apply zseq_in. unfold interrupt_refs in Hx. rewrite L2, L3 in Hx. cbn [flat_map app] in Hx.
    assert (Hs : forall v, v = 3 \/ v = 7 \/ v = 9 \/ v = 11 -> in_u 32 v) by (intros v Hv'; unfold in_u; lia).
    rewrite !cells_of_bytes in Hx by (first [apply hart_cells_range; try lia; apply Hs; auto|forall_words]).
    rewrite !evens_hart_cells, !in_app_iff, !in_flat_map in Hx.
    destruct Hx as [[(h & Hh & Hx)|[(h & Hh & Hx)|(d & Hd & Hx)]]|Hx].
    + apply zseq_in in Hh. cbn in Hx. lia.
    + apply zseq_in in Hh. cbn in Hx. lia.
    + apply in_flat_map in Hd as (i & Hi & [<-|[]]). apply zseq_in in Hi.
      rewrite cells_of_bytes in Hx by (unfold VIRTIO_IRQ; forall_words). cbn in Hx. lia.
    + cbn in Hx. lia.
Qed.

End Links.

Lemma build_then_output m y cmd_line i0 i1 s : 
  (fdt_begin_node "" ;; fdt_prop_u32 "#address-cells" 2 ;; fdt_prop_u32 "#size-cells" 2 ;;
   fdt_prop_str "compatible" "ucbbar,majordomo-bar_dev" ;; fdt_prop_str "model" "ucbbar,majordomo-bare" ;;
   fdt_cpus m ;; fdt_memory m y ;; fdt_soc m y ;; fdt_chosen cmd_line i0 i1 ;; fdt_end_node ;; fdt_output) s =
  ((fdt_begin_node "" ;; fdt_prop_u32 "#address-cells" 2 ;; fdt_prop_u32 "#size-cells" 2 ;;
    fdt_prop_str "compatible" "ucbbar,majordomo-bar_dev" ;; fdt_prop_str "model" "ucbbar,majordomo-bare" ;;
    fdt_cpus m ;; fdt_memory m y ;; fdt_soc m y ;; fdt_chosen cmd_line i0 i1 ;; fdt_end_node) ;; fdt_output) s.
Proof.
  unfold fbind. repeat match goal with
  | |- context [match ?x ?s with inl _ => _ | inr _ => _ end] => destruct (x s) as [[? ?]|]; [|reflexivity]
  end. reflexivity.
Qed.

(** The blob holds the tree of the machine. *)
Lemma build_fdt_reads m y cmd_line i0 i1 :
  ncpus m = Z.of_nat (length (cpu_state m)) -> ncpus m <= MAX_CPUS -> virtio_count y <= 28 ->
  cstring (default [] cmd_line) -> Z.of_nat (length (default [] cmd_line)) <= 2 ^ 20 ->
  exists blob, riscv_build_fdt m y cmd_line i0 i1 = inl blob /\ read_tree blob = Some (machine_node m y cmd_line i0 i1).
Proof.
  intros Hn Hm Hv Hc Hl. destruct (tree_output _ tt _ (machine_emits m y cmd_line i0 i1 Hn Hc)) as (s & blob & E & R & _).
  { apply machine_size; assumption. }
  exists blob. split; [|exact R]. unfold riscv_build_fdt. destruct (Z.ltb_spec MAX_CPUS (ncpus m)); [lia|]. cbv zeta.
  rewrite build_then_output, E. reflexivity.
Qed.

(** The blob depends on the number of harts, their [misa] and the address of
    the RAM only. *)
Lemma ffor_ext n : forall lo f g, (forall i, f i = g i) -> ffor n lo f = ffor n lo g.
Proof. induction n as [|n IH]; intros lo f g H; [reflexivity|]. cbn [ffor]. rewrite H, (IH _ f g H). reflexivity. Qed.

Lemma build_fdt_ext m m' y cmd_line i0 i1 : ncpus m = ncpus m' -> ram_base_addr m = ram_base_addr m' ->
  (forall h, option_map (fun c : RISCVCPUState => misa c) (get_hart m h) = option_map (fun c : RISCVCPUState => misa c) (get_hart m' h)) ->
  riscv_build_fdt m y cmd_line i0 i1 = riscv_build_fdt m' y cmd_line i0 i1.
Proof.
  intros Hn Hb Hh.
  assert (Hm : forall h, hart_misa m h = hart_misa m' h).
  { intros h. specialize (Hh h). unfold hart_misa. destruct (get_hart m h), (get_hart m' h); cbn in Hh; congruence. }
  assert (Hc : fdt_cpus m = fdt_cpus m').
  { unfold fdt_cpus. rewrite Hn, (ffor_ext _ _ (fdt_cpu m) (fdt_cpu m')); [reflexivity|].
    intros h. unfold fdt_cpu. rewrite Hm. reflexivity. }
  unfold riscv_build_fdt, fdt_memory, fdt_soc. rewrite Hc, Hn, Hb. reflexivity.
Qed.

(** C38. The machine describes itself.  For every machine of at most [MAX_CPUS]
    harts and 28 VirtIO devices and every command line, [riscv_build_fdt]
    returns a blob in which a reader finds the tree of the machine: a node per
    hart with its ISA string, the memory, the interrupt controllers, the VirtIO
    devices and UARTs with their addresses and interrupts, and the boot
    arguments; the handles in it are distinct, and every interrupt in it goes to
    a node that exists. *)
Theorem device_tree_of_machine (m : RISCVMachine) (y : Layout) (cmd_line : option (list Z)) (initrd_start initrd_end : Z) :
  ncpus m = Z.of_nat (length (cpu_state m)) -> ncpus m <= MAX_CPUS -> virtio_count y <= 28 ->
  cstring (default [] cmd_line) -> Z.of_nat (length (default [] cmd_line)) <= 2 ^ 20 ->
  let t := machine_node m y cmd_line initrd_start initrd_end in
  (exists blob, riscv_build_fdt m y cmd_line initrd_start initrd_end = inl blob /\ read_tree blob = Some t) /\
  NoDup (phandles t) /\ (forall x, In x (interrupt_refs t) -> In x (phandles t)).
Proof.
  intros Hn Hm Hv Hc Hl t. split; [apply build_fdt_reads; assumption|apply links_consistent; lia].
Qed.

(** ** Witnesses *)

(** A tree with a property name used twice and one that ends another. *)
Definition small_tree : dt_node :=
  Node "" [str_prop "compatible" "a"; cells_prop "reg" [1; 2]]
    [Node "child" [(str "ranges", []); cells_prop "reg" [7]] []; Node "x" [str_prop "eg" "compatible"] []].

Definition token_okb (t : fdt_token) : bool :=
  let str_ok := forallb (fun b => (0 <? b) && (b <? 256)) in
  match t with
  | TBegin n => str_ok n
  | TProp n d => str_ok n && forallb (fun b => (0 <=? b) && (b <? 256)) d
  | TEnd => true
  end.

Lemma tokens_dec l : forallb token_okb l = true -> Forall token_ok l.
Proof.
  intros H. apply List.Forall_forall. intros t Ht. rewrite forallb_forall in H. specialize (H t Ht).
  destruct t as [n|n d|]; cbn [token_okb token_ok] in *; [apply cstring_dec, H| |exact I].
  apply andb_true_iff in H as [H1 H2]. split; [apply cstring_dec, H1|]. apply List.Forall_forall. intros b Hb.
  rewrite forallb_forall in H2. specialize (H2 b Hb). cbv beta in H2. bool_hyps. unfold in_u. lia.
Qed.

Lemma fdt_roundtrip_witness :
  exists s blob, (build_node small_tree ;; fdt_output) fdt_init = inl (s, blob) /\
    read_tree blob = Some small_tree /\ Z.of_nat (length blob) mod 8 = 0.
Proof.
  apply fdt_roundtrip; [|vm_compute; congruence].
  apply tokens_dec. reflexivity.
Defined.

Definition some_layout : Layout := mkLayout 0x10000000 0x2000000 0xc0000 0x10000000 0x2000000 2 (Some (mkFb 640 480 2560 0x12c000)).

Lemma device_tree_of_machine_witness :
  let t := machine_node two_harts some_layout (Some (str "console=hvc0")) 0x84000000 0x84100000 in
  (exists blob, riscv_build_fdt two_harts some_layout (Some (str "console=hvc0")) 0x84000000 0x84100000 = inl blob /\ read_tree blob = Some t) /\
  NoDup (phandles t) /\ (forall x, In x (interrupt_refs t) -> In x (phandles t)).
Proof.
  apply (device_tree_of_machine two_harts some_layout (Some (str "console=hvc0")) 0x84000000 0x84100000);
    [reflexivity|vm_compute; congruence|vm_compute; congruence|apply cstring_dec; reflexivity|vm_compute; congruence].
Defined.
