(* ===== verification/Cosim.v ===== *)
(** * Co-simulation

    [src/majordomo_cosim.cpp]: the interface through which a design under test
    (DUT) is checked against the model, one committed instruction at a time.
    The structure [majordomo_cosim_state_t] is the machine; its field
    [common.pending_exception] is kept beside it.  Logging is left out, and so
    is the code under [GOLDMEM_INORDER].

    The variables [emu_insn] and [pa] are read uninitialised when the fetch or
    the translation fails: their indeterminate values are arguments.  The loop
    that runs the model until it has executed an instruction has fuel; [None]
    is a loop that has not ended. *)

From S2P Require Import Prelude RiscvDefs State IoMem Tlb Pmp Mmu Csr Trap Alu SoftFp Exec ExecFp Vector Stf Interp HartInv Frame InterpInv Devices Machine.
Open Scope Z_scope.
Open Scope c_scope.
Open Scope m_scope.

Record CoState := mkCo { co_mach : RISCVMachine; co_pending_exception : Z }.

Definition set_mach (m : RISCVMachine) (s : CoState) : CoState := mkCo m (co_pending_exception s).

(** [majordomo_cosim_init] on the machine [virt_machine_main] has built. *)
Definition majordomo_cosim_init (m : RISCVMachine) : CoState :=
  mkCo (set_pending_interrupt (-1) (set_cosim true m)) (-1).

Definition is_store_conditional (insn : Z) : bool :=
  (insn .& 0x7f =? 0x2f) && (insn >> 27 =? 3) && (((insn >> 12) .& 7 =? 2) || ((insn >> 12) .& 7 =? 3)).

Definition is_amo (insn : Z) : bool :=
  (insn .& 0x7f =? 0x2f) && existsb (Z.eqb (insn >> 27)) [1; 2; 0; 4; 0xc; 0x8; 0x10; 0x14; 0x18; 0x1c].

Section WithEnv.
Context {Bus : DeviceBus} {Hooks : CsrHooks}.

(** The indeterminate values of [emu_insn] and [pa]. *)
Context (uninit_insn uninit_pa : Z).

(** [riscv_set_reg (s, rn, val)] *)
Definition set_reg_m (rn val : Z) : M unit := fun st =>
  match riscv_set_reg (cpu st) rn val with
  | Some c => (with_cpu c st, inl tt)
  | None => (st, inr AssertFail)
  end.

Definition is_mmio_load (rn offset size : Z) : M bool :=
  let! prev := getc (fun s => riscv_get_reg_previous s rn) in
  match prev with
  | None => throw AssertFail
  | Some v =>
      let! r := riscv_cpu_get_phys_addr (u64 (v + offset)) ACCESS_READ in
      let pa := match r with inl pa => pa | inr _ => uninit_pa end in
      let! st := gets id in
      ret (riscv_cpu_pmp_access_ok (cpu st) pa size PMPCFG_R
           && match get_phys_mem_range (mem_map (mach st)) pa with Some _ => false | None => true end)
  end.

(** The CSRs whose value is taken from the DUT. *)
Definition is_dut_csr (csrno : Z) : bool :=
  (0xB00 <=? csrno) && (csrno <? 0xB20) || (0xC00 <=? csrno) && (csrno <? 0xC20) || (csrno =? 0x344) || (csrno =? 0x144).

Definition reads_dut_csr (insn : Z) : bool :=
  (insn .& 0x7f =? 0x73) && negb ((insn >> 7) .& 0x1f =? 0) && is_dut_csr (insn >> 20).

(** The base register, offset and destination of a load or AMO; [None] is the
    early [return]. *)
Definition load_operands (insn : Z) : option (Z * Z * Z) :=
  let opcode := insn .& 0x7f in
  let rd := (insn >> 7) .& 0x1f in
  let rdc := ((insn >> 2) .& 7) + 8 in
  if ((opcode =? 3) || is_amo insn) && negb (rd =? 0) then
    Some ((insn >> 15) .& 0x1f, if opcode =? 3 then i32 insn >> 20 else 0, rd)
  else if (insn .& 0xE003 =? 0x6000) && negb (rdc =? 0) then
    Some (((insn >> 7) .& 7) + 8, get_field1 insn 10 3 5 .| get_field1 insn 5 6 7, rdc)
  else if (insn .& 0xE003 =? 0x4000) && negb (rdc =? 0) then
    Some (((insn >> 7) .& 7) + 8, get_field1 insn 10 3 5 .| get_field1 insn 6 2 2 .| get_field1 insn 5 6 6, rdc)
  else None.

Definition handle_dut_overrides (insn dut_wdata : Z) : M unit :=
  when (reads_dut_csr insn) (set_reg_m ((insn >> 7) .& 0x1f) dut_wdata) ;;
  match load_operands insn with
  | None => ret tt
  | Some (rn, offset, rd) =>
      let! mmio := is_mmio_load rn offset ((insn >> 12) .& 3) in
      when mmio (set_reg_m rd dut_wdata)
  end.

(** [majordomo_cosim_raise_trap] *)
Definition majordomo_cosim_raise_trap (s : CoState) (cause : Z) : CoState + stop :=
  if cause <? 0 then
    if pending_interrupt (co_mach s) =? -1
    then inl (set_mach (set_pending_interrupt (cause .& 63) (co_mach s)) s)
    else inr AssertFail
  else inl (mkCo (co_mach s) (i32 cause)).

(** [riscv_cpu_interp64 (s, 1)] on a hart of the machine. *)
Definition interp_hart (hartid : Z) (m : RISCVMachine) : option (RISCVMachine * (Z + stop)) :=
  match get_hart m hartid with
  | None => Some (m, inr Undefined)
  | Some c =>
      match riscv_cpu_interp64 1 (mkSt c m (mkLocals 0 0 0 0 0 0 0)) with
      | None => None
      | Some (st, r) => Some (put_hart hartid (cpu st) (mach st), r)
      end
  end.

(** [riscv_read_insn (s, &emu_insn, emu_pc)], which leaves [emu_insn] alone
    when the fetch fails, and the truncation of compressed instructions. *)
Definition fetch_insn (emu_insn : Z) : M (Z * Z * Z) := fun st =>
  let emu_priv := priv (cpu st) in
  let emu_pc := pc (cpu st) in
  let '(st, r) := riscv_read_insn emu_pc st in
  let fetched v := let v := if negb (v .& 3 =? 3) then v .& 0xFFFF else v in (st, inl (emu_priv, emu_pc, v)) in
  match r with
  | inl v => fetched v
  | inr MmuException => fetched emu_insn
  | inr e => (st, inr e)
  end.

(** What the DUT has committed. *)
Record dut_commit := mkDut { dut_pc : Z; dut_insn : Z; dut_wdata : Z }.

(** What the model has executed: where, what, and the registers it reports as
    written last. *)
Record commit := mkCommit { emu_priv : Z; emu_pc : Z; emu_insn : Z; iregno : Z; fregno : Z }.

(** The DUT has failed a store-conditional that the model is about to execute. *)
Definition dut_sc_failed (d : dut_commit) (pc insn : Z) : bool :=
  (pc =? dut_pc d) && (insn =? dut_insn d) && is_store_conditional insn && negb (dut_wdata d =? 0).

(** The model follows: the result is the DUT's and the instruction is skipped. *)
Definition follow_sc (d : dut_commit) (pc insn : Z) : M unit :=
  let rd := (insn >> 7) .& 0x1f in
  when (0 <? rd) (set_reg_m rd (dut_wdata d)) ;;
  modc (fun s => riscv_set_pc s (u64 (pc + 4))).

(** Raise the interrupt the DUT has announced. *)
Definition announce_interrupt (hartid : Z) (m : RISCVMachine) : RISCVMachine * (unit + stop) :=
  if pending_interrupt m =? -1 then (m, inl tt)
  else if 31 <? pending_interrupt m then (m, inr Undefined)
  else on_hart hartid (fun c => riscv_cpu_set_mip m (mip c .| u32 (1 << pending_interrupt m)) c) m.

(** Both an interrupt and an exception are pending: run into the exception and
    compare its cause; [false] when they differ. *)
Definition race_exception (hartid : Z) (s : CoState) : option (CoState * (bool + stop)) :=
  if (pending_interrupt (co_mach s) =? -1) || (co_pending_exception s =? -1) then Some (s, inl true)
  else match interp_hart hartid (co_mach s) with
       | None => None
       | Some (m, inr e) => Some (set_mach m s, inr e)
       | Some (m, inl _) =>
           match get_hart m hartid with
           | None => Some (set_mach m s, inr Undefined)
           | Some c =>
               let cause := i32 (if priv c =? PRV_S then scause c else mcause c) in
               Some (set_mach m s, inl (co_pending_exception s =? cause))
           end
       end.

(** The loop of [majordomo_cosim_step]; [inl None] is [return 0x1FFF]. *)
Fixpoint cosim_loop (fuel : nat) (hartid : Z) (d : dut_commit) (emu_insn : Z) (s : CoState)
  : option (CoState * (option commit + stop)) :=
  match fuel with
  | O => None
  | S fuel' =>
      match in_hart hartid (fetch_insn emu_insn) (co_mach s) with
      | (m, inr e) => Some (set_mach m s, inr e)
      | (m, inl (pr, pc, insn)) =>
          let s := set_mach m s in
          if dut_sc_failed d pc insn then
            match in_hart hartid (follow_sc d pc insn) m with
            | (m, inr e) => Some (set_mach m s, inr e)
            | (m, inl _) => Some (set_mach m s, inl (Some (mkCommit pr pc insn ((insn >> 7) .& 0x1f) (-1))))
            end
          else
            match race_exception hartid s with
            | None => None
            | Some (s, inr e) => Some (s, inr e)
            | Some (s, inl false) => Some (s, inl None)
            | Some (s, inl true) =>
                match announce_interrupt hartid (co_mach s) with
                | (m, inr e) => Some (set_mach m s, inr e)
                | (m, inl _) =>
                    match interp_hart hartid m with
                    | None => None
                    | Some (m, inr e) => Some (set_mach m s, inr e)
                    | Some (m, inl n) =>
                        if negb (n =? 0) then
                          match get_hart m hartid with
                          | None => Some (set_mach m s, inr Undefined)
                          | Some c =>
                              Some (set_mach m s,
                                    inl (Some (mkCommit pr pc insn (most_recently_written_reg c) (most_recently_written_fp_reg c))))
                          end
                        else cosim_loop fuel' hartid d insn (mkCo (set_pending_interrupt (-1) m) (-1))
                    end
                end
            end
      end
  end.

(** [emu_wdata] and [emu_wrote_data]. *)
Definition written_data (c : commit) : M (option Z) :=
  let value (v : option Z) := match v with Some x => ret (Some x) | None => throw AssertFail end in
  let! s := getc id in
  if 0 <? iregno c then value (riscv_get_reg s (iregno c))
  else if 0 <=? fregno c then value (riscv_get_fpreg s (fregno c))
  else ret None.

(** The comparison at the end of the step. *)
Definition mismatch (d : dut_commit) (c : commit) (wdata : option Z) : bool :=
  negb (emu_pc c =? dut_pc d) || negb (emu_insn c =? dut_insn d) && (emu_insn c .& 3 =? 3)
  || match wdata with Some w => negb (w =? dut_wdata d) | None => false end.

(** [majordomo_cosim_step] *)
Definition majordomo_cosim_step (fuel : nat) (s : CoState) (hartid : Z) (d : dut_commit) (check : bool)
  : option (CoState * (Z + stop)) :=
  let m := co_mach s in
  if negb (hartid <? ncpus m) then Some (s, inr AssertFail)
  else match get_hart m hartid with
  | None => Some (s, inr Undefined)
  | Some c0 =>
      if maxinsns m =? 0 then Some (s, inl 1)
      else
        let s := set_mach (set_maxinsns (u64 (maxinsns m - 1)) m) s in
        if terminate_simulation c0 then Some (s, inl 1)
        else
          match cosim_loop fuel hartid d uninit_insn s with
          | None => None
          | Some (s, inr e) => Some (s, inr e)
          | Some (s, inl None) => Some (s, inl 0x1FFF)
          | Some (s, inl (Some c)) =>
              match in_hart hartid (when check (handle_dut_overrides (emu_insn c) (dut_wdata d)) ;; written_data c) (co_mach s) with
              | (m, inr e) => Some (set_mach m s, inr e)
              | (m, inl wdata) =>
                  if negb check then Some (set_mach m s, inl 0)
                  else
                    match on_hart hartid riscv_cpu_sync_regs m with
                    | (m, inr e) => Some (set_mach m s, inr e)
                    | (m, inl _) => Some (set_mach m s, inl (if mismatch d c wdata then 0x1FFF else 0))
                    end
              end
          end
  end.

(** [majordomo_cosim_override_mem] on the hart's view of the memory. *)
Definition override_mem (dut_paddr dut_val size_log2 : Z) : M unit :=
  let! st := gets id in
  match get_phys_mem_range (mem_map (mach st)) dut_paddr with
  | None => ret tt
  | Some k =>
      let pr := the_range st k in
      if pr_is_ram pr then
        modm (fun m => set_mem_map (aset (mem_map m) k (phys_mem_set_dirty_bit pr (dut_paddr - pr_addr pr))) m) ;;
        guard ((0 <=? size_log2) && (size_log2 <=? 3)) AssertFail ;;
        hstore (Z.to_nat (2 ^ size_log2)) (range_ptr pr dut_paddr) dut_val
      else device_write pr dut_paddr dut_val size_log2
  end.

Definition majordomo_cosim_override_mem (s : CoState) (hartid dut_paddr dut_val size_log2 : Z) : CoState * (unit + stop) :=
  let '(m, r) := in_hart hartid (override_mem dut_paddr dut_val size_log2) (co_mach s) in (set_mach m s, r).

End WithEnv.

(** ** The harts stay well formed *)

Section Invariant.
Context {Bus : DeviceBus} {Hooks : CsrHooks} {HB : WfBus Bus} {HH : WfHooks Hooks}.
Context (uninit_insn uninit_pa : Z).

Lemma wf_set_reg_m rn v st : in_u 64 v -> wf_st st -> wf_st (fst (set_reg_m rn v st)).
Proof.
  intros Hv [H1 H2]. unfold set_reg_m, riscv_set_reg. destruct (_ && _) eqn:E; [|split; assumption]. bool_hyps.
  split; [|exact H2]. revert H1. cbn. wf_tac; rewrite ?aset_length; try assumption. rewrite aget_aset_ne by lia. assumption.
Qed.

Lemma wf_keeps {A} (f : M A) : @keeps Bus Hooks A f -> forall st, wf_st st -> wf_st (fst (f st)).
Proof. intros H st Hw. exact (fr_wf _ _ (H st) HB HH Hw). Qed.

Lemma wf_is_mmio_load rn off sz st : wf_st st -> wf_st (fst (is_mmio_load uninit_pa rn off sz st)).
Proof.
  apply wf_keeps. unfold is_mmio_load. apply keeps_bind; [keeps_tac|]. intros [v|]; [|keeps_tac].
  apply keeps_bind; [apply keeps_get_phys_addr|]. intros r. keeps_tac.
Qed.

Lemma wf_overrides insn w st : in_u 64 w -> wf_st st -> wf_st (fst (handle_dut_overrides uninit_pa insn w st)).
Proof.
  intros Hw. unfold handle_dut_overrides. apply wf_bind.
  - intros s. destruct (reads_dut_csr insn); [apply wf_set_reg_m, Hw|auto].
  - intros _ s. destruct (load_operands insn) as [[[rn off] rd]|]; [|auto]. revert s. apply wf_bind; [apply wf_is_mmio_load|].
    intros [] s; [apply wf_set_reg_m, Hw|auto].
Qed.

Lemma wf_written c st : wf_st st -> wf_st (fst (written_data c st)).
Proof. intros H. unfold written_data, bind, getc, id. repeat case_goal; exact H. Qed.

Lemma wf_fetch_insn i st : wf_st st -> wf_st (fst (fetch_insn i st)).
Proof.
  intros H. pose proof (wf_read_raw (pc (cpu st)) st H) as Hr. revert Hr. unfold fetch_insn, read_raw.
  destruct (riscv_read_insn (pc (cpu st)) st) as [st1 [v|[]]]; auto.
Qed.

Lemma wf_follow_sc d p i st : in_u 64 (dut_wdata d) -> wf_st st -> wf_st (fst (follow_sc d p i st)).
Proof.
  intros Hw. unfold follow_sc. apply wf_bind.
  - intros s. destruct (0 <? _); [apply wf_set_reg_m, Hw|auto].
  - intros _ s [H1 H2]. split; [apply wf_set_pc, H1|exact H2].
Qed.

Lemma wf_on_one_hart h f m : (forall c, wf_hart c -> wf_hart (f c)) -> harts_wf m -> harts_wf (fst (on_hart h f m)).
Proof.
  intros Hf Hm. unfold on_hart. destruct (get_hart m h) as [c|] eqn:E; [|exact Hm].
  apply wf_put_hart; [apply Hf, (get_hart_wf _ _ _ Hm E)|exact Hm].
Qed.

Lemma wf_announce h m : harts_wf m -> harts_wf (fst (announce_interrupt h m)).
Proof.
  intros Hm. unfold announce_interrupt. destruct (_ =? -1); [exact Hm|]. destruct (31 <? _); [exact Hm|].
  apply wf_on_one_hart; [|exact Hm]. intros c Hc. apply wf_set_mip; [|exact Hc].
  apply in_u_lor; [apply Hc|apply u_range; lia].
Qed.

Lemma wf_sync c : wf_hart c -> wf_hart (riscv_cpu_sync_regs c).
Proof.
  intros H. unfold riscv_cpu_sync_regs. set (l := for_up _ _ _ _).
  assert (Hl : length l = 32%nat).
  { unfold l. apply (for_up_ind (fun _ l => length l = 32%nat)); [apply H|]. intros k a _ L. rewrite aset_length. exact L. }
  clearbody l. revert H. wf_tac.
Qed.

Lemma interp_hart_wf h m : harts_wf m -> exists m' r, interp_hart h m = Some (m', r) /\ harts_wf m'.
Proof.
  intros Hm. unfold interp_hart. destruct (get_hart m h) as [c|] eqn:E; [|eauto].
  destruct (interp_wf Bus Hooks 1 (mkSt c m (mkLocals 0 0 0 0 0 0 0)) HB HH ltac:(lia) (wf_start _ _ _ _ Hm E)) as (st & r & -> & Hw).
  eexists _, _. split; [reflexivity|]. apply wf_finish, Hw.
Qed.

Lemma race_wf h s : harts_wf (co_mach s) -> exists s' r, race_exception h s = Some (s', r) /\ harts_wf (co_mach s').
Proof.
  intros Hs. unfold race_exception. destruct (_ || _); [eauto|].
  destruct (interp_hart_wf h (co_mach s) Hs) as (m & [n|e] & -> & Hm); [|eauto]. destruct (get_hart m h); eauto.
Qed.

Lemma cosim_loop_wf h d : in_u 64 (dut_wdata d) -> forall fuel i s s' r, harts_wf (co_mach s) ->
  cosim_loop fuel h d i s = Some (s', r) -> harts_wf (co_mach s').
Proof.
  intros Hd. induction fuel as [|f IH]; intros i s s' r Hs; [discriminate|]. cbn [cosim_loop].
  pose proof (wf_in_hart h (fetch_insn i) (co_mach s) (wf_fetch_insn i) Hs) as H1.
  destruct (in_hart h (fetch_insn i) (co_mach s)) as [m1 [[[pr p] insn]|e]]; cbn [fst] in H1; [|intros [= <- <-]; exact H1].
  destruct (dut_sc_failed d p insn).
  { pose proof (wf_in_hart h (follow_sc d p insn) m1 (fun st => wf_follow_sc d p insn st Hd) H1) as H2.
    destruct (in_hart h (follow_sc d p insn) m1) as [m2 [[]|e]]; intros [= <- <-]; exact H2. }
  destruct (race_wf h (set_mach m1 s) H1) as (s2 & [[]|e] & -> & H2); [|intros [= <- <-]; exact H2..].
  pose proof (wf_announce h (co_mach s2) H2) as H3.
  destruct (announce_interrupt h (co_mach s2)) as [m3 [[]|e]]; cbn [fst] in H3; [|intros [= <- <-]; exact H3].
  destruct (interp_hart_wf h m3 H3) as (m4 & [n|e] & -> & H4); [|intros [= <- <-]; exact H4].
  destruct (negb (n =? 0)); [|apply IH; exact H4]. destruct (get_hart m4 h); intros [= <- <-]; exact H4.
Qed.

Lemma cosim_step_wf fuel s h d check s' r : in_u 64 (dut_wdata d) -> harts_wf (co_mach s) ->
  majordomo_cosim_step uninit_insn uninit_pa fuel s h d check = Some (s', r) -> harts_wf (co_mach s').
Proof.
  intros Hd Hs. unfold majordomo_cosim_step. destruct (negb _); [intros [= <- <-]; exact Hs|].
  destruct (get_hart (co_mach s) h) as [c0|]; [|intros [= <- <-]; exact Hs]. destruct (maxinsns _ =? 0); [intros [= <- <-]; exact Hs|].
  destruct (terminate_simulation c0); [intros [= <- <-]; exact Hs|].
  match goal with |- context [cosim_loop fuel h d uninit_insn ?t] => destruct (cosim_loop fuel h d uninit_insn t) as [[s1 [[c|]|e]]|] eqn:E end;
    [|intros [= <- <-]; eapply cosim_loop_wf; [exact Hd| |exact E]; exact Hs..|discriminate].
  apply cosim_loop_wf in E; [|exact Hd|exact Hs].
  match goal with |- context [in_hart h ?f (co_mach s1)] => assert (H2 : harts_wf (fst (in_hart h f (co_mach s1)))) end.
  { apply wf_in_hart; [|exact E]. apply wf_bind; [|intros _; apply wf_written]. intros st. destruct check; [apply wf_overrides, Hd|auto]. }
  destruct (in_hart h _ (co_mach s1)) as [m2 [w|e]]; cbn [fst] in H2; [|intros [= <- <-]; exact H2].
  destruct check; [|intros [= <- <-]; exact H2]. cbn [negb].
  pose proof (wf_on_one_hart h riscv_cpu_sync_regs m2 wf_sync H2) as H3.
  destruct (on_hart h riscv_cpu_sync_regs m2) as [m3 [[]|e]]; intros [= <- <-]; exact H3.
Qed.

Lemma wf_override_mem a v sz st : wf_st st -> wf_st (fst (override_mem a v sz st)).
Proof. apply wf_keeps. unfold override_mem. keeps_tac. apply keeps_device_write. Qed.

End Invariant.

(** ** The calls of a session *)

Inductive call :=
| RaiseTrap (cause : Z)
| Step (fuel : nat) (hartid : Z) (d : dut_commit) (check : bool)
| OverrideMem (hartid paddr val size_log2 : Z).

Section Sessions.
Context (Bus : DeviceBus) (Hooks : CsrHooks) (uninit_insn uninit_pa : Z).

Definition do_call (c : call) (s : CoState) : option (CoState * (Z + stop)) :=
  match c with
  | RaiseTrap cause =>
      match majordomo_cosim_raise_trap s cause with
      | inl s => Some (s, inl 0)
      | inr e => Some (s, inr e)
      end
  | Step fuel hartid d check => majordomo_cosim_step uninit_insn uninit_pa fuel s hartid d check
  | OverrideMem hartid paddr val size_log2 =>
      match majordomo_cosim_override_mem s hartid paddr val size_log2 with
      | (s, inl _) => Some (s, inl 0)
      | (s, inr e) => Some (s, inr e)
      end
  end.

(** A session goes on as long as the calls return. *)
Inductive calls : CoState -> list call -> CoState -> Prop :=
| calls_nil s : calls s [] s
| calls_cons s c s1 v cs s2 :
    do_call c s = Some (s1, inl v) -> calls s1 cs s2 -> calls s (c :: cs) s2.

Definition call_ok (c : call) : Prop :=
  match c with Step _ _ d _ => in_u 64 (dut_wdata d) | _ => True end.

Lemma do_call_wf (HB : WfBus Bus) (HH : WfHooks Hooks) c s s' r :
  call_ok c -> harts_wf (co_mach s) -> do_call c s = Some (s', r) -> harts_wf (co_mach s').
Proof.
  intros Hc Hs. destruct c as [cause|fuel h d check|h a v sz]; cbn [do_call].
  - unfold majordomo_cosim_raise_trap. repeat case_goal; intros [= <- <-]; exact Hs.
  - apply cosim_step_wf; assumption.
  - unfold majordomo_cosim_override_mem.
    pose proof (wf_in_hart h (override_mem a v sz) (co_mach s) (wf_override_mem a v sz) Hs) as H.
    destruct (in_hart h (override_mem a v sz) (co_mach s)) as [m [[]|e]]; intros [= <- <-]; exact H.
Qed.

(** ** The reference

    What the model commits on its own: fetch, run one instruction, again when
    a trap was taken instead.  It is not defined while a trap is announced. *)

Fixpoint golden_loop (fuel : nat) (hartid emu_insn : Z) (m : RISCVMachine) : option (RISCVMachine * commit) :=
  match fuel with
  | O => None
  | S fuel' =>
      match in_hart hartid (fetch_insn emu_insn) m with
      | (m, inl (pr, pc, insn)) =>
          if negb (pending_interrupt m =? -1) then None
          else match interp_hart hartid m with
               | Some (m, inl n) =>
                   if n =? 0 then golden_loop fuel' hartid insn (set_pending_interrupt (-1) m)
                   else match get_hart m hartid with
                        | Some c => Some (m, mkCommit pr pc insn (most_recently_written_reg c) (most_recently_written_fp_reg c))
                        | None => None
                        end
               | _ => None
               end
      | _ => None
      end
  end.

(** The instruction's result is the model's own, not one taken from the DUT. *)
Definition own_result (insn : Z) : M bool :=
  if reads_dut_csr insn then ret false
  else match load_operands insn with
       | None => ret true
       | Some (rn, offset, _) => let! mmio := is_mmio_load uninit_pa rn offset ((insn >> 12) .& 3) in ret (negb mmio)
       end.

(** One commit of the reference, with the value written. *)
Definition golden (fuel : nat) (hartid : Z) (m : RISCVMachine) : option (RISCVMachine * (commit * option Z)) :=
  match get_hart m hartid with
  | None => None
  | Some c0 =>
      if (maxinsns m =? 0) || terminate_simulation c0 || negb (hartid <? ncpus m) then None
      else match golden_loop fuel hartid uninit_insn (set_maxinsns (u64 (maxinsns m - 1)) m) with
           | None => None
           | Some (m, c) =>
               match in_hart hartid (let! own := own_result (emu_insn c) in guard own AssertFail ;; written_data c) m with
               | (m, inl w) =>
                   match on_hart hartid riscv_cpu_sync_regs m with
                   | (m, inl _) => if pending_interrupt m =? -1 then Some (m, (c, w)) else None
                   | _ => None
                   end
               | _ => None
               end
           end
  end.

Inductive golden_trace (hartid : Z) : nat -> RISCVMachine -> list (commit * option Z) -> RISCVMachine -> Prop :=
| golden_nil fuel m : golden_trace hartid fuel m [] m
| golden_cons fuel m g m1 gs m2 :
    golden fuel hartid m = Some (m1, g) -> golden_trace hartid fuel m1 gs m2 -> golden_trace hartid fuel m (g :: gs) m2.

(** The DUT has committed what the reference commits; the encoding of a
    compressed instruction is not compared. *)
Definition agrees (d : dut_commit) (g : commit * option Z) : Prop :=
  dut_pc d = emu_pc (fst g) /\ (emu_insn (fst g) .& 3 = 3 -> dut_insn d = emu_insn (fst g)) /\
  (forall w, snd g = Some w -> dut_wdata d = w).

(** The DUT has not failed a store-conditional. *)
Definition no_sc_failure (d : dut_commit) : Prop := is_store_conditional (dut_insn d) = true -> dut_wdata d = 0.

(** A test bench: check the commits of the DUT until one is refused.  The
    answer counts the commits that were accepted. *)
Fixpoint test_bench (fuel : nat) (hartid : Z) (ds : list dut_commit) (s : CoState) : option (CoState * nat * (Z + stop)) :=
  match ds with
  | [] => Some (s, O, inl 0)
  | d :: ds =>
      match majordomo_cosim_step uninit_insn uninit_pa fuel s hartid d true with
      | None => None
      | Some (s, inl v) =>
          if v =? 0 then match test_bench fuel hartid ds s with Some (s, n, r) => Some (s, S n, r) | None => None end
          else Some (s, O, inl v)
      | Some (s, inr e) => Some (s, O, inr e)
      end
  end.

Lemma mismatch_spec d c w : mismatch d c w = false <-> agrees d (c, w).
Proof.
  unfold mismatch, agrees. cbn [fst snd]. rewrite !orb_false_iff, andb_false_iff, !negb_false_iff, !Z.eqb_eq, Z.eqb_neq.
  split.
  - intros [[H1 H2] H3]. split; [congruence|]. split; [intros; destruct H2; congruence|].
    intros w' ->. apply negb_false_iff, Z.eqb_eq in H3. congruence.
  - intros (H1 & H2 & H3). split; [split; [congruence|]|].
    + destruct (Z.eq_dec (emu_insn c .& 3) 3); [left; symmetry; auto|right; assumption].
    + destruct w as [w|]; [|reflexivity]. apply negb_false_iff, Z.eqb_eq. symmetry; auto.
Qed.

Lemma sc_agrees d pc insn : no_sc_failure d -> dut_sc_failed d pc insn = false.
Proof.
  intros H. unfold dut_sc_failed. destruct (dut_sc_failed d pc insn) eqn:E; [|exact E].
  unfold dut_sc_failed in E. bool_hyps. exfalso. unfold no_sc_failure in H. subst insn. auto.
Qed.

(** The loop of the step is the loop of the reference. *)
Lemma cosim_loop_golden h d : no_sc_failure d -> forall fuel i m m' c,
  golden_loop fuel h i m = Some (m', c) -> cosim_loop fuel h d i (mkCo m (-1)) = Some (mkCo m' (-1), inl (Some c)).
Proof.
  intros Hd. induction fuel as [|f IH]; intros i m m' c; [discriminate|]. cbn [golden_loop cosim_loop co_mach].
  destruct (in_hart h (fetch_insn i) m) as [m1 [[[pr p] insn]|e]]; [|discriminate]. rewrite sc_agrees by exact Hd.
  unfold race_exception, announce_interrupt, set_mach. cbn [co_mach co_pending_exception].
  destruct (pending_interrupt m1 =? -1) eqn:E; [|discriminate]. cbn [negb orb co_mach]. rewrite E.
  destruct (interp_hart h m1) as [[m2 [n|e]]|]; [|discriminate..].
  destruct (n =? 0); cbn [negb].
  - apply IH.
  - destruct (get_hart m2 h); [|discriminate]. intros [= <- <-]. reflexivity.
Qed.

(** The overrides leave a result of the model alone. *)
Lemma own_overrides insn w {A} (k : M A) st st' a :
  (let! own := own_result insn in guard own AssertFail ;; k) st = (st', inl a) ->
  (handle_dut_overrides uninit_pa insn w ;; k) st = (st', inl a).
Proof.
  unfold own_result, handle_dut_overrides. destruct (reads_dut_csr insn); [discriminate|].
  destruct (load_operands insn) as [[[rn off] rd]|]; [|exact id].
  unfold bind, when. destruct (is_mmio_load uninit_pa rn off _ st) as [st1 [[]|e]] eqn:E; [discriminate| |discriminate].
  unfold ret. cbn [negb guard]. unfold guard, ret. rewrite E. intros H; exact H.
Qed.

(** One commit: the step does what the reference does, and its verdict is the
    agreement of the DUT's commit with the reference's. *)
Lemma step_golden fuel h m m' g d : no_sc_failure d -> golden fuel h m = Some (m', g) ->
  pending_interrupt m' = -1 /\ exists v, majordomo_cosim_step uninit_insn uninit_pa fuel (mkCo m (-1)) h d true = Some (mkCo m' (-1), inl v) /\ (agrees d g /\ v = 0 \/ ~ agrees d g /\ v = 0x1FFF).
Proof.
  intros Hd. unfold golden, majordomo_cosim_step. cbn [co_mach].
  destruct (get_hart m h) as [c0|]; [|discriminate]. destruct (maxinsns m =? 0); [discriminate|].
  destruct (terminate_simulation c0); [discriminate|]. destruct (h <? ncpus m); [|discriminate]. cbn [orb negb].
  unfold set_mach at 1. cbn [co_pending_exception].
  destruct (golden_loop fuel h uninit_insn _) as [[m1 c]|] eqn:E; [|discriminate].
  apply (cosim_loop_golden h d Hd) in E. rewrite E. cbn [co_mach].
  match goal with |- context [in_hart h ?f m1] => destruct (in_hart h f m1) as [m2 [w|e]] eqn:E2 end; [|discriminate].
  assert (E3 : in_hart h (when true (handle_dut_overrides uninit_pa (emu_insn c) (dut_wdata d)) ;; written_data c) m1 = (m2, inl w)).
  { revert E2. unfold in_hart. destruct (get_hart m1 h); [|discriminate].
    match goal with |- context [bind (own_result ?i) ?k ?st] => destruct (bind (own_result i) k st) as [st' [w'|e]] eqn:E4 end; [|discriminate].
    intros [= <- <-]. unfold when. rewrite (own_overrides _ (dut_wdata d) _ _ _ _ E4). reflexivity. }
  rewrite E3. destruct (on_hart h riscv_cpu_sync_regs m2) as [m3 [[]|e]]; [|discriminate].
  destruct (pending_interrupt m3 =? -1) eqn:E4; [|discriminate]. intros [= <- <-]. split; [apply Z.eqb_eq, E4|].
  eexists. split; [reflexivity|]. pose proof (mismatch_spec d c w) as Hm.
  destruct (mismatch d c w); [right|left]; (split; [|reflexivity]); [intros Ha; apply Hm in Ha; discriminate|apply Hm; reflexivity].
Qed.

End Sessions.

(** C25. The test bench accepts exactly the commits of the model.  Let the
    model commit [gs] on its own from machine [m], in which no trap is
    announced, and let none of these results be one that is taken from the
    DUT.  For any commits [ds] of a DUT, as many, with no failed
    store-conditional among them, either all agree with the model's (address,
    encoding unless compressed, value written) and every step returns 0 and
    the machine is the one the model reaches; or the first [k] agree, they are
    accepted, and step [k] returns [0x1FFF]. *)
Theorem cosim_lockstep (Bus : DeviceBus) (Hooks : CsrHooks) uninit_insn uninit_pa fuel h gs m m' ds :
  golden_trace Bus Hooks uninit_insn uninit_pa h fuel m gs m' -> length ds = length gs -> Forall no_sc_failure ds ->
  Forall2 agrees ds gs /\ test_bench Bus Hooks uninit_insn uninit_pa fuel h ds (mkCo m (-1)) = Some (mkCo m' (-1), length ds, inl 0)
  \/ exists k d g s', ds !! k = Some d /\ gs !! k = Some g /\ ~ agrees d g /\ Forall2 agrees (firstn k ds) (firstn k gs) /\ test_bench Bus Hooks uninit_insn uninit_pa fuel h ds (mkCo m (-1)) = Some (s', k, inl 0x1FFF).
Proof.
  intros Ht. revert ds. induction Ht as [fuel m|fuel m g m1 gs m2 Hg Ht IH]; intros [|d ds] Hl Hd; try discriminate.
  - left. split; [constructor|reflexivity].
  - inversion Hd as [|? ? Hd1 Hd2]; subst. cbn [test_bench].
    destruct (step_golden Bus Hooks uninit_insn uninit_pa fuel h m m1 g d Hd1 Hg) as (_ & v & -> & [[Ha ->]|[Ha ->]]); cbn [Z.eqb].
    + injection Hl as Hl. destruct (IH ds Hl Hd2) as [[Hf Hb]|(k & d' & g' & s' & H1 & H2 & H3 & H4 & Hb)]; rewrite Hb; clear IH.
      * left. split; [constructor; assumption|reflexivity].
      * right. exists (S k), d', g', s'. repeat split; try assumption. cbn [firstn]. constructor; assumption.
    + right. exists O, d, g, (mkCo m1 (-1)). repeat split; try assumption. constructor.
Qed.

(** C26. The harts stay well formed.  Every session of calls (announced traps,
    steps with any commits, overrides of the memory) that starts with well
    formed harts ends with well formed harts. *)
Theorem session_preserves (Bus : DeviceBus) (Hooks : CsrHooks) uninit_insn uninit_pa s cs s' :
  WfBus Bus -> WfHooks Hooks -> Forall call_ok cs -> harts_wf (co_mach s) ->
  calls Bus Hooks uninit_insn uninit_pa s cs s' -> harts_wf (co_mach s').
Proof.
  intros HB HH Hc Hs Hr. induction Hr as [s|s c s1 v cs s2 H1 Hr IH]; [exact Hs|]. inversion Hc; subst.
  apply IH; [assumption|]. eapply do_call_wf; eassumption.
Qed.

(** ** A session *)

Definition demo_co : CoState :=
  majordomo_cosim_init (set_maxinsns 100 (set_ncpus 1 (set_cpu_state [demo_hart] (mach demo)))).

(** [li x1, 5] and [add x1, x1, x1]; the DUT gets the sum wrong. *)
Definition demo_commits : list dut_commit :=
  [mkDut 0x80000000 0x00500093 5; mkDut 0x80000004 0x001080b3 11].

Definition demo_bench : option (nat * (Z + stop)) :=
  match test_bench no_bus no_hooks 0 0 1 0 demo_commits demo_co with
  | Some (_, k, r) => Some (k, r)
  | None => None
  end.

Example demo_session : demo_bench = Some (1%nat, inl 0x1FFF).
Proof. vm_compute. reflexivity. Qed.

Definition demo_golden (m : RISCVMachine) : option (RISCVMachine * (commit * option Z)) := golden no_bus no_hooks 0 0 1 0 m.

Definition demo_g1 : commit * option Z := (mkCommit 3 0x80000000 0x00500093 1 (-1), Some 5).
Definition demo_g2 : commit * option Z := (mkCommit 3 0x80000004 0x001080b3 1 (-1), Some 10).

Lemma demo_commits_golden :
  match demo_golden (co_mach demo_co) with
  | Some (m2, g1) => g1 = demo_g1 /\ match demo_golden m2 with Some (_, g2) => g2 = demo_g2 | None => False end
  | None => False
  end.
Proof. vm_compute. split; reflexivity. Qed.

Lemma cosim_lockstep_witness : exists m3,
  Forall2 agrees demo_commits [demo_g1; demo_g2] /\
    test_bench no_bus no_hooks 0 0 1 0 demo_commits (mkCo (co_mach demo_co) (-1)) = Some (mkCo m3 (-1), 2%nat, inl 0)
  \/ exists k d g s', demo_commits !! k = Some d /\ [demo_g1; demo_g2] !! k = Some g /\ ~ agrees d g /\
    Forall2 agrees (firstn k demo_commits) (firstn k [demo_g1; demo_g2]) /\
    test_bench no_bus no_hooks 0 0 1 0 demo_commits (mkCo (co_mach demo_co) (-1)) = Some (s', k, inl 0x1FFF).
Proof.
  pose proof demo_commits_golden as H. generalize dependent (co_mach demo_co). intros m1 H.
  destruct (demo_golden m1) as [[m2 g1]|] eqn:E1; [|destruct H]. destruct H as [-> H].
  destruct (demo_golden m2) as [[m3 g2]|] eqn:E2; [|destruct H]. subst g2. exists m3.
  apply (cosim_lockstep no_bus no_hooks 0 0 1 0 [demo_g1; demo_g2] m1 m3 demo_commits).
  - econstructor; [exact E1|]. econstructor; [exact E2|]. constructor.
  - reflexivity.
  - repeat constructor; discriminate.
Defined.

(** The announced timer interrupt is masked: the step executes the instruction
    and leaves the announcement, and the DUT's next interrupt stops the
    program. *)
Remark masked_interrupt_stays :
  let timer := -(2 ^ 63) + 7 in
  match majordomo_cosim_raise_trap demo_co timer with
  | inl s1 =>
      match majordomo_cosim_step (Bus := no_bus) (Hooks := no_hooks) 0 0 1 s1 0 (mkDut 0x80000000 0x00500093 5) true with
      | Some (s2, inl 0) => majordomo_cosim_raise_trap s2 timer = inr AssertFail
      | _ => False
      end
  | _ => False
  end.
Proof. vm_compute. reflexivity. Qed.

(** A hart whose program counter and trap vector point nowhere. *)
Definition demo_lost : RISCVMachine :=
  set_maxinsns 100 (set_ncpus 1 (set_cpu_state [set_pc 0 demo_hart] (mach demo))).

(** One turn of the loop that takes a trap. *)
Definition trap_turn (i : Z) (m : RISCVMachine) : option (Z * RISCVMachine) :=
  match in_hart 0 (fetch_insn i) m with
  | (m1, inl (_, _, j)) =>
      if negb (pending_interrupt m1 =? -1) then None
      else match interp_hart (Bus := no_bus) (Hooks := no_hooks) 0 m1 with
           | Some (m2, inl 0) => Some (j, set_pending_interrupt (-1) m2)
           | _ => None
           end
  | _ => None
  end.

Lemma cosim_loop_trap fuel d i m j m' : no_sc_failure d -> trap_turn i m = Some (j, m') ->
  cosim_loop (Bus := no_bus) (Hooks := no_hooks) (S fuel) 0 d i (mkCo m (-1)) =
  cosim_loop (Bus := no_bus) (Hooks := no_hooks) fuel 0 d j (mkCo m' (-1)).
Proof.
  intros Hd. unfold trap_turn. cbn [cosim_loop co_mach].
  destruct (in_hart 0 (fetch_insn i) m) as [m1 [[[pr p] insn]|e]]; [|discriminate]. rewrite sc_agrees by exact Hd.
  unfold race_exception, announce_interrupt, set_mach. cbn [co_mach co_pending_exception].
  destruct (pending_interrupt m1 =? -1) eqn:E; [|discriminate]. cbn [negb orb co_mach]. rewrite E.
  destruct (interp_hart 0 m1) as [[m2 [[]|e]]|]; try discriminate. intros [= <- <-]. reflexivity.
Qed.

(** The second trap of the lost hart leaves the machine as the first one has. *)
Lemma demo_lost_turns :
  match trap_turn 0 (set_maxinsns 99 demo_lost) with
  | Some (j, m) => j = 0 /\ trap_turn 0 m = Some (0, m)
  | None => False
  end.
Proof. vm_compute. split; reflexivity. Qed.

Lemma step_hangs fuel m d : get_hart m 0 = Some (set_pc 0 demo_hart) -> ncpus m = 1 -> maxinsns m = 100 ->
  cosim_loop (Bus := no_bus) (Hooks := no_hooks) fuel 0 d 0 (mkCo (set_maxinsns 99 m) (-1)) = None ->
  majordomo_cosim_step (Bus := no_bus) (Hooks := no_hooks) 0 0 fuel (mkCo m (-1)) 0 d true = None.
Proof.
  intros H1 H2 H3 H4. unfold majordomo_cosim_step. cbv zeta. cbn [co_mach]. rewrite H1, H2, H3. cbv iota beta.
  change (terminate_simulation (set_pc 0 demo_hart)) with false. change (u64 (100 - 1)) with 99.
  change (negb (0 <? 1)) with false. change (100 =? 0) with false. change (set_mach (set_maxinsns 99 m) (mkCo m (-1))) with (mkCo (set_maxinsns 99 m) (-1)).
  rewrite H4. reflexivity.
Qed.

(** The loop of the step may run for ever: a hart whose trap vector cannot be
    fetched traps again and again, and the step never returns. *)
Remark lost_hart_hangs : forall fuel d, no_sc_failure d ->
  majordomo_cosim_step (Bus := no_bus) (Hooks := no_hooks) 0 0 fuel (mkCo demo_lost (-1)) 0 d true = None.
Proof.
  intros fuel d Hd. apply step_hangs; [reflexivity..|].
  pose proof demo_lost_turns as H. generalize dependent (set_maxinsns 99 demo_lost). intros m H.
  destruct (trap_turn 0 m) as [[j m']|] eqn:E1; [|destruct H]. destruct H as [-> E2].
  assert (Hl : forall f, cosim_loop (Bus := no_bus) (Hooks := no_hooks) f 0 d 0 (mkCo m' (-1)) = None).
  { induction f as [|f IH]; [reflexivity|]. rewrite (cosim_loop_trap f d 0 m' 0 m' Hd E2). exact IH. }
  destruct fuel as [|f]; [reflexivity|]. rewrite (cosim_loop_trap f d 0 m 0 m' Hd E1). apply Hl.
Qed.

Lemma demo_co_wf : harts_wf (co_mach demo_co).
Proof.
  constructor; [|constructor]. pose proof (riscv_cpu_init_wf_all 0x80000000 false false 0) as H. revert H. unfold demo_hart.
  generalize (riscv_cpu_init 0x80000000 false false 0). wf_tac.
Qed.

Lemma session_preserves_witness : exists s',
  calls no_bus no_hooks 0 0 demo_co [RaiseTrap 2; OverrideMem 0 0x80000008 0x13 2; Step 1 0 (mkDut 0x80000000 0x00500093 5) true] s' /\
  harts_wf (co_mach s').
Proof.
  assert (H : match do_call no_bus no_hooks 0 0 (RaiseTrap 2) demo_co with
    | Some (s1, inl _) =>
        match do_call no_bus no_hooks 0 0 (OverrideMem 0 0x80000008 0x13 2) s1 with
        | Some (s2, inl _) =>
            match do_call no_bus no_hooks 0 0 (Step 1 0 (mkDut 0x80000000 0x00500093 5) true) s2 with
            | Some (_, inl _) => True | _ => False end
        | _ => False end
    | _ => False end) by (vm_compute; exact I).
  pose proof demo_co_wf as Hw. generalize dependent demo_co. intros s0 H Hw.
  destruct (do_call _ _ _ _ _ s0) as [[s1 [v1|]]|] eqn:E1; [|destruct H..].
  destruct (do_call _ _ _ _ _ s1) as [[s2 [v2|]]|] eqn:E2; [|destruct H..].
  destruct (do_call _ _ _ _ _ s2) as [[s3 [v3|]]|] eqn:E3; [|destruct H..].
  assert (Hs : calls no_bus no_hooks 0 0 s0 [RaiseTrap 2; OverrideMem 0 0x80000008 0x13 2; Step 1 0 (mkDut 0x80000000 0x00500093 5) true] s3)
    by (repeat (econstructor; [eassumption|]); constructor).
  exists s3. split; [exact Hs|].
  apply (session_preserves no_bus no_hooks 0 0 s0 _ s3 no_bus_wf no_hooks_wf) in Hs; [exact Hs| |exact Hw].
  repeat constructor; discriminate.
Defined.
