(* ===== verification/Boot.v ===== *)
(** * Building and booting a machine

    [src/elf64.cpp], [src/bin_utils.cpp] and [virt_machine_init] of
    [src/riscv_machine.cpp]: the ELF reader, the loaders of the images, the
    generated boot ROM, and the construction of a machine from its parameters.

    A file is its bytes.  The layout of the ELF structures is the one of
    [<elf.h>].  A read outside a buffer, a write outside a host block and a
    [memcpy] to a null pointer are [Stopped Undefined].  [mallocz] returns the
    addresses listed in [blocks], one after the other, and clears the block. *)

From Stdlib Require Import String Ascii.
From S2P Require Import Prelude RiscvDefs State IoMem Tlb Pmp Mmu Csr Trap Alu SoftFp Exec ExecFp Vector Stf Interp HartInv Frame InterpInv Devices Machine Virtio Fdt.
Open Scope Z_scope.
Open Scope c_scope.

(** ** The state *)

(** How a function of this file ends early: [return rc] after a message,
    [exit (code)], or a stop of the program. *)
Inductive bstop := Refused (rc : Z) | Exit (code : Z) | Stopped (e : stop).

Record Boot := mkBoot {
  bm : RISCVMachine;
  layout : Layout;
  compact_bootrom : bool;
  bootrom_loaded : bool;
  initrd_start : Z;
  blocks : list Z
}.

Definition set_bm (m : RISCVMachine) (b : Boot) : Boot :=
  mkBoot m (layout b) (compact_bootrom b) (bootrom_loaded b) (initrd_start b) (blocks b).
Definition set_layout (y : Layout) (b : Boot) : Boot :=
  mkBoot (bm b) y (compact_bootrom b) (bootrom_loaded b) (initrd_start b) (blocks b).
Definition set_bootrom_loaded (l : bool) (b : Boot) : Boot :=
  mkBoot (bm b) (layout b) (compact_bootrom b) l (initrd_start b) (blocks b).
Definition set_initrd_start (a : Z) (b : Boot) : Boot :=
  mkBoot (bm b) (layout b) (compact_bootrom b) (bootrom_loaded b) a (blocks b).
Definition set_blocks (l : list Z) (b : Boot) : Boot :=
  mkBoot (bm b) (layout b) (compact_bootrom b) (bootrom_loaded b) (initrd_start b) l.

Definition BM (A : Type) : Type := Boot -> (Boot * A) + bstop.

Definition bret {A} (a : A) : BM A := fun b => inl (b, a).
Definition bbind {A B} (m : BM A) (k : A -> BM B) : BM B := fun b =>
  match m b with inl (b', a) => k a b' | inr e => inr e end.
Definition bfail {A} (e : bstop) : BM A := fun _ => inr e.
Definition bgets {A} (f : Boot -> A) : BM A := fun b => inl (b, f b).
Definition bmod (f : Boot -> Boot) : BM unit := fun b => inl (f b, tt).
Definition need {A} (o : option A) : BM A := match o with Some a => bret a | None => bfail (Stopped Undefined) end.

Declare Scope b_scope.
Delimit Scope b_scope with b.
Notation "'let?' x ':=' m 'in' k" := (bbind m (fun x => k))
  (at level 10, x pattern, m at level 100, k at level 200) : b_scope.
Notation "m ;; k" := (bbind m (fun _ => k)) (at level 100, k at level 200, right associativity) : b_scope.
Open Scope b_scope.

(** ** ELF images *)

Definition ELFMAG : list Z := [0x7f; 0x45; 0x4c; 0x46].
Definition ELFCLASS64 := 2.
Definition ELFDATA2LSB := 1.
Definition EM_RISCV := 0xF3.
Definition PT_LOAD := 1.
Definition SHT_SYMTAB := 2.
Definition SHT_STRTAB := 3.
Definition STB_GLOBAL := 1.
Definition sizeof_Ehdr := 64.
Definition sizeof_Phdr := 56.
Definition sizeof_Shdr := 64.
Definition sizeof_Sym := 24.

(** The [n] bytes at offset [off] of a buffer. *)
Definition buf_bytes (image : list Z) (off n : Z) : option (list Z) :=
  if (0 <=? off) && (0 <=? n) && (off + n <=? Z.of_nat (length image))
  then Some (firstn (Z.to_nat n) (skipn (Z.to_nat off) image)) else None.

(** A little-endian field of [n] bytes. *)
Definition img (image : list Z) (off n : Z) : option Z := option_map le_value (buf_bytes image off n).

Definition is_field (image : list Z) (off n v : Z) : bool :=
  match img image off n with Some x => x =? v | None => false end.

Definition elf64_is_riscv64 (image : list Z) : bool :=
  if Z.of_nat (length image) <? sizeof_Ehdr then false
  else bool_decide (firstn 4 image = ELFMAG)
       && is_field image 4 1 ELFCLASS64 && is_field image 5 1 ELFDATA2LSB && is_field image 18 2 EM_RISCV
       && is_field image 52 2 sizeof_Ehdr && is_field image 54 2 sizeof_Phdr.

Definition elf64_get_entrypoint (image : list Z) : option Z := img image 24 8.

(** [strcmp (key, image + off) == 0]; [None] when the string runs out of the
    image. *)
Fixpoint strcmp_eq (image : list Z) (off : Z) (key : list Z) : option bool :=
  match img image off 1, key with
  | None, _ => None
  | Some c, [] => Some (c =? 0)
  | Some c, k :: key' => if c =? k then strcmp_eq image (off + 1) key' else Some false
  end.

(** The search for the last string and symbol tables among [n] section headers
    from number [i] on. *)
Fixpoint find_tables (n : nat) (image : list Z) (shdr shstrndx i : Z) (found : option Z * option (Z * Z))
  : option (option Z * option (Z * Z)) :=
  match n with
  | O => Some found
  | S n' =>
      let sh := shdr + sizeof_Shdr * i in
      match img image (sh + 4) 4, img image (sh + 24) 8, img image (sh + 32) 8 with
      | Some ty, Some offset, Some size =>
          let strtab := if (ty =? SHT_STRTAB) && negb (i =? shstrndx) then Some (i64 offset) else fst found in
          let symtab := if ty =? SHT_SYMTAB then Some (i64 offset, i32 (size / sizeof_Sym)) else snd found in
          find_tables n' image shdr shstrndx (i + 1) (strtab, symtab)
      | _, _, _ => None
      end
  end.

(** The search for the symbol; [Some (Some v)] has found it. *)
Fixpoint find_symbol (n : nat) (image : list Z) (strtab sym : Z) (key : list Z) : option (option Z) :=
  match n with
  | O => Some None
  | S n' =>
      match img image sym 4 with
      | None => None
      | Some st_name =>
          match strcmp_eq image (strtab + st_name) key, img image (sym + 4) 1 with
          | Some true, Some st_info =>
              if st_info >> 4 =? STB_GLOBAL then option_map Some (img image (sym + 8) 8)
              else find_symbol n' image strtab (sym + sizeof_Sym) key
          | Some true, None => None
          | Some false, _ => find_symbol n' image strtab (sym + sizeof_Sym) key
          | None, _ => None
          end
      end
  end.

(** [elf64_find_global]: [None] reads outside the image, [Some None] returns
    false.  Pointers are offsets from the image, at the width of an address. *)
Definition elf64_find_global (image key : list Z) : option (option Z) :=
  let image_size := Z.of_nat (length image) in
  match img image 40 8, img image 60 2, img image 62 2 with
  | Some e_shoff, Some e_shnum, Some e_shstrndx =>
      if image_size <? u64 (e_shoff + sizeof_Shdr - 1) then Some None
      else
        let shdr := i64 e_shoff in
        if image_size <? shdr + sizeof_Shdr * (e_shstrndx + 1) then Some None
        else if image_size <? shdr + sizeof_Shdr * e_shnum then Some None
        else
          match find_tables (Z.to_nat e_shnum) image shdr e_shstrndx 0 (None, None) with
          | None => None
          | Some (Some strtab, Some (symtab, symtab_len)) =>
              if image_size <? symtab + sizeof_Sym * symtab_len then Some None
              else find_symbol (Z.to_nat symtab_len) image strtab symtab key
          | Some _ => Some None
          end
  | _, _, _ => None
  end.

(** ** Memory *)

Definition KERNEL_OFFSET := 0x200000.

Definition get_ram_ptr (m : RISCVMachine) (paddr : Z) : option Z :=
  match get_phys_mem_range (mem_map m) paddr with
  | None => None
  | Some k =>
      let pr := aget zero_range (mem_map m) k in
      if pr_is_ram pr then Some (pr_phys_mem pr + (paddr - pr_addr pr)) else None
  end.

(** The block [mallocz (n)] returns at [a]. *)
Definition zero_block (h : gmap Z Z) (a n : Z) : gmap Z Z :=
  fold_right (fun i h => <[a + Z.of_nat i := 0]> h) h (seq 0 (Z.to_nat n)).

Definition cpu_register_ram (addr size devram_flags : Z) : BM unit := fun b =>
  let m := bm b in
  match register_ram_entry (mem_map m) addr size devram_flags, blocks b with
  | None, _ => inr (Stopped AssertFail)
  | Some _, [] => inr (Exit 1)
  | Some _, p :: rest =>
      match default_register_ram (mem_map m) addr size devram_flags p with
      | None => inr (Stopped AssertFail)
      | Some map => inl (set_blocks rest (set_bm (set_hmem (zero_block (hmem m) p size) (set_mem_map map m)) b), tt)
      end
  end.

(** [memcpy (dst, bytes, len)] into the host's memory. *)
Definition memcpy (dst : option Z) (bytes : list Z) : BM unit :=
  let? p := need dst in
  let? h := bgets (fun b => hmem (bm b)) in
  let? h' := need (host_write_bytes h p bytes) in
  bmod (fun b => set_bm (set_hmem h' (bm b)) b).

(** [memcpy (get_ram_ptr (s, paddr), bytes, len)] *)
Definition load_at (paddr : Z) (bytes : list Z) : BM unit :=
  let? p := bgets (fun b => get_ram_ptr (bm b) paddr) in memcpy p bytes.

(** ** Loading an image *)

(** The body of the loop over the program headers. *)
Definition load_segment (image : list Z) (ph : Z) : BM unit :=
  let? p_type := need (img image ph 4) in
  if negb (p_type =? PT_LOAD) then bret tt
  else
    let? p_memsz := need (img image (ph + 40) 8) in
    let rounded_size := u64 (p_memsz + DEVRAM_PAGE_SIZE - 1) .&~ (DEVRAM_PAGE_SIZE - 1) in
    let? p_vaddr := need (img image (ph + 16) 8) in
    let? base := bgets (fun b => ram_base_addr (bm b)) in
    (if p_vaddr =? BOOT_BASE_ADDR then bmod (set_bootrom_loaded true)
     else if negb (p_vaddr =? base) then cpu_register_ram p_vaddr rounded_size 0
     else bret tt) ;;
    let? p_offset := need (img image (ph + 8) 8) in
    let? p_filesz := need (img image (ph + 32) 8) in
    let? bytes := need (buf_bytes image p_offset p_filesz) in
    load_at p_vaddr bytes.

Fixpoint load_segments (n : nat) (image : list Z) (ph : Z) : BM unit :=
  match n with
  | O => bret tt
  | S n' => load_segment image ph ;; load_segments n' image (ph + sizeof_Phdr)
  end.

Definition load_elf_image (image : list Z) : BM unit :=
  let? e_phoff := need (img image 32 8) in
  let? e_phnum := need (img image 56 2) in
  load_segments (Z.to_nat e_phnum) image e_phoff.

(** [isspace] *)
Definition is_space (c : Z) : bool := (c =? 32) || (9 <=? c) && (c <=? 13).

Definition hex_digit (c : Z) : option Z :=
  if (48 <=? c) && (c <=? 57) then Some (c - 48)
  else if (97 <=? c) && (c <=? 102) then Some (c - 87)
  else if (65 <=? c) && (c <=? 70) then Some (c - 55)
  else None.

Fixpoint skip_space (s : list Z) : list Z :=
  match s with c :: s' => if is_space c then skip_space s' else s | [] => [] end.

(** The digits at the head of [s]: their value and number, and the rest. *)
Fixpoint hex_digits_of (s : list Z) (v n : Z) : Z * Z * list Z :=
  match s with
  | c :: s' => match hex_digit c with Some d => hex_digits_of s' (16 * v + d) (n + 1) | None => (v, n, s) end
  | [] => (v, n, [])
  end.

(** The conversion [%lx] of [sscanf]: white space, a sign, a prefix [0x] and
    digits, with the value of [strtoul]. *)
Definition scan_hex (s : list Z) : option (Z * list Z) :=
  let s := skip_space s in
  let '(neg, s) := match s with 45 :: s' => (true, s') | 43 :: s' => (false, s') | _ => (false, s) end in
  let s := match s with 48 :: 120 :: s' | 48 :: 88 :: s' => s' | _ => s end in
  let '(v, n, s) := hex_digits_of s 0 0 in
  if n =? 0 then None
  else Some (if 2 ^ 64 <=? v then 2 ^ 64 - 1 else if neg then u64 (- v) else v, s).

(** The text from offset [p] up to a newline or the end of the string, and
    whether it was a newline. *)
Fixpoint line_at (fuel : nat) (image : list Z) (p : Z) : option (list Z * bool) :=
  match fuel with
  | O => None
  | S fuel' =>
      match img image p 1 with
      | None => None
      | Some c =>
          if c =? 10 then Some ([], true) else if c =? 0 then Some ([], false)
          else match line_at fuel' image (p + 1) with Some (l, nl) => Some (c :: l, nl) | None => None end
      end
  end.

Fixpoint load_hex_lines (fuel : nat) (image : list Z) (p : Z) : BM unit :=
  match fuel with
  | O => bfail (Stopped Undefined)
  | S fuel' =>
      let? c0 := need (img image p 1) in
      let? prefixed := (if c0 =? 48 then let? c1 := need (img image (p + 1) 1) in bret (c1 =? 120) else bret false) in
      let p := if prefixed then p + 2 else p in
      let? (line, nl) := need (line_at (S (length image)) image p) in
      match scan_hex line with
      | None => bret tt
      | Some (offset, rest) =>
          match scan_hex rest with
          | None => bret tt
          | Some (data, _) =>
              let? mem := bgets (fun b => get_ram_ptr (bm b) offset) in
              match mem with
              | None => bfail (Exit 1)
              | Some _ =>
                  memcpy mem (le_bytes 4 (u32 data)) ;;
                  if nl then load_hex_lines fuel' image (p + Z.of_nat (length line) + 1) else bret tt
              end
          end
      end
  end.

Definition load_hex_image (image : list Z) : BM unit := load_hex_lines (S (length image)) image 0.

(** ** The boot ROM *)

(** A file named on the command line: [None] when it cannot be opened. *)
Definition file_arg : Type := option (list Z).

Definition load_bootrom (f : file_arg) : BM Z :=
  let? p := bgets (fun b => get_ram_ptr (bm b) ROM_BASE_ADDR) in
  match f with
  | None => bret (-1)
  | Some bytes =>
      let bytes := firstn (Z.to_nat (2 ^ 32 - 1)) bytes in
      memcpy (option_map (fun p => p + (BOOT_BASE_ADDR - ROM_BASE_ADDR)) p) bytes ;;
      bret (i32 (Z.of_nat (length bytes)))
  end.

(** The program [generate_bootrom] writes. *)
Definition bootrom_words (ncpus base : Z) : list Z :=
  [0xf1402573]                                                       (* csrr  a0, mhartid *)
  ++ (if ncpus =? 1 then [0x00050663;                                (* beqz  a0, 1f *)
                          0x10500073;                                (* wfi *)
                          0xffdff06f]                                (* j     0b *)
      else [0x00000013; 0x00000013; 0x00000013])                     (* nop *)
  ++ [0x00000597;                                                    (* auipc a1, 0 *)
      0x0f058593;                                                    (* addi  a1, a1, 240 *)
      0x60300413;                                                    (* li    s0, 1539 *)
      0x7b041073]                                                    (* csrw  dcsr, s0 *)
  ++ (if base =? 0xC000000000 then [0x0030041b; 0x02641413]          (* li s0, 3; slli s0, s0, 38 *)
      else [0x0010041b;                                              (* li    s0, 1 *)
            if base =? 0x80000000 then 0x01f41413 else 0x02741413])  (* slli  s0, s0, 31 or 39 *)
  ++ [0x7b141073;                                                    (* csrw  dpc, s0 *)
      0x7b200073].                                                   (* dret *)

Definition generate_bootrom : BM Z :=
  let? m := bgets bm in
  let q := option_map (fun p => p + (BOOT_BASE_ADDR - ROM_BASE_ADDR)) (get_ram_ptr m ROM_BASE_ADDR) in
  let base := ram_base_addr m in
  if negb (base =? 0x80000000) && negb (base =? 0x8000000000) && negb (base =? 0xC000000000) then bret (-1)
  else memcpy q (flat_map (le_bytes 4) (bootrom_words (ncpus m) base)) ;; bret (13 * 4).

(** [riscv_build_fdt (s, dst, dtb_name, ...)]: the generated tree or a file. *)
Definition build_fdt (dst : option Z) (dtb : option file_arg) (cmd_line : option (list Z)) (initrd_end : Z) : BM unit :=
  match dtb with
  | Some None => bfail (Stopped Undefined)
  | Some (Some bytes) => memcpy dst bytes
  | None =>
      let? b := bgets id in
      match riscv_build_fdt (bm b) (layout b) cmd_line (initrd_start b) initrd_end with
      | inr FAssert => bfail (Stopped AssertFail)
      | inr _ => bfail (Stopped Undefined)
      | inl blob => memcpy dst blob
      end
  end.

(** ** The images *)

Definition load_firmware (fw : list Z) : BM unit :=
  let? base := bgets (fun b => ram_base_addr (bm b)) in
  if elf64_is_riscv64 fw then
    load_elf_image fw ;;
    let? fw_entrypoint := need (elf64_get_entrypoint fw) in
    let? loaded := bgets bootrom_loaded in
    if negb loaded && negb (fw_entrypoint =? base) then bfail (Refused 1)
    else load_elf_image fw
  else if (2 <? Z.of_nat (length fw)) && (aget 0 fw 0 =? 48) && (aget 0 fw 0 =? 120) then load_hex_image fw
  else load_at base fw.

Definition load_kernel (kernel : option (list Z)) : BM unit :=
  match kernel with
  | Some ((_ :: _) as k) =>
      let? b := bgets id in
      let size := ram_size (layout b) in
      if size <=? KERNEL_OFFSET then bfail (Refused 1)
      else if size - KERNEL_OFFSET <? Z.of_nat (length k) then bfail (Refused 1)
      else load_at (u64 (ram_base_addr (bm b) + KERNEL_OFFSET)) k
  | _ => bret tt
  end.

(** The answer is [initrd_end]. *)
Definition load_initrd (initrd : option (list Z)) : BM Z :=
  match initrd with
  | Some ((_ :: _) as i) =>
      let? b := bgets id in
      let size := ram_size (layout b) in
      if size <? Z.of_nat (length i) then bfail (Refused 1)
      else
        let initrd_end := u64 (ram_base_addr (bm b) + size) in
        let start := (u64 (initrd_end - Z.of_nat (length i)) >> 12) << 12 in
        bmod (set_initrd_start start) ;;
        load_at start i ;;
        bret initrd_end
  | _ => bret 0
  end.

Definition place_bootrom (bootrom dtb : option file_arg) (cmd_line : option (list Z)) (initrd_end : Z) : BM unit :=
  let? loaded := bgets bootrom_loaded in
  if loaded then bret tt
  else match bootrom with
  | Some f => let? len := load_bootrom f in if len <? 0 then bfail (Refused (-1)) else bret tt
  | None =>
      let? bootromSzBytes := generate_bootrom in
      if bootromSzBytes <? 0 then bfail (Refused (-1))
      else
        let? b := bgets id in
        let fdt_off := BOOT_BASE_ADDR - ROM_BASE_ADDR + (if compact_bootrom b then bootromSzBytes else 256) in
        build_fdt (option_map (fun p => p + fdt_off) (get_ram_ptr (bm b) ROM_BASE_ADDR)) dtb cmd_line initrd_end
  end.

(** The harts [0 .. n-1] enter debug mode. *)
Fixpoint debug_harts (n : nat) (m : RISCVMachine) : option RISCVMachine :=
  match n with
  | O => Some m
  | S n' =>
      match debug_harts n' m with
      | Some m =>
          match get_hart m (Z.of_nat n') with
          | Some c => Some (put_hart (Z.of_nat n') (riscv_set_debug_mode c true) m)
          | None => None
          end
      | None => None
      end
  end.

Definition enter_debug_mode : BM unit :=
  let? m := bgets bm in
  let? m := need (debug_harts (Z.to_nat (ncpus m)) m) in
  bmod (set_bm m).

Definition copy_kernel (fw : list Z) (kernel initrd : option (list Z)) (bootrom dtb : option file_arg) (cmd_line : option (list Z)) : BM unit :=
  bmod (set_initrd_start 0) ;;
  let? size := bgets (fun b => ram_size (layout b)) in
  if size <? Z.of_nat (length fw) then bfail (Refused 1)
  else
    load_firmware fw ;;
    load_kernel kernel ;;
    let? initrd_end := load_initrd initrd in
    place_bootrom bootrom dtb cmd_line initrd_end ;;
    enter_debug_mode.

(** ** The machine *)

Record VirtMachineParams := mkParams {
  p_ram_base_addr : Z;
  p_ram_size : Z;
  p_ncpus : Z;
  p_reset_vector : Z;
  p_physical_addr_len : Z;
  p_compact_bootrom : bool;
  p_custom_extension : bool;
  p_clear_ids : bool;
  p_plic_base_addr : Z;
  p_plic_size : Z;
  p_clint_base_addr : Z;
  p_clint_size : Z;
  p_htif_base_addr : Z;
  p_maxinsns : Z;
  p_eth_count : Z;
  p_drive_count : Z;
  p_fs_count : Z;
  p_input_device : option (list Z);
  p_bios : option (list Z);
  p_kernel : option (list Z);
  p_initrd : option (list Z);
  p_bootrom_name : option file_arg;
  p_dtb_name : option file_arg;
  p_cmdline : option (list Z)
}.

Definition PLIC_BASE_ADDR := 0x10000000.
Definition PLIC_SIZE := 0x2000000.
Definition CLINT_BASE_ADDR := 0x02000000.
Definition CLINT_SIZE := 0x000c0000.
Definition UART0_BASE_ADDR := 0x54000000.
Definition UART0_SIZE := 32.
Definition DW_APB_UART1_SIZE := 0x1000.

(** The parameters [virt_machine_set_defaults] leaves. *)
Definition virt_machine_set_defaults : VirtMachineParams :=
  mkParams 0x80000000 0 0 BOOT_BASE_ADDR 40 false false false PLIC_BASE_ADDR PLIC_SIZE CLINT_BASE_ADDR CLINT_SIZE
    0 0 0 0 0 None None None None None None None.

(** The names of the devices on the bus. *)
Definition UART_DEV : Z := 3.
Definition DW_UART0_DEV : Z := 4.
Definition DW_UART1_DEV : Z := 5.
Definition VIRTIO_DEV (i : Z) : Z := 16 + i.

Definition register_device (addr size opaque devio_flags : Z) : BM unit := fun b =>
  match cpu_register_device (mem_map (bm b)) addr size opaque devio_flags with
  | None => inr (Stopped AssertFail)
  | Some map => inl (set_bm (set_mem_map map (bm b)) b, tt)
  end.

(** One more VirtIO device on the bus: its registers, the address and the
    interrupt of the next one, which follow from [virtio_count]. *)
Definition add_virtio : BM unit :=
  let? y := bgets layout in
  let n := virtio_count y in
  if 32 <=? VIRTIO_IRQ + n then bfail (Stopped Undefined)
  else
    register_device (VIRTIO_BASE_ADDR + n * VIRTIO_SIZE) VIRTIO_PAGE_SIZE (VIRTIO_DEV n)
      (DEVIO_SIZE8 .| DEVIO_SIZE16 .| DEVIO_SIZE32) ;;
    bmod (set_layout (mkLayout (ram_size y) (clint_base_addr y) (clint_size y) (plic_base_addr y) (plic_size y) (n + 1) (fb_dev y))).

Fixpoint add_virtios (n : nat) : BM unit :=
  match n with O => bret tt | S n' => add_virtio ;; add_virtios n' end.

Definition add_inputs (input_device : option (list Z)) : BM unit :=
  match input_device with
  | None => bret tt
  | Some name => if bool_decide (name = str "virtio") then add_virtio ;; add_virtio else bfail (Refused 0)
  end.

(** The harts of a new machine. *)
Definition new_harts (p : VirtMachineParams) (n : Z) : list RISCVCPUState :=
  map (fun i => riscv_cpu_init (p_reset_vector p) (p_custom_extension p) (p_clear_ids p) (Z.of_nat i)) (seq 0 (Z.to_nat n)).

(** The machine before its memory map is filled. *)
Definition new_machine (p : VirtMachineParams) (n : Z) : RISCVMachine :=
  set_cpu_state (new_harts p n) (set_ncpus n (set_maxinsns (p_maxinsns p) (set_ram_base_addr (p_ram_base_addr p) zero_machine))).

Definition new_layout (p : VirtMachineParams) : Layout :=
  mkLayout (p_ram_size p) (p_clint_base_addr p) (p_clint_size p) (p_plic_base_addr p) (p_plic_size p) 0 None.

Definition set_addr_len (len : Z) (m : RISCVMachine) : RISCVMachine :=
  set_cpu_state (map (set_physical_addr_len len) (cpu_state m)) m.

(** RAM, ROM and the devices every machine has. *)
Definition basic_map (p : VirtMachineParams) : BM unit :=
  cpu_register_ram (p_ram_base_addr p) (p_ram_size p) 0 ;;
  cpu_register_ram ROM_BASE_ADDR ROM_SIZE 0 ;;
  bmod (fun b => set_bm (set_addr_len (i32 (p_physical_addr_len p)) (bm b)) b) ;;
  register_device UART0_BASE_ADDR UART0_SIZE UART_DEV DEVIO_SIZE32 ;;
  register_device DW_APB_UART0_BASE_ADDR DW_APB_UART0_SIZE DW_UART0_DEV (DEVIO_SIZE32 .| DEVIO_SIZE16 .| DEVIO_SIZE8) ;;
  register_device DW_APB_UART1_BASE_ADDR DW_APB_UART1_SIZE DW_UART1_DEV (DEVIO_SIZE32 .| DEVIO_SIZE16 .| DEVIO_SIZE8) ;;
  register_device (p_clint_base_addr p) (p_clint_size p) CLINT_DEV (DEVIO_SIZE32 .| DEVIO_SIZE16 .| DEVIO_SIZE8) ;;
  register_device (p_plic_base_addr p) (p_plic_size p) PLIC_DEV DEVIO_SIZE32.

(** [virt_machine_init], with the addresses [mallocz] returns for the RAM
    blocks; [Refused _] is a null pointer. *)
Definition virt_machine_init (p : VirtMachineParams) (blocks : list Z) : (Boot * unit) + bstop :=
  let n := i32 (p_ncpus p) in
  if MAX_CPUS <? n then inr (Refused 0)
  else
    (basic_map p ;;
     bmod (fun b => set_bm (set_htif_tohost_addr (p_htif_base_addr p) (bm b)) b) ;;
     add_virtios (Z.to_nat (p_eth_count p)) ;;
     add_virtios (Z.to_nat (p_drive_count p)) ;;
     add_virtios (Z.to_nat (p_fs_count p)) ;;
     add_inputs (p_input_device p) ;;
     match p_bios p with
     | None => bfail (Refused 0)
     | Some fw =>
         copy_kernel fw (p_kernel p) (p_initrd p) (p_bootrom_name p) (p_dtb_name p) (p_cmdline p) ;;
         bmod (fun b => set_bm (set_pending_interrupt (-1) (set_cosim false (bm b))) b)
     end)
      (mkBoot (new_machine p n) (new_layout p) (p_compact_bootrom p) false 0 blocks).

(** ** Host memory *)

Ltac range_cases :=
  repeat match goal with
  | |- context [?a <=? ?b] => destruct (Z.leb_spec a b)
  | |- context [?a <? ?b] => destruct (Z.ltb_spec a b)
  end; cbn [andb]; try reflexivity; try lia.

Lemma zero_block_lookup h a n x : 0 <= n ->
  zero_block h a n !! x = if (a <=? x) && (x <? a + n) then Some 0 else h !! x.
Proof.
  intros Hn. unfold zero_block. rewrite <- (Z2Nat.id n Hn) at 2. generalize (Z.to_nat n) as k. clear n Hn. intros k.
  assert (H : forall lo, fold_right (fun i h => <[a + Z.of_nat i := 0]> h) h (seq lo k) !! x =
    if (a + Z.of_nat lo <=? x) && (x <? a + Z.of_nat lo + Z.of_nat k) then Some 0 else h !! x).
  { induction k as [|k IH]; intros lo; cbn [seq fold_right].
    - range_cases.
    - destruct (Z.eq_dec x (a + Z.of_nat lo)) as [->|Hx].
      + rewrite lookup_insert_eq. range_cases.
      + rewrite lookup_insert_ne, IH by lia. range_cases. }
  rewrite (H O). rewrite Z.add_0_r. reflexivity.
Qed.

(** The bytes [l] are at host address [p]. *)
Definition placed (h : gmap Z Z) (p : Z) (l : list Z) : Prop :=
  forall i, 0 <= i < Z.of_nat (length l) -> h !! (p + i) = Some (aget 0 l i).

(** The host bytes from [p] on, [n] of them, exist. *)
Definition present (h : gmap Z Z) (p n : Z) : Prop := forall x, p <= x < p + n -> is_Some (h !! x).

(** What a [memcpy] does to the host's memory. *)
Record copied (h : gmap Z Z) (p : Z) (l : list Z) (h' : gmap Z Z) : Prop := {
  co_placed : placed h' p l;
  co_other : forall x, x < p \/ p + Z.of_nat (length l) <= x -> h' !! x = h !! x;
  co_present : forall q n, present h q n -> present h' q n
}.

Lemma memcpy_copies p l b : present (hmem (bm b)) p (Z.of_nat (length l)) ->
  exists h', memcpy (Some p) l b = inl (set_bm (set_hmem h' (bm b)) b, tt) /\ copied (hmem (bm b)) p l h'.
Proof.
  intros Hp. destruct (host_write_present l (hmem (bm b)) p Hp) as [h' E]. exists h'. split.
  { unfold memcpy, bbind, need, bret, bgets, bmod. rewrite E. reflexivity. }
  pose proof (host_write_bytes_lookup _ _ _ _ E) as Hl. split.
  - intros i Hi. rewrite Hl. range_cases. unfold aget. do 2 f_equal. lia.
  - intros x Hx. rewrite Hl. range_cases.
  - intros q n H x Hx. rewrite Hl. case_goal; [eexists; reflexivity|apply H, Hx].
Qed.

Lemma placed_after h p l h' q k : copied h q k h' ->
  (k <> [] -> p + Z.of_nat (length l) <= q \/ q + Z.of_nat (length k) <= p) -> placed h p l -> placed h' p l.
Proof.
  intros [_ Ho _] Hd Hp i Hi. rewrite Ho; [apply Hp, Hi|].
  destruct k as [|c k]; [cbn; lia|]. destruct (Hd ltac:(discriminate)); lia.
Qed.

(** ** The memory map *)

(** Updates of the machine in a normal form: the harts outside the host memory
    outside the memory map, the HTIF address outside of all. *)

Lemma mem_map_set_mem_map : forall v m, mem_map (set_mem_map v m) = v.
Proof. reflexivity. Qed.
Lemma set_mem_map_twice : forall v w m, set_mem_map v (set_mem_map w m) = set_mem_map v m.
Proof. reflexivity. Qed.
Lemma mem_map_set_hmem : forall v m, mem_map (set_hmem v m) = mem_map m.
Proof. reflexivity. Qed.
Lemma set_mem_map_under_hmem : forall v w m, set_mem_map v (set_hmem w m) = set_hmem w (set_mem_map v m).
Proof. reflexivity. Qed.
Lemma mem_map_set_cpu_state : forall v m, mem_map (set_cpu_state v m) = mem_map m.
Proof. reflexivity. Qed.
Lemma set_mem_map_under_cpu_state : forall v w m, set_mem_map v (set_cpu_state w m) = set_cpu_state w (set_mem_map v m).
Proof. reflexivity. Qed.
Lemma hmem_set_hmem : forall v m, hmem (set_hmem v m) = v.
Proof. reflexivity. Qed.
Lemma set_hmem_twice : forall v w m, set_hmem v (set_hmem w m) = set_hmem v m.
Proof. reflexivity. Qed.
Lemma hmem_set_mem_map : forall v m, hmem (set_mem_map v m) = hmem m.
Proof. reflexivity. Qed.
Lemma hmem_set_cpu_state : forall v m, hmem (set_cpu_state v m) = hmem m.
Proof. reflexivity. Qed.
Lemma set_hmem_under_cpu_state : forall v w m, set_hmem v (set_cpu_state w m) = set_cpu_state w (set_hmem v m).
Proof. reflexivity. Qed.
Lemma cpu_state_set_cpu_state : forall v m, cpu_state (set_cpu_state v m) = v.
Proof. reflexivity. Qed.
Lemma set_cpu_state_twice : forall v w m, set_cpu_state v (set_cpu_state w m) = set_cpu_state v m.
Proof. reflexivity. Qed.
Lemma cpu_state_set_mem_map : forall v m, cpu_state (set_mem_map v m) = cpu_state m.
Proof. reflexivity. Qed.
Lemma cpu_state_set_hmem : forall v m, cpu_state (set_hmem v m) = cpu_state m.
Proof. reflexivity. Qed.

Lemma mem_map_set_htif : forall v m, mem_map (set_htif_tohost_addr v m) = mem_map m.
Proof. reflexivity. Qed.
Lemma set_mem_map_under_htif : forall v w m, set_mem_map v (set_htif_tohost_addr w m) = set_htif_tohost_addr w (set_mem_map v m).
Proof. reflexivity. Qed.
Lemma hmem_set_htif : forall v m, hmem (set_htif_tohost_addr v m) = hmem m.
Proof. reflexivity. Qed.
Lemma set_hmem_under_htif : forall v w m, set_hmem v (set_htif_tohost_addr w m) = set_htif_tohost_addr w (set_hmem v m).
Proof. reflexivity. Qed.
Lemma cpu_state_set_htif : forall v m, cpu_state (set_htif_tohost_addr v m) = cpu_state m.
Proof. reflexivity. Qed.
Lemma set_cpu_state_under_htif : forall v w m, set_cpu_state v (set_htif_tohost_addr w m) = set_htif_tohost_addr w (set_cpu_state v m).
Proof. reflexivity. Qed.

Create Rewrite HintDb boot.
#[local] Hint Rewrite mem_map_set_mem_map set_mem_map_twice mem_map_set_hmem set_mem_map_under_hmem mem_map_set_cpu_state set_mem_map_under_cpu_state hmem_set_hmem set_hmem_twice hmem_set_mem_map hmem_set_cpu_state set_hmem_under_cpu_state cpu_state_set_cpu_state set_cpu_state_twice cpu_state_set_mem_map cpu_state_set_hmem mem_map_set_htif set_mem_map_under_htif hmem_set_htif set_hmem_under_htif cpu_state_set_htif set_cpu_state_under_htif : boot.

(** The last range that contains the address is found. *)
Lemma lookup_last map k a : 0 <= k < Z.of_nat (length map) -> range_contains (aget zero_range map k) a = true ->
  (forall j, k < j < Z.of_nat (length map) -> range_contains (aget zero_range map j) a = false) ->
  get_phys_mem_range map a = Some k.
Proof.
  intros Hk Hc Hl. pose proof (get_phys_mem_range_last_match map a) as H. destruct (get_phys_mem_range map a) as [k'|].
  - destruct H as (H1 & H2 & H3). f_equal. destruct (Z.lt_trichotomy k k') as [L|[E|L]]; [|congruence|].
    + rewrite Hl in H2 by lia. discriminate.
    + rewrite H3 in Hc by lia. discriminate.
  - rewrite H in Hc by lia. discriminate.
Qed.

Definition ram_range (addr size p : Z) : PhysMemoryRange := mkRange addr size size true 0 p 0 None [] 0 0 0.
Definition dev_range (addr size opaque flags : Z) : PhysMemoryRange := mkRange addr size size false 0 0 0 None [] 0 opaque flags.

Lemma register_ram_ok addr size p rest b : blocks b = p :: rest -> Z.of_nat (length (mem_map (bm b))) < 32 ->
  0 < size -> size mod 4096 = 0 ->
  cpu_register_ram addr size 0 b = inl (set_blocks rest (set_bm (set_hmem (zero_block (hmem (bm b)) p size)
    (set_mem_map (mem_map (bm b) ++ [ram_range addr size p]) (bm b))) b), tt).
Proof.
  intros Hb Hl Hs Hm. unfold cpu_register_ram, default_register_ram.
  assert (E : register_ram_entry (mem_map (bm b)) addr size 0 = Some (mem_map (bm b) ++ [ram_range addr size 0])).
  { unfold register_ram_entry, PHYS_MEM_RANGE_MAX, DEVRAM_PAGE_SIZE, DEVRAM_PAGE_SIZE_LOG2. destruct (Z.ltb_spec (Z.of_nat (length (mem_map (bm b)))) 32); [|lia].
    change ((1 << 12) - 1) with (Z.ones 12). rewrite Z.land_ones by lia. change (2 ^ 12) with 4096. rewrite Hm.
    unfold nz. destruct (Z.eqb_spec size 0); [lia|]. reflexivity. }
  cbv zeta. rewrite E, Hb. change (0 has DEVRAM_FLAG_DIRTY_BITS) with false. cbv iota. do 2 f_equal.
  assert (Ha : aget zero_range (mem_map (bm b) ++ [ram_range addr size 0]) (Z.of_nat (length (mem_map (bm b)))) = ram_range addr size 0).
  { unfold aget. rewrite Nat2Z.id, app_nth2, Nat.sub_diag by lia. reflexivity. }
  rewrite Ha. unfold aset. rewrite Nat2Z.id, insert_app_r_alt by lia. rewrite Nat.sub_diag. reflexivity.
Qed.

Lemma register_device_ok addr size opaque flags b : Z.of_nat (length (mem_map (bm b))) < 32 -> size <= 0xffffffff ->
  flags has DEVIO_DISABLED = false ->
  register_device addr size opaque flags b =
    inl (set_bm (set_mem_map (mem_map (bm b) ++ [dev_range addr size opaque flags]) (bm b)) b, tt).
Proof.
  intros Hl Hs Hf. unfold register_device, cpu_register_device, PHYS_MEM_RANGE_MAX.
  destruct (Z.ltb_spec (Z.of_nat (length (mem_map (bm b)))) 32); [|lia]. destruct (Z.leb_spec size 0xffffffff); [|lia].
  rewrite Hf. reflexivity.
Qed.

Definition virtio_range (i : Z) : PhysMemoryRange := dev_range (VIRTIO_BASE_ADDR + i * VIRTIO_SIZE) VIRTIO_PAGE_SIZE (VIRTIO_DEV i) 7.

Definition with_count (y : Layout) (n : Z) : Layout :=
  mkLayout (ram_size y) (clint_base_addr y) (clint_size y) (plic_base_addr y) (plic_size y) n (fb_dev y).

Lemma add_virtio_ok m y c l i bl : let n := virtio_count y in 0 <= n < 28 -> Z.of_nat (length (mem_map m)) < 32 ->
  add_virtio (mkBoot m y c l i bl) =
    inl (mkBoot (set_mem_map (mem_map m ++ [virtio_range n]) m) (with_count y (n + 1)) c l i bl, tt).
Proof.
  intros n Hn Hl. unfold add_virtio, bbind, bgets. cbn [layout]. fold n.
  destruct (Z.leb_spec 32 (VIRTIO_IRQ + n)); [unfold VIRTIO_IRQ in *; lia|].
  rewrite register_device_ok by (cbn [bm]; try exact Hl; reflexivity || unfold VIRTIO_PAGE_SIZE; lia). reflexivity.
Qed.

Lemma add_virtios_ok k : forall m y c l i bl, let n := virtio_count y in 0 <= n -> n + Z.of_nat k <= 28 ->
  Z.of_nat (length (mem_map m)) + Z.of_nat k <= 32 ->
  add_virtios k (mkBoot m y c l i bl) =
    inl (mkBoot (set_mem_map (mem_map m ++ map virtio_range (zseq n k)) m) (with_count y (n + Z.of_nat k)) c l i bl, tt).
Proof.
  induction k as [|k IH]; intros m y c l i bl n Hn Hk Hl.
  - cbn [add_virtios]. unfold zseq. cbn [seq map]. rewrite app_nil_r, Z.add_0_r. unfold n. destruct y, m; reflexivity.
  - cbn [add_virtios]. unfold bbind. rewrite add_virtio_ok by (fold n; lia). fold n.
    rewrite IH by (rewrite ?mem_map_set_mem_map, ?length_app; cbn [length with_count virtio_count]; lia).
    rewrite mem_map_set_mem_map, set_mem_map_twice. cbn [with_count virtio_count]. do 2 f_equal.
    replace (map virtio_range (zseq n (S k))) with (virtio_range n :: map virtio_range (zseq (n + 1) k)).
    + rewrite <- app_assoc. cbn [app]. unfold with_count. cbn [ram_size clint_base_addr clint_size plic_base_addr plic_size fb_dev].
      replace (n + 1 + Z.of_nat k) with (n + Z.of_nat (S k)) by lia. reflexivity.
    + unfold zseq. cbn [seq map]. rewrite Z.add_0_r, <- seq_shift, !map_map. f_equal. apply map_ext. intros j. f_equal. lia.
Qed.

Lemma add_virtios_app a c b : bbind (add_virtios a) (fun _ => add_virtios c) b = add_virtios (a + c) b.
Proof.
  revert b. induction a as [|a IH]; intros b; [reflexivity|]. cbn [Nat.add add_virtios]. unfold bbind in *.
  destruct (add_virtio b) as [[b1 []]|e]; [|reflexivity]. apply IH.
Qed.

(** ** Machines that can be built *)

Definition input_count (p : VirtMachineParams) : Z := match p_input_device p with None => 0 | Some _ => 2 end.
Definition virtio_total (p : VirtMachineParams) : Z := p_eth_count p + p_drive_count p + p_fs_count p + input_count p.

(** Parameters the boot ROM supports, with a CLINT and a PLIC between the boot
    ROM and the RAM and at most 25 VirtIO devices. *)
Record buildable (p : VirtMachineParams) : Prop := {
  bd_base : p_ram_base_addr p = 0x80000000 \/ p_ram_base_addr p = 0x8000000000 \/ p_ram_base_addr p = 0xC000000000;
  bd_size : 0 < p_ram_size p <= 2 ^ 40 /\ p_ram_size p mod 4096 = 0;
  bd_cpus : 1 <= p_ncpus p <= MAX_CPUS;
  bd_plic : 0x12000 <= p_plic_base_addr p /\ 0 <= p_plic_size p /\ p_plic_base_addr p + p_plic_size p <= 0x80000000;
  bd_clint : 0x12000 <= p_clint_base_addr p /\ 0 <= p_clint_size p /\ p_clint_base_addr p + p_clint_size p <= 0x80000000;
  bd_counts : 0 <= p_eth_count p /\ 0 <= p_drive_count p /\ 0 <= p_fs_count p /\ virtio_total p <= 25;
  bd_input : p_input_device p = None \/ p_input_device p = Some (str "virtio")
}.

Section Building.
Context (p : VirtMachineParams) (A B : Z) (rest : list Z) (Hp : buildable p).

Definition basic_ranges : list PhysMemoryRange :=
  [ram_range (p_ram_base_addr p) (p_ram_size p) A;
   ram_range ROM_BASE_ADDR ROM_SIZE B;
   dev_range UART0_BASE_ADDR UART0_SIZE UART_DEV 4;
   dev_range DW_APB_UART0_BASE_ADDR DW_APB_UART0_SIZE DW_UART0_DEV 7;
   dev_range DW_APB_UART1_BASE_ADDR DW_APB_UART1_SIZE DW_UART1_DEV 7;
   dev_range (p_clint_base_addr p) (p_clint_size p) CLINT_DEV 7;
   dev_range (p_plic_base_addr p) (p_plic_size p) PLIC_DEV 4].

Definition built_map : list PhysMemoryRange := basic_ranges ++ map virtio_range (zseq 0 (Z.to_nat (virtio_total p))).

(** The machine before the images are loaded, over the host memory [h]. *)
Definition built_machine (h : gmap Z Z) : RISCVMachine :=
  let m := new_machine p (p_ncpus p) in
  set_htif_tohost_addr (p_htif_base_addr p)
    (set_cpu_state (map (set_physical_addr_len (i32 (p_physical_addr_len p))) (cpu_state m)) (set_hmem h (set_mem_map built_map m))).

Definition built_layout : Layout := with_count (new_layout p) (virtio_total p).

Definition built (h : gmap Z Z) (start : Z) : Boot :=
  mkBoot (built_machine h) built_layout (p_compact_bootrom p) false start rest.

Lemma inputs_built b : add_inputs (p_input_device p) b = add_virtios (Z.to_nat (input_count p)) b.
Proof.
  unfold input_count. destruct (bd_input p Hp) as [-> | ->]; [reflexivity|]. cbn [add_inputs].
  rewrite bool_decide_true by reflexivity. change (Z.to_nat 2) with 2%nat. cbn [add_virtios]. unfold bbind.
  destruct (add_virtio b) as [[b1 []]|e]; [|reflexivity]. destruct (add_virtio b1) as [[b2 []]|e]; reflexivity.
Qed.

Lemma basic_built m y c l i : mem_map m = [] ->
  basic_map p (mkBoot m y c l i (A :: B :: rest)) =
    inl (mkBoot (set_cpu_state (map (set_physical_addr_len (i32 (p_physical_addr_len p))) (cpu_state m))
      (set_hmem (zero_block (zero_block (hmem m) A (p_ram_size p)) B ROM_SIZE) (set_mem_map basic_ranges m))) y c l i rest, tt).
Proof.
  intros Hm. destruct Hp as [_ [Hs Hs2] _ (Q1 & Q2 & Q3) (C1 & C2 & C3) _ _]. unfold basic_map.
  unfold bbind at 1. rewrite (register_ram_ok _ _ A (B :: rest)) by (cbn [bm blocks]; rewrite ?Hm; cbn; assumption || lia || reflexivity).
  unfold set_bm, set_blocks. cbn [bm layout compact_bootrom bootrom_loaded initrd_start blocks]. rewrite Hm. cbn [app].
  unfold bbind at 1. rewrite (register_ram_ok _ _ B rest) by (cbn; reflexivity || lia).
  unfold set_bm, set_blocks. cbn [bm layout compact_bootrom bootrom_loaded initrd_start blocks]. autorewrite with boot.
  generalize (zero_block (zero_block (hmem m) A (p_ram_size p)) B ROM_SIZE). intros h. cbn [app].
  unfold bbind at 1, bmod, set_bm, set_addr_len. cbn [bm layout compact_bootrom bootrom_loaded initrd_start blocks]. autorewrite with boot.
  do 5 (try unfold bbind at 1; rewrite register_device_ok by
    (cbn [bm]; autorewrite with boot; reflexivity || cbn [length]; (unfold UART0_SIZE, DW_APB_UART0_SIZE, DW_APB_UART1_SIZE; lia));
    unfold set_bm; cbn [bm layout compact_bootrom bootrom_loaded initrd_start blocks]; autorewrite with boot; cbn [app]).
  reflexivity.
Qed.

(** All VirtIO devices in one go. *)
Lemma virtios_built b :
  (add_virtios (Z.to_nat (p_eth_count p)) ;; add_virtios (Z.to_nat (p_drive_count p)) ;;
   add_virtios (Z.to_nat (p_fs_count p)) ;; add_inputs (p_input_device p)) b = add_virtios (Z.to_nat (virtio_total p)) b.
Proof.
  destruct (bd_counts p Hp) as (H1 & H2 & H3 & _).
  assert (Hi : 0 <= input_count p) by (unfold input_count; destruct (p_input_device p); lia).
  replace (Z.to_nat (virtio_total p)) with
    (Z.to_nat (p_eth_count p) + (Z.to_nat (p_drive_count p) + (Z.to_nat (p_fs_count p) + Z.to_nat (input_count p))))%nat
    by (unfold virtio_total; lia).
  rewrite <- add_virtios_app. unfold bbind. destruct (add_virtios _ b) as [[b1 []]|]; [|reflexivity].
  rewrite <- add_virtios_app. unfold bbind. destruct (add_virtios _ b1) as [[b2 []]|]; [|reflexivity].
  rewrite <- add_virtios_app. unfold bbind. destruct (add_virtios _ b2) as [[b3 []]|]; [|reflexivity].
  apply inputs_built.
Qed.

Lemma virtio_total_range : 0 <= virtio_total p <= 25.
Proof.
  destruct (bd_counts p Hp) as (? & ? & ? & ?). unfold virtio_total, input_count in *. destruct (p_input_device p); lia.
Qed.

Lemma devices_built_on m h start : mem_map m = [] -> h = zero_block (zero_block (hmem m) A (p_ram_size p)) B ROM_SIZE -> (basic_map p ;;
     bmod (fun b => set_bm (set_htif_tohost_addr (p_htif_base_addr p) (bm b)) b) ;;
     add_virtios (Z.to_nat (p_eth_count p)) ;;
     add_virtios (Z.to_nat (p_drive_count p)) ;;
     add_virtios (Z.to_nat (p_fs_count p)) ;;
     add_inputs (p_input_device p))
  (mkBoot m (new_layout p) (p_compact_bootrom p) false start (A :: B :: rest)) =
  inl (mkBoot (set_htif_tohost_addr (p_htif_base_addr p)
    (set_cpu_state (map (set_physical_addr_len (i32 (p_physical_addr_len p))) (cpu_state m))
      (set_hmem h (set_mem_map built_map m)))) built_layout (p_compact_bootrom p) false start rest, tt).
Proof.
  intros E1 Hh. pose proof virtio_total_range as Ht.
  unfold bbind at 1. rewrite basic_built by exact E1. rewrite <- Hh. unfold bbind at 1, bmod, set_bm.
  cbn [bm layout compact_bootrom bootrom_loaded initrd_start blocks]. rewrite virtios_built.
  rewrite add_virtios_ok by (autorewrite with boot; cbn [new_layout virtio_count]; cbn [length basic_ranges]; lia).
  autorewrite with boot. cbn [new_layout virtio_count]. rewrite Z.add_0_l, Z2Nat.id by lia. reflexivity.
Qed.

(** The RAM and the boot ROM are found behind the devices. *)
Lemma devices_elsewhere j a : 2 <= j < Z.of_nat (length built_map) -> 0 <= a < 0x12000 \/ 0x80000000 <= a ->
  range_contains (aget zero_range built_map j) a = false.
Proof.
  intros Hj Ha. destruct (bd_plic p Hp) as (Q1 & Q2 & Q3). destruct (bd_clint p Hp) as (C1 & C2 & C3).
  pose proof virtio_total_range as Ht. unfold built_map in *. rewrite length_app, length_map, zseq_length in Hj. cbn [length basic_ranges] in Hj.
  assert (Hd : forall addr size op fl, 0x12000 <= addr -> 0 <= size -> addr + size <= 0x80000000 ->
    range_contains (dev_range addr size op fl) a = false).
  { intros addr size op fl D1 D2 D3. unfold range_contains. cbn [pr_addr pr_size dev_range].
    rewrite u_small by (unfold in_u; lia). range_cases. }
  destruct (Z_lt_le_dec j 7).
  - assert (j = 2 \/ j = 3 \/ j = 4 \/ j = 5 \/ j = 6) as [-> | [-> | [-> | [-> | ->]]]] by lia;
    apply Hd; try assumption; discriminate.
  - unfold aget. rewrite app_nth2 by (cbn [length basic_ranges]; lia). cbn [length basic_ranges].
    rewrite (nth_indep _ _ (virtio_range 0)) by (rewrite length_map, zseq_length; lia). rewrite map_nth. unfold zseq.
    rewrite (nth_indep _ _ (0 + Z.of_nat 0)) by (rewrite length_map, length_seq; lia).
    rewrite (map_nth (fun k => 0 + Z.of_nat k)), seq_nth by lia. apply Hd; unfold VIRTIO_BASE_ADDR, VIRTIO_SIZE, VIRTIO_PAGE_SIZE; lia.
Qed.

Lemma ram_range_contains addr size q a : 0 <= addr -> addr + size < 2 ^ 64 -> addr <= a < addr + size ->
  range_contains (ram_range addr size q) a = true.
Proof.
  intros H1 H2 H3. unfold range_contains. cbn [pr_addr pr_size ram_range]. rewrite u_small by (unfold in_u; lia). range_cases.
Qed.

Lemma ram_found m a : mem_map m = built_map -> p_ram_base_addr p <= a < p_ram_base_addr p + p_ram_size p ->
  get_ram_ptr m a = Some (A + (a - p_ram_base_addr p)).
Proof.
  intros Hm Ha. destruct (bd_size p Hp) as [Hs _]. unfold get_ram_ptr. rewrite Hm.
  rewrite (lookup_last built_map 0 a); [reflexivity| | |].
  - unfold built_map. rewrite length_app. cbn [length basic_ranges]. lia.
  - apply ram_range_contains; [destruct (bd_base p Hp) as [-> | [-> | ->]]; lia..|exact Ha].
  - intros j Hj. destruct (Z.eq_dec j 1) as [-> |Hne]; [|apply devices_elsewhere; destruct (bd_base p Hp) as [E | [E | E]]; lia].
    change (aget zero_range built_map 1) with (ram_range ROM_BASE_ADDR ROM_SIZE B). unfold range_contains. cbn [pr_addr pr_size ram_range].
    rewrite u_small by (cbv; split; congruence). destruct (bd_base p Hp) as [E | [E | E]]; unfold ROM_BASE_ADDR, ROM_SIZE; range_cases.
Qed.

Lemma rom_found m a : mem_map m = built_map -> ROM_BASE_ADDR <= a < ROM_BASE_ADDR + ROM_SIZE ->
  get_ram_ptr m a = Some (B + (a - ROM_BASE_ADDR)).
Proof.
  intros Hm Ha. unfold get_ram_ptr. rewrite Hm.
  rewrite (lookup_last built_map 1 a); [reflexivity| | |].
  - unfold built_map. rewrite length_app. cbn [length basic_ranges]. lia.
  - apply ram_range_contains; [unfold ROM_BASE_ADDR; lia|reflexivity|exact Ha].
  - intros j Hj. apply devices_elsewhere; unfold ROM_BASE_ADDR, ROM_SIZE in *; lia.
Qed.

End Building.

(** ** Debug mode *)

Definition debugging (c : RISCVCPUState) : RISCVCPUState := riscv_set_debug_mode c true.

Lemma debug_harts_spec n m : (n <= length (cpu_state m))%nat ->
  debug_harts n m = Some (set_cpu_state (map debugging (firstn n (cpu_state m)) ++ skipn n (cpu_state m)) m).
Proof.
  induction n as [|n IH]; intros Hn; [destruct m; reflexivity|]. cbn [debug_harts]. rewrite IH by lia.
  destruct (lookup_lt_is_Some_2 (cpu_state m) n) as [c Hc]; [lia|].
  assert (Hg : get_hart (set_cpu_state (map debugging (firstn n (cpu_state m)) ++ skipn n (cpu_state m)) m) (Z.of_nat n) = Some c).
  { unfold get_hart. rewrite cpu_state_set_cpu_state, Nat2Z.id. destruct (Z.leb_spec 0 (Z.of_nat n)); [|lia].
    rewrite lookup_app_r, length_map, length_firstn, Nat.min_l by (rewrite ?length_map, ?length_firstn; lia).
    rewrite Nat.sub_diag, lookup_drop, Nat.add_0_r. exact Hc. }
  rewrite Hg. unfold put_hart. rewrite cpu_state_set_cpu_state, set_cpu_state_twice. do 2 f_equal.
  rewrite (take_S_r _ _ _ Hc), map_app, <- app_assoc, (drop_S _ _ _ Hc). unfold aset. rewrite Nat2Z.id.
  rewrite insert_app_r_alt by (rewrite length_map, length_firstn; lia). f_equal.
  rewrite length_map, length_firstn, Nat.min_l, Nat.sub_diag by lia. reflexivity.
Qed.

(** ** Loading the images *)

Definition kernel_of (p : VirtMachineParams) : list Z := match p_kernel p with Some k => k | None => [] end.
Definition initrd_of (p : VirtMachineParams) : list Z := match p_initrd p with Some i => i | None => [] end.

(** Where the initial RAM disk goes, and where it ends; 0 without one. *)
Definition initrd_at (p : VirtMachineParams) : Z :=
  match initrd_of p with [] => 0 | i => ((p_ram_base_addr p + p_ram_size p - Z.of_nat (length i)) >> 12) << 12 end.
Definition initrd_limit (p : VirtMachineParams) : Z :=
  match initrd_of p with [] => 0 | _ => p_ram_base_addr p + p_ram_size p end.

(** Where the device tree goes in the boot ROM. *)
Definition fdt_offset (p : VirtMachineParams) : Z := if p_compact_bootrom p then 52 else 256.

(** A raw firmware and images that do not overlap, and no files for the boot
    ROM and the device tree. *)
Record images_fit (p : VirtMachineParams) (fw : list Z) : Prop := {
  if_bios : p_bios p = Some fw;
  if_raw : elf64_is_riscv64 fw = false;
  if_fw : Z.of_nat (length fw) <= p_ram_size p;
  if_kernel : kernel_of p <> [] -> Z.of_nat (length fw) <= KERNEL_OFFSET /\
    KERNEL_OFFSET + Z.of_nat (length (kernel_of p)) <= p_ram_size p;
  if_initrd : initrd_of p <> [] -> Z.of_nat (length (initrd_of p)) <= p_ram_size p /\
    p_ram_base_addr p + Z.of_nat (length fw) <= initrd_at p /\
    (kernel_of p <> [] -> p_ram_base_addr p + KERNEL_OFFSET + Z.of_nat (length (kernel_of p)) <= initrd_at p);
  if_files : p_bootrom_name p = None /\ p_dtb_name p = None;
  if_cmdline : cstring (default [] (p_cmdline p)) /\ Z.of_nat (length (default [] (p_cmdline p))) <= 2 ^ 20
}.

Lemma fdt_room p : 52 <= fdt_offset p.
Proof. unfold fdt_offset. destruct (p_compact_bootrom p); lia. Qed.

Lemma initrd_in_ram p : initrd_of p <> [] ->
  initrd_at p + Z.of_nat (length (initrd_of p)) <= p_ram_base_addr p + p_ram_size p.
Proof.
  intros H. unfold initrd_at. destruct (initrd_of p) as [|c k]; [congruence|]. generalize (Z.of_nat (length (c :: k))). intros n.
  rewrite Z.shiftr_div_pow2, Z.shiftl_mul_pow2 by lia. Z.to_euclidean_division_equations; lia.
Qed.

Section Loading.
Context (p : VirtMachineParams) (A B : Z) (rest fw : list Z) (Hp : buildable p) (Hi : images_fit p fw).
Context (m0 : RISCVMachine) (Hmap : mem_map m0 = built_map p A B) (Hbase : ram_base_addr m0 = p_ram_base_addr p)
  (Hcpus : ncpus m0 = p_ncpus p).

Definition booting (h : gmap Z Z) (start : Z) : Boot :=
  mkBoot (set_hmem h m0) (built_layout p) (p_compact_bootrom p) false start rest.

Lemma memcpy_booting q l h start : present h q (Z.of_nat (length l)) ->
  exists h', memcpy (Some q) l (booting h start) = inl (booting h' start, tt) /\ copied h q l h'.
Proof.
  intros H. destruct (memcpy_copies q l (booting h start)) as (h' & E & C); [exact H|]. exists h'. split; [|exact C].
  rewrite E. unfold booting, set_bm. cbn [bm layout compact_bootrom bootrom_loaded initrd_start blocks]. rewrite set_hmem_twice. reflexivity.
Qed.

Lemma load_at_booting a l h start : present h A (p_ram_size p) ->
  p_ram_base_addr p <= a < p_ram_base_addr p + p_ram_size p -> a + Z.of_nat (length l) <= p_ram_base_addr p + p_ram_size p ->
  exists h', load_at a l (booting h start) = inl (booting h' start, tt) /\ copied h (A + (a - p_ram_base_addr p)) l h'.
Proof.
  intros H Ha Hl. unfold load_at, bbind, bgets. cbn [bm booting]. rewrite (ram_found p A B Hp) by assumption.
  apply memcpy_booting. intros x Hx. apply H. lia.
Qed.

Lemma firmware_loaded h start : present h A (p_ram_size p) ->
  exists h', load_firmware fw (booting h start) = inl (booting h' start, tt) /\ copied h A fw h'.
Proof.
  intros H. destruct (bd_size p Hp) as [Hs _]. pose proof (if_fw _ _ Hi) as Hf.
  destruct (load_at_booting (p_ram_base_addr p) fw h start H) as (h' & E & C); [lia..|].
  rewrite Z.sub_diag, Z.add_0_r in C. exists h'. split; [|exact C].
  unfold load_firmware, bbind, bgets. rewrite (if_raw _ _ Hi). change (ram_base_addr (bm (booting h start))) with (ram_base_addr m0). rewrite Hbase.
  destruct (aget 0 fw 0 =? 48) eqn:E1; [|rewrite andb_false_r; exact E]. apply Z.eqb_eq in E1. rewrite E1, andb_false_r. exact E.
Qed.

Lemma kernel_loaded h start : present h A (p_ram_size p) ->
  exists h', load_kernel (p_kernel p) (booting h start) = inl (booting h' start, tt) /\ copied h (A + KERNEL_OFFSET) (kernel_of p) h'.
Proof.
  intros H. pose proof (if_kernel _ _ Hi) as Hk. unfold kernel_of in *. destruct (p_kernel p) as [[|c k]|]; cbn [load_kernel] in *.
  - exists h. split; [reflexivity|]. split; [intros i Hx; cbn in Hx; lia|reflexivity|auto].
  - destruct (Hk ltac:(discriminate)) as [K1 K2]. cbn [length] in *.
    destruct (load_at_booting (p_ram_base_addr p + KERNEL_OFFSET) (c :: k) h start H) as (h' & E & C); [cbn [length]; unfold KERNEL_OFFSET in *; lia..|].
    replace (A + (p_ram_base_addr p + KERNEL_OFFSET - p_ram_base_addr p)) with (A + KERNEL_OFFSET) in C by lia.
    exists h'. split; [|exact C]. unfold bbind at 1, bgets, id. change (ram_size (layout (booting h start))) with (p_ram_size p).
    destruct (Z.leb_spec (p_ram_size p) KERNEL_OFFSET); [unfold KERNEL_OFFSET in *; lia|].
    destruct (Z.ltb_spec (p_ram_size p - KERNEL_OFFSET) (Z.of_nat (S (length k)))); [lia|].
    change (ram_base_addr (bm (booting h start))) with (ram_base_addr m0). rewrite Hbase, u_small; [exact E|].
    destruct (bd_base p Hp) as [-> | [-> | ->]]; unfold in_u, KERNEL_OFFSET; lia.
  - exists h. split; [reflexivity|]. split; [intros i Hx; cbn in Hx; lia|reflexivity|auto].
Qed.

Lemma initrd_loaded h : present h A (p_ram_size p) ->
  exists h', load_initrd (p_initrd p) (booting h 0) = inl (booting h' (initrd_at p), initrd_limit p) /\
    copied h (A + (initrd_at p - p_ram_base_addr p)) (initrd_of p) h'.
Proof.
  intros H. pose proof (if_initrd _ _ Hi) as Hk. destruct (bd_size p Hp) as [Hs Hs2]. unfold initrd_at, initrd_limit, initrd_of in *.
  destruct (p_initrd p) as [[|c k]|]; cbn [load_initrd] in *.
  - exists h. split; [reflexivity|]. split; [intros i Hx; cbn in Hx; lia|reflexivity|auto].
  - destruct (Hk ltac:(discriminate)) as [K1 [K2 _]]. set (n := Z.of_nat (length (c :: k))) in *.
    assert (Hn : 0 < n) by (unfold n; cbn [length]; lia).
    set (start := ((p_ram_base_addr p + p_ram_size p - n) >> 12) << 12) in *.
    assert (Hst : p_ram_base_addr p <= start /\ start + n <= p_ram_base_addr p + p_ram_size p).
    { split; [lia|]. unfold start. rewrite Z.shiftr_div_pow2, Z.shiftl_mul_pow2 by lia. clear - Hn. Z.to_euclidean_division_equations; lia. }
    destruct (load_at_booting start (c :: k) h start H) as (h' & E & C); [fold n; lia..|].
    exists h'. split; [|exact C]. unfold bbind at 1, bgets, id. change (ram_size (layout (booting h 0))) with (p_ram_size p).
    fold n. destruct (Z.ltb_spec (p_ram_size p) n); [lia|].
    change (ram_base_addr (bm (booting h 0))) with (ram_base_addr m0). rewrite Hbase.
    assert (Hr : in_u 64 (p_ram_base_addr p + p_ram_size p) /\ in_u 64 (p_ram_base_addr p + p_ram_size p - n))
      by (destruct (bd_base p Hp) as [-> | [-> | ->]]; unfold in_u; lia).
    rewrite (u_small 64 (p_ram_base_addr p + p_ram_size p)), (u_small 64 (p_ram_base_addr p + p_ram_size p - n)) by apply Hr.
    fold start. unfold bbind, bmod. change (set_initrd_start start (booting h 0)) with (booting h start). rewrite E. reflexivity.
  - exists h. split; [reflexivity|]. split; [intros i Hx; cbn in Hx; lia|reflexivity|auto].
Qed.

Definition bootrom_bytes : list Z := flat_map (le_bytes 4) (bootrom_words (p_ncpus p) (p_ram_base_addr p)).

Lemma bootrom_bytes_length : Z.of_nat (length bootrom_bytes) = 48.
Proof.
  unfold bootrom_bytes, bootrom_words. destruct (p_ncpus p =? 1), (p_ram_base_addr p =? 0xC000000000), (p_ram_base_addr p =? 0x80000000); reflexivity.
Qed.

Lemma rom_ptr h : get_ram_ptr (set_hmem h m0) ROM_BASE_ADDR = Some B.
Proof. rewrite (rom_found p A B Hp) by (try exact Hmap; unfold ROM_BASE_ADDR, ROM_SIZE; lia). rewrite Z.sub_diag, Z.add_0_r. reflexivity. Qed.

Lemma bootrom_generated h start : present h B ROM_SIZE ->
  exists h', generate_bootrom (booting h start) = inl (booting h' start, 52) /\ copied h B bootrom_bytes h'.
Proof.
  intros H. destruct (memcpy_booting B bootrom_bytes h start) as (h' & E & C).
  { intros x Hx. rewrite bootrom_bytes_length in Hx. apply H. unfold ROM_SIZE. lia. }
  exists h'. split; [|exact C]. unfold generate_bootrom, bbind at 1, bgets. cbn [bm booting]. rewrite rom_ptr.
  change (ram_base_addr (set_hmem h m0)) with (ram_base_addr m0). change (ncpus (set_hmem h m0)) with (ncpus m0). rewrite Hbase, Hcpus.
  cbn [option_map]. change (BOOT_BASE_ADDR - ROM_BASE_ADDR) with 0. rewrite Z.add_0_r. fold bootrom_bytes.
  replace (negb (p_ram_base_addr p =? 0x80000000) && negb (p_ram_base_addr p =? 0x8000000000) && negb (p_ram_base_addr p =? 0xC000000000)) with false
    by (destruct (bd_base p Hp) as [-> | [-> | ->]]; reflexivity).
  unfold bbind. rewrite E. reflexivity.
Qed.

Context (blob : list Z) (Hfit : fdt_offset p + Z.of_nat (length blob) <= ROM_SIZE).
Context (Hblob : forall h, riscv_build_fdt (set_hmem h m0) (built_layout p) (p_cmdline p) (initrd_at p) (initrd_limit p) = inl blob).

Lemma bootrom_placed h : present h B ROM_SIZE ->
  exists h1 h2, place_bootrom (p_bootrom_name p) (p_dtb_name p) (p_cmdline p) (initrd_limit p) (booting h (initrd_at p)) =
      inl (booting h2 (initrd_at p), tt) /\
    copied h B bootrom_bytes h1 /\ copied h1 (B + fdt_offset p) blob h2.
Proof.
  intros H. destruct (bootrom_generated h (initrd_at p) H) as (h1 & E1 & C1). pose proof (fdt_room p).
  destruct (memcpy_booting (B + fdt_offset p) blob h1 (initrd_at p)) as (h2 & E2 & C2).
  { intros x Hx. apply (co_present _ _ _ _ C1 B ROM_SIZE H). lia. }
  exists h1, h2. split; [|split; assumption]. destruct (if_files _ _ Hi) as [-> ->].
  unfold place_bootrom, bbind at 1, bgets. cbn [bootrom_loaded booting]. fold (booting h (initrd_at p)).
  unfold bbind at 1. rewrite E1. change (52 <? 0) with false. unfold bbind at 1, bgets, id. cbn [bm booting]. rewrite rom_ptr.
  cbn [option_map compact_bootrom]. change (BOOT_BASE_ADDR - ROM_BASE_ADDR + (if p_compact_bootrom p then 52 else 256)) with (fdt_offset p).
  fold (booting h1 (initrd_at p)). unfold build_fdt, bbind at 1, bgets, id. cbn [bm layout initrd_start booting]. rewrite Hblob. exact E2.
Qed.

Context (Hlen : Z.of_nat (length (cpu_state m0)) = p_ncpus p).
Context (Hdis : A + p_ram_size p <= B \/ B + ROM_SIZE <= A).

(** The images are where the boot code and the kernel look for them. *)
Record loaded (h : gmap Z Z) : Prop := {
  ld_fw : placed h A fw;
  ld_kernel : placed h (A + KERNEL_OFFSET) (kernel_of p);
  ld_initrd : placed h (A + (initrd_at p - p_ram_base_addr p)) (initrd_of p);
  ld_rom : placed h B bootrom_bytes;
  ld_fdt : placed h (B + fdt_offset p) blob
}.

(** An image that is not there is nowhere in the way. *)
Lemma placed_nil h q l : l = [] -> placed h q l.
Proof. intros -> i Hx. cbn in Hx. lia. Qed.

Lemma images_loaded h0 : present h0 A (p_ram_size p) -> present h0 B ROM_SIZE ->
  exists h, copy_kernel fw (p_kernel p) (p_initrd p) (p_bootrom_name p) (p_dtb_name p) (p_cmdline p) (booting h0 0) =
      inl (mkBoot (set_cpu_state (map debugging (cpu_state m0)) (set_hmem h m0)) (built_layout p) (p_compact_bootrom p) false (initrd_at p) rest, tt) /\
    loaded h /\ present h A (p_ram_size p) /\ present h B ROM_SIZE.
Proof.
  intros PA PB. pose proof (if_fw _ _ Hi) as Hf. pose proof (if_kernel _ _ Hi) as Hk. pose proof (if_initrd _ _ Hi) as Hr. pose proof (initrd_in_ram p) as Hr2.
  destruct (firmware_loaded h0 0 PA) as (h1 & E1 & C1).
  destruct (kernel_loaded h1 0 (co_present _ _ _ _ C1 _ _ PA)) as (h2 & E2 & C2).
  pose proof (co_present _ _ _ _ C2 _ _ (co_present _ _ _ _ C1 _ _ PA)) as PA2.
  destruct (initrd_loaded h2 PA2) as (h3 & E3 & C3).
  pose proof (co_present _ _ _ _ C3 _ _ (co_present _ _ _ _ C2 _ _ (co_present _ _ _ _ C1 _ _ PB))) as PB3.
  destruct (bootrom_placed h3 PB3) as (h4 & h5 & E5 & C4 & C5). exists h5. split; [|split; [|split]].
  3: { apply (co_present _ _ _ _ C5), (co_present _ _ _ _ C4), (co_present _ _ _ _ C3), PA2. }
  3: { apply (co_present _ _ _ _ C5), (co_present _ _ _ _ C4), PB3. }
  - unfold copy_kernel, bbind at 1, bmod. change (set_initrd_start 0 (booting h0 0)) with (booting h0 0).
    unfold bbind at 1, bgets. change (ram_size (layout (booting h0 0))) with (p_ram_size p).
    destruct (Z.ltb_spec (p_ram_size p) (Z.of_nat (length fw))); [lia|].
    unfold bbind. rewrite E1, E2, E3, E5. unfold enter_debug_mode, bbind, bgets, need, bret, bmod. cbn [bm booting].
    change (ncpus (set_hmem h5 m0)) with (ncpus m0). rewrite Hcpus, <- Hlen, Nat2Z.id.
    rewrite debug_harts_spec by (rewrite cpu_state_set_hmem; lia). rewrite cpu_state_set_hmem, firstn_all, skipn_all, app_nil_r. reflexivity.
  - pose proof (fdt_room p). pose proof bootrom_bytes_length. unfold ROM_SIZE in *.
    assert (R3 : forall q l, placed h3 q l -> l <> [] -> A <= q /\ q + Z.of_nat (length l) <= A + p_ram_size p -> placed h5 q l).
    { intros q l Hq _ [Q1 Q2]. apply (placed_after _ _ _ _ _ _ C5); [lia|]. apply (placed_after _ _ _ _ _ _ C4); [lia|exact Hq]. }
    assert (Hn : forall l : list Z, l = [] \/ l <> []) by (intros []; [left; reflexivity|right; discriminate]).
    split.
    + destruct (Hn fw) as [E|E]; [apply placed_nil, E|]. apply R3; [|exact E|lia].
      apply (placed_after _ _ _ _ _ _ C3); [intros I; destruct (Hr I) as (? & ? & ?); lia|].
      apply (placed_after _ _ _ _ _ _ C2); [intros K; destruct (Hk K); lia|]. apply C1.
    + destruct (Hn (kernel_of p)) as [E|E]; [apply placed_nil, E|]. destruct (Hk E). apply R3; [|exact E|unfold KERNEL_OFFSET in *; lia].
      apply (placed_after _ _ _ _ _ _ C3); [intros I; destruct (Hr I) as (? & ? & K); specialize (K E); lia|]. apply C2.
    + destruct (Hn (initrd_of p)) as [E|E]; [apply placed_nil, E|]. destruct (Hr E) as (? & ? & _). specialize (Hr2 E).
      apply R3; [apply C3|exact E|lia].
    + apply (placed_after _ _ _ _ _ _ C5); [lia|]. apply C4.
    + apply C5.
Qed.

End Loading.

(** ** The machine that is built *)

(** The byte of RAM at a physical address. *)
Definition ram_byte (m : RISCVMachine) (a : Z) : option Z :=
  match get_ram_ptr m a with Some q => hmem m !! q | None => None end.

Definition in_ram (m : RISCVMachine) (a : Z) (l : list Z) : Prop :=
  forall i, 0 <= i < Z.of_nat (length l) -> ram_byte m (a + i) = Some (aget 0 l i).

(** Hart [i] when it is started. *)
Definition boot_hart (p : VirtMachineParams) (i : Z) : RISCVCPUState :=
  debugging (set_physical_addr_len (i32 (p_physical_addr_len p))
    (riscv_cpu_init (p_reset_vector p) (p_custom_extension p) (p_clear_ids p) i)).

(** The machine over the host memory [h]. *)
Definition final_machine (p : VirtMachineParams) (A B : Z) (h : gmap Z Z) : RISCVMachine :=
  let m0 := built_machine p A B h in
  set_pending_interrupt (-1) (set_cosim false (set_cpu_state (map debugging (cpu_state m0)) (set_hmem h m0))).

Lemma present_blocks A B n : 0 <= n -> A + n <= B \/ B + ROM_SIZE <= A ->
  let h := zero_block (zero_block ∅ A n) B ROM_SIZE in present h A n /\ present h B ROM_SIZE.
Proof.
  intros Hn Hd h. unfold h. split; intros x Hx; rewrite zero_block_lookup, ?zero_block_lookup by (unfold ROM_SIZE; lia); range_cases;
    eexists; reflexivity.
Qed.

Section Final.
Context (p : VirtMachineParams) (fw : list Z) (A B : Z) (rest : list Z).
Context (Hp : buildable p) (Hi : images_fit p fw) (Hdis : A + p_ram_size p <= B \/ B + ROM_SIZE <= A).

Definition described : list Z + fstop :=
  riscv_build_fdt (new_machine p (p_ncpus p)) (built_layout p) (p_cmdline p) (initrd_at p) (initrd_limit p).

Lemma new_harts_length n : length (new_harts p n) = Z.to_nat n.
Proof. unfold new_harts. rewrite length_map, length_seq. reflexivity. Qed.

(** The tree describes the machine: what is built afterwards does not change it. *)
Lemma described_built h y c i e :
  riscv_build_fdt (built_machine p A B h) y c i e = riscv_build_fdt (new_machine p (p_ncpus p)) y c i e.
Proof.
  apply build_fdt_ext; [reflexivity..|]. intros k. unfold get_hart. change (cpu_state (built_machine p A B h))
    with (map (set_physical_addr_len (i32 (p_physical_addr_len p))) (cpu_state (new_machine p (p_ncpus p)))).
  destruct (0 <=? k); [|reflexivity]. generalize (cpu_state (new_machine p (p_ncpus p))). intros cs.
  change (map (set_physical_addr_len (i32 (p_physical_addr_len p))) cs) with (set_physical_addr_len (i32 (p_physical_addr_len p)) <$> cs).
  rewrite list_lookup_fmap. destruct (cs !! Z.to_nat k); reflexivity.
Qed.

Lemma blob_reads : exists blob, described = inl blob /\
  read_tree blob = Some (machine_node (new_machine p (p_ncpus p)) (built_layout p) (p_cmdline p) (initrd_at p) (initrd_limit p)).
Proof.
  destruct (bd_cpus p Hp) as [N1 N2]. destruct (if_cmdline _ _ Hi) as [L1 L2]. pose proof (virtio_total_range p Hp).
  apply build_fdt_reads; [|exact N2|cbn; lia|exact L1|exact L2].
  change (cpu_state (new_machine p (p_ncpus p))) with (new_harts p (p_ncpus p)). rewrite new_harts_length.
  change (ncpus (new_machine p (p_ncpus p))) with (p_ncpus p). lia.
Qed.

Lemma built_set_hmem h h' : set_hmem h' (built_machine p A B h) = built_machine p A B h'.
Proof. unfold built_machine. cbv zeta. generalize (new_machine p (p_ncpus p)). intros m. autorewrite with boot. reflexivity. Qed.

Lemma init_steps (b0 : Boot) (k : BM unit) :
  (basic_map p ;; bmod (fun b => set_bm (set_htif_tohost_addr (p_htif_base_addr p) (bm b)) b) ;;
   add_virtios (Z.to_nat (p_eth_count p)) ;; add_virtios (Z.to_nat (p_drive_count p)) ;;
   add_virtios (Z.to_nat (p_fs_count p)) ;; add_inputs (p_input_device p) ;; k) b0 =
  ((basic_map p ;; bmod (fun b => set_bm (set_htif_tohost_addr (p_htif_base_addr p) (bm b)) b) ;;
   add_virtios (Z.to_nat (p_eth_count p)) ;; add_virtios (Z.to_nat (p_drive_count p)) ;;
   add_virtios (Z.to_nat (p_fs_count p)) ;; add_inputs (p_input_device p)) ;; k) b0.
Proof.
  unfold bbind. repeat match goal with
  | |- context [match ?x ?s with inl _ => _ | inr _ => _ end] => destruct (x s) as [[? ?]|]; [|reflexivity]
  end. reflexivity.
Qed.

Lemma init_builds blob : described = inl blob -> fdt_offset p + Z.of_nat (length blob) <= ROM_SIZE ->
  exists h, virt_machine_init p (A :: B :: rest) =
      inl (mkBoot (final_machine p A B h) (built_layout p) (p_compact_bootrom p) false (initrd_at p) rest, tt) /\
    loaded p A B fw blob h /\ present h A (p_ram_size p) /\ present h B ROM_SIZE.
Proof.
  intros Hb Hf. destruct (bd_cpus p Hp) as [N1 N2]. destruct (bd_size p Hp) as [Hs _].
  set (h0 := zero_block (zero_block ∅ A (p_ram_size p)) B ROM_SIZE).
  destruct (present_blocks A B (p_ram_size p)) as [PA PB]; [lia|exact Hdis|]. fold h0 in PA, PB.
  pose proof (images_loaded p A B rest fw Hp Hi (built_machine p A B h0) eq_refl eq_refl eq_refl blob Hf) as Hl.
  destruct Hl with (h0 := h0) as (h & E & L & P1 & P2); [| |exact Hdis|exact PA|exact PB|].
  { intros h. rewrite built_set_hmem, described_built. exact Hb. }
  { change (cpu_state (built_machine p A B h0)) with (map (set_physical_addr_len (i32 (p_physical_addr_len p))) (new_harts p (p_ncpus p))).
    rewrite length_map, new_harts_length. lia. }
  exists h. split; [|split; [exact L|split; assumption]]. unfold virt_machine_init. assert (Hn : i32 (p_ncpus p) = p_ncpus p) by (apply i_small; [lia|unfold MAX_CPUS in *; lia]).
  rewrite Hn. destruct (Z.ltb_spec MAX_CPUS (p_ncpus p)); [lia|]. rewrite init_steps. unfold bbind at 1.
  rewrite (devices_built_on p A B rest Hp (new_machine p (p_ncpus p)) h0 0 eq_refl eq_refl).
  rewrite (if_bios _ _ Hi). unfold bbind. unfold booting in E. rewrite built_set_hmem in E. unfold built_machine in E at 1. cbv zeta in E.
  rewrite E. unfold bmod, set_bm, final_machine. cbn [bm layout compact_bootrom bootrom_loaded initrd_start blocks].
  rewrite !built_set_hmem. reflexivity.
Qed.

(** Reading the images through the memory map. *)
Lemma in_ram_ram h a l : (l <> [] -> p_ram_base_addr p <= a /\ a + Z.of_nat (length l) <= p_ram_base_addr p + p_ram_size p) ->
  placed h (A + (a - p_ram_base_addr p)) l -> in_ram (final_machine p A B h) a l.
Proof.
  intros Ha Hl i Hx. assert (l <> []) as Hn by (intros ->; cbn in Hx; lia). specialize (Ha Hn). unfold ram_byte.
  rewrite (ram_found p A B Hp) by (reflexivity || lia). change (hmem (final_machine p A B h)) with h.
  rewrite <- (Hl i Hx). f_equal. lia.
Qed.

Lemma in_ram_rom h a l : ROM_BASE_ADDR <= a -> a + Z.of_nat (length l) <= ROM_BASE_ADDR + ROM_SIZE ->
  placed h (B + (a - ROM_BASE_ADDR)) l -> in_ram (final_machine p A B h) a l.
Proof.
  intros Ha Hb Hl i Hx. unfold ram_byte. rewrite (rom_found p A B Hp) by (reflexivity || lia).
  change (hmem (final_machine p A B h)) with h. rewrite <- (Hl i Hx). f_equal. lia.
Qed.

Lemma final_hart h i : 0 <= i < p_ncpus p -> get_hart (final_machine p A B h) i = Some (boot_hart p i).
Proof.
  intros Hx. unfold get_hart. destruct (Z.leb_spec 0 i); [|lia].
  change (cpu_state (final_machine p A B h)) with (debugging <$> (set_physical_addr_len (i32 (p_physical_addr_len p)) <$> new_harts p (p_ncpus p))).
  rewrite !list_lookup_fmap. unfold new_harts.
  change (map ?f (seq 0 (Z.to_nat (p_ncpus p)))) with (f <$> seq 0 (Z.to_nat (p_ncpus p))).
  rewrite list_lookup_fmap, lookup_seq_lt by lia. cbn [fmap option_fmap option_map Nat.add]. rewrite Z2Nat.id by lia. reflexivity.
Qed.

Lemma loaded_in_ram blob h : fdt_offset p + Z.of_nat (length blob) <= ROM_SIZE -> loaded p A B fw blob h ->
  let m := final_machine p A B h in
  in_ram m (p_ram_base_addr p) fw /\ in_ram m (p_ram_base_addr p + KERNEL_OFFSET) (kernel_of p) /\
  in_ram m (initrd_at p) (initrd_of p) /\ in_ram m BOOT_BASE_ADDR (bootrom_bytes p) /\
  in_ram m (BOOT_BASE_ADDR + fdt_offset p) blob.
Proof.
  intros Hf [L1 L2 L3 L4 L5] m. pose proof (if_fw _ _ Hi) as F1. pose proof (fdt_room p) as F2. pose proof (bootrom_bytes_length p) as F3.
  unfold BOOT_BASE_ADDR, ROM_BASE_ADDR, ROM_SIZE in *. split; [|split; [|split; [|split]]].
  - apply in_ram_ram; [intros _; lia|]. rewrite Z.sub_diag, Z.add_0_r. exact L1.
  - apply in_ram_ram; [intros K; destruct (if_kernel _ _ Hi K); unfold KERNEL_OFFSET in *; lia|].
    replace (A + (p_ram_base_addr p + KERNEL_OFFSET - p_ram_base_addr p)) with (A + KERNEL_OFFSET) by lia. exact L2.
  - apply in_ram_ram; [intros K; destruct (if_initrd _ _ Hi K) as (? & ? & _); pose proof (initrd_in_ram p K); lia|exact L3].
  - apply in_ram_rom; unfold ROM_BASE_ADDR, ROM_SIZE; [lia..|]. replace (B + (65536 - 65536)) with B by lia. exact L4.
  - apply in_ram_rom; unfold ROM_BASE_ADDR, ROM_SIZE; [lia..|]. replace (B + (65536 + fdt_offset p - 65536)) with (B + fdt_offset p) by lia. exact L5.
Qed.

End Final.

(** A machine is built with its images in place.  For every machine whose
    RAM is at an address the boot ROM supports and whose raw firmware, kernel and
    initial RAM disk do not overlap, with a device tree that fits into the boot
    ROM, [virt_machine_init] returns: the firmware is at the start of the RAM, the
    kernel 2 MB above it, the RAM disk at the page [initrd_start] at the end; the
    boot program is at [BOOT_BASE_ADDR] and behind it a blob in which a reader
    finds the tree of the machine; every hart is a fresh hart in debug mode. *)
Theorem machine_built (p : VirtMachineParams) (fw : list Z) (A B : Z) (rest : list Z) :
  buildable p -> images_fit p fw -> A + p_ram_size p <= B \/ B + ROM_SIZE <= A ->
  (forall blob, described p = inl blob -> fdt_offset p + Z.of_nat (length blob) <= ROM_SIZE) ->
  exists b blob, virt_machine_init p (A :: B :: rest) = inl (b, tt) /\ initrd_start b = initrd_at p /\
    in_ram (bm b) (p_ram_base_addr p) fw /\ in_ram (bm b) (p_ram_base_addr p + KERNEL_OFFSET) (kernel_of p) /\
    in_ram (bm b) (initrd_at p) (initrd_of p) /\ in_ram (bm b) BOOT_BASE_ADDR (bootrom_bytes p) /\
    in_ram (bm b) (BOOT_BASE_ADDR + fdt_offset p) blob /\
    read_tree blob = Some (machine_node (new_machine p (p_ncpus p)) (built_layout p) (p_cmdline p) (initrd_at p) (initrd_limit p)) /\
    forall i, 0 <= i < p_ncpus p -> get_hart (bm b) i = Some (boot_hart p i).
Proof.
  intros Hp Hi Hd Hf. destruct (blob_reads p fw Hp Hi) as (blob & E & R). specialize (Hf blob E).
  destruct (init_builds p fw A B rest Hp Hi Hd blob E Hf) as (h & Ei & L & _).
  destruct (loaded_in_ram p fw A B Hp Hi blob h Hf L) as (L1 & L2 & L3 & L4 & L5).
  eexists _, blob. split; [exact Ei|]. cbn [bm initrd_start]. split; [reflexivity|]. repeat (split; [assumption|]).
  intros i Hx. apply final_hart. exact Hx.
Qed.

(** ** Running the boot ROM *)

Open Scope m_scope.

Definition ram_word (m : RISCVMachine) (a : Z) : option Z :=
  match get_ram_ptr m a with Some q => host_load (hmem m) 4 q | None => None end.

Section Running.
Context {Bus : DeviceBus} {Hooks : CsrHooks}.

(** Run [n] instructions from the RAM: each is the word at the program counter. *)
Fixpoint run_ram (n : nat) : M unit :=
  match n with
  | O => ret tt
  | S n' => fun st =>
      match ram_word (mach st) (pc_of (lc st)) with
      | Some w => (catch_jump (exec_insn w) ;; run_ram n') st
      | None => (st, inr Undefined)
      end
  end.

(** The same with the words [f] instead of the RAM of [m]; the proposition says
    that the machine stays [m] as long as instructions are fetched. *)
Fixpoint run_words (f : Z -> option Z) (m : RISCVMachine) (n : nat) (st : St) : Prop * (St * (unit + stop)) :=
  match n with
  | O => (True, (st, inl tt))
  | S n' =>
      match f (pc_of (lc st)) with
      | Some w =>
          match catch_jump (exec_insn w) st with
          | (st', inl _) => let '(P, r) := run_words f m n' st' in (mach st' = m /\ P, r)
          | (st', inr e) => (True, (st', inr e))
          end
      | None => (False, (st, inr Undefined))
      end
  end.

Lemma run_words_ram f m : (forall a w, f a = Some w -> ram_word m a = Some w) ->
  forall n st, mach st = m -> fst (run_words f m n st) -> run_ram n st = snd (run_words f m n st).
Proof.
  intros Hf. induction n as [|n IH]; intros st Hm H; [reflexivity|]. cbn [run_ram run_words] in *. rewrite Hm.
  destruct (f (pc_of (lc st))) as [w|] eqn:E; [|destruct H]. rewrite (Hf _ _ E). unfold bind at 1.
  destruct (catch_jump (exec_insn w) st) as [st' [[]|e]]; [|reflexivity].
  specialize (IH st'). destruct (run_words f m n st') as [P r]. cbn [fst snd] in *. apply IH; apply H.
Qed.

End Running.

(** The words of the boot ROM by address. *)
Definition rom_at (ws : list Z) (a : Z) : option Z :=
  if (BOOT_BASE_ADDR <=? a) && ((a - BOOT_BASE_ADDR) mod 4 =? 0) then ws !! Z.to_nat ((a - BOOT_BASE_ADDR) / 4) else None.

(** Hart and machine as the boot ROM finds them. *)
Definition fresh_hart (len : Z) (custom : bool) (vendor arch imp i : Z) : RISCVCPUState :=
  debugging (set_physical_addr_len len (set_mimpid imp (set_marchid arch (set_mvendorid vendor
    (riscv_cpu_init BOOT_BASE_ADDR custom true i))))).

Definition fresh_machine cs cs' cs'' ranges h h' n base htif mx : RISCVMachine :=
  set_pending_interrupt (-1) (set_cosim false (set_cpu_state cs (set_hmem h (set_htif_tohost_addr htif
    (set_cpu_state cs' (set_hmem h' (set_mem_map ranges
      (set_cpu_state cs'' (set_ncpus n (set_maxinsns mx (set_ram_base_addr base zero_machine))))))))))).

Definition started (c : RISCVCPUState) (m : RISCVMachine) : St := mkSt c m (mkLocals 0 0 0 0 0 0 (pc c)).

(** What the firmware finds: the hart's number in a0, the address behind the
    boot program in a1, machine mode. *)
Record handed_over (base i : Z) (m : RISCVMachine) (st : St) : Prop := {
  ho_pc : pc (cpu st) = base;
  ho_a0 : aget 0 (reg (cpu st)) 10 = i;
  ho_a1 : aget 0 (reg (cpu st)) 11 = BOOT_BASE_ADDR + 256;
  ho_priv : priv (cpu st) = PRV_M;
  ho_debug : debug_mode (cpu st) = false;
  ho_mach : mach st = m
}.

Definition hands_over (Bus : DeviceBus) (f : Z -> option Z) (m : RISCVMachine) (n : nat) (c : RISCVCPUState) (base i : Z) : Prop :=
  let '(P, (st', r)) := @run_words Bus no_hooks f m n (started c m) in
  P /\ r = inr DoneInterp /\ handed_over base i m st'.

Lemma one_hart_boots Bus custom cs cs' cs'' ranges h h' base htif mx len v a im :
  base = 0x80000000 \/ base = 0x8000000000 \/ base = 0xC000000000 ->
  hands_over Bus (rom_at (bootrom_words 1 base)) (fresh_machine cs cs' cs'' ranges h h' 1 base htif mx) 10 (fresh_hart len custom v a im 0) base 0.
Proof. intros [-> | [-> | ->]]; destruct custom; vm_compute; repeat split; reflexivity. Qed.

Lemma many_harts_boot Bus custom cs cs' cs'' ranges h h' n base htif mx len v a im i :
  base = 0x80000000 \/ base = 0x8000000000 \/ base = 0xC000000000 -> 0 <= i < 8 ->
  hands_over Bus (rom_at (bootrom_words 2 base)) (fresh_machine cs cs' cs'' ranges h h' n base htif mx) 12 (fresh_hart len custom v a im i) base i.
Proof.
  intros Hb Hi. assert (Hc : i = 0 \/ i = 1 \/ i = 2 \/ i = 3 \/ i = 4 \/ i = 5 \/ i = 6 \/ i = 7) by lia.
  destruct Hb as [-> | [-> | ->]], custom, Hc as [-> | [-> | [-> | [-> | [-> | [-> | [-> | ->]]]]]]]; vm_compute; repeat split; reflexivity.
Qed.

(** Words and bytes. *)
Lemma host_read_placed h q l : placed h q l -> forall n i, 0 <= i -> i + Z.of_nat n <= Z.of_nat (length l) ->
  host_read_bytes h n (q + i) = Some (firstn n (skipn (Z.to_nat i) l)).
Proof.
  intros H. induction n as [|n IH]; intros i Hi Hl; [reflexivity|]. cbn [host_read_bytes]. rewrite (H i) by lia.
  replace (q + i + 1) with (q + (i + 1)) by lia. rewrite IH by lia.
  destruct (lookup_lt_is_Some_2 l (Z.to_nat i)) as [c Hc]; [lia|]. rewrite (drop_S _ _ _ Hc). cbn [firstn].
  replace (Z.to_nat (i + 1)) with (S (Z.to_nat i)) by lia. do 2 f_equal. unfold aget. apply nth_lookup_Some, Hc.
Qed.

Lemma word_of_bytes ws : forall k w, ws !! k = Some w -> firstn 4 (skipn (4 * k) (flat_map (le_bytes 4) ws)) = le_bytes 4 w.
Proof.
  induction ws as [|v ws IH]; intros [|k] w; [discriminate..| |]; cbn [lookup list_lookup flat_map]; intros H.
  - injection H as ->. rewrite Nat.mul_0_r. reflexivity.
  - replace (4 * S k)%nat with (length (le_bytes 4 v) + 4 * k)%nat by (rewrite le_bytes_length; lia). rewrite drop_app_add. apply IH, H.
Qed.

Lemma bootrom_words_range n base : Forall (in_u 32) (bootrom_words n base).
Proof.
  unfold bootrom_words. destruct (n =? 1), (base =? 0xC000000000), (base =? 0x80000000); repeat constructor; unfold in_u; lia.
Qed.

Lemma bootrom_words_length n base : length (bootrom_words n base) = 12%nat.
Proof. unfold bootrom_words. destruct (n =? 1), (base =? 0xC000000000), (base =? 0x80000000); reflexivity. Qed.

(** The instructions are fetched from the ROM. *)
Lemma rom_fetch p A B h : buildable p -> placed h B (bootrom_bytes p) ->
  forall a w, rom_at (bootrom_words (p_ncpus p) (p_ram_base_addr p)) a = Some w -> ram_word (final_machine p A B h) a = Some w.
Proof.
  intros Hp Hl a w. unfold rom_at. destruct (_ && _) eqn:E; [|discriminate]. bool_hyps. unfold BOOT_BASE_ADDR in *.
  set (k := Z.to_nat ((a - 0x10000) / 4)). intros Hw. pose proof (lookup_lt_Some _ _ _ Hw) as Hk. rewrite bootrom_words_length in Hk.
  assert (Ha : a = 0x10000 + 4 * Z.of_nat k) by (unfold k; Z.to_euclidean_division_equations; lia).
  pose proof (bootrom_bytes_length p) as Hlen. unfold ram_word.
  rewrite (rom_found p A B Hp) by (reflexivity || unfold ROM_BASE_ADDR, ROM_SIZE; lia). change (hmem (final_machine p A B h)) with h.
  unfold host_load. rewrite (host_read_placed h B (bootrom_bytes p) Hl) by (unfold ROM_BASE_ADDR; lia). cbn [option_map].
  replace (Z.to_nat (a - ROM_BASE_ADDR)) with (4 * k)%nat by (unfold ROM_BASE_ADDR; lia).
  unfold bootrom_bytes. rewrite (word_of_bytes _ _ _ Hw), le_value_bytes. f_equal. apply u_small.
  exact (Forall_lookup_1 _ _ _ _ (bootrom_words_range (p_ncpus p) (p_ram_base_addr p)) Hw).
Qed.

Lemma boot_hart_fresh p i : p_reset_vector p = BOOT_BASE_ADDR ->
  exists v a im, boot_hart p i = fresh_hart (i32 (p_physical_addr_len p)) (p_custom_extension p) v a im i.
Proof.
  intros Hr. unfold boot_hart, fresh_hart. rewrite Hr. generalize (i32 (p_physical_addr_len p)). intros len.
  destruct (p_clear_ids p); [exists 0, 0, 0|exists (11 * 128 + 101), ((1 << 63) .| 2), 1]; destruct (p_custom_extension p); vm_compute; reflexivity.
Qed.

Lemma final_machine_fresh p A B h : exists cs cs' cs'',
  final_machine p A B h = fresh_machine cs cs' cs'' (built_map p A B) h h (p_ncpus p) (p_ram_base_addr p) (p_htif_base_addr p) (p_maxinsns p).
Proof. eexists _, _, _. unfold final_machine, built_machine, new_machine, fresh_machine. cbv zeta. reflexivity. Qed.


(** ** A machine *)

(** Two harts, 16 KB of RAM, a firmware of one word, a RAM disk, a network and
    a block device. *)
Definition demo_params : VirtMachineParams :=
  mkParams 0x80000000 0x4000 2 BOOT_BASE_ADDR 40 false false false PLIC_BASE_ADDR PLIC_SIZE CLINT_BASE_ADDR CLINT_SIZE
    0 0 1 1 0 None (Some [0x6f; 0; 0; 0]) None (Some [7; 8]) None None (Some (str "quiet")).

Lemma demo_buildable : buildable demo_params.
Proof. split; try (left; reflexivity); repeat split; (reflexivity || discriminate). Qed.

Lemma demo_images : images_fit demo_params [0x6f; 0; 0; 0].
Proof.
  split; try reflexivity.
  - discriminate.
  - intros []. reflexivity.
  - intros _. vm_compute. repeat split; discriminate || (intros []; reflexivity).
  - split; reflexivity.
  - split; [|discriminate]. repeat constructor; lia.
Qed.

Lemma demo_blob_fits : match described demo_params with inl blob => Z.of_nat (length blob) <= 4096 | inr _ => False end.
Proof. vm_compute. discriminate. Qed.

Lemma demo_fits blob : described demo_params = inl blob -> fdt_offset demo_params + Z.of_nat (length blob) <= ROM_SIZE.
Proof. intros E. pose proof demo_blob_fits as H. rewrite E in H. change (fdt_offset demo_params) with 256. unfold ROM_SIZE. lia. Qed.

Lemma machine_built_witness : exists b blob, virt_machine_init demo_params [0x1000000; 0x2000000] = inl (b, tt) /\ initrd_start b = initrd_at demo_params /\
  in_ram (bm b) (p_ram_base_addr demo_params) [0x6f; 0; 0; 0] /\ in_ram (bm b) (p_ram_base_addr demo_params + KERNEL_OFFSET) (kernel_of demo_params) /\
  in_ram (bm b) (initrd_at demo_params) (initrd_of demo_params) /\ in_ram (bm b) BOOT_BASE_ADDR (bootrom_bytes demo_params) /\
  in_ram (bm b) (BOOT_BASE_ADDR + fdt_offset demo_params) blob /\
  read_tree blob = Some (machine_node (new_machine demo_params (p_ncpus demo_params)) (built_layout demo_params) (p_cmdline demo_params)
    (initrd_at demo_params) (initrd_limit demo_params)) /\
  forall i, 0 <= i < p_ncpus demo_params -> get_hart (bm b) i = Some (boot_hart demo_params i).
Proof.
  apply (machine_built demo_params [0x6f; 0; 0; 0] 0x1000000 0x2000000 []);
    [exact demo_buildable|exact demo_images|left; cbn; lia|exact demo_fits].
Defined.

