(* ===== verification/BootElf.v ===== *)
(** * ELF images

    What [load_elf_image] of [Boot] leaves in the machine's memory, against a
    reader of the program headers. *)

From S2P Require Import Prelude RiscvDefs State IoMem Tlb Pmp Mmu Csr Trap Alu SoftFp Exec ExecFp Vector Stf Interp HartInv Frame InterpInv Devices Machine Virtio Fdt Boot.
Open Scope Z_scope.
Open Scope c_scope.
Open Scope b_scope.

(** ** Segments *)

Record seg := mkSeg { s_vaddr : Z; s_memsz : Z; s_bytes : list Z }.

(** A program header: a segment to load or something else; [None] when it or
    the bytes of its segment are not in the image. *)
Definition read_phdr (image : list Z) (ph : Z) : option (option seg) :=
  match img image ph 4 with
  | None => None
  | Some ty =>
      if ty =? PT_LOAD then
        match img image (ph + 16) 8, img image (ph + 40) 8, img image (ph + 8) 8, img image (ph + 32) 8 with
        | Some vaddr, Some memsz, Some offset, Some filesz =>
            option_map (fun l => Some (mkSeg vaddr memsz l)) (buf_bytes image offset filesz)
        | _, _, _, _ => None
        end
      else Some None
  end.

Fixpoint read_phdrs (n : nat) (image : list Z) (ph : Z) : option (list seg) :=
  match n with
  | O => Some []
  | S n' =>
      match read_phdr image ph, read_phdrs n' image (ph + sizeof_Phdr) with
      | Some (Some s), Some ss => Some (s :: ss)
      | Some None, Some ss => Some ss
      | _, _ => None
      end
  end.

Definition read_segments (image : list Z) : option (list seg) :=
  match img image 32 8, img image 56 2 with
  | Some phoff, Some phnum => read_phdrs (Z.to_nat phnum) image phoff
  | _, _ => None
  end.

(** The pages a segment occupies. *)
Definition rounded (s : seg) : Z := u64 (s_memsz s + DEVRAM_PAGE_SIZE - 1) .&~ (DEVRAM_PAGE_SIZE - 1).

Definition load_seg (s : seg) : BM unit :=
  let? base := bgets (fun b => ram_base_addr (bm b)) in
  (if s_vaddr s =? BOOT_BASE_ADDR then bmod (set_bootrom_loaded true)
   else if negb (s_vaddr s =? base) then cpu_register_ram (s_vaddr s) (rounded s) 0
   else bret tt) ;;
  load_at (s_vaddr s) (s_bytes s).

Fixpoint load_segs (ss : list seg) : BM unit :=
  match ss with [] => bret tt | s :: ss' => load_seg s ;; load_segs ss' end.

Lemma load_segment_skips image ph b : read_phdr image ph = Some None -> load_segment image ph b = inl (b, tt).
Proof.
  unfold read_phdr, load_segment. destruct (img image ph 4) as [ty|]; [|discriminate]. cbn [need]. unfold bbind at 1, bret.
  destruct (ty =? PT_LOAD); [|reflexivity].
  destruct (img image (ph + 16) 8), (img image (ph + 40) 8), (img image (ph + 8) 8), (img image (ph + 32) 8); try discriminate.
  destruct (buf_bytes image _ _); discriminate.
Qed.

Lemma load_segment_loads image ph s b : read_phdr image ph = Some (Some s) -> load_segment image ph b = load_seg s b.
Proof.
  unfold read_phdr, load_segment. destruct (img image ph 4) as [ty|]; [|discriminate]. cbn [need]. unfold bbind at 1, bret.
  destruct (ty =? PT_LOAD); [|discriminate]. cbn [negb].
  destruct (img image (ph + 16) 8) as [va|], (img image (ph + 40) 8) as [ms|], (img image (ph + 8) 8) as [off|], (img image (ph + 32) 8) as [fs|]; try discriminate.
  destruct (buf_bytes image off fs) as [l|] eqn:E; [|discriminate]. intros [= <-]. cbn [need]. unfold load_seg, rounded. cbn [s_vaddr s_memsz s_bytes].
  unfold bbind, bret, bgets. set (act := if va =? BOOT_BASE_ADDR then _ else _).
  destruct (act b) as [[b' []]|e]; [|reflexivity]. rewrite E. reflexivity.
Qed.

Lemma load_segments_read n : forall image ph ss b, read_phdrs n image ph = Some ss -> load_segments n image ph b = load_segs ss b.
Proof.
  induction n as [|n IH]; intros image ph ss b; cbn [read_phdrs load_segments]; [intros [= <-]; reflexivity|].
  destruct (read_phdr image ph) as [[s|]|] eqn:E; [| |discriminate]; destruct (read_phdrs n image (ph + sizeof_Phdr)) as [ss'|] eqn:E'; try discriminate;
    intros [= <-]; unfold bbind.
  - rewrite (load_segment_loads _ _ _ _ E). cbn [load_segs]. unfold bbind. destruct (load_seg s b) as [[b' []]|e]; [apply IH, E'|reflexivity].
  - rewrite (load_segment_skips _ _ _ E). apply IH, E'.
Qed.

Lemma load_elf_read image ss b : read_segments image = Some ss -> load_elf_image image b = load_segs ss b.
Proof.
  unfold read_segments, load_elf_image. destruct (img image 32 8) as [phoff|], (img image 56 2) as [phnum|]; try discriminate.
  cbn [need]. unfold bbind, bret. apply load_segments_read.
Qed.

(** ** Memory maps that grow *)

Lemma get_from_app l r n a : (n <= length l)%nat -> get_phys_mem_range_from (l ++ r) n a = get_phys_mem_range_from l n a.
Proof.
  induction n as [|n IH]; intros Hn; [reflexivity|]. cbn [get_phys_mem_range_from]. rewrite app_nth1, IH by lia. reflexivity.
Qed.

Lemma get_range_app l r a : get_phys_mem_range (l ++ [r]) a =
  if range_contains r a then Some (Z.of_nat (length l)) else get_phys_mem_range l a.
Proof.
  unfold get_phys_mem_range. rewrite length_app, Nat.add_comm. cbn [length Nat.add get_phys_mem_range_from].
  rewrite app_nth2, Nat.sub_diag by lia. cbn [nth]. rewrite get_from_app by lia. reflexivity.
Qed.

Lemma ram_ptr_app m m' r a : mem_map m' = mem_map m ++ [r] -> pr_is_ram r = true ->
  get_ram_ptr m' a = if range_contains r a then Some (pr_phys_mem r + (a - pr_addr r)) else get_ram_ptr m a.
Proof.
  intros E Hr. unfold get_ram_ptr. rewrite E, get_range_app. destruct (range_contains r a).
  - unfold aget. rewrite Nat2Z.id, app_nth2, Nat.sub_diag by lia. cbn [nth]. rewrite Hr. reflexivity.
  - pose proof (get_phys_mem_range_last_match (mem_map m) a) as H. destruct (get_phys_mem_range (mem_map m) a) as [k|]; [|reflexivity].
    unfold aget. rewrite app_nth1 by lia. reflexivity.
Qed.

(** The guest addresses from [a] on, [n] of them, are at host address [q]. *)
Definition visible (m : RISCVMachine) (a n q : Z) : Prop := forall i, 0 <= i < n -> get_ram_ptr m (a + i) = Some (q + i).

Lemma visible_ext m m' a n q : mem_map m' = mem_map m -> visible m a n q -> visible m' a n q.
Proof. intros E H i Hi. unfold get_ram_ptr. rewrite E. apply H, Hi. Qed.

Lemma ram_range_misses v n p a : 0 <= v -> v + n < 2 ^ 64 -> 0 <= n -> a < v \/ v + n <= a -> range_contains (ram_range v n p) a = false.
Proof.
  intros H1 H2 H3 H4. unfold range_contains. cbn [pr_addr pr_size ram_range]. rewrite u_small by (unfold in_u; lia). range_cases.
Qed.

(** Blocks that [malloc] may return, with their sizes: none is in use. *)
Fixpoint fresh_blocks (h : gmap Z Z) (l : list (Z * Z)) : Prop :=
  match l with
  | [] => True
  | (p, n) :: l' => (forall x, p <= x < p + n -> h !! x = None) /\ fresh_blocks (zero_block h p n) l'
  end.

Lemma fresh_blocks_ext l : forall h h', Forall (fun b => 0 <= snd b) l -> (forall x, h !! x = None -> h' !! x = None) -> fresh_blocks h l -> fresh_blocks h' l.
Proof.
  induction l as [|[p n] l IH]; intros h h' Hn Hh; [trivial|]. inversion Hn as [|? ? N1 N2]; subst. cbn [fresh_blocks snd] in *. intros [H1 H2].
  split; [intros x Hx; apply Hh, H1, Hx|]. apply (IH (zero_block h p n)); [exact N2| |exact H2].
  intros x. rewrite !zero_block_lookup by lia. case_goal; [discriminate|apply Hh].
Qed.

(** ** Loading *)

Section Load.
Context (base A size : Z) (Hsize : 0 < size).

Definition extent (s : seg) : Z := if s_vaddr s =? base then Z.of_nat (length (s_bytes s)) else rounded s.

(** What the guest sees of a segment: the part that is not in the file is zero
    in pages that are new. *)
Definition contents (s : seg) : list Z :=
  if s_vaddr s =? base then s_bytes s else s_bytes s ++ repeat 0 (Z.to_nat (s_memsz s) - length (s_bytes s)).

Definition apart (s t : seg) : Prop := s_vaddr s + extent s <= s_vaddr t \/ s_vaddr t + extent t <= s_vaddr s.

Record seg_ok (s : seg) : Prop := {
  so_rom : s_vaddr s <> BOOT_BASE_ADDR;
  so_addr : 0 <= s_vaddr s;
  so_mem : 0 < s_memsz s;
  so_file : Z.of_nat (length (s_bytes s)) <= s_memsz s;
  so_end : s_vaddr s + s_memsz s + 4096 < 2 ^ 64;
  so_home : s_vaddr s = base -> 0 < Z.of_nat (length (s_bytes s)) <= size
}.

(** The sizes of the blocks that are allocated. *)
Fixpoint new_sizes (ss : list seg) : list Z :=
  match ss with
  | [] => []
  | s :: ss' => if s_vaddr s =? base then new_sizes ss' else rounded s :: new_sizes ss'
  end.

(** A segment is in place, and outside the RAM block unless it belongs there. *)
Definition settled (m : RISCVMachine) (s : seg) : Prop := exists q,
  visible m (s_vaddr s) (Z.of_nat (length (contents s))) q /\ placed (hmem m) q (contents s) /\
  (s_vaddr s = base \/ q + Z.of_nat (length (contents s)) <= A \/ A + size <= q).

Lemma rounded_spec s : seg_ok s -> s_memsz s <= rounded s < s_memsz s + 4096 /\ rounded s mod 4096 = 0.
Proof.
  intros [_ H1 H2 _ H3 _]. unfold rounded, DEVRAM_PAGE_SIZE, DEVRAM_PAGE_SIZE_LOG2. change (1 << 12) with 4096.
  rewrite u_small by (unfold in_u; lia). change (4096 - 1) with (Z.ones 12). rewrite Z.ldiff_ones_r, Z.shiftr_div_pow2, Z.shiftl_mul_pow2 by lia.
  change (2 ^ 12) with 4096. split; [|apply Z.mod_mul; lia]. clear - H2. Z.to_euclidean_division_equations; lia.
Qed.

Lemma seg_contents_length s : seg_ok s -> 0 <= Z.of_nat (length (contents s)) <= extent s.
Proof.
  intros H. pose proof (rounded_spec s H) as [R _]. destruct H as [_ _ ? ? _ _]. unfold contents, extent. destruct (s_vaddr s =? base); [lia|].
  rewrite length_app, repeat_length. lia.
Qed.

Lemma new_sizes_pos ss : Forall seg_ok ss -> Forall (fun n => 0 <= n) (new_sizes ss).
Proof.
  induction 1 as [|s ss Hs _ IH]; cbn [new_sizes]; [constructor|]. destruct (_ =? _); [exact IH|]. constructor; [|exact IH].
  pose proof (rounded_spec s Hs). destruct Hs. lia.
Qed.

(** What loading one segment does: the segment is in place, and whatever is in
    place apart from it stays there. *)
Record seg_step (s : seg) (b b' : Boot) : Prop := {
  st_settled : settled (bm b') s;
  st_base : ram_base_addr (bm b') = ram_base_addr (bm b);
  st_visible : forall a n q, a + n <= s_vaddr s \/ s_vaddr s + extent s <= a -> visible (bm b) a n q -> visible (bm b') a n q;
  st_keeps : forall t, seg_ok t -> apart s t -> settled (bm b) t -> settled (bm b') t;
  st_present : present (hmem (bm b)) A size -> present (hmem (bm b')) A size
}.

Lemma load_home s b : seg_ok s -> s_vaddr s = base -> ram_base_addr (bm b) = base ->
  visible (bm b) base (Z.of_nat (length (s_bytes s))) A -> present (hmem (bm b)) A size ->
  exists b', load_seg s b = inl (b', tt) /\ seg_step s b b' /\ mem_map (bm b') = mem_map (bm b) /\ blocks b' = blocks b /\
    (forall x, hmem (bm b) !! x = None -> hmem (bm b') !! x = None).
Proof.
  intros Hs Hv Hb Hvis Hpr. pose proof (so_home s Hs Hv) as Hl. pose proof (so_rom s Hs) as Hr.
  destruct (memcpy_copies A (s_bytes s) b) as (h' & E & C); [intros x Hx; apply Hpr; lia|].
  exists (set_bm (set_hmem h' (bm b)) b). assert (Hc : contents s = s_bytes s) by (unfold contents; rewrite Hv, Z.eqb_refl; reflexivity).
  assert (He : extent s = Z.of_nat (length (s_bytes s))) by (unfold extent; rewrite Hv, Z.eqb_refl; reflexivity).
  split; [|split; [|split; [reflexivity|split; [reflexivity|]]]].
  - unfold load_seg, load_at, bbind, bgets, bret. destruct (Z.eqb_spec (s_vaddr s) BOOT_BASE_ADDR); [contradiction|].
    rewrite Hv, Hb, Z.eqb_refl. cbn [negb]. pose proof (Hvis 0 ltac:(lia)) as Hp. rewrite !Z.add_0_r in Hp. rewrite Hp. exact E.
  - split; try reflexivity.
    + exists A. rewrite Hc, Hv. split; [|split; [apply C|left; reflexivity]]. eapply visible_ext; [|exact Hvis]. reflexivity.
    + intros a n q _ H. eapply visible_ext; [|exact H]. reflexivity.
    + intros t Ht Hap (q & V & P & D). exists q. split; [eapply visible_ext; [|exact V]; reflexivity|]. split; [|exact D].
      destruct D as [D|D]; [|apply (placed_after _ _ _ _ _ _ C); [lia|exact P]].
      unfold apart in Hap. rewrite He, Hv, D in Hap. pose proof (seg_contents_length t Ht) as Hlt. intros i Hi. lia.
    + intros H. apply (co_present _ _ _ _ C), H.
  - intros x Hx. change (hmem (bm (set_bm (set_hmem h' (bm b)) b))) with h'. rewrite (co_other _ _ _ _ C); [exact Hx|].
    destruct (Z_lt_le_dec x A); [left; lia|]. destruct (Z_lt_le_dec x (A + Z.of_nat (length (s_bytes s)))); [|right; lia].
    destruct (Hpr x ltac:(lia)) as [v E']. congruence.
Qed.

Lemma load_new s b p rest : seg_ok s -> s_vaddr s <> base -> ram_base_addr (bm b) = base -> blocks b = p :: rest ->
  Z.of_nat (length (mem_map (bm b))) < 32 -> (forall x, p <= x < p + rounded s -> hmem (bm b) !! x = None) -> present (hmem (bm b)) A size ->
  exists b', load_seg s b = inl (b', tt) /\ seg_step s b b' /\ length (mem_map (bm b')) = S (length (mem_map (bm b))) /\ blocks b' = rest /\
    (forall x, zero_block (hmem (bm b)) p (rounded s) !! x = None -> hmem (bm b') !! x = None).
Proof.
  intros Hs Hv Hb Hbl Hm Hfr Hpr. pose proof (rounded_spec s Hs) as [R1 R2]. pose proof Hs as [Hrom H0 Hmem Hfile Hend _].
  set (h1 := zero_block (hmem (bm b)) p (rounded s)). set (r := ram_range (s_vaddr s) (rounded s) p).
  set (b1 := set_blocks rest (set_bm (set_hmem h1 (set_mem_map (mem_map (bm b) ++ [r]) (bm b))) b)).
  assert (Hz : forall x, h1 !! x = if (p <=? x) && (x <? p + rounded s) then Some 0 else hmem (bm b) !! x)
    by (intros x; apply zero_block_lookup; lia).
  assert (Hptr : forall a, get_ram_ptr (bm b1) a = if range_contains r a then Some (p + (a - s_vaddr s)) else get_ram_ptr (bm b) a)
    by (intros a; apply ram_ptr_app; reflexivity).
  destruct (memcpy_copies p (s_bytes s) b1) as (h2 & E & C).
  { intros x Hx. change (hmem (bm b1)) with h1. rewrite Hz. range_cases. eexists; reflexivity. }
  change (hmem (bm b1)) with h1 in C. exists (set_bm (set_hmem h2 (bm b1)) b1).
  assert (Hc : contents s = s_bytes s ++ repeat 0 (Z.to_nat (s_memsz s) - length (s_bytes s)))
    by (unfold contents; destruct (Z.eqb_spec (s_vaddr s) base); [contradiction|reflexivity]).
  assert (He : extent s = rounded s) by (unfold extent; destruct (Z.eqb_spec (s_vaddr s) base); [contradiction|reflexivity]).
  assert (Hin : forall a, s_vaddr s <= a < s_vaddr s + rounded s -> range_contains r a = true) by (intros a Ha; apply ram_range_contains; lia).
  assert (Hout : forall a, a < s_vaddr s \/ s_vaddr s + rounded s <= a -> range_contains r a = false) by (intros a Ha; apply ram_range_misses; lia).
  assert (Hsame : forall x, ~ (p <= x < p + rounded s) -> h2 !! x = hmem (bm b) !! x)
    by (intros x Hx; rewrite (co_other _ _ _ _ C) by lia; rewrite Hz; range_cases).
  assert (Hvis : forall a n q, a + n <= s_vaddr s \/ s_vaddr s + rounded s <= a -> visible (bm b) a n q -> visible (bm (set_bm (set_hmem h2 (bm b1)) b1)) a n q).
  { intros a n q Ha H i Hi. change (get_ram_ptr (bm b1) (a + i) = Some (q + i)). rewrite Hptr, Hout by lia. apply H, Hi. }
  split; [|split; [|split; [|split; [reflexivity|]]]].
  - unfold load_seg, load_at, bbind, bgets. destruct (Z.eqb_spec (s_vaddr s) BOOT_BASE_ADDR); [contradiction|].
    rewrite Hb. destruct (Z.eqb_spec (s_vaddr s) base); [contradiction|]. cbn [negb].
    rewrite (register_ram_ok _ _ p rest) by (assumption || lia). fold h1 r. fold b1. rewrite Hptr, Hin by lia. rewrite Z.sub_diag, Z.add_0_r. exact E.
  - split; try reflexivity.
    + exists p. rewrite Hc, length_app, repeat_length. split; [|split].
      * intros i Hi. change (get_ram_ptr (bm b1) (s_vaddr s + i) = Some (p + i)). rewrite Hptr, Hin by lia. f_equal. lia.
      * intros i Hi. rewrite length_app, repeat_length in Hi. change (h2 !! (p + i) = Some (aget 0 (s_bytes s ++ repeat 0 (Z.to_nat (s_memsz s) - length (s_bytes s))) i)).
        destruct (Z_lt_le_dec i (Z.of_nat (length (s_bytes s)))).
        -- rewrite (co_placed _ _ _ _ C) by lia. unfold aget. rewrite app_nth1 by lia. reflexivity.
        -- rewrite (co_other _ _ _ _ C), Hz by lia. unfold aget. rewrite app_nth2, nth_repeat by lia. range_cases.
      * right. destruct (Z_lt_le_dec A (p + rounded s)), (Z_lt_le_dec p (A + size)); try lia.
        destruct (Z_lt_le_dec p A); [pose proof (Hfr A ltac:(lia)) as N; destruct (Hpr A ltac:(lia)); congruence|].
        pose proof (Hfr p ltac:(lia)) as N. destruct (Hpr p ltac:(lia)). congruence.
    + rewrite He. exact Hvis.
    + intros t Ht Hap (q & V & P & D). exists q. pose proof (seg_contents_length t Ht) as Hl. unfold apart in Hap. rewrite He in Hap.
      split; [apply Hvis; [lia|exact V]|]. split; [|exact D]. intros i Hi. change (h2 !! (q + i) = Some (aget 0 (contents t) i)).
      rewrite Hsame; [apply P, Hi|]. intros Hx. specialize (Hfr _ Hx). rewrite (P i Hi) in Hfr. discriminate.
    + intros H x Hx. change (is_Some (h2 !! x)). rewrite Hsame; [apply H, Hx|]. intros Hy. specialize (Hfr _ Hy). destruct (H x Hx). congruence.
  - change (length (mem_map (bm b) ++ [r]) = S (length (mem_map (bm b)))). rewrite length_app. cbn. lia.
  - intros x Hx. change (h2 !! x = None). fold h1 in Hx. rewrite (co_other _ _ _ _ C); [exact Hx|]. rewrite Hz in Hx. revert Hx. range_cases. discriminate.
Qed.

Lemma load_segs_ok ss : forall done b,
  Forall seg_ok ss -> ForallOrdPairs apart ss -> Forall seg_ok done -> Forall (fun s => Forall (apart s) done) ss ->
  ram_base_addr (bm b) = base -> present (hmem (bm b)) A size ->
  (forall s, In s ss -> s_vaddr s = base -> visible (bm b) base (Z.of_nat (length (s_bytes s))) A) ->
  (length (new_sizes ss) <= length (blocks b))%nat -> fresh_blocks (hmem (bm b)) (combine (blocks b) (new_sizes ss)) ->
  Z.of_nat (length (mem_map (bm b))) + Z.of_nat (length (new_sizes ss)) <= 32 ->
  Forall (settled (bm b)) done ->
  exists b', load_segs ss b = inl (b', tt) /\ Forall (settled (bm b')) ss /\ Forall (settled (bm b')) done.
Proof.
  induction ss as [|s ss IH]; intros done b Hok Hap Hdok Hda Hb Hpr Hvis Hbl Hfr Hmap Hset; [exists b; repeat split; [constructor|exact Hset]|].
  inversion Hok as [|? ? Hs Hok']; subst. inversion Hap as [|? ? Has Hap']; subst. inversion Hda as [|? ? Hds Hda']; subst.
  assert (Hsz : forall l : list Z, Forall (fun b : Z * Z => 0 <= snd b) (combine l (new_sizes ss))).
  { intros l. apply List.Forall_forall. intros [x n] Hx. pose proof (new_sizes_pos ss Hok') as Hn. rewrite List.Forall_forall in Hn. apply Hn, (in_combine_r _ _ _ _ Hx). }
  assert (Hstep : exists b1, load_seg s b = inl (b1, tt) /\ seg_step s b b1 /\ (length (new_sizes ss) <= length (blocks b1))%nat /\
    fresh_blocks (hmem (bm b1)) (combine (blocks b1) (new_sizes ss)) /\ Z.of_nat (length (mem_map (bm b1))) + Z.of_nat (length (new_sizes ss)) <= 32).
  { cbn [new_sizes] in *. destruct (Z.eqb_spec (s_vaddr s) base) as [Hv|Hv].
    - destruct (load_home s b Hs Hv Hb) as (b1 & E & S1 & Em & Eb & Hh); [apply Hvis; [left; reflexivity|exact Hv]|exact Hpr|].
      exists b1. rewrite Eb, Em. repeat split; try assumption; try apply S1. exact (fresh_blocks_ext _ _ _ (Hsz _) Hh Hfr).
    - destruct (blocks b) as [|p rest] eqn:Eb; [cbn in Hbl; lia|]. cbn [combine fresh_blocks length] in *. destruct Hfr as [Hf1 Hf2].
      destruct (load_new s b p rest Hs Hv Hb Eb) as (b1 & E & S1 & Em & Er & Hh); [lia|exact Hf1|exact Hpr|].
      exists b1. rewrite Er, Em. repeat split; try apply S1; try assumption; try lia. exact (fresh_blocks_ext _ _ _ (Hsz _) Hh Hf2). }
  destruct Hstep as (b1 & E & S1 & B1 & B2 & B3). cbn [load_segs]. unfold bbind. rewrite E.
  destruct (IH (s :: done) b1) as (b' & E' & D1 & D2); try assumption.
  - constructor; assumption.
  - rewrite List.Forall_forall in *. intros t Ht. constructor; [|apply Hda', Ht]. specialize (Has t Ht). unfold apart in *. lia.
  - rewrite (st_base _ _ _ S1). exact Hb.
  - apply (st_present _ _ _ S1), Hpr.
  - intros t Ht Hv. apply (st_visible _ _ _ S1); [|apply Hvis; [right; exact Ht|exact Hv]].
    rewrite List.Forall_forall in Has. specialize (Has t Ht). unfold apart in Has.
    assert (extent t = Z.of_nat (length (s_bytes t))) by (unfold extent; rewrite Hv, Z.eqb_refl; reflexivity). lia.
  - constructor; [apply S1|]. rewrite List.Forall_forall in *. intros t Ht. apply (st_keeps _ _ _ S1); [apply Hdok, Ht|apply Hds, Ht|apply Hset, Ht].
  - inversion D2; subst. exists b'. repeat split; [exact E'|constructor; assumption|assumption].
Qed.

End Load.

Lemma settled_in_ram base A size m s : settled base A size m s -> in_ram m (s_vaddr s) (contents base s).
Proof. intros (q & V & P & _) i Hi. unfold ram_byte. rewrite V by exact Hi. apply P, Hi. Qed.

(** C32. An ELF image is loaded.  Let a reader of the program headers find the
    segments [ss], none of them at the boot ROM, not overlapping page-wise, and
    let [malloc] return fresh blocks for those that are not at the start of the
    RAM.  Then [load_elf_image] returns, and the guest finds every segment at its
    address, followed by zeros up to its size in memory when its pages are new. *)
Theorem elf_image_loaded (image : list Z) (ss : list seg) (b : Boot) (A size : Z) :
  let base := ram_base_addr (bm b) in
  read_segments image = Some ss -> 0 < size -> Forall (seg_ok base size) ss -> ForallOrdPairs (apart base) ss ->
  visible (bm b) base size A -> present (hmem (bm b)) A size ->
  (length (new_sizes base ss) <= length (blocks b))%nat -> fresh_blocks (hmem (bm b)) (combine (blocks b) (new_sizes base ss)) ->
  Z.of_nat (length (mem_map (bm b))) + Z.of_nat (length (new_sizes base ss)) <= 32 ->
  exists b', load_elf_image image b = inl (b', tt) /\ Forall (fun s => in_ram (bm b') (s_vaddr s) (contents base s)) ss.
Proof.
  intros base Hr Hsize Hok Hap Hvis Hpr Hbl Hfr Hm. rewrite (load_elf_read _ _ _ Hr).
  destruct (load_segs_ok base A size Hsize ss [] b) as (b' & E & D & _); try assumption; try reflexivity; try constructor.
  - apply List.Forall_forall. intros s _. constructor.
  - intros s Hs Hv i Hi. apply Hvis. rewrite List.Forall_forall in Hok. pose proof (so_home _ _ _ (Hok s Hs) Hv). lia.
  - exists b'. split; [exact E|]. eapply List.Forall_impl; [|exact D]. intros s. apply settled_in_ram.
Qed.

(** ** Symbols *)

(** Symbol [k] of the table at [sym] is a global one called [key]. *)
Definition names_global (image : list Z) (strtab sym : Z) (key : list Z) (k : Z) : Prop := exists st_name st_info,
  img image (sym + sizeof_Sym * k) 4 = Some st_name /\ strcmp_eq image (strtab + st_name) key = Some true /\
  img image (sym + sizeof_Sym * k + 4) 1 = Some st_info /\ st_info >> 4 = STB_GLOBAL.

(** The search finds the value of the first global symbol of that name, and
    none exactly when there is none. *)
Lemma find_symbol_spec n : forall image strtab sym key r, find_symbol n image strtab sym key = Some r ->
  match r with
  | Some v => exists k, 0 <= k < Z.of_nat n /\ names_global image strtab sym key k /\ img image (sym + sizeof_Sym * k + 8) 8 = Some v /\
      forall j, 0 <= j < k -> ~ names_global image strtab sym key j
  | None => forall j, 0 <= j < Z.of_nat n -> ~ names_global image strtab sym key j
  end.
Proof.
  induction n as [|n IH]; intros image strtab sym key r; cbn [find_symbol]; [intros [= <-] j Hj; lia|].
  assert (Hshift : forall j, names_global image strtab (sym + sizeof_Sym) key (j - 1) <-> names_global image strtab sym key j).
  { intros j. unfold names_global. replace (sym + sizeof_Sym + sizeof_Sym * (j - 1)) with (sym + sizeof_Sym * j) by lia. reflexivity. }
  assert (Hnext : ~ names_global image strtab sym key 0 -> find_symbol n image strtab (sym + sizeof_Sym) key = Some r ->
    match r with
    | Some v => exists k, 0 <= k < Z.of_nat (S n) /\ names_global image strtab sym key k /\ img image (sym + sizeof_Sym * k + 8) 8 = Some v /\
        forall j, 0 <= j < k -> ~ names_global image strtab sym key j
    | None => forall j, 0 <= j < Z.of_nat (S n) -> ~ names_global image strtab sym key j
    end).
  { intros H0 E. specialize (IH _ _ _ _ _ E). destruct r as [v|].
    - destruct IH as (k & Hk & Hg & Hv & Hn). exists (k + 1). split; [lia|]. split; [apply Hshift; replace (k + 1 - 1) with k by lia; exact Hg|].
      split; [rewrite <- Hv; f_equal; lia|]. intros j Hj. destruct (Z.eq_dec j 0) as [->|]; [exact H0|]. rewrite <- Hshift. apply Hn. lia.
    - intros j Hj. destruct (Z.eq_dec j 0) as [->|]; [exact H0|]. rewrite <- Hshift. apply IH. lia. }
  assert (Hz : sym + sizeof_Sym * 0 = sym) by lia.
  destruct (img image sym 4) as [nm|] eqn:E1; [|discriminate]. destruct (strcmp_eq image (strtab + nm) key) as [[]|] eqn:E2; [| |discriminate].
  - destruct (img image (sym + 4) 1) as [inf|] eqn:E3; [|discriminate]. destruct (Z.eqb_spec (inf >> 4) STB_GLOBAL) as [Hg|Hg].
    + destruct (img image (sym + 8) 8) as [v|] eqn:E4; [|discriminate]. intros [= <-]. exists 0. rewrite Hz. split; [lia|].
      split; [exists nm, inf; rewrite Hz; auto|]. split; [exact E4|]. intros j Hj. lia.
    + apply Hnext. intros (nm' & inf' & A1 & A2 & A3 & A4). rewrite Hz in *. congruence.
  - apply Hnext. intros (nm' & inf' & A1 & A2 & A3 & A4). rewrite Hz in *. congruence.
Qed.

(** ** Remarks *)

(** The test for a hex image compares the first character with both characters
    of the prefix: raw bytes are copied whatever they are. *)
Remark hex_never_loaded fw b : elf64_is_riscv64 fw = false ->
  load_firmware fw b = load_at (ram_base_addr (bm b)) fw b.
Proof.
  intros E. unfold load_firmware, bbind at 1, bgets. rewrite E. destruct (aget 0 fw 0 =? 48) eqn:E1; [|rewrite andb_false_r; reflexivity].
  apply Z.eqb_eq in E1. rewrite E1, andb_false_r. reflexivity.
Qed.

(** A page of RAM at [0x80000000], at host address [0x1000]. *)
Definition one_page : Boot :=
  mkBoot (set_hmem (zero_block ∅ 0x1000 0x1000) (set_mem_map [ram_range 0x80000000 0x1000 0x1000] (set_ram_base_addr 0x80000000 zero_machine)))
    (mkLayout 0x1000 0 0 0 0 0 None) false false 0 [0x4000].

(** ["80000000 13\n"]: behind the last line the loader reads on outside the file,
    which has no terminating zero. *)
Remark hex_text_overruns :
  load_hex_image [56; 48; 48; 48; 48; 48; 48; 48; 32; 49; 51; 10] one_page = inr (Stopped Undefined).
Proof. vm_compute. reflexivity. Qed.

(** ** An image *)

Definition phdr_bytes (offset vaddr filesz memsz : Z) : list Z :=
  le_bytes 4 PT_LOAD ++ le_bytes 4 5 ++ flat_map (le_bytes 8) [offset; vaddr; vaddr; filesz; memsz; 0x1000].

(** Four bytes at the start of the RAM, two and two zeros a page above its end. *)
Definition demo_elf : list Z :=
  ELFMAG ++ [ELFCLASS64; ELFDATA2LSB; 1; 0; 0; 0; 0; 0; 0; 0; 0; 0] ++ le_bytes 2 2 ++ le_bytes 2 EM_RISCV ++ le_bytes 4 1 ++
  flat_map (le_bytes 8) [0x80000000; 64; 0] ++ le_bytes 4 0 ++ flat_map (le_bytes 2) [64; 56; 2; 64; 0; 0] ++
  phdr_bytes 176 0x80000000 4 4 ++ phdr_bytes 180 0x80002000 2 4 ++ [1; 2; 3; 4; 5; 6].

Definition demo_segs : list seg := [mkSeg 0x80000000 4 [1; 2; 3; 4]; mkSeg 0x80002000 4 [5; 6]].

Example demo_elf_read : elf64_is_riscv64 demo_elf = true /\ read_segments demo_elf = Some demo_segs.
Proof. vm_compute. split; reflexivity. Qed.

Lemma elf_image_loaded_witness : exists b', load_elf_image demo_elf one_page = inl (b', tt) /\
  Forall (fun s => in_ram (bm b') (s_vaddr s) (contents 0x80000000 s)) demo_segs.
Proof.
  assert (Hz : forall x, zero_block ∅ 0x1000 0x1000 !! x = if (0x1000 <=? x) && (x <? 0x2000) then Some 0 else None)
    by (intros x; rewrite zero_block_lookup by lia; rewrite lookup_empty; reflexivity).
  apply (elf_image_loaded demo_elf demo_segs one_page 0x1000 0x1000); [exact (proj2 demo_elf_read)|lia| | | | |cbn; lia| |cbn; lia].
  - repeat constructor; cbn; try lia; discriminate.
  - repeat constructor. vm_compute. discriminate.
  - intros i Hi. unfold one_page. cbn [bm]. rewrite (ram_ptr_app zero_machine _ (ram_range 0x80000000 0x1000 0x1000)) by reflexivity.
    rewrite ram_range_contains by (change (ram_base_addr _) with 0x80000000; lia). change (ram_base_addr _) with 0x80000000. f_equal. cbn. lia.
  - intros x Hx. change (hmem _) with (zero_block ∅ 0x1000 0x1000). rewrite Hz. range_cases. eexists; reflexivity.
  - split; [|exact I]. intros x Hx. change (hmem _) with (zero_block ∅ 0x1000 0x1000). rewrite Hz. change (rounded _) with 0x1000 in Hx. range_cases.
Defined.
