(* ===== verification/Json.v ===== *)
(** * The JSON reader

    [src/json.cpp], with the number reader [strtoll] of the C library and
    [from_hex] of [include/fs_utils.h].  A C string is the list of its
    characters without the final zero; a pointer into it is the rest of the
    list, and [*p] at the end reads the zero.  A property list is an association
    list in the order of [props]; [malloc] and [realloc] are taken to succeed and
    what [json_free] releases is not modelled.

    The reader recurses on the nesting of the text, which no structural argument
    bounds: the definitions carry a fuel, [2 * length + 1] is shown to be
    enough, and running out of it is a result of its own. *)

From Stdlib Require Import String Ascii.
From S2P Require Import Prelude RiscvDefs State Fdt Boot.
Open Scope Z_scope.

(** ** Values *)

#[warnings="-register-all"]
Inductive JSONValue :=
| JSON_STR (data : list Z)
| JSON_INT (int64 : Z)
| JSON_OBJ (props : list (list Z * JSONValue))
| JSON_ARRAY (tab : list JSONValue)
| JSON_BOOL (b : bool)
| JSON_NULL
| JSON_UNDEFINED
| JSON_EXCEPTION (data : list Z).

Definition json_is_error (v : JSONValue) : bool := match v with JSON_EXCEPTION _ => true | _ => false end.
Definition json_is_undefined (v : JSONValue) : bool := match v with JSON_UNDEFINED => true | _ => false end.
Definition json_get_str (v : JSONValue) : option (list Z) := match v with JSON_STR s => Some s | _ => None end.

(** The characters in front of the first zero. *)
Fixpoint c_text (l : list Z) : list Z :=
  match l with
  | [] => []
  | c :: l' => if c =? 0 then [] else c :: c_text l'
  end.

Definition json_string_new (s : list Z) : JSONValue := JSON_STR (c_text s).
Definition json_error_new (msg : string) : JSONValue := JSON_EXCEPTION (str msg).

Fixpoint json_object_get2 (props : list (list Z * JSONValue)) (name : list Z) : option JSONValue :=
  match props with
  | [] => None
  | (n, v) :: props' => if bool_decide (n = name) then Some v else json_object_get2 props' name
  end.

Definition json_object_get (val : JSONValue) (name : list Z) : JSONValue :=
  match val with
  | JSON_OBJ props => match json_object_get2 props name with Some v => v | None => JSON_UNDEFINED end
  | _ => JSON_UNDEFINED
  end.

(** [json_object_set] on the properties of an object. *)
Fixpoint json_object_set (props : list (list Z * JSONValue)) (name : list Z) (prop_val : JSONValue) : list (list Z * JSONValue) :=
  match props with
  | [] => [(name, prop_val)]
  | (n, v) :: props' => if bool_decide (n = name) then (n, prop_val) :: props' else (n, v) :: json_object_set props' name prop_val
  end.

(** [None] is an access in front of the array. *)
Definition json_array_get (val : JSONValue) (idx : Z) : option JSONValue :=
  match val with
  | JSON_ARRAY tab =>
      if idx <? Z.of_nat (length tab) then (if idx <? 0 then None else tab !! Z.to_nat idx) else Some JSON_UNDEFINED
  | _ => Some JSON_UNDEFINED
  end.

(** [json_array_set] on the elements of an array, for an index the callers
    count up from 0; [None] is the answer -1. *)
Definition json_array_set (tab : list JSONValue) (idx : nat) (prop_val : JSONValue) : option (list JSONValue) :=
  if (idx <? length tab)%nat then Some (<[idx := prop_val]> tab)
  else if (idx =? length tab)%nat then Some (tab ++ [prop_val])
  else None.

(** ** Characters *)

(** [p[0]] and [p[1]]; the second is only read when the first is not the end. *)
Definition peek (p : list Z) : Z := match p with c :: _ => c | [] => 0 end.
Definition peek1 (p : list Z) : Z := peek (tail p).

Definition isdigit (c : Z) : bool := (48 <=? c) && (c <=? 57).
Definition is_ident_first (c : Z) : bool :=
  (97 <=? c) && (c <=? 122) || (65 <=? c) && (c <=? 90) || (c =? 95) || (c =? 36).

Definition from_hex (c : Z) : Z :=
  if (48 <=? c) && (c <=? 57) then c - 48
  else if (65 <=? c) && (c <=? 70) then c - 65 + 10
  else if (97 <=? c) && (c <=? 102) then c - 97 + 10
  else -1.

(** ** Strings *)

Definition STRING_BUF : Z := 4096.

(** The loop of [parse_string]: the characters stored and the rest behind the
    closing quote, or a message. *)
Fixpoint string_loop (q : list Z) (p : list Z) : (list Z * list Z) + string :=
  let full := STRING_BUF - 1 <=? Z.of_nat (length q) in
  match p with
  | [] => inr "unterminated string"%string
  | c :: p =>
      if c =? 10 then inr "unterminated string"%string
      else if c =? 34 then inl (q, p)
      else if c =? 92 then
        match p with
        | [] => inr "unknown escape code"%string
        | c :: p =>
            if (c =? 39) || (c =? 34) || (c =? 92) then
              if full then inr "string too long"%string else string_loop (q ++ [c]) p
            else if c =? 110 then if full then inr "string too long"%string else string_loop (q ++ [10]) p
            else if c =? 114 then if full then inr "string too long"%string else string_loop (q ++ [13]) p
            else if c =? 116 then if full then inr "string too long"%string else string_loop (q ++ [9]) p
            else if c =? 120 then
              match p with
              | [] => inr "invalid hex digit"%string
              | h1 :: p =>
                  if from_hex h1 <? 0 then inr "invalid hex digit"%string
                  else match p with
                  | [] => inr "invalid hex digit"%string
                  | h2 :: p =>
                      if from_hex h2 <? 0 then inr "invalid hex digit"%string
                      else if full then inr "string too long"%string
                      else string_loop (q ++ [Z.lor (Z.shiftl (from_hex h1) 4) (from_hex h2)]) p
                  end
              end
            else inr "unknown escape code"%string
        end
      else if full then inr "string too long"%string else string_loop (q ++ [c]) p
  end.

(** [parse_string] at the opening quote; the pointer is moved on success only. *)
Definition parse_string (pp : list Z) : JSONValue * list Z :=
  match string_loop [] (tail pp) with
  | inl (buf, p) => (json_string_new buf, p)
  | inr msg => (json_error_new msg, pp)
  end.

(** ** White space, comments and identifiers *)

Fixpoint skip_line (p : list Z) : list Z :=
  match p with
  | [] => []
  | c :: p' => if c =? 10 then p else skip_line p'
  end.

Fixpoint skip_block (p : list Z) : list Z :=
  match p with
  | [] => []
  | c :: p' => if (c =? 42) && (peek p' =? 47) then tail p' else skip_block p'
  end.

Fixpoint skip_loop (fuel : nat) (p : list Z) : list Z :=
  match fuel with
  | O => p
  | S fuel =>
      if is_space (peek p) then skip_loop fuel (tail p)
      else if (peek p =? 47) && (peek1 p =? 47) then skip_loop fuel (skip_line (skipn 2 p))
      else if (peek p =? 47) && (peek1 p =? 42) then skip_loop fuel (skip_block (skipn 2 p))
      else p
  end.

Definition skip_spaces (p : list Z) : list Z := skip_loop (length p) p.

Fixpoint ident_loop (buf_size : Z) (q p : list Z) : option (list Z * list Z) :=
  match p with
  | [] => Some (q, [])
  | c :: p' =>
      if is_ident_first c || isdigit c then
        if buf_size - 1 <=? Z.of_nat (length q) then None else ident_loop buf_size (q ++ [c]) p'
      else Some (q, p)
  end.

(** [parse_ident]; [None] is the answer -1. *)
Definition parse_ident (buf_size : Z) (pp : list Z) : option (list Z * list Z) :=
  ident_loop buf_size [peek pp] (tail pp).

(** ** Numbers *)

Definition LLONG_MAX : Z := 2 ^ 63 - 1.
Definition LLONG_MIN : Z := - 2 ^ 63.

(** The value of a digit of [strtoll], letters of both cases included. *)
Definition digit_val (c : Z) : option Z :=
  if isdigit c then Some (c - 48)
  else if (97 <=? c) && (c <=? 122) then Some (c - 97 + 10)
  else if (65 <=? c) && (c <=? 90) then Some (c - 65 + 10)
  else None.

Definition is_digit_of (base c : Z) : bool := match digit_val c with Some d => d <? base | None => false end.

Fixpoint digits_loop (base v : Z) (p : list Z) : Z * list Z :=
  match p with
  | c :: p' =>
      match digit_val c with
      | Some d => if d <? base then digits_loop base (v * base + d) p' else (v, p)
      | None => (v, p)
      end
  | [] => (v, p)
  end.

(** [strtoll (nptr, &end, base)] for the bases 0, 10 and 16. *)
Definition strtoll (nptr : list Z) (base : Z) : Z * list Z :=
  let p := skip_space nptr in
  let neg := peek p =? 45 in
  let p := if (peek p =? 43) || (peek p =? 45) then tail p else p in
  let hex := negb (base =? 10) && (peek p =? 48) && ((peek1 p =? 120) || (peek1 p =? 88)) && is_digit_of 16 (peek (skipn 2 p)) in
  let base' := if (base =? 10) || (base =? 16) then base else if hex then 16 else if peek p =? 48 then 8 else 10 in
  let p := if hex then skipn 2 p else p in
  if is_digit_of base' (peek p) then
    let '(v, rest) := digits_loop base' 0 p in
    (Z.max LLONG_MIN (Z.min LLONG_MAX (if neg then - v else v)), rest)
  else (0, nptr).

(** ** The reader *)

(** [JUndefined]: a buffer without a terminating zero is printed. *)
Inductive jstop := JUndefined | JFuel.

Definition IDENT_BUF : Z := 128.

(** The name of a property, in quotes or an identifier; or the value that is
    returned. *)
Definition parse_tag (p : list Z) : (list Z * list Z) + JSONValue :=
  let checked '(name, p) := match name with [] => inr (json_error_new "Invalid property name") | _ => inl (name, p) end in
  if peek p =? 34 then
    match parse_string p with
    | (JSON_STR name, p) => checked (name, p)
    | (tag, _) => inr tag
    end
  else if is_ident_first (peek p) then
    match parse_ident IDENT_BUF p with
    | Some r => checked r
    | None => inr (json_error_new "Invalid property name")
    end
  else inr (json_error_new "Invalid property name").

(** [json_parse_value2] and the loops over the members of an object and of an
    array; [pp] is where the pointer of the caller stays on an error. *)
Fixpoint json_parse_value2 (fuel : nat) (pp : list Z) {struct fuel} : (JSONValue * list Z) + jstop :=
  match fuel with
  | O => inr JFuel
  | S fuel =>
      let p := skip_spaces pp in
      let c := peek p in
      if c =? 0 then inl (json_error_new "unexpected end of file", pp)
      else if (c =? 48) && (peek1 p =? 120) then let '(v, p) := strtoll (skipn 2 p) 16 in inl (JSON_INT v, p)
      else if isdigit c then let '(v, p) := strtoll p 0 in inl (JSON_INT v, p)
      else if c =? 34 then inl (parse_string p)
      else if c =? 123 then parse_members fuel pp [] (tail p)
      else if c =? 91 then parse_elements fuel pp [] (tail p)
      else if is_ident_first c then
        match parse_ident IDENT_BUF p with
        | None => inr JUndefined
        | Some (buf, p) =>
            if bool_decide (buf = str "null") then inl (JSON_NULL, p)
            else if bool_decide (buf = str "true") then inl (JSON_BOOL true, p)
            else if bool_decide (buf = str "false") then inl (JSON_BOOL false, p)
            else inl (JSON_EXCEPTION (str "unknown identifier: '" ++ buf ++ str "'"), pp)
        end
      else inl (json_error_new "unexpected character", pp)
  end
with parse_members (fuel : nat) (pp : list Z) (props : list (list Z * JSONValue)) (p : list Z) {struct fuel} : (JSONValue * list Z) + jstop :=
  match fuel with
  | O => inr JFuel
  | S fuel =>
      let p := skip_spaces p in
      if peek p =? 125 then inl (JSON_OBJ props, tail p)
      else match parse_tag p with
      | inr tag => inl (tag, pp)
      | inl (name, p) =>
          let p := skip_spaces p in
          if negb (peek p =? 58) then inl (json_error_new "':' expected", pp)
          else match json_parse_value2 fuel (tail p) with
          | inr e => inr e
          | inl (val1, p) =>
              let props := json_object_set props name val1 in
              let p := skip_spaces p in
              if peek p =? 44 then parse_members fuel pp props (tail p)
              else if negb (peek p =? 125) then inl (json_error_new "expecting ',' or '}'", pp)
              else parse_members fuel pp props p
          end
      end
  end
with parse_elements (fuel : nat) (pp : list Z) (tab : list JSONValue) (p : list Z) {struct fuel} : (JSONValue * list Z) + jstop :=
  match fuel with
  | O => inr JFuel
  | S fuel =>
      let p := skip_spaces p in
      if peek p =? 93 then inl (JSON_ARRAY tab, tail p)
      else match json_parse_value2 fuel p with
      | inr e => inr e
      | inl (val1, p) =>
          let tab := match json_array_set tab (length tab) val1 with Some t => t | None => tab end in
          let p := skip_spaces p in
          if peek p =? 44 then parse_elements fuel pp tab (tail p)
          else if negb (peek p =? 93) then inl (json_error_new "expecting ',' or ']'", pp)
          else parse_elements fuel pp tab p
      end
  end.

Definition json_parse_value (p : list Z) : JSONValue + jstop :=
  match json_parse_value2 (2 * length p + 1) p with
  | inr e => inr e
  | inl (val, p) =>
      if json_is_error val then inl val
      else match skip_spaces p with
      | [] => inl val
      | _ => inl (json_error_new "unexpected characters at the end")
      end
  end.

Definition json_parse_value_len (p : list Z) : JSONValue + jstop := json_parse_value (c_text p).

(** ** White space *)

Lemma skip_line_suffix p : skip_line p `suffix_of` p.
Proof. induction p as [|c p IH]; cbn; [done|]. destruct (c =? 10); [done|]. by apply suffix_cons_r. Qed.

Lemma tail_suffix (p : list Z) : tail p `suffix_of` p.
Proof. destruct p; cbn; [done|]. by apply suffix_cons_r. Qed.

Lemma skip_block_suffix p : skip_block p `suffix_of` p.
Proof.
  induction p as [|c p IH]; cbn; [done|]. destruct (_ && _).
  - apply suffix_cons_r, tail_suffix.
  - by apply suffix_cons_r.
Qed.

Lemma skipn_suffix n (p : list Z) : skipn n p `suffix_of` p.
Proof. apply suffix_drop. Qed.

Lemma skip_loop_suffix n : forall p, skip_loop n p `suffix_of` p.
Proof.
  induction n as [|n IH]; intros p; cbn [skip_loop]; [done|].
  destruct (is_space _); [etransitivity; [apply IH|apply tail_suffix]|].
  destruct (_ && (peek1 p =? 47)); [etransitivity; [apply IH|]; etransitivity; [apply skip_line_suffix|apply skipn_suffix]|].
  destruct (_ && _); [|done]. etransitivity; [apply IH|]. etransitivity; [apply skip_block_suffix|apply skipn_suffix].
Qed.

Lemma skip_spaces_suffix p : skip_spaces p `suffix_of` p.
Proof. apply skip_loop_suffix. Qed.

Lemma skip_loop_nil n : skip_loop n [] = [].
Proof. destruct n; reflexivity. Qed.

Lemma skip_loop_fuel n : forall m p, (length p <= n)%nat -> (length p <= m)%nat -> skip_loop n p = skip_loop m p.
Proof.
  induction n as [|n IH]; intros m [|c p] Hn Hm; rewrite ?skip_loop_nil; try reflexivity; cbn [length] in *; [lia|].
  destruct m as [|m]; [lia|]. cbn [skip_loop].
  destruct (is_space _); [apply IH; cbn; lia|].
  destruct (_ && (peek1 (c :: p) =? 47)).
  { assert (length (skip_line (skipn 2 (c :: p))) <= length p)%nat.
    { etransitivity; [apply suffix_length, skip_line_suffix|]. rewrite length_skipn. cbn. lia. }
    apply IH; lia. }
  destruct (_ && _); [|reflexivity].
  assert (length (skip_block (skipn 2 (c :: p))) <= length p)%nat.
  { etransitivity; [apply suffix_length, skip_block_suffix|]. rewrite length_skipn. cbn. lia. }
  apply IH; lia.
Qed.

Lemma skip_spaces_step c p : skip_spaces (c :: p) =
  if is_space c then skip_spaces p
  else if (c =? 47) && (peek p =? 47) then skip_spaces (skip_line (tail p))
  else if (c =? 47) && (peek p =? 42) then skip_spaces (skip_block (tail p))
  else c :: p.
Proof.
  unfold skip_spaces. cbn [length skip_loop peek]. change (peek1 (c :: p)) with (peek p).
  change (skipn 2 (c :: p)) with (skipn 1 p). replace (skipn 1 p) with (tail p) by (destruct p; reflexivity).
  assert (H : (length (tail p) <= length p)%nat) by (apply suffix_length, tail_suffix).
  destruct (is_space c); [reflexivity|]. destruct (_ && (peek p =? 47)).
  { pose proof (suffix_length _ _ (skip_line_suffix (tail p))). apply skip_loop_fuel; lia. }
  destruct (_ && _); [|reflexivity]. pose proof (suffix_length _ _ (skip_block_suffix (tail p))). apply skip_loop_fuel; lia.
Qed.

(** Nothing is skipped in front of a character that is neither a space nor a
    slash. *)
Definition starts_token (p : list Z) : bool := negb (is_space (peek p)) && negb (peek p =? 47).

Lemma skip_spaces_token p : starts_token p = true -> skip_spaces p = p.
Proof.
  destruct p as [|c p]; [reflexivity|]. unfold starts_token. cbn [peek]. intros H. apply andb_prop in H. destruct H as [H1 H2].
  apply negb_true_iff in H1, H2. rewrite skip_spaces_step, H1, H2. reflexivity.
Qed.

(** White space and comments that are closed. *)
Inductive blank : list Z -> Prop :=
| blank_nil : blank []
| blank_space c sp : is_space c = true -> blank sp -> blank (c :: sp)
| blank_line l sp : Forall (fun c => c <> 10) l -> blank sp -> blank (47 :: 47 :: l ++ 10 :: sp)
| blank_block l sp : skip_block (l ++ [42; 47]) = [] -> blank sp -> blank (47 :: 42 :: l ++ 42 :: 47 :: sp).

Lemma skip_line_at l t : Forall (fun c => c <> 10) l -> skip_line (l ++ 10 :: t) = 10 :: t.
Proof.
  induction 1 as [|c l Hc _ IH]; [reflexivity|]. cbn [app skip_line]. destruct (Z.eqb_spec c 10); [contradiction|exact IH].
Qed.

Lemma skip_block_at l t : skip_block (l ++ [42; 47]) = [] -> skip_block (l ++ 42 :: 47 :: t) = t.
Proof.
  induction l as [|c l IH]; cbn [app skip_block]; [reflexivity|].
  replace (peek (l ++ 42 :: 47 :: t)) with (peek (l ++ [42; 47])) by (destruct l; reflexivity).
  destruct (_ && _); [|exact IH]. intros H. exfalso. destruct l as [|d l]; [discriminate|]. cbn in H. destruct l; discriminate.
Qed.

Lemma skip_blank sp t : blank sp -> skip_spaces (sp ++ t) = skip_spaces t.
Proof.
  induction 1 as [|c sp Hc _ IH|l sp Hl _ IH|l sp Hl _ IH]; cbn [app]; [reflexivity|..].
  - rewrite skip_spaces_step, Hc. exact IH.
  - rewrite <- app_assoc. cbn [app]. rewrite skip_spaces_step. cbn [peek tail]. change (is_space 47) with false. cbn [Z.eqb Pos.eqb andb].
    rewrite skip_line_at by exact Hl. rewrite skip_spaces_step. exact IH.
  - rewrite <- app_assoc. cbn [app]. rewrite skip_spaces_step. cbn [peek tail]. change (is_space 47) with false. cbn [Z.eqb Pos.eqb andb].
    rewrite skip_block_at by exact Hl. exact IH.
Qed.

Lemma skip_blank_token sp t : blank sp -> starts_token t = true -> skip_spaces (sp ++ t) = t.
Proof. intros H Ht. rewrite skip_blank by exact H. apply skip_spaces_token, Ht. Qed.

(** ** What the reader leaves of the text *)

Lemma suffix_trans_cons (p q : list Z) c : p `suffix_of` q -> p `suffix_of` c :: q.
Proof. apply suffix_cons_r. Qed.

Create HintDb json.
#[export] Hint Resolve suffix_trans_cons tail_suffix skipn_suffix skip_spaces_suffix : json.
#[export] Hint Extern 1 (?p `suffix_of` ?p) => reflexivity : json.

(** A string that is read fits the buffer. *)
Lemma string_loop_spec n : forall p q r rest, (length p <= n)%nat -> string_loop q p = inl (r, rest) ->
  (length q <= 4095)%nat -> rest `suffix_of` p /\ (length r <= 4095)%nat.
Proof.
  induction n as [|n IH]; intros [|c p] q r rest Hn H Hq; cbn [length] in Hn; try lia; try discriminate. cbn [string_loop] in H.
  assert (add : forall c' p', (length p' <= length p)%nat -> p' `suffix_of` p ->
    (if STRING_BUF - 1 <=? Z.of_nat (length q) then inr "string too long"%string else string_loop (q ++ [c']) p') = inl (r, rest) ->
    rest `suffix_of` c :: p /\ (length r <= 4095)%nat).
  { intros c' p' Hl Hs E. destruct (Z.leb_spec (STRING_BUF - 1) (Z.of_nat (length q))) as [|Hlt]; [discriminate|]. unfold STRING_BUF in Hlt.
    destruct (IH p' (q ++ [c']) r rest) as [S L]; [lia|exact E|rewrite length_app; cbn [length]; lia|].
    split; [|exact L]. apply suffix_trans_cons. etransitivity; eassumption. }
  destruct (c =? 10); [discriminate|]. destruct (c =? 34); [injection H as <- <-; split; [auto with json|exact Hq]|].
  destruct (c =? 92); [|eapply add; [| |exact H]; [lia|reflexivity]].
  destruct p as [|e p1]; [discriminate|]. cbn [length] in *.
  destruct (_ || _ || _); [eapply add; [| |exact H]; [lia|auto with json]|].
  destruct (e =? 110); [eapply add; [| |exact H]; [lia|auto with json]|].
  destruct (e =? 114); [eapply add; [| |exact H]; [lia|auto with json]|].
  destruct (e =? 116); [eapply add; [| |exact H]; [lia|auto with json]|].
  destruct (e =? 120); [|discriminate]. destruct p1 as [|h1 p2]; [discriminate|]. destruct (from_hex h1 <? 0); [discriminate|].
  destruct p2 as [|h2 p3]; [discriminate|]. destruct (from_hex h2 <? 0); [discriminate|].
  eapply add; [| |exact H]; [cbn [length]; lia|auto with json].
Qed.

Lemma c_text_ok l : Forall (fun c => c <> 0) (c_text l) /\ (length (c_text l) <= length l)%nat.
Proof.
  induction l as [|c l [IH1 IH2]]; [split; constructor|]. cbn [c_text]. destruct (Z.eqb_spec c 0).
  - split; [apply List.Forall_nil|cbn; lia].
  - split; [apply List.Forall_cons; assumption|cbn; lia].
Qed.

(** Strings fit the buffer and hold no zero, numbers are 64-bit integers. *)
#[warnings="-register-all"]
Inductive json_ok : JSONValue -> Prop :=
| ok_str s : (length s <= 4095)%nat -> Forall (fun c => c <> 0) s -> json_ok (JSON_STR s)
| ok_int v : LLONG_MIN <= v <= LLONG_MAX -> json_ok (JSON_INT v)
| ok_obj props : Forall (fun nv => (0 < length (fst nv) <= 4095)%nat /\ json_ok (snd nv)) props -> json_ok (JSON_OBJ props)
| ok_array tab : Forall json_ok tab -> json_ok (JSON_ARRAY tab)
| ok_bool b : json_ok (JSON_BOOL b)
| ok_null : json_ok JSON_NULL
| ok_exception m : json_ok (JSON_EXCEPTION m).

Lemma error_ok msg : json_ok (json_error_new msg).
Proof. constructor. Qed.

#[export] Hint Constructors json_ok : json.
#[export] Hint Resolve error_ok : json.

Lemma parse_string_spec p v rest : parse_string p = (v, rest) -> rest `suffix_of` p /\ json_ok v /\
  ((exists m, v = JSON_EXCEPTION m) \/ exists s, v = JSON_STR s /\ (length s <= 4095)%nat).
Proof.
  unfold parse_string. destruct (string_loop _ _) as [[r q]|m] eqn:E; intros [= <- <-].
  - destruct (string_loop_spec _ _ _ _ _ (le_n _) E) as [S L]; [cbn; lia|]. destruct (c_text_ok r) as [Z1 Z2]. split; [|split].
    + etransitivity; [exact S|apply tail_suffix].
    + constructor; [lia|exact Z1].
    + right. exists (c_text r). split; [reflexivity|lia].
  - split; [reflexivity|]. split; [constructor|]. left. eexists. reflexivity.
Qed.

Definition ident_char (c : Z) : bool := is_ident_first c || isdigit c.

Lemma ident_loop_spec n : forall p q, q <> [] -> Z.of_nat (length q) <= n - 1 ->
  match ident_loop n q p with
  | Some (r, rest) => rest `suffix_of` p /\ (0 < length r)%nat /\ Z.of_nat (length r) <= n - 1
  | None => exists w t, p = w ++ t /\ Forall (fun c => ident_char c = true) w /\ Z.of_nat (length q + length w) = n
  end.
Proof.
  induction p as [|c p IH]; intros q Hn Hq; cbn [ident_loop].
  - destruct q; [congruence|]. split; [reflexivity|]. cbn in *; lia.
  - fold (ident_char c). destruct (ident_char c) eqn:Ec.
    + destruct (Z.leb_spec (n - 1) (Z.of_nat (length q))) as [Hl|Hl].
      * exists [c], p. split; [reflexivity|]. split; [repeat constructor; exact Ec|]. cbn. lia.
      * assert (Hq' : Z.of_nat (length (q ++ [c])) <= n - 1) by (rewrite length_app; cbn; lia).
        specialize (IH (q ++ [c]) ltac:(destruct q; discriminate) Hq'). rewrite length_app in IH. cbn [length] in IH.
        destruct (ident_loop n (q ++ [c]) p) as [[r rest]|]; [destruct IH as [S L]; split; [auto with json|exact L]|].
        destruct IH as (w & t & -> & F & E). exists (c :: w), t. split; [reflexivity|]. split; [constructor; assumption|cbn [length]; lia].
    + destruct q; [congruence|]. split; [reflexivity|]. cbn in *; lia.
Qed.

(** A run of identifier characters as long as the buffer. *)
Definition long_ident (p : list Z) : Prop := exists w t u, p = t ++ w ++ u /\ Forall (fun c => ident_char c = true) w /\ length w = 128%nat.

Lemma long_ident_suffix p q : p `suffix_of` q -> long_ident p -> long_ident q.
Proof. intros [k ->] (w & t & u & -> & H). exists w, (k ++ t), u. rewrite app_assoc. auto. Qed.

Lemma parse_ident_spec p : is_ident_first (peek p) = true ->
  match parse_ident IDENT_BUF p with
  | Some (r, rest) => rest `suffix_of` p /\ (0 < length r <= 127)%nat
  | None => long_ident p
  end.
Proof.
  intros Hp. destruct p as [|c p]; [discriminate|]. unfold parse_ident. cbn [peek tail].
  pose proof (ident_loop_spec IDENT_BUF p [c] ltac:(discriminate)) as H. unfold IDENT_BUF in *. specialize (H ltac:(cbn; lia)).
  destruct (ident_loop 128 [c] p) as [[r rest]|].
  - destruct H as (S & L1 & L2). split; [auto with json|lia].
  - destruct H as (w & t & -> & F & E). cbn [length] in E. exists (c :: w), [], t. split; [reflexivity|]. split; [|cbn; lia].
    constructor; [|exact F]. unfold ident_char. cbn [peek] in Hp. rewrite Hp. reflexivity.
Qed.

Lemma digits_suffix base p : forall v, (snd (digits_loop base v p)) `suffix_of` p.
Proof.
  induction p as [|c p IH]; intros v; cbn [digits_loop]; [reflexivity|]. destruct (digit_val c) as [d|]; [|reflexivity].
  destruct (d <? base); [apply suffix_trans_cons, IH|reflexivity].
Qed.

Lemma skip_space_suffix p : skip_space p `suffix_of` p.
Proof. induction p as [|c p IH]; cbn; [reflexivity|]. destruct (is_space c); [apply suffix_trans_cons, IH|reflexivity]. Qed.

Lemma strtoll_spec p base : snd (strtoll p base) `suffix_of` p /\ LLONG_MIN <= fst (strtoll p base) <= LLONG_MAX.
Proof.
  unfold strtoll. cbv zeta. set (q := if (peek (skip_space p) =? 43) || _ then _ else _). set (h := _ && is_digit_of 16 _). set (b := if (base =? 10) || (base =? 16) then base else _).
  assert (Hq : (if h then skipn 2 q else q) `suffix_of` p).
  { transitivity q; [destruct h; auto with json|]. transitivity (skip_space p); [unfold q; destruct (_ || _); auto with json|apply skip_space_suffix]. }
  clearbody h b. destruct (is_digit_of _ _); [|split; [reflexivity|unfold LLONG_MIN, LLONG_MAX; cbn; lia]].
  destruct (digits_loop b 0 _) as [v rest] eqn:E. cbn [fst snd]. split; [|unfold LLONG_MIN, LLONG_MAX; lia].
  transitivity (if h then skipn 2 q else q); [|exact Hq]. change rest with (snd (v, rest)). rewrite <- E. apply digits_suffix.
Qed.

Lemma parse_tag_spec p :
  match parse_tag p with
  | inl (name, rest) => rest `suffix_of` p /\ (0 < length name <= 4095)%nat
  | inr v => exists m, v = JSON_EXCEPTION m
  end.
Proof.
  unfold parse_tag. destruct (peek p =? 34).
  - destruct (parse_string p) as [v rest] eqn:E. destruct (parse_string_spec _ _ _ E) as (S & _ & [[m ->]|(s & -> & L)]); [eexists; reflexivity|].
    destruct s as [|c s]; [eexists; reflexivity|]. split; [exact S|cbn [length] in *; lia].
  - destruct (is_ident_first (peek p)) eqn:Ei; [|eexists; reflexivity]. pose proof (parse_ident_spec p Ei) as H.
    destruct (parse_ident IDENT_BUF p) as [[r rest]|]; [|eexists; reflexivity]. destruct H as [S L].
    destruct r as [|c r]; [eexists; reflexivity|]. split; [exact S|cbn [length] in *; lia].
Qed.

Definition props_ok (props : list (list Z * JSONValue)) : Prop :=
  Forall (fun nv => (0 < length (fst nv) <= 4095)%nat /\ json_ok (snd nv)) props.

Lemma object_set_ok props name v : (0 < length name <= 4095)%nat -> json_ok v -> props_ok props -> props_ok (json_object_set props name v).
Proof.
  intros Hn Hv. unfold props_ok. induction 1 as [|[n w] props [H1 H2] F IH]; cbn [json_object_set].
  - apply List.Forall_cons; [split; assumption|apply List.Forall_nil].
  - destruct (bool_decide _); apply List.Forall_cons; try split; assumption.
Qed.

Lemma array_push tab v : json_array_set tab (length tab) v = Some (tab ++ [v]).
Proof. unfold json_array_set. rewrite Nat.ltb_irrefl, Nat.eqb_refl. reflexivity. Qed.

(** A result whose rest is a suffix of the text and whose value is well formed;
    undefined behaviour needs a long identifier, and with the fuel [n] the reader
    does not run dry. *)
Definition reads (n : nat) (fuel : nat) (pp : list Z) (r : (JSONValue * list Z) + jstop) : Prop :=
  match r with
  | inl (v, p) => p `suffix_of` pp /\ json_ok v
  | inr JUndefined => long_ident pp
  | inr JFuel => (fuel < n)%nat
  end.

Lemma reads_from n n' fuel fuel' pp q r : q `suffix_of` pp -> (fuel' < n' -> fuel < n)%nat -> reads n' fuel' q r -> reads n fuel pp r.
Proof.
  intros S Hf. destruct r as [[v p]|[]]; cbn.
  - intros [H1 H2]. split; [etransitivity; eassumption|exact H2].
  - apply long_ident_suffix, S.
  - exact Hf.
Qed.

Lemma nonempty_tail (p : list Z) c : peek p = c -> c <> 0 -> length p = S (length (tail p)).
Proof. destruct p; cbn; [congruence|reflexivity]. Qed.

Definition elements_need (p : list Z) : nat := if peek (skip_spaces p) =? 93 then 1 else 2 * length p + 2.

Lemma reader_reads fuel :
  (forall pp, reads (2 * length pp + 1) fuel pp (json_parse_value2 fuel pp)) /\
  (forall pp props p, p `suffix_of` pp -> props_ok props -> reads (2 * length p + 2) fuel pp (parse_members fuel pp props p)) /\
  (forall pp tab p, p `suffix_of` pp -> Forall json_ok tab -> reads (elements_need p) fuel pp (parse_elements fuel pp tab p)).
Proof.
  induction fuel as [|fuel (IHv & IHm & IHe)].
  { split; [|split]; intros; cbn; [lia..|]. unfold elements_need. destruct (_ =? _); lia. }
  split; [|split].
  - intros pp. cbn [json_parse_value2]. cbv zeta. pose proof (skip_spaces_suffix pp) as S. set (p := skip_spaces pp) in *.
    pose proof (suffix_length _ _ S) as Hlen.
    assert (Ht : forall c, peek p = c -> c <> 0 -> tail p `suffix_of` pp /\ length p = Datatypes.S (length (tail p))).
    { intros c Hc Hz. split; [etransitivity; [apply tail_suffix|exact S]|eapply nonempty_tail; eassumption]. }
    destruct (peek p =? 0); [solve [split; auto with json]|].
    destruct ((peek p =? 48) && (peek1 p =? 120)).
    { destruct (strtoll_spec (skipn 2 p) 16) as [S1 V]. destruct (strtoll (skipn 2 p) 16) as [v rest]. cbn [fst snd] in *. unfold reads. split; [|auto with json].
      etransitivity; [exact S1|]. etransitivity; [apply (skipn_suffix 2)|exact S]. }
    destruct (isdigit (peek p)).
    { destruct (strtoll_spec p 0) as [S1 V]. destruct (strtoll p 0) as [v rest]. cbn [fst snd] in *. unfold reads. split; [|auto with json]. etransitivity; eassumption. }
    destruct (peek p =? 34).
    { destruct (parse_string p) as [v rest] eqn:E. destruct (parse_string_spec _ _ _ E) as (S1 & V & _). unfold reads. split; [etransitivity; eassumption|exact V]. }
    destruct (Z.eqb_spec (peek p) 123) as [E|_].
    { destruct (Ht _ E) as [T1 T2]; [discriminate|]. eapply reads_from; [reflexivity| |apply IHm; [exact T1|constructor]]. lia. }
    destruct (Z.eqb_spec (peek p) 91) as [E|_].
    { destruct (Ht _ E) as [T1 T2]; [discriminate|]. eapply reads_from; [reflexivity| |apply IHe; [exact T1|constructor]].
      unfold elements_need. destruct (_ =? _); lia. }
    destruct (is_ident_first (peek p)) eqn:Ei; [|solve [split; auto with json]].
    pose proof (parse_ident_spec p Ei) as H. destruct (parse_ident IDENT_BUF p) as [[r rest]|]; [|eapply long_ident_suffix; eassumption].
    assert (rest `suffix_of` pp) by (etransitivity; [apply H|exact S]).
    repeat (destruct (bool_decide _); [solve [split; auto with json]|]). solve [split; auto with json].
  - intros pp props p Sp Hp. cbn [parse_members]. cbv zeta. pose proof (skip_spaces_suffix p) as S. set (q := skip_spaces p) in *.
    pose proof (suffix_length _ _ S) as Hlen. destruct (peek q =? 125).
    { unfold reads. split; [|auto with json]. etransitivity; [apply tail_suffix|]. etransitivity; eassumption. }
    pose proof (parse_tag_spec q) as Htag. destruct (parse_tag q) as [[name r]|tag]; [|destruct Htag as [m ->]; solve [split; auto with json]].
    destruct Htag as [S1 L1]. pose proof (skip_spaces_suffix r) as S2. set (r' := skip_spaces r) in *.
    destruct (Z.eqb_spec (peek r') 58) as [E|]; cbn [negb]; [|solve [split; auto with json]].
    pose proof (nonempty_tail _ _ E ltac:(discriminate)) as Hr. pose proof (suffix_length _ _ S1). pose proof (suffix_length _ _ S2).
    assert (S3 : tail r' `suffix_of` p) by (etransitivity; [apply tail_suffix|]; etransitivity; [exact S2|]; etransitivity; eassumption).
    pose proof (IHv (tail r')) as Hv. destruct (json_parse_value2 fuel (tail r')) as [[val1 u]|e].
    2: { eapply reads_from; [| |exact Hv]; [etransitivity; eassumption|]. lia. }
    destruct Hv as [Su Vv]. pose proof (object_set_ok props name val1 L1 Vv Hp) as Hp'. pose proof (skip_spaces_suffix u) as S4. set (u' := skip_spaces u) in *.
    pose proof (suffix_length _ _ Su). pose proof (suffix_length _ _ S4). pose proof (suffix_length _ _ (tail_suffix u')).
    assert (S5 : u' `suffix_of` pp) by (etransitivity; [exact S4|]; etransitivity; [exact Su|]; etransitivity; eassumption).
    destruct (peek u' =? 44).
    { eapply reads_from; [reflexivity| |apply IHm; [etransitivity; [apply tail_suffix|exact S5]|exact Hp']]. lia. }
    destruct (peek u' =? 125); cbn [negb]; [|solve [split; auto with json]]. eapply reads_from; [reflexivity| |apply IHm; [exact S5|exact Hp']]. lia.
  - intros pp tab p Sp Hp. cbn [parse_elements]. cbv zeta. pose proof (skip_spaces_suffix p) as S.
    destruct (Z.eqb_spec (peek (skip_spaces p)) 93) as [E93|N93].
    { unfold reads. split; [|auto with json]. etransitivity; [apply tail_suffix|]. etransitivity; eassumption. }
    unfold elements_need. rewrite (proj2 (Z.eqb_neq _ _) N93). set (q := skip_spaces p) in *. pose proof (suffix_length _ _ S) as Hlen.
    pose proof (IHv q) as Hv. destruct (json_parse_value2 fuel q) as [[val1 u]|e].
    2: { eapply reads_from; [| |exact Hv]; [etransitivity; eassumption|]. lia. }
    destruct Hv as [Su Vv]. rewrite array_push. assert (Hp' : Forall json_ok (tab ++ [val1])) by (apply List.Forall_app; auto).
    pose proof (skip_spaces_suffix u) as S4. set (u' := skip_spaces u) in *. pose proof (suffix_length _ _ Su). pose proof (suffix_length _ _ S4).
    assert (S5 : u' `suffix_of` pp) by (etransitivity; [exact S4|]; etransitivity; [exact Su|]; etransitivity; eassumption).
    destruct (Z.eqb_spec (peek u') 44) as [E|_].
    { pose proof (nonempty_tail _ _ E ltac:(discriminate)). eapply reads_from; [reflexivity| |apply IHe; [etransitivity; [apply tail_suffix|exact S5]|exact Hp']].
      unfold elements_need. destruct (_ =? _); lia. }
    destruct (Z.eqb_spec (peek u') 93) as [E|]; cbn [negb]; [|solve [split; auto with json]].
    eapply reads_from; [reflexivity| |apply IHe; [exact S5|exact Hp']].
    unfold elements_need. rewrite skip_spaces_token by (unfold starts_token; rewrite E; reflexivity). rewrite E. cbn. lia.
Qed.

Lemma parse_value_total p : (long_ident p -> False) -> exists v, json_parse_value p = inl v /\ json_ok v.
Proof.
  intros Hp. unfold json_parse_value. destruct (reader_reads (2 * length p + 1)) as [H _]. specialize (H p).
  destruct (json_parse_value2 _ p) as [[v rest]|[]]; cbn [reads] in H; [|contradiction|lia]. destruct H as [_ H].
  destruct (json_is_error v); [exists v; auto|]. destruct (skip_spaces rest); eexists; split; [reflexivity|exact H|reflexivity|apply error_ok].
Qed.

(** The reader is total and its values are well formed.  For every text
    without an identifier of 128 characters or more [json_parse_value] returns,
    whatever the text holds; strings of the value fit the buffer of
    [parse_string] and hold no zero, property names are not empty, numbers are
    64-bit integers.  The fuel of the definition is enough for every text. *)
Theorem json_parse_total (p : list Z) : (long_ident p -> False) -> exists v, json_parse_value p = inl v /\ json_ok v.
Proof. apply parse_value_total. Qed.

(** ** Printing *)

Definition esc (c : Z) : list Z :=
  if c =? 34 then [92; 34] else if c =? 92 then [92; 92] else if c =? 10 then [92; 110] else [c].
Definition quote (s : list Z) : list Z := 34 :: flat_map esc s ++ [34].

(** The decimal digits of [n], at most [k + 1] of them. *)
Fixpoint dec (k : nat) (n : Z) : list Z :=
  match k with
  | O => [48 + n]
  | S k => if n <? 10 then [48 + n] else dec k (n / 10) ++ [48 + n mod 10]
  end.
Definition decimal (n : Z) : list Z := dec 18 n.

(** Items with commas between them and white space around every token. *)
Fixpoint separated (sp : list Z) (items : list (list Z)) : list Z :=
  match items with
  | [] => []
  | [x] => x ++ sp
  | x :: items => x ++ sp ++ 44 :: sp ++ separated sp items
  end.

Fixpoint print (sp : list Z) (v : JSONValue) : list Z :=
  match v with
  | JSON_STR s => quote s
  | JSON_INT n => decimal n
  | JSON_OBJ props =>
      123 :: sp ++ separated sp (map (fun nv => quote (fst nv) ++ sp ++ 58 :: sp ++ print sp (snd nv)) props) ++ [125]
  | JSON_ARRAY tab => 91 :: sp ++ separated sp (map (print sp) tab) ++ [93]
  | JSON_BOOL b => str (if b then "true" else "false")
  | JSON_NULL => str "null"
  | _ => []
  end.

Definition name_ok (s : list Z) : Prop := (length s <= 4095)%nat /\ Forall (fun c => c <> 0) s.

(** The values a text can stand for. *)
#[warnings="-register-all"]
Inductive plain : JSONValue -> Prop :=
| plain_str s : name_ok s -> plain (JSON_STR s)
| plain_int n : 0 <= n <= LLONG_MAX -> plain (JSON_INT n)
| plain_obj props : NoDup (map fst props) -> Forall (fun nv => fst nv <> [] /\ name_ok (fst nv) /\ plain (snd nv)) props -> plain (JSON_OBJ props)
| plain_array tab : Forall plain tab -> plain (JSON_ARRAY tab)
| plain_bool b : plain (JSON_BOOL b)
| plain_null : plain JSON_NULL.

Lemma JSONValue_nested (P : JSONValue -> Prop) :
  (forall s, P (JSON_STR s)) -> (forall n, P (JSON_INT n)) ->
  (forall props, Forall (fun nv => P (snd nv)) props -> P (JSON_OBJ props)) ->
  (forall tab, Forall P tab -> P (JSON_ARRAY tab)) ->
  (forall b, P (JSON_BOOL b)) -> P JSON_NULL -> P JSON_UNDEFINED -> (forall m, P (JSON_EXCEPTION m)) ->
  forall v, P v.
Proof.
  intros Hs Hi Ho Ha Hb Hn Hu He. fix IH 1. intros [s|n|props|tab|b| | |m]; [apply Hs|apply Hi| | |apply Hb|exact Hn|exact Hu|apply He].
  - apply Ho. induction props as [|[n v] props IHp]; constructor; [apply IH|exact IHp].
  - apply Ha. induction tab as [|v tab IHt]; constructor; [apply IH|exact IHt].
Qed.

Lemma c_text_id s : Forall (fun c => c <> 0) s -> c_text s = s.
Proof. induction 1 as [|c s Hc _ IH]; [reflexivity|]. cbn. destruct (Z.eqb_spec c 0); [contradiction|]. rewrite IH. reflexivity. Qed.

Lemma string_loop_esc s t : forall q, (length q + length s <= 4095)%nat -> string_loop q (flat_map esc s ++ 34 :: t) = inl (q ++ s, t).
Proof.
  induction s as [|c s IH]; intros q Hq; cbn [flat_map app length] in *; [rewrite app_nil_r; reflexivity|].
  assert (Hf : (STRING_BUF - 1 <=? Z.of_nat (length q)) = false) by (unfold STRING_BUF; lia).
  assert (IH' : string_loop (q ++ [c]) (flat_map esc s ++ 34 :: t) = inl (q ++ c :: s, t)).
  { rewrite IH by (rewrite length_app; cbn; lia). rewrite <- app_assoc. reflexivity. }
  rewrite <- app_assoc. unfold esc at 1. destruct (Z.eqb_spec c 34) as [->|N1]; [|destruct (Z.eqb_spec c 92) as [->|N2]; [|destruct (Z.eqb_spec c 10) as [->|N3]]];
    cbn [app string_loop Z.eqb Pos.eqb orb]; rewrite Hf; [exact IH'..|].
  rewrite (proj2 (Z.eqb_neq c 10) N3), (proj2 (Z.eqb_neq c 34) N1), (proj2 (Z.eqb_neq c 92) N2). exact IH'.
Qed.

Lemma parse_quote s t : name_ok s -> parse_string (quote s ++ t) = (JSON_STR s, t).
Proof.
  intros [L Z0]. unfold parse_string, quote. cbn [app tail]. rewrite <- app_assoc. cbn [app].
  rewrite string_loop_esc by (cbn; lia). unfold json_string_new. cbn [app]. rewrite c_text_id by exact Z0. reflexivity.
Qed.

(** ** Reading what was printed *)

(** The text goes on with a character that belongs to no number or word. *)
Definition token_end (t : list Z) : bool := negb (ident_char (peek t)).

Lemma token_end_digit t : token_end t = true -> digit_val (peek t) = None.
Proof.
  unfold token_end, ident_char, is_ident_first, digit_val, isdigit. generalize (peek t). intros c H.
  repeat match goal with
  | |- context [?a <=? ?b] => destruct (Z.leb_spec a b)
  | H : context [?a <=? ?b] |- _ => destruct (Z.leb_spec a b)
  end; cbn in *; try reflexivity; try lia; rewrite ?orb_true_r in H; discriminate.
Qed.

Lemma digits_stop base v t : token_end t = true -> digits_loop base v t = (v, t).
Proof. intros H. apply token_end_digit in H. destruct t as [|c t]; [reflexivity|]. cbn [digits_loop peek] in *. rewrite H. reflexivity. Qed.

Lemma digit_val_dec d : 0 <= d < 10 -> digit_val (48 + d) = Some d.
Proof. intros H. unfold digit_val, isdigit. destruct (Z.leb_spec 48 (48 + d)), (Z.leb_spec (48 + d) 57); try lia. cbn. f_equal. lia. Qed.

Lemma digits_dec k : forall n t, 0 <= n < 10 ^ Z.of_nat (S k) -> digits_loop 10 0 (dec k n ++ t) = digits_loop 10 n t.
Proof.
  induction k as [|k IH]; intros n t Hn; cbn [dec].
  - change (10 ^ Z.of_nat 1) with 10 in Hn. cbn [app digits_loop]. rewrite digit_val_dec by lia. destruct (Z.ltb_spec n 10); [f_equal; lia|lia].
  - destruct (Z.ltb_spec n 10) as [H|H].
    + cbn [app digits_loop]. rewrite digit_val_dec by lia. destruct (Z.ltb_spec n 10); [f_equal; lia|lia].
    + rewrite <- app_assoc. rewrite IH.
      * cbn [app digits_loop]. pose proof (Z.mod_pos_bound n 10 ltac:(lia)). rewrite digit_val_dec by lia.
        destruct (Z.ltb_spec (n mod 10) 10); [|lia]. f_equal. pose proof (Z.div_mod n 10). lia.
      * rewrite (Nat2Z.inj_succ (S k)), Z.pow_succ_r in Hn by lia. split; [apply Z.div_pos; lia|]. apply Z.div_lt_upper_bound; lia.
Qed.

(** The first digit; it is zero for zero only. *)
Lemma dec_head k : forall n, 0 <= n < 10 ^ Z.of_nat (S k) -> exists d l, dec k n = 48 + d :: l /\ 0 <= d < 10 /\ (d = 0 -> n = 0 /\ l = []).
Proof.
  induction k as [|k IH]; intros n Hn; cbn [dec].
  - change (10 ^ Z.of_nat 1) with 10 in Hn. exists n, []. split; [reflexivity|]. split; [lia|auto].
  - destruct (Z.ltb_spec n 10) as [H|H]; [exists n, []; split; [reflexivity|]; split; [lia|auto]|].
    destruct (IH (n / 10)) as (d & l & E & D & F).
    { rewrite (Nat2Z.inj_succ (S k)), Z.pow_succ_r in Hn by lia. split; [apply Z.div_pos; lia|]. apply Z.div_lt_upper_bound; lia. }
    exists d, (l ++ [48 + n mod 10]). rewrite E. split; [reflexivity|]. split; [exact D|]. intros ->. destruct (F eq_refl) as [F1 _].
    apply Z.div_small_iff in F1; lia.
Qed.

Lemma decimal_range n : 0 <= n <= LLONG_MAX -> 0 <= n < 10 ^ Z.of_nat 19.
Proof. unfold LLONG_MAX. change (10 ^ Z.of_nat 19) with 10000000000000000000. lia. Qed.

Lemma is_space_digit d : 0 <= d < 10 -> is_space (48 + d) = false.
Proof. intros H. unfold is_space. destruct (Z.eqb_spec (48 + d) 32), (Z.leb_spec 9 (48 + d)), (Z.leb_spec (48 + d) 13); try lia; reflexivity. Qed.

Lemma strtoll_decimal n t : 0 <= n <= LLONG_MAX -> token_end t = true -> strtoll (decimal n ++ t) 0 = (n, t).
Proof.
  intros Hn Ht. pose proof (decimal_range n Hn) as Hr. unfold decimal. pose proof (digits_dec 18 n t Hr) as Hd. destruct (dec_head 18 n Hr) as (d & l & E & D & F).
  rewrite E in *. cbn [app] in *. unfold strtoll. change (0 =? 10) with false. change (0 =? 16) with false. cbn [negb orb andb]. cbv zeta. cbn [skip_space]. rewrite (is_space_digit d D). cbn [peek].
  rewrite (proj2 (Z.eqb_neq (48 + d) 45)), (proj2 (Z.eqb_neq (48 + d) 43)) by lia. cbn [orb].
  destruct (Z.eq_dec (48 + d) 48) as [Z0|N0].
  - assert (d = 0) by lia. subst d. destruct (F eq_refl) as [-> ->]. change ([] ++ t) with t. unfold peek1. cbn [tail peek].
    pose proof (token_end_digit t Ht) as Hv.
    replace ((peek t =? 120) || (peek t =? 88)) with false.
    2: { destruct (Z.eqb_spec (peek t) 120) as [X|_]; [rewrite X in Hv; discriminate|]. destruct (Z.eqb_spec (peek t) 88) as [X|_]; [rewrite X in Hv; discriminate|]. reflexivity. }
    change (48 + 0) with 48. cbn [andb Z.eqb Pos.eqb]. change (is_digit_of 8 48) with true. cbv iota. change (digits_loop 8 0 (48 :: t)) with (digits_loop 8 0 t).
    rewrite digits_stop by exact Ht. reflexivity.
  - cbn [peek]. rewrite !(proj2 (Z.eqb_neq (48 + d) 48) N0). cbn [andb]. cbv iota. cbn [peek]. unfold is_digit_of. rewrite digit_val_dec by exact D.
    destruct (Z.ltb_spec d 10); [|lia]. rewrite Hd, digits_stop by exact Ht. f_equal. unfold LLONG_MIN, LLONG_MAX in *. lia.
Qed.

Lemma blank_end sp c t : blank sp -> ident_char c = false -> token_end (sp ++ c :: t) = true.
Proof.
  intros H Hc. unfold token_end. apply negb_true_iff. destruct H as [|d sp Hd _|l sp _ _|l sp _ _]; cbn [app peek]; [exact Hc| |reflexivity..].
  unfold is_space in Hd. unfold ident_char, is_ident_first, isdigit.
  repeat match goal with
  | H : context [?a =? ?b] |- _ => destruct (Z.eqb_spec a b)
  | H : context [?a <=? ?b] |- _ => destruct (Z.leb_spec a b)
  end; cbn in Hd; try discriminate; repeat match goal with
  | |- context [?a <=? ?b] => destruct (Z.leb_spec a b); try lia
  | |- context [?a =? ?b] => destruct (Z.eqb_spec a b); try lia
  end; reflexivity.
Qed.

(** The first character of a value is not white space and closes nothing. *)
Definition opens (p : list Z) : Prop := starts_token p = true /\ peek p <> 93 /\ peek p <> 125.

Lemma print_opens sp v t : plain v -> opens (print sp v ++ t).
Proof.
  unfold opens. destruct 1 as [s Hs|n Hn|props _ _|tab _|[]|]; try (split; [reflexivity|split; discriminate]).
  cbn [print]. destruct (dec_head 18 n (decimal_range n Hn)) as (d & l & E & D & _). unfold decimal. rewrite E. cbn [app]. unfold starts_token. cbn [peek].
  rewrite is_space_digit by exact D. rewrite (proj2 (Z.eqb_neq (48 + d) 47)) by lia. split; [reflexivity|]. lia.
Qed.

Lemma word_back w t : Forall (fun c => ident_char c = true) w -> (Z.of_nat (length w) < 127) -> token_end t = true ->
  forall q, Z.of_nat (length q + length w) < 128 -> ident_loop IDENT_BUF q (w ++ t) = Some (q ++ w, t).
Proof.
  intros Hw Hl Ht. induction Hw as [|c w Hc _ IH]; intros q Hq; cbn [app length] in *.
  - rewrite app_nil_r. destruct t as [|c t]; [reflexivity|]. unfold token_end in Ht. cbn [peek ident_loop] in *. fold (ident_char c).
    apply negb_true_iff in Ht. rewrite Ht. reflexivity.
  - cbn [ident_loop]. fold (ident_char c). rewrite Hc. unfold IDENT_BUF in *. destruct (Z.leb_spec (128 - 1) (Z.of_nat (length q))); [lia|].
    rewrite IH by (rewrite ?length_app; cbn [length]; lia). rewrite <- app_assoc. reflexivity.
Qed.

Lemma object_set_new props name v : name ∉ map fst props -> json_object_set props name v = props ++ [(name, v)].
Proof.
  induction props as [|[n w] props IH]; intros H; [reflexivity|]. cbn [map fst] in H. apply not_elem_of_cons in H. destruct H as [H1 H2].
  cbn [json_object_set]. rewrite bool_decide_false by congruence. rewrite IH by exact H2. reflexivity.
Qed.

Section Reading.
Context (sp : list Z) (Hsp : blank sp).

Definition reads_back (v : JSONValue) : Prop := plain v -> forall fuel pre t, blank pre -> token_end t = true ->
  (2 * length (print sp v) + 1 <= fuel)%nat -> json_parse_value2 fuel (pre ++ print sp v ++ t) = inl (v, t).

Lemma elements_back tab : Forall reads_back tab -> Forall plain tab ->
  forall done fuel pp pre t, blank pre -> (2 * length (separated sp (map (print sp) tab)) + 2 <= fuel)%nat ->
  parse_elements fuel pp done (pre ++ separated sp (map (print sp) tab) ++ 93 :: t) = inl (JSON_ARRAY (done ++ tab), t).
Proof.
  induction 1 as [|v tab Hv _ IH]; intros Hp done fuel pp pre t Hpre Hf; (destruct fuel as [|fuel]; [lia|]); cbn [parse_elements]; cbv zeta.
  - cbn [map separated app]. rewrite skip_blank_token by (assumption || reflexivity). cbn [peek tail]. rewrite app_nil_r. reflexivity.
  - apply List.Forall_cons_iff in Hp. destruct Hp as [Pv Pt].
    assert (Hs : exists k, separated sp (map (print sp) (v :: tab)) ++ 93 :: t = print sp v ++ sp ++ k :: (if k =? 44 then sp ++ separated sp (map (print sp) tab) ++ 93 :: t else t) /\
      (k = 44 /\ (2 * length (separated sp (map (print sp) tab)) + 2 <= fuel)%nat \/ k = 93 /\ tab = []) /\
      (2 * length (print sp v) + 1 <= fuel)%nat).
    { destruct tab as [|w tab]; cbn [map separated] in *.
      - exists 93. cbn [Z.eqb Pos.eqb]. rewrite <- !app_assoc. split; [reflexivity|]. split; [right; auto|]. rewrite length_app in Hf. lia.
      - exists 44. cbn [Z.eqb Pos.eqb]. rewrite <- !app_assoc. cbn [app]. rewrite <- !app_assoc. split; [reflexivity|].
        rewrite !length_app in Hf. cbn [length] in Hf. rewrite length_app in Hf. split; [left; split; [reflexivity|lia]|lia]. }
    destruct Hs as (k & -> & Hk & Hl). set (rest := if k =? 44 then _ else t).
    destruct (print_opens sp v (sp ++ k :: rest) Pv) as (O1 & O2 & O3). rewrite skip_blank_token by assumption.
    rewrite (proj2 (Z.eqb_neq _ _) O2).
    assert (Ik : ident_char k = false) by (destruct Hk as [[-> _]|[-> _]]; reflexivity).
    pose proof (Hv Pv fuel [] (sp ++ k :: rest) blank_nil (blank_end sp k rest Hsp Ik) Hl) as Hr. cbn [app] in Hr. rewrite Hr.
    rewrite array_push. rewrite skip_blank_token by (assumption || (destruct Hk as [[-> _]|[-> _]]; reflexivity)). cbn [peek tail]. unfold rest.
    destruct Hk as [[-> Hf']|[-> ->]]; cbn [Z.eqb Pos.eqb negb].
    + rewrite IH by assumption. rewrite <- app_assoc. reflexivity.
    + destruct fuel as [|fuel]; [lia|]. cbn [parse_elements]. rewrite skip_spaces_token by reflexivity. reflexivity.
Qed.

Definition member (nv : list Z * JSONValue) : list Z := quote (fst nv) ++ sp ++ 58 :: sp ++ print sp (snd nv).

Lemma tag_back name t : name <> [] -> name_ok name -> parse_tag (quote name ++ t) = inl (name, t).
Proof.
  intros Hn Ho. unfold parse_tag. change (peek (quote name ++ t)) with 34. cbn [Z.eqb Pos.eqb]. rewrite parse_quote by exact Ho.
  destruct name; [congruence|reflexivity].
Qed.

Lemma members_back props : Forall (fun nv => reads_back (snd nv)) props ->
  Forall (fun nv => fst nv <> [] /\ name_ok (fst nv) /\ plain (snd nv)) props ->
  forall done fuel pp pre t, NoDup (map fst (done ++ props)) -> blank pre -> (2 * length (separated sp (map member props)) + 2 <= fuel)%nat ->
  parse_members fuel pp done (pre ++ separated sp (map member props) ++ 125 :: t) = inl (JSON_OBJ (done ++ props), t).
Proof.
  induction 1 as [|[name v] props Hv _ IH]; intros Hp done fuel pp pre t Hd Hpre Hf; (destruct fuel as [|fuel]; [lia|]); cbn [parse_members]; cbv zeta.
  - cbn [map separated app]. rewrite skip_blank_token by (assumption || reflexivity). cbn [peek tail]. rewrite app_nil_r. reflexivity.
  - apply List.Forall_cons_iff in Hp. destruct Hp as [(Nn & No & Pv) Pt]. cbn [fst snd] in *.
    assert (Hnew : name ∉ map fst done).
    { rewrite map_app in Hd. cbn [map fst] in Hd. apply list.NoDup_app in Hd. destruct Hd as (_ & Hd & _). intros Hin. apply (Hd name Hin). left. }
    assert (Hs : exists k, separated sp (map member ((name, v) :: props)) ++ 125 :: t =
        quote name ++ sp ++ 58 :: sp ++ print sp v ++ sp ++ k :: (if k =? 44 then sp ++ separated sp (map member props) ++ 125 :: t else t) /\
      (k = 44 /\ (2 * length (separated sp (map member props)) + 2 <= fuel)%nat \/ k = 125 /\ props = []) /\
      (2 * length (print sp v) + 1 <= fuel)%nat).
    { destruct props as [|w props]; cbn [map separated] in *; unfold member at 1; unfold member at 1 in Hf; cbn [fst snd] in *.
      - exists 125. cbn [Z.eqb Pos.eqb]. rewrite <- ?app_assoc. cbn [app]. rewrite <- ?app_assoc. split; [reflexivity|]. split; [right; auto|].
        rewrite !length_app in Hf. cbn [length] in Hf. rewrite length_app in Hf. lia.
      - exists 44. cbn [Z.eqb Pos.eqb]. rewrite <- ?app_assoc. cbn [app]. rewrite <- ?app_assoc. cbn [app]. rewrite <- ?app_assoc. split; [reflexivity|].
        rewrite !length_app in Hf. cbn [length] in Hf. rewrite !length_app in Hf. split; [left; split; [reflexivity|lia]|lia]. }
    destruct Hs as (k & -> & Hk & Hl). set (rest := if k =? 44 then _ else t).
    rewrite skip_blank_token by (assumption || reflexivity). change (peek (quote name ++ ?x)) with 34. cbn [Z.eqb Pos.eqb].
    rewrite tag_back by assumption. rewrite skip_blank_token by (assumption || reflexivity). cbn [peek tail Z.eqb Pos.eqb negb].
    assert (Ik : ident_char k = false) by (destruct Hk as [[-> _]|[-> _]]; reflexivity).
    rewrite (Hv Pv fuel sp (sp ++ k :: rest) Hsp (blank_end sp k rest Hsp Ik) Hl). rewrite object_set_new by exact Hnew.
    rewrite skip_blank_token by (assumption || (destruct Hk as [[-> _]|[-> _]]; reflexivity)). cbn [peek tail]. unfold rest.
    destruct Hk as [[-> Hf']|[-> ->]]; cbn [Z.eqb Pos.eqb negb].
    + rewrite IH by (assumption || (rewrite <- app_assoc; exact Hd)). rewrite <- app_assoc. reflexivity.
    + destruct fuel as [|fuel]; [lia|]. cbn [parse_members]. rewrite skip_spaces_token by reflexivity. reflexivity.
Qed.

Lemma value_at fuel pre body : blank pre -> starts_token body = true ->
  json_parse_value2 (S fuel) (pre ++ body) =
  (let c := peek body in
   if c =? 0 then inl (json_error_new "unexpected end of file", pre ++ body)
   else if (c =? 48) && (peek1 body =? 120) then let '(v, p) := strtoll (skipn 2 body) 16 in inl (JSON_INT v, p)
   else if isdigit c then let '(v, p) := strtoll body 0 in inl (JSON_INT v, p)
   else if c =? 34 then inl (parse_string body)
   else if c =? 123 then parse_members fuel (pre ++ body) [] (tail body)
   else if c =? 91 then parse_elements fuel (pre ++ body) [] (tail body)
   else if is_ident_first c then
     match parse_ident IDENT_BUF body with
     | None => inr JUndefined
     | Some (buf, p) =>
         if bool_decide (buf = str "null") then inl (JSON_NULL, p)
         else if bool_decide (buf = str "true") then inl (JSON_BOOL true, p)
         else if bool_decide (buf = str "false") then inl (JSON_BOOL false, p)
         else inl (JSON_EXCEPTION (str "unknown identifier: '" ++ buf ++ str "'"), pre ++ body)
     end
   else inl (json_error_new "unexpected character", pre ++ body)).
Proof. intros H1 H2. cbn [json_parse_value2]. cbv zeta. rewrite skip_blank_token by assumption. reflexivity. Qed.

Lemma decimal_back n fuel pre t : 0 <= n <= LLONG_MAX -> blank pre -> token_end t = true ->
  json_parse_value2 (S fuel) (pre ++ decimal n ++ t) = inl (JSON_INT n, t).
Proof.
  intros Hn Hpre Ht. rewrite value_at; [|exact Hpre|apply (print_opens sp (JSON_INT n)); constructor; exact Hn].
  cbv zeta. rewrite strtoll_decimal by assumption. destruct (dec_head 18 n (decimal_range n Hn)) as (d & l & E & D & F). unfold decimal. rewrite E. cbn [app peek].
  rewrite (proj2 (Z.eqb_neq (48 + d) 0)) by lia. replace ((48 + d =? 48) && (peek1 (48 + d :: l ++ t) =? 120)) with false.
  - unfold isdigit. destruct (Z.leb_spec 48 (48 + d)), (Z.leb_spec (48 + d) 57); try lia. reflexivity.
  - destruct (Z.eqb_spec (48 + d) 48); [|reflexivity]. destruct F as [_ ->]; [lia|]. unfold peek1. cbn [app tail andb]. symmetry.
    apply Z.eqb_neq. intros X. apply token_end_digit in Ht. rewrite X in Ht. discriminate.
Qed.

Lemma word_value w v fuel pre t : blank pre -> token_end t = true ->
  (w, v) ∈ [(str "null", JSON_NULL); (str "true", JSON_BOOL true); (str "false", JSON_BOOL false)] ->
  json_parse_value2 (S fuel) (pre ++ w ++ t) = inl (v, t).
Proof.
  intros Hpre Ht Hw. assert (Hi : exists c w', w = c :: w' /\ is_ident_first c = true /\ starts_token (w ++ t) = true /\
    parse_ident IDENT_BUF (w ++ t) = Some (w, t)).
  { assert (Hb : forall c w', Forall (fun c => ident_char c = true) w' -> Z.of_nat (length w') < 5 -> parse_ident IDENT_BUF (c :: w' ++ t) = Some (c :: w', t)).
    { intros c w' F L. unfold parse_ident. cbn [peek tail]. rewrite word_back; [reflexivity|exact F|lia|exact Ht|cbn [length]; lia]. }
    rewrite !elem_of_cons in Hw. destruct Hw as [[= -> ->]|[[= -> ->]|[[= -> ->]|Hw]]]; [..|inversion Hw];
      (eexists _, _; split; [vm_compute; reflexivity|]; split; [reflexivity|]; split; [reflexivity|]; apply (Hb _ _); [repeat constructor|cbn; lia]). }
  destruct Hi as (c & w' & E & Hc & Hs & Hp). rewrite value_at by assumption. cbv zeta. rewrite Hp.
  rewrite !elem_of_cons in Hw. destruct Hw as [[= -> ->]|[[= -> ->]|[[= -> ->]|Hw]]]; [..|inversion Hw]; reflexivity.
Qed.

Lemma value_back v : reads_back v.
Proof.
  induction v as [s|n|props IH|tab IH|b| | |m] using JSONValue_nested; intros Hp fuel pre t Hpre Ht Hf; inversion Hp as [? Hs|? Hn|? Hd Hf'|? Hf'| |]; subst;
    (destruct fuel as [|fuel]; [lia|]).
  - rewrite value_at by (assumption || reflexivity). cbn [print]. cbv zeta. rewrite parse_quote by assumption. reflexivity.
  - apply decimal_back; assumption.
  - rewrite value_at by (assumption || reflexivity). cbv zeta. cbn [print app peek tail Z.eqb Pos.eqb]. rewrite <- !app_assoc. cbn [app].
    change (isdigit 123) with false. cbv iota. change (fun nv => quote (fst nv) ++ sp ++ 58 :: sp ++ print sp (snd nv)) with member.
    rewrite members_back; try assumption; [reflexivity|]. cbn [print length] in Hf.
    change (fun nv => quote (fst nv) ++ sp ++ 58 :: sp ++ print sp (snd nv)) with member in Hf. rewrite !length_app in Hf. cbn [length] in Hf. lia.
  - rewrite value_at by (assumption || reflexivity). cbv zeta. cbn [print app peek tail Z.eqb Pos.eqb]. rewrite <- !app_assoc. cbn [app].
    change (isdigit 91) with false. cbv iota.
    rewrite elements_back; try assumption; [reflexivity|]. cbn [print length] in Hf. rewrite !length_app in Hf. cbn [length] in Hf. lia.
  - apply word_value; [assumption..|]. destruct b; set_solver.
  - apply word_value; [assumption..|]. set_solver.
Qed.

End Reading.

Lemma print_reads sp v : blank sp -> plain v -> json_parse_value (sp ++ print sp v ++ sp) = inl v.
Proof.
  intros Hsp Hv. unfold json_parse_value. rewrite (value_back sp Hsp v Hv) ; [|exact Hsp| |rewrite !length_app; lia].
  - replace (json_is_error v) with false by (destruct Hv; reflexivity).
    pose proof (skip_blank sp [] Hsp) as H. rewrite app_nil_r in H. rewrite H. reflexivity.
  - destruct Hsp as [|d sp Hd Hs|l sp _ _|l sp _ _]; [reflexivity| |reflexivity..].
    pose proof (blank_end (d :: sp) 0 [] (blank_space d sp Hd Hs) eq_refl) as H. exact H.
Qed.

(** C30. Reading a printed value gives it back.  For every value a text can stand
    for (strings of at most 4095 characters without a zero, property names that
    are not empty and distinct, numbers from 0 to the largest 64-bit integer) and
    every separator of white space and comments, [json_parse_value] on the value
    printed with that separator around every token returns the value. *)
Theorem json_roundtrip (sp : list Z) (v : JSONValue) : blank sp -> plain v -> json_parse_value (sp ++ print sp v ++ sp) = inl v.
Proof. apply print_reads. Qed.

(** ** What the reader also accepts and refuses *)

(** The error of an element is stored as its value and the reader goes on. *)
Remark error_inside_array : json_parse_value (str "[,]") = inl (JSON_ARRAY [json_error_new "unexpected character"]).
Proof. vm_compute. reflexivity. Qed.

(** A negative number is an error, but for the form [strtoll] accepts behind the
    prefix of a hexadecimal one; a leading zero means octal. *)
Remark number_forms : json_parse_value (str "-5") = inl (json_error_new "unexpected character") /\
  json_parse_value (str "0x-5") = inl (JSON_INT (-5)) /\ json_parse_value (str "010") = inl (JSON_INT 8).
Proof. vm_compute. auto. Qed.

(** An identifier of 128 characters at the place of a value prints a buffer that
    is not terminated. *)
Remark long_identifier_undefined : json_parse_value (repeat 97 128) = inr JUndefined.
Proof. vm_compute. reflexivity. Qed.

(** ** Witnesses *)

(** A comment that spans a line, a block comment and a blank. *)
Definition demo_blank : list Z := str " // x" ++ 10 :: str "/* y */".
Definition demo_json : JSONValue :=
  JSON_OBJ [(str "version", JSON_INT 1); (str "list", JSON_ARRAY [JSON_BOOL true; JSON_NULL; JSON_STR (34 :: str "a")]); (str "empty", JSON_OBJ [])].

Lemma demo_is_blank : blank demo_blank.
Proof.
  apply (blank_space 32); [reflexivity|]. apply (blank_line (str " x") (str "/* y */")).
  - repeat constructor; discriminate.
  - apply (blank_block (str " y ") []); [reflexivity|constructor].
Qed.

Lemma demo_is_plain : plain demo_json.
Proof.
  assert (N : forall s, bool_decide (Forall (fun c => c <> 0) s) && (length s <=? 4095)%nat = true -> name_ok s).
  { intros s H. apply andb_prop in H. destruct H as [H1 H2]. split; [apply Nat.leb_le, H2|apply bool_decide_eq_true in H1; exact H1]. }
  constructor; [apply (bool_decide_eq_true_1 (NoDup _)); reflexivity|].
  repeat (apply List.Forall_cons || apply List.Forall_nil); (split; [discriminate|]; split; [apply N; reflexivity|]); cbn [snd].
  - constructor. unfold LLONG_MAX. lia.
  - constructor. repeat (apply List.Forall_cons || apply List.Forall_nil); constructor. apply N. reflexivity.
  - constructor; constructor.
Qed.

Lemma json_roundtrip_witness : json_parse_value (demo_blank ++ print demo_blank demo_json ++ demo_blank) = inl demo_json.
Proof. apply (json_roundtrip demo_blank demo_json); [exact demo_is_blank|exact demo_is_plain]. Defined.

Lemma short_no_long_ident p : (length p < 128)%nat -> long_ident p -> False.
Proof. intros H (w & t & u & -> & _ & L). rewrite !length_app in H. lia. Qed.

Lemma json_parse_total_witness : exists v, json_parse_value (str "{a: [1, }") = inl v /\ json_ok v.
Proof. apply (json_parse_total (str "{a: [1, }")). apply short_no_long_ident. cbn. lia. Defined.
