(* ===== verification/Config.v ===== *)
(** * The configuration

    [src/machine.cpp], [load_elf_and_fake_the_config] of
    [src/majordomo_main.cpp] and the part of [virt_machine_main] in
    [src/riscv_machine.cpp] that makes the parameters of a machine: the reader
    of the configuration file, the files it names and the options that override
    it.  The host's files are a function from names to contents, the offset of
    the local time is an argument.  A failure ends the program ([exit (1)]), so
    the parameters are a result and not a state; messages are left out. *)

From Stdlib Require Import String Ascii.
From S2P Require Import Prelude RiscvDefs State Fdt Boot Json.
Open Scope Z_scope.

(** ** Results *)

(** [Failed] is the answer -1 or a call of [exit (1)]. *)
Inductive cstop := Failed | Aborted (e : jstop).

Definition cbind {A B} (m : A + cstop) (k : A -> B + cstop) : B + cstop :=
  match m with inl a => k a | inr e => inr e end.

Declare Scope cfg_scope.
Delimit Scope cfg_scope with cfg.
Notation "'let!' x ':=' m 'in' k" := (cbind m (fun x => k))
  (at level 10, x pattern, m at level 100, k at level 200) : cfg_scope.
Open Scope cfg_scope.

(** The fields of [VirtMachineParams] the configuration file sets; the tables
    of devices are as long as their counts. *)
Record Config := mkConfig {
  ram_base : Z;
  ram_bytes : Z;
  bios : option (list Z);
  vga_bios : option (list Z);
  kernel : option (list Z);
  initrd : option (list Z);
  cmdline : option (list Z);
  htif_base : Z;
  max_insns : Z;
  snapshot_load_name : option (list Z);
  tab_drive : list (list Z * option (list Z));
  tab_fs : list (list Z * list Z);
  tab_eth : list (list Z * option (list Z));
  display_device : option (list Z);
  width : Z;
  height : Z;
  input_device : option (list Z);
  accel_enable : bool;
  rtc_local_time : bool;
  cpus : Z;
  addr_len : Z;
  logfile : option (list Z);
  bootrom_name : option (list Z)
}.

Definition MAX_DRIVE_DEVICE : Z := 4.
Definition MAX_ETH_DEVICE : Z := 1.
Definition VM_CONFIG_VERSION : Z := 1.
Definition virt_machine_get_name : list Z := str "riscv64".

(** ** Properties *)

Definition vm_get_int (obj : JSONValue) (name : string) : Z + cstop :=
  match json_object_get obj (str name) with JSON_INT v => inl v | _ => inr Failed end.

(** The value the variable holds afterwards. *)
Definition vm_get_uint64_opt (obj : JSONValue) (name : string) (pval : Z) : Z :=
  match json_object_get obj (str name) with JSON_INT v => uN 64 v | _ => pval end.

Definition vm_get_str2 (obj : JSONValue) (name : list Z) (is_opt : bool) : option (list Z) + cstop :=
  match json_object_get obj name with
  | JSON_UNDEFINED => if is_opt then inl None else inr Failed
  | JSON_STR s => inl (Some s)
  | _ => inr Failed
  end.

Definition vm_get_str (obj : JSONValue) (name : string) : list Z + cstop :=
  match vm_get_str2 obj (str name) false with
  | inl (Some s) => inl s
  | inl None => inr Failed
  | inr e => inr e
  end.

Definition vm_get_str_opt (obj : JSONValue) (name : string) : option (list Z) + cstop := vm_get_str2 obj (str name) true.

(** ** The command line *)

(** The offset to UTC in the form of the variable TZ. *)
Definition two_digits (n : Z) : list Z := if n <? 10 then 48 :: decimal n else decimal n.
Definition tz_string (gmtoff : Z) : list Z :=
  let n := Z.quot gmtoff 60 in
  let '(sg, n) := if n <? 0 then (43, - n) else (45, n) in
  str "UTC" ++ sg :: two_digits (Z.quot n 60) ++ 58 :: two_digits (Z.rem n 60).

(** The name between the braces, cut at 31 characters. *)
Fixpoint var_loop (q p : list Z) : list Z * list Z :=
  match p with
  | [] => (q, [])
  | c :: p' => if c =? 125 then (q, p) else var_loop (if Z.of_nat (length q) <? 31 then q ++ [c] else q) p'
  end.

Fixpoint subst_loop (fuel : nat) (gmtoff : Z) (p : list Z) : list Z :=
  match fuel, p with
  | O, _ | _, [] => []
  | S fuel, c :: p' =>
      if (c =? 36) && (peek p' =? 123) then
        let '(var_name, p) := var_loop [] (tail p') in
        let p := if peek p =? 125 then tail p else p in
        (if bool_decide (var_name = str "TZ") then tz_string gmtoff else []) ++ subst_loop fuel gmtoff p
      else c :: subst_loop fuel gmtoff p'
  end.

Definition cmdline_subst (gmtoff : Z) (cmdline : list Z) : list Z := subst_loop (length cmdline) gmtoff cmdline.

(** ** The tables of devices *)

(** [snprintf (buf, ..., "drive%d", n)] *)
Definition numbered (name : string) (n : nat) : list Z := str name ++ decimal (Z.of_nat n).

(** One more drive than the table holds is refused, so the loop ends within
    [MAX_DRIVE_DEVICE + 1] rounds; the same holds for the others. *)
Fixpoint get_drives (fuel : nat) (cfg : JSONValue) (tab : list (list Z * option (list Z))) : list (list Z * option (list Z)) + cstop :=
  match fuel with
  | O => inr (Aborted JFuel)
  | S fuel =>
      let obj := json_object_get cfg (numbered "drive" (length tab)) in
      if json_is_undefined obj then inl tab
      else if MAX_DRIVE_DEVICE <=? Z.of_nat (length tab) then inr Failed
      else
        let! filename := vm_get_str obj "file" in
        let! device := vm_get_str_opt obj "device" in
        get_drives fuel cfg (tab ++ [(filename, device)])
  end.

Definition default_tag (n : nat) : list Z := if (n =? 0)%nat then str "/dev/root" else numbered "/dev/root" n.

Fixpoint get_filesystems (fuel : nat) (cfg : JSONValue) (tab : list (list Z * list Z)) : list (list Z * list Z) + cstop :=
  match fuel with
  | O => inr (Aborted JFuel)
  | S fuel =>
      let obj := json_object_get cfg (numbered "fs" (length tab)) in
      if json_is_undefined obj then inl tab
      else if MAX_DRIVE_DEVICE <=? Z.of_nat (length tab) then inr Failed
      else
        let! filename := vm_get_str obj "file" in
        let! tag := vm_get_str_opt obj "tag" in
        get_filesystems fuel cfg (tab ++ [(filename, match tag with Some t => t | None => default_tag (length tab) end)])
  end.

Fixpoint get_eths (fuel : nat) (cfg : JSONValue) (tab : list (list Z * option (list Z))) : list (list Z * option (list Z)) + cstop :=
  match fuel with
  | O => inr (Aborted JFuel)
  | S fuel =>
      let obj := json_object_get cfg (numbered "eth" (length tab)) in
      if json_is_undefined obj then inl tab
      else if MAX_ETH_DEVICE <=? Z.of_nat (length tab) then inr Failed
      else
        let! driver := vm_get_str obj "driver" in
        let! ifname := if bool_decide (driver = str "tap") then cbind (vm_get_str obj "ifname") (fun s => inl (Some s)) else inl None in
        get_eths fuel cfg (tab ++ [(driver, ifname)])
  end.

(** ** The configuration file *)

Definition get_version (cfg : JSONValue) : unit + cstop :=
  let! version := vm_get_int cfg "version" in
  if negb (version =? VM_CONFIG_VERSION) then inr Failed
  else
    let! machine := vm_get_str cfg "machine" in
    if bool_decide (machine = virt_machine_get_name) then inl tt else inr Failed.

Definition get_display (p : Config) (cfg : JSONValue) : (option (list Z) * Z * Z * option (list Z)) + cstop :=
  let obj := json_object_get cfg (str "display0") in
  if json_is_undefined obj then inl (None, width p, height p, vga_bios p)
  else
    let! device := vm_get_str obj "device" in
    let! w := vm_get_int obj "width" in
    let! h := vm_get_int obj "height" in
    let! vga := vm_get_str_opt obj "vga_bios" in
    inl (Some device, w, h, vga).

Definition get_accel (p : Config) (cfg : JSONValue) : bool + cstop :=
  let! accel := vm_get_str_opt cfg "accel" in
  match accel with
  | None => inl (accel_enable p)
  | Some s => if bool_decide (s = str "none") then inl false else if bool_decide (s = str "auto") then inl true else inr Failed
  end.

Definition get_rtc (p : Config) (cfg : JSONValue) : bool + cstop :=
  match json_object_get cfg (str "rtc_local_time") with
  | JSON_UNDEFINED => inl (rtc_local_time p)
  | JSON_BOOL b => inl b
  | _ => inr Failed
  end.

(** The body of [virt_machine_parse_config] behind the reader. *)
Definition read_config (gmtoff : Z) (p : Config) (cfg : JSONValue) : Config + cstop :=
  let! _ := get_version cfg in
  let base := vm_get_uint64_opt cfg "memory_base_addr" (ram_base p) in
  let! mb := vm_get_int cfg "memory_size" in
  let! bios := vm_get_str_opt cfg "bios" in
  let! kernel := vm_get_str_opt cfg "kernel" in
  let! initrd := vm_get_str_opt cfg "initrd" in
  let! line := vm_get_str_opt cfg "cmdline" in
  let line := match line with Some s => Some (cmdline_subst gmtoff s) | None => cmdline p end in
  let htif := vm_get_uint64_opt cfg "htif_base_addr" (htif_base p) in
  let maxinsns := vm_get_uint64_opt cfg "maxinsns" 0 in
  let! load := vm_get_str_opt cfg "load" in
  let! drives := get_drives 5 cfg (tab_drive p) in
  let! fss := get_filesystems 5 cfg (tab_fs p) in
  let! eths := get_eths 2 cfg (tab_eth p) in
  let! screen := get_display p cfg in
  let '(display, w, h, vga) := screen in
  let! input := vm_get_str_opt cfg "input_device" in
  let! accel := get_accel p cfg in
  let! rtc := get_rtc p cfg in
  let ncpus := vm_get_uint64_opt cfg "ncpus" (cpus p) in
  let len := vm_get_uint64_opt cfg "physical_addr_len" (addr_len p) in
  let! log := vm_get_str_opt cfg "logfile" in
  let! rom := vm_get_str_opt cfg "bootrom" in
  inl (mkConfig base (uN 64 (Z.shiftl (uN 64 mb) 20)) bios vga kernel initrd line htif maxinsns load drives fss eths display w h input accel rtc ncpus len log rom).

Definition virt_machine_parse_config (gmtoff : Z) (p : Config) (config_file_str : list Z) : Config + cstop :=
  match json_parse_value_len config_file_str with
  | inr e => inr (Aborted e)
  | inl cfg => if json_is_error cfg then inr Failed else read_config gmtoff p cfg
  end.

(** [virt_machine_set_defaults] on these fields. *)
Definition default_config : Config :=
  mkConfig 0x80000000 0 None None None None None 0 0 None [] [] [] None 0 0 None false false 0 40 None None.

(** ** Objects with optional properties *)

(** The properties that are present, and the value of one of them. *)
Definition present_fields (fs : list (list Z * option JSONValue)) : list (list Z * JSONValue) :=
  flat_map (fun f => match snd f with Some v => [(fst f, v)] | None => [] end) fs.

Definition object (fs : list (list Z * option JSONValue)) : JSONValue := JSON_OBJ (present_fields fs).

Lemma present_names fs n : n ∉ map fst fs -> json_object_get2 (present_fields fs) n = None.
Proof.
  induction fs as [|[m o] fs IH]; intros H; [reflexivity|]. cbn [map fst] in H. apply not_elem_of_cons in H. destruct H as [H1 H2].
  unfold present_fields. cbn [flat_map fst snd]. fold (present_fields fs). destruct o as [v|]; [|apply IH, H2].
  cbn [app json_object_get2]. rewrite bool_decide_false by congruence. apply IH, H2.
Qed.

Lemma get_absent fs n : n ∉ map fst fs -> json_object_get (object fs) n = JSON_UNDEFINED.
Proof. intros H. unfold json_object_get, object. rewrite present_names by exact H. reflexivity. Qed.

Lemma get_field fs i n o : NoDup (map fst fs) -> fs !! i = Some (n, o) ->
  json_object_get (object fs) n = match o with Some v => v | None => JSON_UNDEFINED end.
Proof.
  intros Hd Hi. unfold json_object_get, object. assert (H : json_object_get2 (present_fields fs) n = o); [|rewrite H; destruct o; reflexivity].
  revert i Hi. induction fs as [|[m o'] fs IH]; intros i Hi; [discriminate|]. cbn [map fst] in Hd. apply list.NoDup_cons in Hd. destruct Hd as [Hm Hd].
  unfold present_fields. cbn [flat_map fst snd]. fold (present_fields fs). destruct i as [|i]; cbn in Hi.
  - injection Hi as -> ->. destruct o as [v|]; [cbn; rewrite bool_decide_true by reflexivity; reflexivity|]. cbn [app]. apply present_names, Hm.
  - assert (m <> n). { intros ->. apply Hm. apply (list_elem_of_fmap_2 fst _ (n, o)). apply list_elem_of_lookup. eauto. }
    destruct o'; cbn [app json_object_get2]; [rewrite bool_decide_false by assumption|]; apply (IH Hd i Hi).
Qed.

Lemma present_sublist fs n v : (n, v) ∈ present_fields fs -> (n, Some v) ∈ fs.
Proof.
  intros H. apply list_elem_of_In, in_flat_map in H. destruct H as ([m o] & Hi & Hv). cbn in Hv. destruct o as [w|]; [|destruct Hv].
  destruct Hv as [[= -> ->]|[]]. apply list_elem_of_In, Hi.
Qed.

Lemma present_NoDup fs : NoDup (map fst fs) -> NoDup (map fst (present_fields fs)).
Proof.
  induction fs as [|[m o] fs IH]; intros H; [constructor|]. cbn [map fst] in H. apply list.NoDup_cons in H. destruct H as [Hm Hd].
  unfold present_fields. cbn [flat_map fst snd]. fold (present_fields fs). destruct o as [v|]; [|apply IH, Hd].
  cbn [app map fst]. apply list.NoDup_cons. split; [|apply IH, Hd]. intros Hi. apply Hm.
  apply list_elem_of_fmap in Hi. destruct Hi as ([k w] & -> & Hi). apply present_sublist in Hi. apply (list_elem_of_fmap_2 fst _ (k, Some w)), Hi.
Qed.

Lemma object_plain fs : NoDup (map fst fs) -> Forall (fun n => n <> [] /\ name_ok n) (map fst fs) ->
  Forall (fun f => forall v, snd f = Some v -> plain v) fs -> plain (object fs).
Proof.
  intros Hd Hn Hv. constructor; [apply present_NoDup, Hd|]. apply list.Forall_forall. intros [n v] Hi. apply present_sublist in Hi. cbn [fst snd].
  rewrite list.Forall_forall in Hn. rewrite list.Forall_forall in Hv. destruct (Hn n) as [H1 H2]; [apply (list_elem_of_fmap_2 fst _ (n, Some v)), Hi|].
  split; [exact H1|]. split; [exact H2|]. apply (Hv _ Hi). reflexivity.
Qed.

(** ** Writing a configuration *)

Definition opt_str (o : option (list Z)) : option JSONValue := option_map JSON_STR o.

Definition drive_fields (d : list Z * option (list Z)) : list (list Z * option JSONValue) :=
  [(str "file", Some (JSON_STR (fst d))); (str "device", opt_str (snd d))].
Definition fs_fields (d : list Z * list Z) : list (list Z * option JSONValue) :=
  [(str "file", Some (JSON_STR (fst d))); (str "tag", Some (JSON_STR (snd d)))].
Definition eth_fields (d : list Z * option (list Z)) : list (list Z * option JSONValue) :=
  [(str "driver", Some (JSON_STR (fst d))); (str "ifname", opt_str (snd d))].
Definition display_fields (c : Config) (d : list Z) : list (list Z * option JSONValue) :=
  [(str "device", Some (JSON_STR d)); (str "width", Some (JSON_INT (width c))); (str "height", Some (JSON_INT (height c)));
   (str "vga_bios", opt_str (vga_bios c))].

Definition config_fields (c : Config) : list (list Z * option JSONValue) :=
  [(str "version", Some (JSON_INT 1));
   (str "machine", Some (JSON_STR (str "riscv64")));
   (str "memory_base_addr", Some (JSON_INT (ram_base c)));
   (str "memory_size", Some (JSON_INT (Z.shiftr (ram_bytes c) 20)));
   (str "bios", opt_str (bios c));
   (str "kernel", opt_str (kernel c));
   (str "initrd", opt_str (initrd c));
   (str "cmdline", opt_str (cmdline c));
   (str "htif_base_addr", Some (JSON_INT (htif_base c)));
   (str "maxinsns", Some (JSON_INT (max_insns c)));
   (str "load", opt_str (snapshot_load_name c));
   (str "drive0", option_map (fun d => object (drive_fields d)) (tab_drive c !! 0%nat));
   (str "drive1", option_map (fun d => object (drive_fields d)) (tab_drive c !! 1%nat));
   (str "drive2", option_map (fun d => object (drive_fields d)) (tab_drive c !! 2%nat));
   (str "drive3", option_map (fun d => object (drive_fields d)) (tab_drive c !! 3%nat));
   (str "fs0", option_map (fun d => object (fs_fields d)) (tab_fs c !! 0%nat));
   (str "fs1", option_map (fun d => object (fs_fields d)) (tab_fs c !! 1%nat));
   (str "fs2", option_map (fun d => object (fs_fields d)) (tab_fs c !! 2%nat));
   (str "fs3", option_map (fun d => object (fs_fields d)) (tab_fs c !! 3%nat));
   (str "eth0", option_map (fun d => object (eth_fields d)) (tab_eth c !! 0%nat));
   (str "display0", option_map (fun d => object (display_fields c d)) (display_device c));
   (str "input_device", opt_str (input_device c));
   (str "accel", Some (JSON_STR (str (if accel_enable c then "auto" else "none"))));
   (str "rtc_local_time", Some (JSON_BOOL (rtc_local_time c)));
   (str "ncpus", Some (JSON_INT (cpus c)));
   (str "physical_addr_len", Some (JSON_INT (addr_len c)));
   (str "logfile", opt_str (logfile c));
   (str "bootrom", opt_str (bootrom_name c))].

Definition config_json (c : Config) : JSONValue := object (config_fields c).

Definition opt_ok (o : option (list Z)) : Prop := forall s, o = Some s -> name_ok s.
Definition num_ok (n : Z) : Prop := 0 <= n <= LLONG_MAX.

(** The configurations that can be written: names the reader accepts, a size
    of memory in megabytes, a command line without variables, no more devices
    than there is room for, an interface for tap devices only. *)
Record writable (c : Config) : Prop := {
  wr_nums : num_ok (ram_base c) /\ num_ok (htif_base c) /\ num_ok (max_insns c) /\ num_ok (cpus c) /\ num_ok (addr_len c);
  wr_mem : exists mb, 0 <= mb < 2 ^ 44 /\ ram_bytes c = mb * 2 ^ 20;
  wr_files : opt_ok (bios c) /\ opt_ok (kernel c) /\ opt_ok (initrd c) /\ opt_ok (snapshot_load_name c) /\ opt_ok (logfile c) /\ opt_ok (bootrom_name c);
  wr_cmdline : opt_ok (cmdline c) /\ forall s, cmdline c = Some s -> Forall (fun x => x <> 36) s;
  wr_input : opt_ok (input_device c);
  wr_drives : (length (tab_drive c) <= 4)%nat /\ Forall (fun d => name_ok (fst d) /\ opt_ok (snd d)) (tab_drive c);
  wr_fs : (length (tab_fs c) <= 4)%nat /\ Forall (fun d => name_ok (fst d) /\ name_ok (snd d)) (tab_fs c);
  wr_eth : (length (tab_eth c) <= 1)%nat /\
    Forall (fun d => name_ok (fst d) /\ opt_ok (snd d) /\ (fst d = str "tap" <-> is_Some (snd d))) (tab_eth c);
  wr_display : match display_device c with
    | Some d => name_ok d /\ num_ok (width c) /\ num_ok (height c) /\ opt_ok (vga_bios c)
    | None => width c = 0 /\ height c = 0 /\ vga_bios c = None
    end
}.

(** ** Reading it back *)

Definition field_names : list (list Z) :=
  map str ["version"; "machine"; "memory_base_addr"; "memory_size"; "bios"; "kernel"; "initrd"; "cmdline"; "htif_base_addr"; "maxinsns"; "load";
    "drive0"; "drive1"; "drive2"; "drive3"; "fs0"; "fs1"; "fs2"; "fs3"; "eth0"; "display0"; "input_device"; "accel"; "rtc_local_time";
    "ncpus"; "physical_addr_len"; "logfile"; "bootrom"]%string.

Lemma names_distinct (l : list (list Z)) : bool_decide (NoDup l) = true -> NoDup l.
Proof. apply bool_decide_eq_true_1. Qed.

Lemma name_ok_dec s : bool_decide (Forall (fun c => c <> 0) s) && (length s <=? 4095)%nat = true -> name_ok s.
Proof. intros H. apply andb_prop in H. destruct H as [H1 H2]. split; [apply Nat.leb_le, H2|apply bool_decide_eq_true in H1; exact H1]. Qed.

Lemma names_ok l : forallb (fun s => negb (bool_decide (s = [])) && (bool_decide (Forall (fun c => c <> 0) s) && (length s <=? 4095)%nat)) l = true ->
  Forall (fun n => n <> [] /\ name_ok n) l.
Proof.
  intros H. rewrite forallb_forall in H. apply List.Forall_forall. intros s Hs. specialize (H s Hs). apply andb_prop in H. destruct H as [H1 H2].
  split; [|apply name_ok_dec, H2]. apply negb_true_iff, bool_decide_eq_false in H1. exact H1.
Qed.

Lemma field_of fs names i n o : map fst fs = names -> bool_decide (NoDup names) = true -> fs !! i = Some (n, o) ->
  json_object_get (object fs) n = match o with Some v => v | None => JSON_UNDEFINED end.
Proof. intros <- H. apply get_field. apply names_distinct, H. Qed.

Lemma get_opt_str obj n o : json_object_get obj (str n) = match opt_str o with Some v => v | None => JSON_UNDEFINED end -> vm_get_str_opt obj n = inl o.
Proof. unfold vm_get_str_opt, vm_get_str2. intros ->. destruct o; reflexivity. Qed.

Lemma get_some_str obj n s : json_object_get obj (str n) = JSON_STR s -> vm_get_str obj n = inl s.
Proof. unfold vm_get_str, vm_get_str2. intros ->. reflexivity. Qed.

Lemma get_some_int obj n v : json_object_get obj (str n) = JSON_INT v -> vm_get_int obj n = inl v.
Proof. unfold vm_get_int. intros ->. reflexivity. Qed.

Lemma get_some_uint64 obj n v d : json_object_get obj (str n) = JSON_INT v -> num_ok v -> vm_get_uint64_opt obj n d = v.
Proof. unfold vm_get_uint64_opt. intros -> H. apply u_small. unfold num_ok, LLONG_MAX, in_u in *. lia. Qed.

Lemma subst_plain gmtoff s : Forall (fun x => x <> 36) s -> forall fuel, (length s <= fuel)%nat -> subst_loop fuel gmtoff s = s.
Proof.
  induction 1 as [|c s Hc _ IH]; intros [|fuel] Hf; cbn [length] in Hf; try reflexivity; [lia|]. cbn [subst_loop].
  destruct (Z.eqb_spec c 36); [contradiction|]. cbn [andb]. rewrite IH by lia. reflexivity.
Qed.

(** The loops over the tables. *)
Lemma drives_read cfg ds : (length ds <= 4)%nat ->
  (forall i, (i <= 4)%nat -> json_object_get cfg (numbered "drive" i) = match ds !! i with Some d => object (drive_fields d) | None => JSON_UNDEFINED end) ->
  forall k fuel, (k <= length ds)%nat -> (length ds - k < fuel)%nat -> get_drives fuel cfg (firstn k ds) = inl ds.
Proof.
  intros Hl Hg k fuel. revert k. induction fuel as [|fuel IH]; intros k Hk Hf; [lia|]. cbn [get_drives]. cbv zeta.
  rewrite length_firstn, Nat.min_l, Hg by lia. destruct (ds !! k) as [[f d]|] eqn:E.
  - assert (Hk' : (k < length ds)%nat) by (apply lookup_lt_Some in E; exact E).
    change (json_is_undefined (object (drive_fields (f, d)))) with false. cbv iota. unfold MAX_DRIVE_DEVICE. destruct (Z.leb_spec 4 (Z.of_nat k)); [lia|].
    rewrite (get_some_str _ _ f), (get_opt_str _ _ d).
    + cbn [cbind]. rewrite <- (take_S_r _ _ _ E). apply IH; lia.
    + apply (field_of _ [str "file"; str "device"] 1%nat); reflexivity.
    + apply (field_of _ [str "file"; str "device"] 0%nat _ (Some (JSON_STR f))); reflexivity.
  - cbn. apply lookup_ge_None in E. rewrite firstn_all2 by lia. reflexivity.
Qed.

Lemma filesystems_read cfg ds : (length ds <= 4)%nat ->
  (forall i, (i <= 4)%nat -> json_object_get cfg (numbered "fs" i) = match ds !! i with Some d => object (fs_fields d) | None => JSON_UNDEFINED end) ->
  forall k fuel, (k <= length ds)%nat -> (length ds - k < fuel)%nat -> get_filesystems fuel cfg (firstn k ds) = inl ds.
Proof.
  intros Hl Hg k fuel. revert k. induction fuel as [|fuel IH]; intros k Hk Hf; [lia|]. cbn [get_filesystems]. cbv zeta.
  rewrite length_firstn, Nat.min_l, Hg by lia. destruct (ds !! k) as [[f d]|] eqn:E.
  - assert (Hk' : (k < length ds)%nat) by (apply lookup_lt_Some in E; exact E).
    change (json_is_undefined (object (fs_fields (f, d)))) with false. cbv iota. unfold MAX_DRIVE_DEVICE. destruct (Z.leb_spec 4 (Z.of_nat k)); [lia|].
    rewrite (get_some_str _ _ f), (get_opt_str _ _ (Some d)).
    + cbn [cbind]. rewrite <- (take_S_r _ _ _ E). apply IH; lia.
    + apply (field_of _ [str "file"; str "tag"] 1%nat); reflexivity.
    + apply (field_of _ [str "file"; str "tag"] 0%nat _ (Some (JSON_STR f))); reflexivity.
  - cbn. apply lookup_ge_None in E. rewrite firstn_all2 by lia. reflexivity.
Qed.

Lemma eths_read cfg ds : (length ds <= 1)%nat ->
  Forall (fun d => fst d = str "tap" <-> is_Some (snd d)) ds ->
  (forall i, (i <= 1)%nat -> json_object_get cfg (numbered "eth" i) = match ds !! i with Some d => object (eth_fields d) | None => JSON_UNDEFINED end) ->
  get_eths 2 cfg [] = inl ds.
Proof.
  intros Hl Ht Hg. pose proof (Hg 0%nat ltac:(lia)) as H0. pose proof (Hg 1%nat ltac:(lia)) as H1. cbn [get_eths length]. cbv zeta. rewrite H0.
  destruct ds as [|[f d] [|]]; cbn [lookup list_lookup length] in *; [reflexivity| |lia].
  apply List.Forall_cons_iff in Ht. destruct Ht as [Ht _]. cbn [fst snd] in Ht.
  change (json_is_undefined (object (eth_fields (f, d)))) with false. cbv iota. change (MAX_ETH_DEVICE <=? Z.of_nat 0) with false. cbv iota.
  rewrite (get_some_str _ _ f) by (apply (field_of _ [str "driver"; str "ifname"] 0%nat _ (Some (JSON_STR f))); reflexivity). cbn [cbind].
  assert (Hd : (if bool_decide (f = str "tap") then cbind (vm_get_str (object (eth_fields (f, d))) "ifname") (fun s => inl (Some s)) else inl None) = inl d :> (option (list Z) + cstop)).
  { destruct (bool_decide (f = str "tap")) eqn:E.
    - apply bool_decide_eq_true in E. destruct (proj1 Ht E) as [s ->].
      rewrite (get_some_str _ _ s) by (apply (field_of _ [str "driver"; str "ifname"] 1%nat _ (Some (JSON_STR s))); reflexivity). reflexivity.
    - apply bool_decide_eq_false in E. destruct d as [s|]; [|reflexivity]. destruct E. apply Ht. eauto. }
  rewrite Hd. cbn [cbind app length]. rewrite H1. reflexivity.
Qed.

Lemma config_get c i n o : config_fields c !! i = Some (n, o) ->
  json_object_get (config_json c) n = match o with Some v => v | None => JSON_UNDEFINED end.
Proof. apply (field_of _ field_names); [reflexivity|vm_compute; reflexivity]. Qed.

Lemma config_absent c n : bool_decide (n ∈ field_names) = false -> json_object_get (config_json c) n = JSON_UNDEFINED.
Proof. intros H. apply get_absent. apply bool_decide_eq_false in H. exact H. Qed.

(** The numbered properties of a table. *)
Lemma config_table {A} c name (ds : list A) (f : A -> JSONValue) (i0 k : nat) : (length ds <= k)%nat ->
  (forall i, (i < k)%nat -> config_fields c !! (i0 + i)%nat = Some (numbered name i, option_map f (ds !! i))) ->
  bool_decide (numbered name k ∈ field_names) = false ->
  forall i, (i <= k)%nat -> json_object_get (config_json c) (numbered name i) = match ds !! i with Some d => f d | None => JSON_UNDEFINED end.
Proof.
  intros Hl Hf Hk i Hi. destruct (decide (i < k)%nat) as [H|H].
  - rewrite (config_get c _ _ _ (Hf i H)). destruct (ds !! i); reflexivity.
  - replace i with k by lia. rewrite config_absent by exact Hk. rewrite lookup_ge_None_2 by lia. reflexivity.
Qed.

Lemma version_read c : get_version (config_json c) = inl tt.
Proof.
  unfold get_version. rewrite (get_some_int _ _ 1) by apply (config_get c 0%nat _ (Some (JSON_INT 1)) eq_refl). cbn [cbind].
  rewrite (get_some_str _ _ (str "riscv64")) by apply (config_get c 1%nat _ (Some (JSON_STR (str "riscv64"))) eq_refl). reflexivity.
Qed.

Section Written.
Context (c : Config) (Hc : writable c).

Lemma memory_read : exists mb, vm_get_int (config_json c) "memory_size" = inl mb /\ uN 64 (Z.shiftl (uN 64 mb) 20) = ram_bytes c.
Proof.
  destruct (wr_mem c Hc) as (mb & Hr & E). exists mb. split.
  - apply get_some_int. rewrite (config_get c 3%nat _ (Some (JSON_INT (Z.shiftr (ram_bytes c) 20))) eq_refl). f_equal.
    rewrite E, Z.shiftr_div_pow2, Z.div_mul by lia. reflexivity.
  - rewrite (u_small 64 mb) by (unfold in_u; lia). rewrite Z.shiftl_mul_pow2, E by lia. apply u_small. unfold in_u. lia.
Qed.

Lemma display_read p : width p = 0 -> height p = 0 -> vga_bios p = None ->
  get_display p (config_json c) = inl (display_device c, width c, height c, vga_bios c).
Proof.
  intros E1 E2 E3. unfold get_display. rewrite (config_get c 20%nat _ (option_map (fun d => object (display_fields c d)) (display_device c)) eq_refl).
  pose proof (wr_display c Hc) as H. destruct (display_device c) as [d|]; cbn [option_map].
  - change (json_is_undefined (object _)) with false. cbv iota.
    set (ns := [str "device"; str "width"; str "height"; str "vga_bios"]).
    rewrite (get_some_str _ _ d) by (apply (field_of _ ns 0%nat _ (Some (JSON_STR d))); reflexivity). cbn [cbind].
    rewrite (get_some_int _ _ (width c)) by (apply (field_of _ ns 1%nat _ (Some (JSON_INT (width c)))); reflexivity). cbn [cbind].
    rewrite (get_some_int _ _ (height c)) by (apply (field_of _ ns 2%nat _ (Some (JSON_INT (height c)))); reflexivity). cbn [cbind].
    rewrite (get_opt_str _ _ (vga_bios c)) by (apply (field_of _ ns 3%nat _ (opt_str (vga_bios c))); reflexivity). reflexivity.
  - destruct H as (-> & -> & ->). rewrite E1, E2, E3. reflexivity.
Qed.

Lemma accel_read p : get_accel p (config_json c) = inl (accel_enable c).
Proof.
  unfold get_accel. rewrite (get_opt_str _ _ (Some (str (if accel_enable c then "auto" else "none")))) by
    apply (config_get c 22%nat _ (Some (JSON_STR (str (if accel_enable c then "auto" else "none")))) eq_refl).
  cbn [cbind]. destruct (accel_enable c); reflexivity.
Qed.

Lemma rtc_read p : get_rtc p (config_json c) = inl (rtc_local_time c).
Proof. unfold get_rtc. rewrite (config_get c 23%nat _ (Some (JSON_BOOL (rtc_local_time c))) eq_refl). reflexivity. Qed.

Lemma string_read i n o : config_fields c !! i = Some (str n, opt_str o) -> vm_get_str_opt (config_json c) n = inl o.
Proof. intros H. apply get_opt_str, (config_get c i), H. Qed.

Lemma number_read i n v d : config_fields c !! i = Some (str n, Some (JSON_INT v)) -> num_ok v -> vm_get_uint64_opt (config_json c) n d = v.
Proof. intros H. apply get_some_uint64. exact (config_get c i _ _ H). Qed.

Lemma cmdline_read gmtoff : match cmdline c with Some s => Some (cmdline_subst gmtoff s) | None => None end = cmdline c.
Proof.
  destruct (wr_cmdline c Hc) as [_ H]. destruct (cmdline c) as [s|]; [|reflexivity]. unfold cmdline_subst.
  rewrite (subst_plain gmtoff s (H s eq_refl)) by lia. reflexivity.
Qed.

Lemma tables_read : get_drives 5 (config_json c) [] = inl (tab_drive c) /\ get_filesystems 5 (config_json c) [] = inl (tab_fs c) /\
  get_eths 2 (config_json c) [] = inl (tab_eth c).
Proof.
  destruct (wr_drives c Hc) as [D1 _]. destruct (wr_fs c Hc) as [F1 _]. destruct (wr_eth c Hc) as [E1 E2]. split; [|split].
  - apply (drives_read (config_json c) (tab_drive c) D1) with (k := 0%nat); [|lia..].
    apply (config_table c "drive" (tab_drive c) (fun d => object (drive_fields d)) 11 4 D1); [|vm_compute; reflexivity].
    intros i Hi. do 4 (destruct i as [|i]; [reflexivity|]). lia.
  - apply (filesystems_read (config_json c) (tab_fs c) F1) with (k := 0%nat); [|lia..].
    apply (config_table c "fs" (tab_fs c) (fun d => object (fs_fields d)) 15 4 F1); [|vm_compute; reflexivity].
    intros i Hi. do 4 (destruct i as [|i]; [reflexivity|]). lia.
  - apply (eths_read (config_json c) (tab_eth c) E1); [exact (List.Forall_impl _ (fun d Hd => proj2 (proj2 Hd)) E2)|].
    apply (config_table c "eth" (tab_eth c) (fun d => object (eth_fields d)) 19 1 E1); [|vm_compute; reflexivity].
    intros i Hi. destruct i as [|i]; [reflexivity|lia].
Qed.

Lemma config_read gmtoff : read_config gmtoff default_config (config_json c) = inl c.
Proof.
  destruct (wr_nums c Hc) as (N1 & N2 & N3 & N4 & N5). destruct memory_read as (mb & M1 & M2). destruct tables_read as (T1 & T2 & T3).
  unfold read_config. rewrite version_read, M1. cbn [cbind].
  rewrite (string_read 4 "bios" _ eq_refl), (string_read 5 "kernel" _ eq_refl), (string_read 6 "initrd" _ eq_refl), (string_read 7 "cmdline" _ eq_refl),
    (string_read 10 "load" _ eq_refl), (string_read 21 "input_device" _ eq_refl), (string_read 26 "logfile" _ eq_refl), (string_read 27 "bootrom" _ eq_refl).
  cbn [cbind tab_drive tab_fs tab_eth default_config cmdline]. rewrite T1, T2, T3, accel_read, rtc_read. cbn [cbind].
  rewrite display_read by reflexivity. cbn [cbind].
  rewrite (number_read 2 "memory_base_addr" _ _ eq_refl N1), (number_read 8 "htif_base_addr" _ _ eq_refl N2), (number_read 9 "maxinsns" _ _ eq_refl N3),
    (number_read 24 "ncpus" _ _ eq_refl N4), (number_read 25 "physical_addr_len" _ _ eq_refl N5), M2, cmdline_read. destruct c; reflexivity.
Qed.

End Written.

(** ** The text of a configuration *)

Definition no_zero (s : list Z) : Prop := Forall (fun c : Z => c <> 0) s.

Lemma dec_no_zero k : forall n, 0 <= n -> no_zero (dec k n).
Proof.
  induction k as [|k IH]; intros n Hn; cbn [dec]; [repeat constructor; lia|]. destruct (n <? 10); [repeat constructor; lia|].
  apply List.Forall_app. split; [apply IH, Z.div_pos; lia|]. pose proof (Z.mod_pos_bound n 10 ltac:(lia)). repeat constructor; lia.
Qed.

Lemma quote_no_zero s : no_zero s -> no_zero (quote s).
Proof.
  intros H. unfold quote. constructor; [discriminate|]. apply List.Forall_app. split; [|repeat constructor; discriminate].
  induction H as [|c s Hc _ IH]; [constructor|]. cbn [flat_map]. apply List.Forall_app. split; [|exact IH].
  unfold esc. destruct (c =? 34), (c =? 92), (c =? 10); repeat constructor; (discriminate || exact Hc).
Qed.

Lemma separated_no_zero sp items : no_zero sp -> Forall no_zero items -> no_zero (separated sp items).
Proof.
  intros Hs. induction 1 as [|x items Hx Hi IH]; [constructor|]. cbn [separated]. destruct items as [|y items].
  - apply List.Forall_app; auto.
  - apply List.Forall_app. split; [exact Hx|]. apply List.Forall_app. split; [exact Hs|]. constructor; [discriminate|].
    apply List.Forall_app. split; [exact Hs|exact IH].
Qed.

Lemma print_no_zero sp v : no_zero sp -> plain v -> no_zero (print sp v).
Proof.
  intros Hs. induction v as [s|n|props IH|tab IH|b| | |m] using JSONValue_nested; intros Hp; inversion Hp as [? Ho|? Hn|? Hd Hf|? Hf| |]; subst; cbn [print].
  - apply quote_no_zero, Ho.
  - apply dec_no_zero, Hn.
  - constructor; [discriminate|]. apply List.Forall_app. split; [exact Hs|]. apply List.Forall_app. split; [|repeat constructor; discriminate].
    apply separated_no_zero; [exact Hs|]. apply List.Forall_map. apply List.Forall_forall. rewrite List.Forall_forall in IH, Hf. intros nv Hi. destruct (Hf nv Hi) as (_ & [_ Hn] & Hv).
    apply List.Forall_app. split; [apply quote_no_zero, Hn|]. apply List.Forall_app. split; [exact Hs|]. constructor; [discriminate|].
    apply List.Forall_app. split; [exact Hs|]. apply IH; assumption.
  - constructor; [discriminate|]. apply List.Forall_app. split; [exact Hs|]. apply List.Forall_app. split; [|repeat constructor; discriminate].
    apply separated_no_zero; [exact Hs|]. apply List.Forall_map. apply List.Forall_forall. rewrite List.Forall_forall in IH, Hf. intros v Hi. apply IH; [exact Hi|apply Hf, Hi].
  - destruct b; repeat constructor; discriminate.
  - repeat constructor; discriminate.
Qed.

Definition value_plain (o : option JSONValue) : Prop := forall v, o = Some v -> plain v.

Lemma str_plain o : opt_ok o -> value_plain (opt_str o).
Proof. intros H v. destruct o as [s|]; intros [= <-]. constructor. apply H. reflexivity. Qed.
Lemma some_plain v : plain v -> value_plain (Some v).
Proof. intros H w [= <-]. exact H. Qed.

Lemma object_fields_plain fs names : map fst fs = names ->
  bool_decide (NoDup names) && forallb (fun s => negb (bool_decide (s = [])) && (bool_decide (Forall (fun c => c <> 0) s) && (length s <=? 4095)%nat)) names = true ->
  Forall (fun f => value_plain (snd f)) fs -> plain (object fs).
Proof.
  intros E H Hv. apply andb_prop in H. destruct H as [H1 H2]. apply object_plain; [rewrite E; apply names_distinct, H1|rewrite E; apply names_ok, H2|exact Hv].
Qed.

Lemma table_plain {A} (P : A -> Prop) (f : A -> JSONValue) ds i : (forall d, P d -> plain (f d)) -> Forall P ds -> value_plain (option_map f (ds !! i)).
Proof.
  intros Hf Hd v. destruct (ds !! i) as [d|] eqn:E; intros [= <-]. apply Hf. exact (Forall_lookup_1 _ _ _ _ Hd E).
Qed.

Ltac each_field := repeat (apply List.Forall_cons || apply List.Forall_nil); cbn [snd].

Lemma config_plain c : writable c -> plain (config_json c).
Proof.
  intros [N M Fi Cm In Dr Fs Et Di]. destruct N as (N1 & N2 & N3 & N4 & N5), Fi as (F1 & F2 & F3 & F4 & F5 & F6), Cm as [C1 _], Dr as [_ D], Fs as [_ F], Et as [_ E].
  destruct M as (mb & M1 & M2).
  assert (Hd : forall i, value_plain (option_map (fun d => object (drive_fields d)) (tab_drive c !! i))).
  { intros i. apply (table_plain _ _ _ i) with (2 := D). intros [f d] [H1 H2]. apply (object_fields_plain _ [str "file"; str "device"]); [reflexivity..|].
    each_field; [apply some_plain; constructor; exact H1|apply str_plain, H2]. }
  assert (Hf : forall i, value_plain (option_map (fun d => object (fs_fields d)) (tab_fs c !! i))).
  { intros i. apply (table_plain _ _ _ i) with (2 := F). intros [f d] [H1 H2]. apply (object_fields_plain _ [str "file"; str "tag"]); [reflexivity..|].
    each_field; apply some_plain; constructor; assumption. }
  assert (He : forall i, value_plain (option_map (fun d => object (eth_fields d)) (tab_eth c !! i))).
  { intros i. apply (table_plain _ _ _ i) with (2 := E). intros [f d] (H1 & H2 & _). apply (object_fields_plain _ [str "driver"; str "ifname"]); [reflexivity..|].
    each_field; [apply some_plain; constructor; exact H1|apply str_plain, H2]. }
  assert (Hs : value_plain (option_map (fun d => object (display_fields c d)) (display_device c))).
  { intros v. destruct (display_device c) as [d|]; intros [= <-]. destruct Di as (I1 & I2 & I3 & I4).
    apply (object_fields_plain _ [str "device"; str "width"; str "height"; str "vga_bios"]); [reflexivity..|].
    each_field; try (apply some_plain; constructor; assumption). apply str_plain, I4. }
  apply (object_fields_plain _ field_names); [reflexivity|vm_compute; reflexivity|]. unfold config_fields.
  each_field; try apply Hd; try apply Hf; try apply He; try exact Hs; try (apply str_plain; assumption); apply some_plain; constructor; try assumption.
  - unfold LLONG_MAX. lia.
  - apply name_ok_dec. reflexivity.
  - rewrite M2, Z.shiftr_div_pow2, Z.div_mul by lia. unfold LLONG_MAX. lia.
  - destruct (accel_enable c); apply name_ok_dec; reflexivity.
Qed.

Lemma config_text_read gmtoff sp c : blank sp -> Forall (fun x => x <> 0) sp -> writable c ->
  virt_machine_parse_config gmtoff default_config (sp ++ print sp (config_json c) ++ sp) = inl c.
Proof.
  intros Hb Hz Hc. pose proof (config_plain c Hc) as Hp. unfold virt_machine_parse_config, json_parse_value_len.
  rewrite c_text_id by (rewrite !List.Forall_app; split; [exact Hz|split; [apply print_no_zero; assumption|exact Hz]]).
  rewrite print_reads by assumption. apply config_read, Hc.
Qed.

(** C28. A configuration that is written is read back.  For every configuration
    that can be written and every separator of white space and comments,
    [virt_machine_parse_config], started from the defaults, on the text of the
    JSON object that describes it returns exactly that configuration: every
    property under its name, devices in their order, absent options absent. *)
Theorem config_roundtrip (gmtoff : Z) (sp : list Z) (c : Config) :
  blank sp -> Forall (fun x => x <> 0) sp -> writable c ->
  virt_machine_parse_config gmtoff default_config (sp ++ print sp (config_json c) ++ sp) = inl c.
Proof. apply config_text_read. Qed.

(** ** Any text *)

(** The answer satisfies [P] or the program ends with a message. *)
Definition sound {A} (P : A -> Prop) (r : A + cstop) : Prop :=
  match r with inl a => P a | inr Failed => True | inr (Aborted _) => False end.

Lemma sound_bind {A B} (P : A -> Prop) (Q : B -> Prop) m (k : A -> B + cstop) : sound P m -> (forall a, P a -> sound Q (k a)) -> sound Q (cbind m k).
Proof. destruct m as [a|[|e]]; cbn; [auto|auto|intros []]. Qed.

Definition value_ok (v : JSONValue) : Prop := v = JSON_UNDEFINED \/ json_ok v.

Lemma get_ok v n : value_ok v -> value_ok (json_object_get v n).
Proof.
  intros [->|H]; [left; reflexivity|]. destruct H as [| |props Hp| | | |]; try (left; reflexivity). cbn [json_object_get].
  induction Hp as [|[m w] props [_ Hw] _ IH]; [left; reflexivity|]. cbn [json_object_get2]. destruct (bool_decide _); [right; exact Hw|exact IH].
Qed.

Lemma sound_str2 obj n b : value_ok obj -> sound (fun o => opt_ok o /\ (b = false -> o <> None)) (vm_get_str2 obj n b).
Proof.
  intros H. apply (get_ok obj n) in H. unfold vm_get_str2. destruct H as [->|H].
  - destruct b; cbn; [|exact I]. split; [intros s|]; discriminate.
  - inversion H; subst; cbn; try exact I. split; [|discriminate]. intros t [= <-]. split; assumption.
Qed.

Lemma sound_str obj n : value_ok obj -> sound name_ok (vm_get_str obj n).
Proof.
  intros H. pose proof (sound_str2 obj (str n) false H) as S. unfold vm_get_str. destruct (vm_get_str2 _ _ _) as [[s|]|[]]; cbn in *; auto.
  apply (proj1 S). reflexivity.
Qed.

Lemma sound_str_opt obj n : value_ok obj -> sound opt_ok (vm_get_str_opt obj n).
Proof. intros H. pose proof (sound_str2 obj (str n) true H) as S. unfold vm_get_str_opt. destruct (vm_get_str2 _ _ _) as [|[]]; cbn in *; tauto. Qed.

Lemma sound_int obj n : value_ok obj -> sound (fun v => LLONG_MIN <= v <= LLONG_MAX) (vm_get_int obj n).
Proof.
  intros H. apply (get_ok obj (str n)) in H. unfold vm_get_int. destruct H as [->|H]; [exact I|]. inversion H; subst; cbn; try exact I. assumption.
Qed.

Lemma uint64_range obj n d : in_u 64 d -> in_u 64 (vm_get_uint64_opt obj n d).
Proof. intros H. unfold vm_get_uint64_opt. destruct (json_object_get _ _); try exact H. apply u_range. lia. Qed.

Lemma sound_drives cfg : value_ok cfg -> forall fuel tab, (4 - length tab < fuel)%nat -> (length tab <= 4)%nat ->
  Forall (fun d => name_ok (fst d) /\ opt_ok (snd d)) tab ->
  sound (fun ds => (length ds <= 4)%nat /\ Forall (fun d => name_ok (fst d) /\ opt_ok (snd d)) ds) (get_drives fuel cfg tab).
Proof.
  intros Hc. induction fuel as [|fuel IH]; intros tab Hf Hl Ht; [lia|]. cbn [get_drives]. cbv zeta.
  pose proof (get_ok cfg (numbered "drive" (length tab)) Hc) as Ho. destruct (json_is_undefined _); [split; assumption|].
  unfold MAX_DRIVE_DEVICE. destruct (Z.leb_spec 4 (Z.of_nat (length tab))); [exact I|].
  eapply sound_bind; [apply sound_str, Ho|]. intros f F. eapply sound_bind; [apply sound_str_opt, Ho|]. intros d D.
  apply IH; [rewrite length_app; cbn; lia..|]. apply List.Forall_app. split; [exact Ht|]. constructor; [split; assumption|constructor].
Qed.

Lemma default_tag_ok n : (n < 4)%nat -> name_ok (default_tag n).
Proof. intros H. do 4 (destruct n as [|n]; [apply name_ok_dec; vm_compute; reflexivity|]). lia. Qed.

Lemma sound_filesystems cfg : value_ok cfg -> forall fuel tab, (4 - length tab < fuel)%nat -> (length tab <= 4)%nat ->
  Forall (fun d => name_ok (fst d) /\ name_ok (snd d)) tab ->
  sound (fun ds => (length ds <= 4)%nat /\ Forall (fun d => name_ok (fst d) /\ name_ok (snd d)) ds) (get_filesystems fuel cfg tab).
Proof.
  intros Hc. induction fuel as [|fuel IH]; intros tab Hf Hl Ht; [lia|]. cbn [get_filesystems]. cbv zeta.
  pose proof (get_ok cfg (numbered "fs" (length tab)) Hc) as Ho. destruct (json_is_undefined _); [split; assumption|].
  unfold MAX_DRIVE_DEVICE. destruct (Z.leb_spec 4 (Z.of_nat (length tab))); [exact I|].
  eapply sound_bind; [apply sound_str, Ho|]. intros f F. eapply sound_bind; [apply sound_str_opt, Ho|]. intros d D.
  apply IH; [rewrite length_app; cbn; lia..|]. apply List.Forall_app. split; [exact Ht|]. constructor; [|constructor].
  split; [exact F|]. cbn [snd]. destruct d as [t|]; [apply D; reflexivity|apply default_tag_ok; lia].
Qed.

Lemma sound_eths cfg : value_ok cfg ->
  sound (fun ds => (length ds <= 1)%nat /\ Forall (fun d => name_ok (fst d) /\ opt_ok (snd d)) ds) (get_eths 2 cfg []).
Proof.
  intros Hc. cbn [get_eths length]. cbv zeta. pose proof (get_ok cfg (numbered "eth" 0) Hc) as Ho.
  destruct (json_is_undefined _); [split; [cbn; lia|constructor]|]. change (MAX_ETH_DEVICE <=? Z.of_nat 0) with false. cbv iota.
  eapply sound_bind; [apply sound_str, Ho|]. intros f F. eapply (sound_bind opt_ok).
  { destruct (bool_decide _); [|intros s; discriminate]. eapply sound_bind; [apply sound_str, Ho|]. intros s S t [= <-]. exact S. }
  intros d D. cbn [app length]. destruct (json_is_undefined _); [|exact I]. split; [cbn; lia|]. constructor; [split; assumption|constructor].
Qed.

(** What the rest of the program relies on: tables within their arrays, 64-bit
    numbers, names that are C strings of at most 4095 characters. *)
Record config_bounded (c : Config) : Prop := {
  cb_nums : in_u 64 (ram_base c) /\ in_u 64 (ram_bytes c) /\ in_u 64 (htif_base c) /\ in_u 64 (max_insns c) /\ in_u 64 (cpus c) /\ in_u 64 (addr_len c);
  cb_files : opt_ok (bios c) /\ opt_ok (kernel c) /\ opt_ok (initrd c) /\ opt_ok (snapshot_load_name c) /\ opt_ok (logfile c) /\ opt_ok (bootrom_name c);
  cb_input : opt_ok (input_device c);
  cb_drives : (length (tab_drive c) <= 4)%nat /\ Forall (fun d => name_ok (fst d) /\ opt_ok (snd d)) (tab_drive c);
  cb_fs : (length (tab_fs c) <= 4)%nat /\ Forall (fun d => name_ok (fst d) /\ name_ok (snd d)) (tab_fs c);
  cb_eth : (length (tab_eth c) <= 1)%nat /\ Forall (fun d => name_ok (fst d) /\ opt_ok (snd d)) (tab_eth c);
  cb_display : opt_ok (display_device c) /\ opt_ok (vga_bios c) /\ LLONG_MIN <= width c <= LLONG_MAX /\ LLONG_MIN <= height c <= LLONG_MAX
}.

Lemma sound_version cfg : value_ok cfg -> sound (fun _ => True) (get_version cfg).
Proof.
  intros H. eapply sound_bind; [apply sound_int, H|]. intros v _. destruct (negb _); [exact I|]. eapply sound_bind; [apply sound_str, H|].
  intros m _. destruct (bool_decide _); exact I.
Qed.

Lemma sound_display cfg : value_ok cfg ->
  sound (fun r => let '(d, w, h, v) := r in opt_ok d /\ opt_ok v /\ LLONG_MIN <= w <= LLONG_MAX /\ LLONG_MIN <= h <= LLONG_MAX) (get_display default_config cfg).
Proof.
  intros H. unfold get_display. pose proof (get_ok cfg (str "display0") H) as Ho. destruct (json_is_undefined _).
  { cbn. unfold LLONG_MIN, LLONG_MAX. split; [intros s; discriminate|]. split; [intros s; discriminate|]. lia. }
  eapply sound_bind; [apply sound_str, Ho|]. intros d D. eapply sound_bind; [apply sound_int, Ho|]. intros w W.
  eapply sound_bind; [apply sound_int, Ho|]. intros h Hh. eapply sound_bind; [apply sound_str_opt, Ho|]. intros v V.
  cbn. split; [intros s [= <-]; exact D|]. split; [exact V|]. split; assumption.
Qed.

Lemma sound_accel cfg : value_ok cfg -> sound (fun _ => True) (get_accel default_config cfg).
Proof.
  intros H. eapply sound_bind; [apply sound_str_opt, H|]. intros [s|] _; [|exact I]. destruct (bool_decide _); [exact I|]. destruct (bool_decide _); exact I.
Qed.

Lemma sound_rtc cfg : sound (fun _ => True) (get_rtc default_config cfg).
Proof. unfold get_rtc. destruct (json_object_get _ _); exact I. Qed.

Lemma sound_config gmtoff cfg : value_ok cfg -> sound config_bounded (read_config gmtoff default_config cfg).
Proof.
  intros H. unfold read_config. eapply sound_bind; [apply sound_version, H|]. intros _ _. eapply sound_bind; [apply sound_int, H|]. intros mb _.
  do 4 (eapply sound_bind; [apply sound_str_opt, H|]; intros ? ?). eapply sound_bind; [apply sound_str_opt, H|]. intros ? ?.
  eapply sound_bind; [apply sound_drives; [exact H|cbn; lia|cbn; lia|constructor]|]. intros ? ?.
  eapply sound_bind; [apply sound_filesystems; [exact H|cbn; lia|cbn; lia|constructor]|]. intros ? ?.
  eapply sound_bind; [apply sound_eths, H|]. intros ? ?. eapply sound_bind; [apply sound_display, H|]. intros [[[d w] h] v] (D1 & D2 & D3 & D4).
  eapply sound_bind; [apply sound_str_opt, H|]. intros ? ?. eapply sound_bind; [apply sound_accel, H|]. intros ? _.
  eapply sound_bind; [apply sound_rtc|]. intros ? _. do 2 (eapply sound_bind; [apply sound_str_opt, H|]; intros ? ?).
  constructor; try assumption; [|repeat (split; [assumption|]); assumption..].
  assert (Z0 : forall n, 0 <= n < 2 ^ 64 -> in_u 64 n) by (intros n; unfold in_u; lia).
  repeat (split; [first [apply uint64_range, Z0; cbn; lia|apply u_range; lia]|]). apply uint64_range, Z0. cbn. lia.
Qed.

(** C29. No configuration file breaks the tables.  For every text without an
    identifier of 128 characters or more [virt_machine_parse_config] returns: it
    refuses the file, or its configuration has at most four drives, four file
    systems and one network interface, the sizes of their arrays, numbers of 64
    bits and names that are C strings which fit the reader's buffer. *)
Theorem config_file_safe (gmtoff : Z) (text : list Z) : (long_ident (c_text text) -> False) ->
  virt_machine_parse_config gmtoff default_config text = inr Failed \/
  exists c, virt_machine_parse_config gmtoff default_config text = inl c /\ config_bounded c.
Proof.
  intros H. unfold virt_machine_parse_config, json_parse_value_len. destruct (parse_value_total (c_text text) H) as (cfg & -> & Hc).
  destruct (json_is_error cfg); [left; reflexivity|]. pose proof (sound_config gmtoff cfg (or_intror Hc)) as S.
  destruct (read_config gmtoff default_config cfg) as [c|[]]; [right; exists c; auto|left; reflexivity|destruct S].
Qed.

(** ** Witnesses *)

(** One drive, a tap interface, a RAM disk and a command line. *)
Definition demo_config : Config :=
  mkConfig 0x80000000 (2 ^ 20) (Some (str "fw.bin")) None None (Some (str "rd.img")) (Some (str "quiet")) 0 0 None
    [(str "disk.img", None)] [] [(str "tap", Some (str "tap0"))] None 0 0 None false true 2 40 None None.

Ltac opt_ok_tac := intros ? [= <-]; apply name_ok_dec; vm_compute; reflexivity.

Lemma demo_writable : writable demo_config.
Proof.
  constructor; cbn [demo_config ram_base ram_bytes htif_base max_insns cpus addr_len bios kernel initrd cmdline snapshot_load_name logfile bootrom_name
    input_device tab_drive tab_fs tab_eth display_device width height vga_bios].
  - unfold num_ok, LLONG_MAX. lia.
  - exists 1. lia.
  - repeat (split; [opt_ok_tac|]). opt_ok_tac.
  - split; [opt_ok_tac|]. intros s [= <-]. repeat constructor; discriminate.
  - opt_ok_tac.
  - split; [cbn; lia|]. constructor; [|constructor]. split; [apply name_ok_dec; vm_compute; reflexivity|opt_ok_tac].
  - split; [cbn; lia|constructor].
  - split; [cbn; lia|]. constructor; [|constructor]. cbn [fst snd]. split; [apply name_ok_dec; vm_compute; reflexivity|]. split; [opt_ok_tac|].
    split; [eauto|reflexivity].
  - repeat split.
Qed.

Lemma demo_blank_no_zero : Forall (fun x => x <> 0) demo_blank.
Proof. apply (bool_decide_eq_true_1 (Forall (fun x => x <> 0) demo_blank)). vm_compute. reflexivity. Qed.

Lemma config_roundtrip_witness :
  virt_machine_parse_config 0 default_config (demo_blank ++ print demo_blank (config_json demo_config) ++ demo_blank) = inl demo_config.
Proof. apply (config_roundtrip 0 demo_blank demo_config); [exact demo_is_blank|exact demo_blank_no_zero|exact demo_writable]. Defined.

Lemma config_file_safe_witness :
  virt_machine_parse_config 0 default_config (str "{version: 1}") = inr Failed \/
  exists c, virt_machine_parse_config 0 default_config (str "{version: 1}") = inl c /\ config_bounded c.
Proof. apply (config_file_safe 0 (str "{version: 1}")). apply short_no_long_ident. vm_compute. lia. Defined.

(** The variable TZ of the command line is replaced by the offset to UTC, any
    other variable by nothing. *)
Example cmdline_variables : cmdline_subst 19800 (str "tz=${TZ} x=${HOME}.") = str "tz=UTC-05:30 x=.".
Proof. vm_compute. reflexivity. Qed.
