(* ===== verification/Options.v ===== *)
(** * The command line

    The loop over the options in [virt_machine_main] of
    [src/riscv_machine.cpp].  [getopt_long] is the C library's: its results, the
    letter of each option with its argument, are the input.  Options of a build
    with [LIVECACHE] are left out.  A call of [usage] prints and ends the program,
    [Exit 1]; reading outside an argument is [Stopped Undefined]. *)

From Stdlib Require Import String Ascii.
From S2P Require Import Prelude RiscvDefs State Fdt Boot Json.
Open Scope Z_scope.

(** ** The variables the options set *)

Record Options := mkOptions {
  o_snapshot_load_name : option (list Z);
  o_snapshot_save_name : option (list Z);
  o_cmdline : option (list Z);
  o_ncpus : Z;
  o_maxinsns : Z;
  o_heartbeat : Z;
  o_exe_trace : Z;
  o_exe_trace_file_name : option (list Z);
  o_interactive : bool;
  o_stf_trace : option (list Z);
  o_stf_exit_on_stop_opc : bool;
  o_stf_memrecord_size_in_bits : bool;
  o_stf_trace_register_state : bool;
  o_stf_disable_memory_records : bool;
  o_stf_priv_modes : list Z;
  o_stf_force_zero_sha : bool;
  o_stf_insn_num_tracing : bool;
  o_stf_insn_start : Z;
  o_stf_insn_length : Z;
  o_simpoint_en_bbv : bool;
  o_simpoint_bb_file : option (list Z);
  o_simpoint_size : Z;
  o_memory_size_override : Z;
  o_memory_addr_override : Z;
  o_memory_addr_override_flag : bool;
  o_ignore_sbi_shutdown : bool;
  o_dump_memories : bool;
  o_bootrom_name : option (list Z);
  o_dtb_name : option (list Z);
  o_compact_bootrom : bool;
  o_reset_vector_override : Z;
  o_plic_base_addr_override : Z;
  o_plic_size_override : Z;
  o_clint_base_addr_override : Z;
  o_clint_size_override : Z;
  o_custom_extension : bool;
  o_simpoint_file : option (list Z);
  o_clear_ids : bool;
  o_allow_ctrlc : bool;
  o_show_enabled_extensions : bool;
  o_march_string : list Z
}.

Definition with_snapshot_load_name (v : option (list Z)) (o : Options) : Options :=
  mkOptions v o.(o_snapshot_save_name) o.(o_cmdline) o.(o_ncpus) o.(o_maxinsns) o.(o_heartbeat)
    o.(o_exe_trace) o.(o_exe_trace_file_name) o.(o_interactive) o.(o_stf_trace) o.(o_stf_exit_on_stop_opc)
    o.(o_stf_memrecord_size_in_bits) o.(o_stf_trace_register_state) o.(o_stf_disable_memory_records)
    o.(o_stf_priv_modes) o.(o_stf_force_zero_sha) o.(o_stf_insn_num_tracing) o.(o_stf_insn_start)
    o.(o_stf_insn_length) o.(o_simpoint_en_bbv) o.(o_simpoint_bb_file) o.(o_simpoint_size)
    o.(o_memory_size_override) o.(o_memory_addr_override) o.(o_memory_addr_override_flag)
    o.(o_ignore_sbi_shutdown) o.(o_dump_memories) o.(o_bootrom_name) o.(o_dtb_name) o.(o_compact_bootrom)
    o.(o_reset_vector_override) o.(o_plic_base_addr_override) o.(o_plic_size_override)
    o.(o_clint_base_addr_override) o.(o_clint_size_override) o.(o_custom_extension) o.(o_simpoint_file)
    o.(o_clear_ids) o.(o_allow_ctrlc) o.(o_show_enabled_extensions) o.(o_march_string).
Definition with_snapshot_save_name (v : option (list Z)) (o : Options) : Options :=
  mkOptions o.(o_snapshot_load_name) v o.(o_cmdline) o.(o_ncpus) o.(o_maxinsns) o.(o_heartbeat)
    o.(o_exe_trace) o.(o_exe_trace_file_name) o.(o_interactive) o.(o_stf_trace) o.(o_stf_exit_on_stop_opc)
    o.(o_stf_memrecord_size_in_bits) o.(o_stf_trace_register_state) o.(o_stf_disable_memory_records)
    o.(o_stf_priv_modes) o.(o_stf_force_zero_sha) o.(o_stf_insn_num_tracing) o.(o_stf_insn_start)
    o.(o_stf_insn_length) o.(o_simpoint_en_bbv) o.(o_simpoint_bb_file) o.(o_simpoint_size)
    o.(o_memory_size_override) o.(o_memory_addr_override) o.(o_memory_addr_override_flag)
    o.(o_ignore_sbi_shutdown) o.(o_dump_memories) o.(o_bootrom_name) o.(o_dtb_name) o.(o_compact_bootrom)
    o.(o_reset_vector_override) o.(o_plic_base_addr_override) o.(o_plic_size_override)
    o.(o_clint_base_addr_override) o.(o_clint_size_override) o.(o_custom_extension) o.(o_simpoint_file)
    o.(o_clear_ids) o.(o_allow_ctrlc) o.(o_show_enabled_extensions) o.(o_march_string).
Definition with_cmdline (v : option (list Z)) (o : Options) : Options :=
  mkOptions o.(o_snapshot_load_name) o.(o_snapshot_save_name) v o.(o_ncpus) o.(o_maxinsns) o.(o_heartbeat)
    o.(o_exe_trace) o.(o_exe_trace_file_name) o.(o_interactive) o.(o_stf_trace) o.(o_stf_exit_on_stop_opc)
    o.(o_stf_memrecord_size_in_bits) o.(o_stf_trace_register_state) o.(o_stf_disable_memory_records)
    o.(o_stf_priv_modes) o.(o_stf_force_zero_sha) o.(o_stf_insn_num_tracing) o.(o_stf_insn_start)
    o.(o_stf_insn_length) o.(o_simpoint_en_bbv) o.(o_simpoint_bb_file) o.(o_simpoint_size)
    o.(o_memory_size_override) o.(o_memory_addr_override) o.(o_memory_addr_override_flag)
    o.(o_ignore_sbi_shutdown) o.(o_dump_memories) o.(o_bootrom_name) o.(o_dtb_name) o.(o_compact_bootrom)
    o.(o_reset_vector_override) o.(o_plic_base_addr_override) o.(o_plic_size_override)
    o.(o_clint_base_addr_override) o.(o_clint_size_override) o.(o_custom_extension) o.(o_simpoint_file)
    o.(o_clear_ids) o.(o_allow_ctrlc) o.(o_show_enabled_extensions) o.(o_march_string).
Definition with_ncpus (v : Z) (o : Options) : Options :=
  mkOptions o.(o_snapshot_load_name) o.(o_snapshot_save_name) o.(o_cmdline) v o.(o_maxinsns) o.(o_heartbeat)
    o.(o_exe_trace) o.(o_exe_trace_file_name) o.(o_interactive) o.(o_stf_trace) o.(o_stf_exit_on_stop_opc)
    o.(o_stf_memrecord_size_in_bits) o.(o_stf_trace_register_state) o.(o_stf_disable_memory_records)
    o.(o_stf_priv_modes) o.(o_stf_force_zero_sha) o.(o_stf_insn_num_tracing) o.(o_stf_insn_start)
    o.(o_stf_insn_length) o.(o_simpoint_en_bbv) o.(o_simpoint_bb_file) o.(o_simpoint_size)
    o.(o_memory_size_override) o.(o_memory_addr_override) o.(o_memory_addr_override_flag)
    o.(o_ignore_sbi_shutdown) o.(o_dump_memories) o.(o_bootrom_name) o.(o_dtb_name) o.(o_compact_bootrom)
    o.(o_reset_vector_override) o.(o_plic_base_addr_override) o.(o_plic_size_override)
    o.(o_clint_base_addr_override) o.(o_clint_size_override) o.(o_custom_extension) o.(o_simpoint_file)
    o.(o_clear_ids) o.(o_allow_ctrlc) o.(o_show_enabled_extensions) o.(o_march_string).
Definition with_maxinsns (v : Z) (o : Options) : Options :=
  mkOptions o.(o_snapshot_load_name) o.(o_snapshot_save_name) o.(o_cmdline) o.(o_ncpus) v o.(o_heartbeat)
    o.(o_exe_trace) o.(o_exe_trace_file_name) o.(o_interactive) o.(o_stf_trace) o.(o_stf_exit_on_stop_opc)
    o.(o_stf_memrecord_size_in_bits) o.(o_stf_trace_register_state) o.(o_stf_disable_memory_records)
    o.(o_stf_priv_modes) o.(o_stf_force_zero_sha) o.(o_stf_insn_num_tracing) o.(o_stf_insn_start)
    o.(o_stf_insn_length) o.(o_simpoint_en_bbv) o.(o_simpoint_bb_file) o.(o_simpoint_size)
    o.(o_memory_size_override) o.(o_memory_addr_override) o.(o_memory_addr_override_flag)
    o.(o_ignore_sbi_shutdown) o.(o_dump_memories) o.(o_bootrom_name) o.(o_dtb_name) o.(o_compact_bootrom)
    o.(o_reset_vector_override) o.(o_plic_base_addr_override) o.(o_plic_size_override)
    o.(o_clint_base_addr_override) o.(o_clint_size_override) o.(o_custom_extension) o.(o_simpoint_file)
    o.(o_clear_ids) o.(o_allow_ctrlc) o.(o_show_enabled_extensions) o.(o_march_string).
Definition with_heartbeat (v : Z) (o : Options) : Options :=
  mkOptions o.(o_snapshot_load_name) o.(o_snapshot_save_name) o.(o_cmdline) o.(o_ncpus) o.(o_maxinsns) v
    o.(o_exe_trace) o.(o_exe_trace_file_name) o.(o_interactive) o.(o_stf_trace) o.(o_stf_exit_on_stop_opc)
    o.(o_stf_memrecord_size_in_bits) o.(o_stf_trace_register_state) o.(o_stf_disable_memory_records)
    o.(o_stf_priv_modes) o.(o_stf_force_zero_sha) o.(o_stf_insn_num_tracing) o.(o_stf_insn_start)
    o.(o_stf_insn_length) o.(o_simpoint_en_bbv) o.(o_simpoint_bb_file) o.(o_simpoint_size)
    o.(o_memory_size_override) o.(o_memory_addr_override) o.(o_memory_addr_override_flag)
    o.(o_ignore_sbi_shutdown) o.(o_dump_memories) o.(o_bootrom_name) o.(o_dtb_name) o.(o_compact_bootrom)
    o.(o_reset_vector_override) o.(o_plic_base_addr_override) o.(o_plic_size_override)
    o.(o_clint_base_addr_override) o.(o_clint_size_override) o.(o_custom_extension) o.(o_simpoint_file)
    o.(o_clear_ids) o.(o_allow_ctrlc) o.(o_show_enabled_extensions) o.(o_march_string).
Definition with_exe_trace (v : Z) (o : Options) : Options :=
  mkOptions o.(o_snapshot_load_name) o.(o_snapshot_save_name) o.(o_cmdline) o.(o_ncpus) o.(o_maxinsns)
    o.(o_heartbeat) v o.(o_exe_trace_file_name) o.(o_interactive) o.(o_stf_trace) o.(o_stf_exit_on_stop_opc)
    o.(o_stf_memrecord_size_in_bits) o.(o_stf_trace_register_state) o.(o_stf_disable_memory_records)
    o.(o_stf_priv_modes) o.(o_stf_force_zero_sha) o.(o_stf_insn_num_tracing) o.(o_stf_insn_start)
    o.(o_stf_insn_length) o.(o_simpoint_en_bbv) o.(o_simpoint_bb_file) o.(o_simpoint_size)
    o.(o_memory_size_override) o.(o_memory_addr_override) o.(o_memory_addr_override_flag)
    o.(o_ignore_sbi_shutdown) o.(o_dump_memories) o.(o_bootrom_name) o.(o_dtb_name) o.(o_compact_bootrom)
    o.(o_reset_vector_override) o.(o_plic_base_addr_override) o.(o_plic_size_override)
    o.(o_clint_base_addr_override) o.(o_clint_size_override) o.(o_custom_extension) o.(o_simpoint_file)
    o.(o_clear_ids) o.(o_allow_ctrlc) o.(o_show_enabled_extensions) o.(o_march_string).
Definition with_exe_trace_file_name (v : option (list Z)) (o : Options) : Options :=
  mkOptions o.(o_snapshot_load_name) o.(o_snapshot_save_name) o.(o_cmdline) o.(o_ncpus) o.(o_maxinsns)
    o.(o_heartbeat) o.(o_exe_trace) v o.(o_interactive) o.(o_stf_trace) o.(o_stf_exit_on_stop_opc)
    o.(o_stf_memrecord_size_in_bits) o.(o_stf_trace_register_state) o.(o_stf_disable_memory_records)
    o.(o_stf_priv_modes) o.(o_stf_force_zero_sha) o.(o_stf_insn_num_tracing) o.(o_stf_insn_start)
    o.(o_stf_insn_length) o.(o_simpoint_en_bbv) o.(o_simpoint_bb_file) o.(o_simpoint_size)
    o.(o_memory_size_override) o.(o_memory_addr_override) o.(o_memory_addr_override_flag)
    o.(o_ignore_sbi_shutdown) o.(o_dump_memories) o.(o_bootrom_name) o.(o_dtb_name) o.(o_compact_bootrom)
    o.(o_reset_vector_override) o.(o_plic_base_addr_override) o.(o_plic_size_override)
    o.(o_clint_base_addr_override) o.(o_clint_size_override) o.(o_custom_extension) o.(o_simpoint_file)
    o.(o_clear_ids) o.(o_allow_ctrlc) o.(o_show_enabled_extensions) o.(o_march_string).
Definition with_interactive (v : bool) (o : Options) : Options :=
  mkOptions o.(o_snapshot_load_name) o.(o_snapshot_save_name) o.(o_cmdline) o.(o_ncpus) o.(o_maxinsns)
    o.(o_heartbeat) o.(o_exe_trace) o.(o_exe_trace_file_name) v o.(o_stf_trace) o.(o_stf_exit_on_stop_opc)
    o.(o_stf_memrecord_size_in_bits) o.(o_stf_trace_register_state) o.(o_stf_disable_memory_records)
    o.(o_stf_priv_modes) o.(o_stf_force_zero_sha) o.(o_stf_insn_num_tracing) o.(o_stf_insn_start)
    o.(o_stf_insn_length) o.(o_simpoint_en_bbv) o.(o_simpoint_bb_file) o.(o_simpoint_size)
    o.(o_memory_size_override) o.(o_memory_addr_override) o.(o_memory_addr_override_flag)
    o.(o_ignore_sbi_shutdown) o.(o_dump_memories) o.(o_bootrom_name) o.(o_dtb_name) o.(o_compact_bootrom)
    o.(o_reset_vector_override) o.(o_plic_base_addr_override) o.(o_plic_size_override)
    o.(o_clint_base_addr_override) o.(o_clint_size_override) o.(o_custom_extension) o.(o_simpoint_file)
    o.(o_clear_ids) o.(o_allow_ctrlc) o.(o_show_enabled_extensions) o.(o_march_string).
Definition with_stf_trace (v : option (list Z)) (o : Options) : Options :=
  mkOptions o.(o_snapshot_load_name) o.(o_snapshot_save_name) o.(o_cmdline) o.(o_ncpus) o.(o_maxinsns)
    o.(o_heartbeat) o.(o_exe_trace) o.(o_exe_trace_file_name) o.(o_interactive) v o.(o_stf_exit_on_stop_opc)
    o.(o_stf_memrecord_size_in_bits) o.(o_stf_trace_register_state) o.(o_stf_disable_memory_records)
    o.(o_stf_priv_modes) o.(o_stf_force_zero_sha) o.(o_stf_insn_num_tracing) o.(o_stf_insn_start)
    o.(o_stf_insn_length) o.(o_simpoint_en_bbv) o.(o_simpoint_bb_file) o.(o_simpoint_size)
    o.(o_memory_size_override) o.(o_memory_addr_override) o.(o_memory_addr_override_flag)
    o.(o_ignore_sbi_shutdown) o.(o_dump_memories) o.(o_bootrom_name) o.(o_dtb_name) o.(o_compact_bootrom)
    o.(o_reset_vector_override) o.(o_plic_base_addr_override) o.(o_plic_size_override)
    o.(o_clint_base_addr_override) o.(o_clint_size_override) o.(o_custom_extension) o.(o_simpoint_file)
    o.(o_clear_ids) o.(o_allow_ctrlc) o.(o_show_enabled_extensions) o.(o_march_string).
Definition with_stf_exit_on_stop_opc (v : bool) (o : Options) : Options :=
  mkOptions o.(o_snapshot_load_name) o.(o_snapshot_save_name) o.(o_cmdline) o.(o_ncpus) o.(o_maxinsns)
    o.(o_heartbeat) o.(o_exe_trace) o.(o_exe_trace_file_name) o.(o_interactive) o.(o_stf_trace) v
    o.(o_stf_memrecord_size_in_bits) o.(o_stf_trace_register_state) o.(o_stf_disable_memory_records)
    o.(o_stf_priv_modes) o.(o_stf_force_zero_sha) o.(o_stf_insn_num_tracing) o.(o_stf_insn_start)
    o.(o_stf_insn_length) o.(o_simpoint_en_bbv) o.(o_simpoint_bb_file) o.(o_simpoint_size)
    o.(o_memory_size_override) o.(o_memory_addr_override) o.(o_memory_addr_override_flag)
    o.(o_ignore_sbi_shutdown) o.(o_dump_memories) o.(o_bootrom_name) o.(o_dtb_name) o.(o_compact_bootrom)
    o.(o_reset_vector_override) o.(o_plic_base_addr_override) o.(o_plic_size_override)
    o.(o_clint_base_addr_override) o.(o_clint_size_override) o.(o_custom_extension) o.(o_simpoint_file)
    o.(o_clear_ids) o.(o_allow_ctrlc) o.(o_show_enabled_extensions) o.(o_march_string).
Definition with_stf_memrecord_size_in_bits (v : bool) (o : Options) : Options :=
  mkOptions o.(o_snapshot_load_name) o.(o_snapshot_save_name) o.(o_cmdline) o.(o_ncpus) o.(o_maxinsns)
    o.(o_heartbeat) o.(o_exe_trace) o.(o_exe_trace_file_name) o.(o_interactive) o.(o_stf_trace)
    o.(o_stf_exit_on_stop_opc) v o.(o_stf_trace_register_state) o.(o_stf_disable_memory_records)
    o.(o_stf_priv_modes) o.(o_stf_force_zero_sha) o.(o_stf_insn_num_tracing) o.(o_stf_insn_start)
    o.(o_stf_insn_length) o.(o_simpoint_en_bbv) o.(o_simpoint_bb_file) o.(o_simpoint_size)
    o.(o_memory_size_override) o.(o_memory_addr_override) o.(o_memory_addr_override_flag)
    o.(o_ignore_sbi_shutdown) o.(o_dump_memories) o.(o_bootrom_name) o.(o_dtb_name) o.(o_compact_bootrom)
    o.(o_reset_vector_override) o.(o_plic_base_addr_override) o.(o_plic_size_override)
    o.(o_clint_base_addr_override) o.(o_clint_size_override) o.(o_custom_extension) o.(o_simpoint_file)
    o.(o_clear_ids) o.(o_allow_ctrlc) o.(o_show_enabled_extensions) o.(o_march_string).
Definition with_stf_trace_register_state (v : bool) (o : Options) : Options :=
  mkOptions o.(o_snapshot_load_name) o.(o_snapshot_save_name) o.(o_cmdline) o.(o_ncpus) o.(o_maxinsns)
    o.(o_heartbeat) o.(o_exe_trace) o.(o_exe_trace_file_name) o.(o_interactive) o.(o_stf_trace)
    o.(o_stf_exit_on_stop_opc) o.(o_stf_memrecord_size_in_bits) v o.(o_stf_disable_memory_records)
    o.(o_stf_priv_modes) o.(o_stf_force_zero_sha) o.(o_stf_insn_num_tracing) o.(o_stf_insn_start)
    o.(o_stf_insn_length) o.(o_simpoint_en_bbv) o.(o_simpoint_bb_file) o.(o_simpoint_size)
    o.(o_memory_size_override) o.(o_memory_addr_override) o.(o_memory_addr_override_flag)
    o.(o_ignore_sbi_shutdown) o.(o_dump_memories) o.(o_bootrom_name) o.(o_dtb_name) o.(o_compact_bootrom)
    o.(o_reset_vector_override) o.(o_plic_base_addr_override) o.(o_plic_size_override)
    o.(o_clint_base_addr_override) o.(o_clint_size_override) o.(o_custom_extension) o.(o_simpoint_file)
    o.(o_clear_ids) o.(o_allow_ctrlc) o.(o_show_enabled_extensions) o.(o_march_string).
Definition with_stf_disable_memory_records (v : bool) (o : Options) : Options :=
  mkOptions o.(o_snapshot_load_name) o.(o_snapshot_save_name) o.(o_cmdline) o.(o_ncpus) o.(o_maxinsns)
    o.(o_heartbeat) o.(o_exe_trace) o.(o_exe_trace_file_name) o.(o_interactive) o.(o_stf_trace)
    o.(o_stf_exit_on_stop_opc) o.(o_stf_memrecord_size_in_bits) o.(o_stf_trace_register_state) v
    o.(o_stf_priv_modes) o.(o_stf_force_zero_sha) o.(o_stf_insn_num_tracing) o.(o_stf_insn_start)
    o.(o_stf_insn_length) o.(o_simpoint_en_bbv) o.(o_simpoint_bb_file) o.(o_simpoint_size)
    o.(o_memory_size_override) o.(o_memory_addr_override) o.(o_memory_addr_override_flag)
    o.(o_ignore_sbi_shutdown) o.(o_dump_memories) o.(o_bootrom_name) o.(o_dtb_name) o.(o_compact_bootrom)
    o.(o_reset_vector_override) o.(o_plic_base_addr_override) o.(o_plic_size_override)
    o.(o_clint_base_addr_override) o.(o_clint_size_override) o.(o_custom_extension) o.(o_simpoint_file)
    o.(o_clear_ids) o.(o_allow_ctrlc) o.(o_show_enabled_extensions) o.(o_march_string).
Definition with_stf_priv_modes (v : list Z) (o : Options) : Options :=
  mkOptions o.(o_snapshot_load_name) o.(o_snapshot_save_name) o.(o_cmdline) o.(o_ncpus) o.(o_maxinsns)
    o.(o_heartbeat) o.(o_exe_trace) o.(o_exe_trace_file_name) o.(o_interactive) o.(o_stf_trace)
    o.(o_stf_exit_on_stop_opc) o.(o_stf_memrecord_size_in_bits) o.(o_stf_trace_register_state)
    o.(o_stf_disable_memory_records) v o.(o_stf_force_zero_sha) o.(o_stf_insn_num_tracing)
    o.(o_stf_insn_start) o.(o_stf_insn_length) o.(o_simpoint_en_bbv) o.(o_simpoint_bb_file)
    o.(o_simpoint_size) o.(o_memory_size_override) o.(o_memory_addr_override) o.(o_memory_addr_override_flag)
    o.(o_ignore_sbi_shutdown) o.(o_dump_memories) o.(o_bootrom_name) o.(o_dtb_name) o.(o_compact_bootrom)
    o.(o_reset_vector_override) o.(o_plic_base_addr_override) o.(o_plic_size_override)
    o.(o_clint_base_addr_override) o.(o_clint_size_override) o.(o_custom_extension) o.(o_simpoint_file)
    o.(o_clear_ids) o.(o_allow_ctrlc) o.(o_show_enabled_extensions) o.(o_march_string).
Definition with_stf_force_zero_sha (v : bool) (o : Options) : Options :=
  mkOptions o.(o_snapshot_load_name) o.(o_snapshot_save_name) o.(o_cmdline) o.(o_ncpus) o.(o_maxinsns)
    o.(o_heartbeat) o.(o_exe_trace) o.(o_exe_trace_file_name) o.(o_interactive) o.(o_stf_trace)
    o.(o_stf_exit_on_stop_opc) o.(o_stf_memrecord_size_in_bits) o.(o_stf_trace_register_state)
    o.(o_stf_disable_memory_records) o.(o_stf_priv_modes) v o.(o_stf_insn_num_tracing) o.(o_stf_insn_start)
    o.(o_stf_insn_length) o.(o_simpoint_en_bbv) o.(o_simpoint_bb_file) o.(o_simpoint_size)
    o.(o_memory_size_override) o.(o_memory_addr_override) o.(o_memory_addr_override_flag)
    o.(o_ignore_sbi_shutdown) o.(o_dump_memories) o.(o_bootrom_name) o.(o_dtb_name) o.(o_compact_bootrom)
    o.(o_reset_vector_override) o.(o_plic_base_addr_override) o.(o_plic_size_override)
    o.(o_clint_base_addr_override) o.(o_clint_size_override) o.(o_custom_extension) o.(o_simpoint_file)
    o.(o_clear_ids) o.(o_allow_ctrlc) o.(o_show_enabled_extensions) o.(o_march_string).
Definition with_stf_insn_num_tracing (v : bool) (o : Options) : Options :=
  mkOptions o.(o_snapshot_load_name) o.(o_snapshot_save_name) o.(o_cmdline) o.(o_ncpus) o.(o_maxinsns)
    o.(o_heartbeat) o.(o_exe_trace) o.(o_exe_trace_file_name) o.(o_interactive) o.(o_stf_trace)
    o.(o_stf_exit_on_stop_opc) o.(o_stf_memrecord_size_in_bits) o.(o_stf_trace_register_state)
    o.(o_stf_disable_memory_records) o.(o_stf_priv_modes) o.(o_stf_force_zero_sha) v o.(o_stf_insn_start)
    o.(o_stf_insn_length) o.(o_simpoint_en_bbv) o.(o_simpoint_bb_file) o.(o_simpoint_size)
    o.(o_memory_size_override) o.(o_memory_addr_override) o.(o_memory_addr_override_flag)
    o.(o_ignore_sbi_shutdown) o.(o_dump_memories) o.(o_bootrom_name) o.(o_dtb_name) o.(o_compact_bootrom)
    o.(o_reset_vector_override) o.(o_plic_base_addr_override) o.(o_plic_size_override)
    o.(o_clint_base_addr_override) o.(o_clint_size_override) o.(o_custom_extension) o.(o_simpoint_file)
    o.(o_clear_ids) o.(o_allow_ctrlc) o.(o_show_enabled_extensions) o.(o_march_string).
Definition with_stf_insn_start (v : Z) (o : Options) : Options :=
  mkOptions o.(o_snapshot_load_name) o.(o_snapshot_save_name) o.(o_cmdline) o.(o_ncpus) o.(o_maxinsns)
    o.(o_heartbeat) o.(o_exe_trace) o.(o_exe_trace_file_name) o.(o_interactive) o.(o_stf_trace)
    o.(o_stf_exit_on_stop_opc) o.(o_stf_memrecord_size_in_bits) o.(o_stf_trace_register_state)
    o.(o_stf_disable_memory_records) o.(o_stf_priv_modes) o.(o_stf_force_zero_sha) o.(o_stf_insn_num_tracing)
    v o.(o_stf_insn_length) o.(o_simpoint_en_bbv) o.(o_simpoint_bb_file) o.(o_simpoint_size)
    o.(o_memory_size_override) o.(o_memory_addr_override) o.(o_memory_addr_override_flag)
    o.(o_ignore_sbi_shutdown) o.(o_dump_memories) o.(o_bootrom_name) o.(o_dtb_name) o.(o_compact_bootrom)
    o.(o_reset_vector_override) o.(o_plic_base_addr_override) o.(o_plic_size_override)
    o.(o_clint_base_addr_override) o.(o_clint_size_override) o.(o_custom_extension) o.(o_simpoint_file)
    o.(o_clear_ids) o.(o_allow_ctrlc) o.(o_show_enabled_extensions) o.(o_march_string).
Definition with_stf_insn_length (v : Z) (o : Options) : Options :=
  mkOptions o.(o_snapshot_load_name) o.(o_snapshot_save_name) o.(o_cmdline) o.(o_ncpus) o.(o_maxinsns)
    o.(o_heartbeat) o.(o_exe_trace) o.(o_exe_trace_file_name) o.(o_interactive) o.(o_stf_trace)
    o.(o_stf_exit_on_stop_opc) o.(o_stf_memrecord_size_in_bits) o.(o_stf_trace_register_state)
    o.(o_stf_disable_memory_records) o.(o_stf_priv_modes) o.(o_stf_force_zero_sha) o.(o_stf_insn_num_tracing)
    o.(o_stf_insn_start) v o.(o_simpoint_en_bbv) o.(o_simpoint_bb_file) o.(o_simpoint_size)
    o.(o_memory_size_override) o.(o_memory_addr_override) o.(o_memory_addr_override_flag)
    o.(o_ignore_sbi_shutdown) o.(o_dump_memories) o.(o_bootrom_name) o.(o_dtb_name) o.(o_compact_bootrom)
    o.(o_reset_vector_override) o.(o_plic_base_addr_override) o.(o_plic_size_override)
    o.(o_clint_base_addr_override) o.(o_clint_size_override) o.(o_custom_extension) o.(o_simpoint_file)
    o.(o_clear_ids) o.(o_allow_ctrlc) o.(o_show_enabled_extensions) o.(o_march_string).
Definition with_simpoint_en_bbv (v : bool) (o : Options) : Options :=
  mkOptions o.(o_snapshot_load_name) o.(o_snapshot_save_name) o.(o_cmdline) o.(o_ncpus) o.(o_maxinsns)
    o.(o_heartbeat) o.(o_exe_trace) o.(o_exe_trace_file_name) o.(o_interactive) o.(o_stf_trace)
    o.(o_stf_exit_on_stop_opc) o.(o_stf_memrecord_size_in_bits) o.(o_stf_trace_register_state)
    o.(o_stf_disable_memory_records) o.(o_stf_priv_modes) o.(o_stf_force_zero_sha) o.(o_stf_insn_num_tracing)
    o.(o_stf_insn_start) o.(o_stf_insn_length) v o.(o_simpoint_bb_file) o.(o_simpoint_size)
    o.(o_memory_size_override) o.(o_memory_addr_override) o.(o_memory_addr_override_flag)
    o.(o_ignore_sbi_shutdown) o.(o_dump_memories) o.(o_bootrom_name) o.(o_dtb_name) o.(o_compact_bootrom)
    o.(o_reset_vector_override) o.(o_plic_base_addr_override) o.(o_plic_size_override)
    o.(o_clint_base_addr_override) o.(o_clint_size_override) o.(o_custom_extension) o.(o_simpoint_file)
    o.(o_clear_ids) o.(o_allow_ctrlc) o.(o_show_enabled_extensions) o.(o_march_string).
Definition with_simpoint_bb_file (v : option (list Z)) (o : Options) : Options :=
  mkOptions o.(o_snapshot_load_name) o.(o_snapshot_save_name) o.(o_cmdline) o.(o_ncpus) o.(o_maxinsns)
    o.(o_heartbeat) o.(o_exe_trace) o.(o_exe_trace_file_name) o.(o_interactive) o.(o_stf_trace)
    o.(o_stf_exit_on_stop_opc) o.(o_stf_memrecord_size_in_bits) o.(o_stf_trace_register_state)
    o.(o_stf_disable_memory_records) o.(o_stf_priv_modes) o.(o_stf_force_zero_sha) o.(o_stf_insn_num_tracing)
    o.(o_stf_insn_start) o.(o_stf_insn_length) o.(o_simpoint_en_bbv) v o.(o_simpoint_size)
    o.(o_memory_size_override) o.(o_memory_addr_override) o.(o_memory_addr_override_flag)
    o.(o_ignore_sbi_shutdown) o.(o_dump_memories) o.(o_bootrom_name) o.(o_dtb_name) o.(o_compact_bootrom)
    o.(o_reset_vector_override) o.(o_plic_base_addr_override) o.(o_plic_size_override)
    o.(o_clint_base_addr_override) o.(o_clint_size_override) o.(o_custom_extension) o.(o_simpoint_file)
    o.(o_clear_ids) o.(o_allow_ctrlc) o.(o_show_enabled_extensions) o.(o_march_string).
Definition with_simpoint_size (v : Z) (o : Options) : Options :=
  mkOptions o.(o_snapshot_load_name) o.(o_snapshot_save_name) o.(o_cmdline) o.(o_ncpus) o.(o_maxinsns)
    o.(o_heartbeat) o.(o_exe_trace) o.(o_exe_trace_file_name) o.(o_interactive) o.(o_stf_trace)
    o.(o_stf_exit_on_stop_opc) o.(o_stf_memrecord_size_in_bits) o.(o_stf_trace_register_state)
    o.(o_stf_disable_memory_records) o.(o_stf_priv_modes) o.(o_stf_force_zero_sha) o.(o_stf_insn_num_tracing)
    o.(o_stf_insn_start) o.(o_stf_insn_length) o.(o_simpoint_en_bbv) o.(o_simpoint_bb_file) v
    o.(o_memory_size_override) o.(o_memory_addr_override) o.(o_memory_addr_override_flag)
    o.(o_ignore_sbi_shutdown) o.(o_dump_memories) o.(o_bootrom_name) o.(o_dtb_name) o.(o_compact_bootrom)
    o.(o_reset_vector_override) o.(o_plic_base_addr_override) o.(o_plic_size_override)
    o.(o_clint_base_addr_override) o.(o_clint_size_override) o.(o_custom_extension) o.(o_simpoint_file)
    o.(o_clear_ids) o.(o_allow_ctrlc) o.(o_show_enabled_extensions) o.(o_march_string).
Definition with_memory_size_override (v : Z) (o : Options) : Options :=
  mkOptions o.(o_snapshot_load_name) o.(o_snapshot_save_name) o.(o_cmdline) o.(o_ncpus) o.(o_maxinsns)
    o.(o_heartbeat) o.(o_exe_trace) o.(o_exe_trace_file_name) o.(o_interactive) o.(o_stf_trace)
    o.(o_stf_exit_on_stop_opc) o.(o_stf_memrecord_size_in_bits) o.(o_stf_trace_register_state)
    o.(o_stf_disable_memory_records) o.(o_stf_priv_modes) o.(o_stf_force_zero_sha) o.(o_stf_insn_num_tracing)
    o.(o_stf_insn_start) o.(o_stf_insn_length) o.(o_simpoint_en_bbv) o.(o_simpoint_bb_file)
    o.(o_simpoint_size) v o.(o_memory_addr_override) o.(o_memory_addr_override_flag) o.(o_ignore_sbi_shutdown)
    o.(o_dump_memories) o.(o_bootrom_name) o.(o_dtb_name) o.(o_compact_bootrom) o.(o_reset_vector_override)
    o.(o_plic_base_addr_override) o.(o_plic_size_override) o.(o_clint_base_addr_override)
    o.(o_clint_size_override) o.(o_custom_extension) o.(o_simpoint_file) o.(o_clear_ids) o.(o_allow_ctrlc)
    o.(o_show_enabled_extensions) o.(o_march_string).
Definition with_memory_addr_override (v : Z) (o : Options) : Options :=
  mkOptions o.(o_snapshot_load_name) o.(o_snapshot_save_name) o.(o_cmdline) o.(o_ncpus) o.(o_maxinsns)
    o.(o_heartbeat) o.(o_exe_trace) o.(o_exe_trace_file_name) o.(o_interactive) o.(o_stf_trace)
    o.(o_stf_exit_on_stop_opc) o.(o_stf_memrecord_size_in_bits) o.(o_stf_trace_register_state)
    o.(o_stf_disable_memory_records) o.(o_stf_priv_modes) o.(o_stf_force_zero_sha) o.(o_stf_insn_num_tracing)
    o.(o_stf_insn_start) o.(o_stf_insn_length) o.(o_simpoint_en_bbv) o.(o_simpoint_bb_file)
    o.(o_simpoint_size) o.(o_memory_size_override) v o.(o_memory_addr_override_flag) o.(o_ignore_sbi_shutdown)
    o.(o_dump_memories) o.(o_bootrom_name) o.(o_dtb_name) o.(o_compact_bootrom) o.(o_reset_vector_override)
    o.(o_plic_base_addr_override) o.(o_plic_size_override) o.(o_clint_base_addr_override)
    o.(o_clint_size_override) o.(o_custom_extension) o.(o_simpoint_file) o.(o_clear_ids) o.(o_allow_ctrlc)
    o.(o_show_enabled_extensions) o.(o_march_string).
Definition with_memory_addr_override_flag (v : bool) (o : Options) : Options :=
  mkOptions o.(o_snapshot_load_name) o.(o_snapshot_save_name) o.(o_cmdline) o.(o_ncpus) o.(o_maxinsns)
    o.(o_heartbeat) o.(o_exe_trace) o.(o_exe_trace_file_name) o.(o_interactive) o.(o_stf_trace)
    o.(o_stf_exit_on_stop_opc) o.(o_stf_memrecord_size_in_bits) o.(o_stf_trace_register_state)
    o.(o_stf_disable_memory_records) o.(o_stf_priv_modes) o.(o_stf_force_zero_sha) o.(o_stf_insn_num_tracing)
    o.(o_stf_insn_start) o.(o_stf_insn_length) o.(o_simpoint_en_bbv) o.(o_simpoint_bb_file)
    o.(o_simpoint_size) o.(o_memory_size_override) o.(o_memory_addr_override) v o.(o_ignore_sbi_shutdown)
    o.(o_dump_memories) o.(o_bootrom_name) o.(o_dtb_name) o.(o_compact_bootrom) o.(o_reset_vector_override)
    o.(o_plic_base_addr_override) o.(o_plic_size_override) o.(o_clint_base_addr_override)
    o.(o_clint_size_override) o.(o_custom_extension) o.(o_simpoint_file) o.(o_clear_ids) o.(o_allow_ctrlc)
    o.(o_show_enabled_extensions) o.(o_march_string).
Definition with_ignore_sbi_shutdown (v : bool) (o : Options) : Options :=
  mkOptions o.(o_snapshot_load_name) o.(o_snapshot_save_name) o.(o_cmdline) o.(o_ncpus) o.(o_maxinsns)
    o.(o_heartbeat) o.(o_exe_trace) o.(o_exe_trace_file_name) o.(o_interactive) o.(o_stf_trace)
    o.(o_stf_exit_on_stop_opc) o.(o_stf_memrecord_size_in_bits) o.(o_stf_trace_register_state)
    o.(o_stf_disable_memory_records) o.(o_stf_priv_modes) o.(o_stf_force_zero_sha) o.(o_stf_insn_num_tracing)
    o.(o_stf_insn_start) o.(o_stf_insn_length) o.(o_simpoint_en_bbv) o.(o_simpoint_bb_file)
    o.(o_simpoint_size) o.(o_memory_size_override) o.(o_memory_addr_override) o.(o_memory_addr_override_flag)
    v o.(o_dump_memories) o.(o_bootrom_name) o.(o_dtb_name) o.(o_compact_bootrom) o.(o_reset_vector_override)
    o.(o_plic_base_addr_override) o.(o_plic_size_override) o.(o_clint_base_addr_override)
    o.(o_clint_size_override) o.(o_custom_extension) o.(o_simpoint_file) o.(o_clear_ids) o.(o_allow_ctrlc)
    o.(o_show_enabled_extensions) o.(o_march_string).
Definition with_dump_memories (v : bool) (o : Options) : Options :=
  mkOptions o.(o_snapshot_load_name) o.(o_snapshot_save_name) o.(o_cmdline) o.(o_ncpus) o.(o_maxinsns)
    o.(o_heartbeat) o.(o_exe_trace) o.(o_exe_trace_file_name) o.(o_interactive) o.(o_stf_trace)
    o.(o_stf_exit_on_stop_opc) o.(o_stf_memrecord_size_in_bits) o.(o_stf_trace_register_state)
    o.(o_stf_disable_memory_records) o.(o_stf_priv_modes) o.(o_stf_force_zero_sha) o.(o_stf_insn_num_tracing)
    o.(o_stf_insn_start) o.(o_stf_insn_length) o.(o_simpoint_en_bbv) o.(o_simpoint_bb_file)
    o.(o_simpoint_size) o.(o_memory_size_override) o.(o_memory_addr_override) o.(o_memory_addr_override_flag)
    o.(o_ignore_sbi_shutdown) v o.(o_bootrom_name) o.(o_dtb_name) o.(o_compact_bootrom)
    o.(o_reset_vector_override) o.(o_plic_base_addr_override) o.(o_plic_size_override)
    o.(o_clint_base_addr_override) o.(o_clint_size_override) o.(o_custom_extension) o.(o_simpoint_file)
    o.(o_clear_ids) o.(o_allow_ctrlc) o.(o_show_enabled_extensions) o.(o_march_string).
Definition with_bootrom_name (v : option (list Z)) (o : Options) : Options :=
  mkOptions o.(o_snapshot_load_name) o.(o_snapshot_save_name) o.(o_cmdline) o.(o_ncpus) o.(o_maxinsns)
    o.(o_heartbeat) o.(o_exe_trace) o.(o_exe_trace_file_name) o.(o_interactive) o.(o_stf_trace)
    o.(o_stf_exit_on_stop_opc) o.(o_stf_memrecord_size_in_bits) o.(o_stf_trace_register_state)
    o.(o_stf_disable_memory_records) o.(o_stf_priv_modes) o.(o_stf_force_zero_sha) o.(o_stf_insn_num_tracing)
    o.(o_stf_insn_start) o.(o_stf_insn_length) o.(o_simpoint_en_bbv) o.(o_simpoint_bb_file)
    o.(o_simpoint_size) o.(o_memory_size_override) o.(o_memory_addr_override) o.(o_memory_addr_override_flag)
    o.(o_ignore_sbi_shutdown) o.(o_dump_memories) v o.(o_dtb_name) o.(o_compact_bootrom)
    o.(o_reset_vector_override) o.(o_plic_base_addr_override) o.(o_plic_size_override)
    o.(o_clint_base_addr_override) o.(o_clint_size_override) o.(o_custom_extension) o.(o_simpoint_file)
    o.(o_clear_ids) o.(o_allow_ctrlc) o.(o_show_enabled_extensions) o.(o_march_string).
Definition with_dtb_name (v : option (list Z)) (o : Options) : Options :=
  mkOptions o.(o_snapshot_load_name) o.(o_snapshot_save_name) o.(o_cmdline) o.(o_ncpus) o.(o_maxinsns)
    o.(o_heartbeat) o.(o_exe_trace) o.(o_exe_trace_file_name) o.(o_interactive) o.(o_stf_trace)
    o.(o_stf_exit_on_stop_opc) o.(o_stf_memrecord_size_in_bits) o.(o_stf_trace_register_state)
    o.(o_stf_disable_memory_records) o.(o_stf_priv_modes) o.(o_stf_force_zero_sha) o.(o_stf_insn_num_tracing)
    o.(o_stf_insn_start) o.(o_stf_insn_length) o.(o_simpoint_en_bbv) o.(o_simpoint_bb_file)
    o.(o_simpoint_size) o.(o_memory_size_override) o.(o_memory_addr_override) o.(o_memory_addr_override_flag)
    o.(o_ignore_sbi_shutdown) o.(o_dump_memories) o.(o_bootrom_name) v o.(o_compact_bootrom)
    o.(o_reset_vector_override) o.(o_plic_base_addr_override) o.(o_plic_size_override)
    o.(o_clint_base_addr_override) o.(o_clint_size_override) o.(o_custom_extension) o.(o_simpoint_file)
    o.(o_clear_ids) o.(o_allow_ctrlc) o.(o_show_enabled_extensions) o.(o_march_string).
Definition with_compact_bootrom (v : bool) (o : Options) : Options :=
  mkOptions o.(o_snapshot_load_name) o.(o_snapshot_save_name) o.(o_cmdline) o.(o_ncpus) o.(o_maxinsns)
    o.(o_heartbeat) o.(o_exe_trace) o.(o_exe_trace_file_name) o.(o_interactive) o.(o_stf_trace)
    o.(o_stf_exit_on_stop_opc) o.(o_stf_memrecord_size_in_bits) o.(o_stf_trace_register_state)
    o.(o_stf_disable_memory_records) o.(o_stf_priv_modes) o.(o_stf_force_zero_sha) o.(o_stf_insn_num_tracing)
    o.(o_stf_insn_start) o.(o_stf_insn_length) o.(o_simpoint_en_bbv) o.(o_simpoint_bb_file)
    o.(o_simpoint_size) o.(o_memory_size_override) o.(o_memory_addr_override) o.(o_memory_addr_override_flag)
    o.(o_ignore_sbi_shutdown) o.(o_dump_memories) o.(o_bootrom_name) o.(o_dtb_name) v
    o.(o_reset_vector_override) o.(o_plic_base_addr_override) o.(o_plic_size_override)
    o.(o_clint_base_addr_override) o.(o_clint_size_override) o.(o_custom_extension) o.(o_simpoint_file)
    o.(o_clear_ids) o.(o_allow_ctrlc) o.(o_show_enabled_extensions) o.(o_march_string).
Definition with_reset_vector_override (v : Z) (o : Options) : Options :=
  mkOptions o.(o_snapshot_load_name) o.(o_snapshot_save_name) o.(o_cmdline) o.(o_ncpus) o.(o_maxinsns)
    o.(o_heartbeat) o.(o_exe_trace) o.(o_exe_trace_file_name) o.(o_interactive) o.(o_stf_trace)
    o.(o_stf_exit_on_stop_opc) o.(o_stf_memrecord_size_in_bits) o.(o_stf_trace_register_state)
    o.(o_stf_disable_memory_records) o.(o_stf_priv_modes) o.(o_stf_force_zero_sha) o.(o_stf_insn_num_tracing)
    o.(o_stf_insn_start) o.(o_stf_insn_length) o.(o_simpoint_en_bbv) o.(o_simpoint_bb_file)
    o.(o_simpoint_size) o.(o_memory_size_override) o.(o_memory_addr_override) o.(o_memory_addr_override_flag)
    o.(o_ignore_sbi_shutdown) o.(o_dump_memories) o.(o_bootrom_name) o.(o_dtb_name) o.(o_compact_bootrom) v
    o.(o_plic_base_addr_override) o.(o_plic_size_override) o.(o_clint_base_addr_override)
    o.(o_clint_size_override) o.(o_custom_extension) o.(o_simpoint_file) o.(o_clear_ids) o.(o_allow_ctrlc)
    o.(o_show_enabled_extensions) o.(o_march_string).
Definition with_plic_base_addr_override (v : Z) (o : Options) : Options :=
  mkOptions o.(o_snapshot_load_name) o.(o_snapshot_save_name) o.(o_cmdline) o.(o_ncpus) o.(o_maxinsns)
    o.(o_heartbeat) o.(o_exe_trace) o.(o_exe_trace_file_name) o.(o_interactive) o.(o_stf_trace)
    o.(o_stf_exit_on_stop_opc) o.(o_stf_memrecord_size_in_bits) o.(o_stf_trace_register_state)
    o.(o_stf_disable_memory_records) o.(o_stf_priv_modes) o.(o_stf_force_zero_sha) o.(o_stf_insn_num_tracing)
    o.(o_stf_insn_start) o.(o_stf_insn_length) o.(o_simpoint_en_bbv) o.(o_simpoint_bb_file)
    o.(o_simpoint_size) o.(o_memory_size_override) o.(o_memory_addr_override) o.(o_memory_addr_override_flag)
    o.(o_ignore_sbi_shutdown) o.(o_dump_memories) o.(o_bootrom_name) o.(o_dtb_name) o.(o_compact_bootrom)
    o.(o_reset_vector_override) v o.(o_plic_size_override) o.(o_clint_base_addr_override)
    o.(o_clint_size_override) o.(o_custom_extension) o.(o_simpoint_file) o.(o_clear_ids) o.(o_allow_ctrlc)
    o.(o_show_enabled_extensions) o.(o_march_string).
Definition with_plic_size_override (v : Z) (o : Options) : Options :=
  mkOptions o.(o_snapshot_load_name) o.(o_snapshot_save_name) o.(o_cmdline) o.(o_ncpus) o.(o_maxinsns)
    o.(o_heartbeat) o.(o_exe_trace) o.(o_exe_trace_file_name) o.(o_interactive) o.(o_stf_trace)
    o.(o_stf_exit_on_stop_opc) o.(o_stf_memrecord_size_in_bits) o.(o_stf_trace_register_state)
    o.(o_stf_disable_memory_records) o.(o_stf_priv_modes) o.(o_stf_force_zero_sha) o.(o_stf_insn_num_tracing)
    o.(o_stf_insn_start) o.(o_stf_insn_length) o.(o_simpoint_en_bbv) o.(o_simpoint_bb_file)
    o.(o_simpoint_size) o.(o_memory_size_override) o.(o_memory_addr_override) o.(o_memory_addr_override_flag)
    o.(o_ignore_sbi_shutdown) o.(o_dump_memories) o.(o_bootrom_name) o.(o_dtb_name) o.(o_compact_bootrom)
    o.(o_reset_vector_override) o.(o_plic_base_addr_override) v o.(o_clint_base_addr_override)
    o.(o_clint_size_override) o.(o_custom_extension) o.(o_simpoint_file) o.(o_clear_ids) o.(o_allow_ctrlc)
    o.(o_show_enabled_extensions) o.(o_march_string).
Definition with_clint_base_addr_override (v : Z) (o : Options) : Options :=
  mkOptions o.(o_snapshot_load_name) o.(o_snapshot_save_name) o.(o_cmdline) o.(o_ncpus) o.(o_maxinsns)
    o.(o_heartbeat) o.(o_exe_trace) o.(o_exe_trace_file_name) o.(o_interactive) o.(o_stf_trace)
    o.(o_stf_exit_on_stop_opc) o.(o_stf_memrecord_size_in_bits) o.(o_stf_trace_register_state)
    o.(o_stf_disable_memory_records) o.(o_stf_priv_modes) o.(o_stf_force_zero_sha) o.(o_stf_insn_num_tracing)
    o.(o_stf_insn_start) o.(o_stf_insn_length) o.(o_simpoint_en_bbv) o.(o_simpoint_bb_file)
    o.(o_simpoint_size) o.(o_memory_size_override) o.(o_memory_addr_override) o.(o_memory_addr_override_flag)
    o.(o_ignore_sbi_shutdown) o.(o_dump_memories) o.(o_bootrom_name) o.(o_dtb_name) o.(o_compact_bootrom)
    o.(o_reset_vector_override) o.(o_plic_base_addr_override) o.(o_plic_size_override) v
    o.(o_clint_size_override) o.(o_custom_extension) o.(o_simpoint_file) o.(o_clear_ids) o.(o_allow_ctrlc)
    o.(o_show_enabled_extensions) o.(o_march_string).
Definition with_clint_size_override (v : Z) (o : Options) : Options :=
  mkOptions o.(o_snapshot_load_name) o.(o_snapshot_save_name) o.(o_cmdline) o.(o_ncpus) o.(o_maxinsns)
    o.(o_heartbeat) o.(o_exe_trace) o.(o_exe_trace_file_name) o.(o_interactive) o.(o_stf_trace)
    o.(o_stf_exit_on_stop_opc) o.(o_stf_memrecord_size_in_bits) o.(o_stf_trace_register_state)
    o.(o_stf_disable_memory_records) o.(o_stf_priv_modes) o.(o_stf_force_zero_sha) o.(o_stf_insn_num_tracing)
    o.(o_stf_insn_start) o.(o_stf_insn_length) o.(o_simpoint_en_bbv) o.(o_simpoint_bb_file)
    o.(o_simpoint_size) o.(o_memory_size_override) o.(o_memory_addr_override) o.(o_memory_addr_override_flag)
    o.(o_ignore_sbi_shutdown) o.(o_dump_memories) o.(o_bootrom_name) o.(o_dtb_name) o.(o_compact_bootrom)
    o.(o_reset_vector_override) o.(o_plic_base_addr_override) o.(o_plic_size_override)
    o.(o_clint_base_addr_override) v o.(o_custom_extension) o.(o_simpoint_file) o.(o_clear_ids)
    o.(o_allow_ctrlc) o.(o_show_enabled_extensions) o.(o_march_string).
Definition with_custom_extension (v : bool) (o : Options) : Options :=
  mkOptions o.(o_snapshot_load_name) o.(o_snapshot_save_name) o.(o_cmdline) o.(o_ncpus) o.(o_maxinsns)
    o.(o_heartbeat) o.(o_exe_trace) o.(o_exe_trace_file_name) o.(o_interactive) o.(o_stf_trace)
    o.(o_stf_exit_on_stop_opc) o.(o_stf_memrecord_size_in_bits) o.(o_stf_trace_register_state)
    o.(o_stf_disable_memory_records) o.(o_stf_priv_modes) o.(o_stf_force_zero_sha) o.(o_stf_insn_num_tracing)
    o.(o_stf_insn_start) o.(o_stf_insn_length) o.(o_simpoint_en_bbv) o.(o_simpoint_bb_file)
    o.(o_simpoint_size) o.(o_memory_size_override) o.(o_memory_addr_override) o.(o_memory_addr_override_flag)
    o.(o_ignore_sbi_shutdown) o.(o_dump_memories) o.(o_bootrom_name) o.(o_dtb_name) o.(o_compact_bootrom)
    o.(o_reset_vector_override) o.(o_plic_base_addr_override) o.(o_plic_size_override)
    o.(o_clint_base_addr_override) o.(o_clint_size_override) v o.(o_simpoint_file) o.(o_clear_ids)
    o.(o_allow_ctrlc) o.(o_show_enabled_extensions) o.(o_march_string).
Definition with_simpoint_file (v : option (list Z)) (o : Options) : Options :=
  mkOptions o.(o_snapshot_load_name) o.(o_snapshot_save_name) o.(o_cmdline) o.(o_ncpus) o.(o_maxinsns)
    o.(o_heartbeat) o.(o_exe_trace) o.(o_exe_trace_file_name) o.(o_interactive) o.(o_stf_trace)
    o.(o_stf_exit_on_stop_opc) o.(o_stf_memrecord_size_in_bits) o.(o_stf_trace_register_state)
    o.(o_stf_disable_memory_records) o.(o_stf_priv_modes) o.(o_stf_force_zero_sha) o.(o_stf_insn_num_tracing)
    o.(o_stf_insn_start) o.(o_stf_insn_length) o.(o_simpoint_en_bbv) o.(o_simpoint_bb_file)
    o.(o_simpoint_size) o.(o_memory_size_override) o.(o_memory_addr_override) o.(o_memory_addr_override_flag)
    o.(o_ignore_sbi_shutdown) o.(o_dump_memories) o.(o_bootrom_name) o.(o_dtb_name) o.(o_compact_bootrom)
    o.(o_reset_vector_override) o.(o_plic_base_addr_override) o.(o_plic_size_override)
    o.(o_clint_base_addr_override) o.(o_clint_size_override) o.(o_custom_extension) v o.(o_clear_ids)
    o.(o_allow_ctrlc) o.(o_show_enabled_extensions) o.(o_march_string).
Definition with_clear_ids (v : bool) (o : Options) : Options :=
  mkOptions o.(o_snapshot_load_name) o.(o_snapshot_save_name) o.(o_cmdline) o.(o_ncpus) o.(o_maxinsns)
    o.(o_heartbeat) o.(o_exe_trace) o.(o_exe_trace_file_name) o.(o_interactive) o.(o_stf_trace)
    o.(o_stf_exit_on_stop_opc) o.(o_stf_memrecord_size_in_bits) o.(o_stf_trace_register_state)
    o.(o_stf_disable_memory_records) o.(o_stf_priv_modes) o.(o_stf_force_zero_sha) o.(o_stf_insn_num_tracing)
    o.(o_stf_insn_start) o.(o_stf_insn_length) o.(o_simpoint_en_bbv) o.(o_simpoint_bb_file)
    o.(o_simpoint_size) o.(o_memory_size_override) o.(o_memory_addr_override) o.(o_memory_addr_override_flag)
    o.(o_ignore_sbi_shutdown) o.(o_dump_memories) o.(o_bootrom_name) o.(o_dtb_name) o.(o_compact_bootrom)
    o.(o_reset_vector_override) o.(o_plic_base_addr_override) o.(o_plic_size_override)
    o.(o_clint_base_addr_override) o.(o_clint_size_override) o.(o_custom_extension) o.(o_simpoint_file) v
    o.(o_allow_ctrlc) o.(o_show_enabled_extensions) o.(o_march_string).
Definition with_allow_ctrlc (v : bool) (o : Options) : Options :=
  mkOptions o.(o_snapshot_load_name) o.(o_snapshot_save_name) o.(o_cmdline) o.(o_ncpus) o.(o_maxinsns)
    o.(o_heartbeat) o.(o_exe_trace) o.(o_exe_trace_file_name) o.(o_interactive) o.(o_stf_trace)
    o.(o_stf_exit_on_stop_opc) o.(o_stf_memrecord_size_in_bits) o.(o_stf_trace_register_state)
    o.(o_stf_disable_memory_records) o.(o_stf_priv_modes) o.(o_stf_force_zero_sha) o.(o_stf_insn_num_tracing)
    o.(o_stf_insn_start) o.(o_stf_insn_length) o.(o_simpoint_en_bbv) o.(o_simpoint_bb_file)
    o.(o_simpoint_size) o.(o_memory_size_override) o.(o_memory_addr_override) o.(o_memory_addr_override_flag)
    o.(o_ignore_sbi_shutdown) o.(o_dump_memories) o.(o_bootrom_name) o.(o_dtb_name) o.(o_compact_bootrom)
    o.(o_reset_vector_override) o.(o_plic_base_addr_override) o.(o_plic_size_override)
    o.(o_clint_base_addr_override) o.(o_clint_size_override) o.(o_custom_extension) o.(o_simpoint_file)
    o.(o_clear_ids) v o.(o_show_enabled_extensions) o.(o_march_string).
Definition with_show_enabled_extensions (v : bool) (o : Options) : Options :=
  mkOptions o.(o_snapshot_load_name) o.(o_snapshot_save_name) o.(o_cmdline) o.(o_ncpus) o.(o_maxinsns)
    o.(o_heartbeat) o.(o_exe_trace) o.(o_exe_trace_file_name) o.(o_interactive) o.(o_stf_trace)
    o.(o_stf_exit_on_stop_opc) o.(o_stf_memrecord_size_in_bits) o.(o_stf_trace_register_state)
    o.(o_stf_disable_memory_records) o.(o_stf_priv_modes) o.(o_stf_force_zero_sha) o.(o_stf_insn_num_tracing)
    o.(o_stf_insn_start) o.(o_stf_insn_length) o.(o_simpoint_en_bbv) o.(o_simpoint_bb_file)
    o.(o_simpoint_size) o.(o_memory_size_override) o.(o_memory_addr_override) o.(o_memory_addr_override_flag)
    o.(o_ignore_sbi_shutdown) o.(o_dump_memories) o.(o_bootrom_name) o.(o_dtb_name) o.(o_compact_bootrom)
    o.(o_reset_vector_override) o.(o_plic_base_addr_override) o.(o_plic_size_override)
    o.(o_clint_base_addr_override) o.(o_clint_size_override) o.(o_custom_extension) o.(o_simpoint_file)
    o.(o_clear_ids) o.(o_allow_ctrlc) v o.(o_march_string).
Definition with_march_string (v : list Z) (o : Options) : Options :=
  mkOptions o.(o_snapshot_load_name) o.(o_snapshot_save_name) o.(o_cmdline) o.(o_ncpus) o.(o_maxinsns)
    o.(o_heartbeat) o.(o_exe_trace) o.(o_exe_trace_file_name) o.(o_interactive) o.(o_stf_trace)
    o.(o_stf_exit_on_stop_opc) o.(o_stf_memrecord_size_in_bits) o.(o_stf_trace_register_state)
    o.(o_stf_disable_memory_records) o.(o_stf_priv_modes) o.(o_stf_force_zero_sha) o.(o_stf_insn_num_tracing)
    o.(o_stf_insn_start) o.(o_stf_insn_length) o.(o_simpoint_en_bbv) o.(o_simpoint_bb_file)
    o.(o_simpoint_size) o.(o_memory_size_override) o.(o_memory_addr_override) o.(o_memory_addr_override_flag)
    o.(o_ignore_sbi_shutdown) o.(o_dump_memories) o.(o_bootrom_name) o.(o_dtb_name) o.(o_compact_bootrom)
    o.(o_reset_vector_override) o.(o_plic_base_addr_override) o.(o_plic_size_override)
    o.(o_clint_base_addr_override) o.(o_clint_size_override) o.(o_custom_extension) o.(o_simpoint_file)
    o.(o_clear_ids) o.(o_allow_ctrlc) o.(o_show_enabled_extensions) v.

Definition UINT64_MAX : Z := 2 ^ 64 - 1.

(** Their values in front of the loop. *)
Definition initial_options : Options :=
  mkOptions None None None 0 0 UINT64_MAX UINT64_MAX None false
    None false false false false (str "USHM") false false 0 UINT64_MAX false None 100000000
    0 0 false false false None None false 0 0 0 0 0 false None false false false (str "rv64gc").

(** ** Arguments *)

Definition atoll (s : list Z) : Z := fst (strtoll s 10).
Definition atoi (s : list Z) : Z := i32 (atoll s).

(** [optarg[0] == '0' && optarg[1] == 'x'] *)
Definition has_0x (s : list Z) : bool := (peek s =? 48) && (peek1 s =? 120).

(** [strtoll (s + 2, NULL, 16)] *)
Definition hex_arg (s : list Z) : Z := fst (strtoll (skipn 2 s) 16).

(** A count with a unit; [None] reads in front of an empty argument. *)
Definition scaled (s : list Z) : option Z :=
  match rev s with
  | [] => None
  | c :: _ =>
      let v := u64 (atoll s) in
      Some (if (c =? 107) || (c =? 75) then u64 (v * 1000)
            else if (c =? 109) || (c =? 77) then u64 (v * 1000000)
            else if (c =? 103) || (c =? 71) then u64 (v * 1000000000)
            else v)
  end.

(** The parts [strtok (s, ":")] returns one after the other. *)
Fixpoint tokens_of (cur s : list Z) : list (list Z) :=
  match s with
  | [] => match cur with [] => [] | _ => [cur] end
  | c :: s' => if c =? 58 then match cur with [] => tokens_of [] s' | _ => cur :: tokens_of [] s' end else tokens_of (cur ++ [c]) s'
  end.

(** The argument START:SIZE of [--plic] and [--clint]. *)
Definition start_size (s : list Z) : (Z * Z) + bstop :=
  if bool_decide (58 ∈ s) then
    match tokens_of [] s with
    | base :: size :: _ =>
        if negb (has_0x base) then inr (Exit 1)
        else if negb (has_0x size) then inr (Exit 1)
        else inl (u64 (hex_arg base), u64 (hex_arg size))
    | [base] => if negb (has_0x base) then inr (Exit 1) else inr (Stopped Undefined)
    | [] => inr (Stopped Undefined)
    end
  else inr (Exit 1).

(** ** The switch *)

(** An option that may be given once. *)
Definition once (seen : bool) (o : Options) : Options + bstop := if seen then inr (Exit 1) else inl o.

Definition is_set (x : option (list Z)) : bool := match x with Some _ => true | None => false end.

Definition parse_option (o : Options) (c : ascii) (optarg : list Z) : Options + bstop :=
  match c with
  | "c"%char => once (is_set (o_cmdline o)) (with_cmdline (Some optarg) o)
  | "i"%char => inl (with_march_string optarg o)
  | "I"%char => inl (with_interactive true o)
  | "j"%char => inl (with_show_enabled_extensions true o)
  | "l"%char => once (is_set (o_snapshot_load_name o)) (with_snapshot_load_name (Some optarg) o)
  | "n"%char => once (negb (o_ncpus o =? 0)) (with_ncpus (atoll optarg) o)
  | "s"%char => once (is_set (o_snapshot_save_name o)) (with_snapshot_save_name (Some optarg) o)
  | "S"%char => once (is_set (o_simpoint_file o)) (with_simpoint_file (Some optarg) o)
  | "m"%char =>
      if negb (o_maxinsns o =? 0) then inr (Exit 1)
      else match scaled optarg with Some v => inl (with_maxinsns v o) | None => inr (Stopped Undefined) end
  | "x"%char => inl (with_heartbeat (u64 (atoll optarg)) o)
  | "T"%char | "t"%char => once (negb (o_exe_trace o =? UINT64_MAX)) (with_exe_trace (u64 (atoll optarg)) o)
  | "q"%char => inl (with_exe_trace_file_name (Some optarg) o)
  | "B"%char => inl (with_stf_memrecord_size_in_bits true o)
  | "Z"%char => inl (with_stf_force_zero_sha true o)
  | "a"%char => inl (with_stf_priv_modes optarg o)
  | "e"%char => inl (with_stf_exit_on_stop_opc true o)
  | "f"%char => inl (with_stf_disable_memory_records true o)
  | "y"%char => inl (with_stf_trace_register_state true o)
  | "z"%char => inl (with_stf_trace (Some optarg) o)
  | "N"%char => inl (with_stf_insn_num_tracing true o)
  | "R"%char => inl (with_stf_insn_start (u64 (atoll optarg)) o)
  | "E"%char => inl (with_stf_insn_length (u64 (atoll optarg)) o)
  | "v"%char => inl (with_simpoint_en_bbv true o)
  | "F"%char => inl (with_simpoint_bb_file (Some optarg) o)
  | "Y"%char => inl (with_simpoint_size (u64 (atoll optarg)) o)
  | "P"%char => inl (with_ignore_sbi_shutdown true o)
  | "D"%char => inl (with_dump_memories true o)
  | "M"%char => inl (with_memory_size_override (if has_0x optarg then hex_arg optarg else atoi optarg) o)
  | "A"%char =>
      if negb (has_0x optarg) then inr (Exit 1)
      else inl (with_memory_addr_override_flag true (with_memory_addr_override (u64 (hex_arg optarg)) o))
  | "b"%char => once (is_set (o_bootrom_name o)) (with_bootrom_name (Some optarg) o)
  | "d"%char => once (is_set (o_dtb_name o)) (with_dtb_name (Some optarg) o)
  | "o"%char => inl (with_compact_bootrom true o)
  | "r"%char => if negb (has_0x optarg) then inr (Exit 1) else inl (with_reset_vector_override (u64 (hex_arg optarg)) o)
  | "p"%char =>
      match start_size optarg with
      | inl (base, size) => inl (with_plic_size_override size (with_plic_base_addr_override base o))
      | inr e => inr e
      end
  | "C"%char =>
      match start_size optarg with
      | inl (base, size) => inl (with_clint_size_override size (with_clint_base_addr_override base o))
      | inr e => inr e
      end
  | "u"%char => inl (with_custom_extension true o)
  | "L"%char => inl (with_clear_ids true o)
  | "X"%char => inl (with_allow_ctrlc true o)
  | _ => inr (Exit 1)
  end.

Fixpoint parse_options (o : Options) (opts : list (ascii * list Z)) : Options + bstop :=
  match opts with
  | [] => inl o
  | (c, optarg) :: opts' => match parse_option o c optarg with inl o' => parse_options o' opts' | inr e => inr e end
  end.
