(* ===== verification/Main.v ===== *)
(** * From the command line to the machine

    [virt_machine_main] and [virt_machine_load] of [src/riscv_machine.cpp],
    [load_elf_and_fake_the_config] of [src/majordomo_main.cpp] and the loading of
    files in [src/machine.cpp].  The host is a record: the files that can be read,
    the directories, the tap interfaces and the log files that can be opened, and
    the offset of the local time.  What the program prints and the files it
    writes are left out.  Runs with a simulation-point file or a snapshot to load
    are outside the model and end with [Stopped Undefined].

    The theorem of this file composes the readers of the options and of the
    configuration file with the construction of the machine. *)

From Stdlib Require Import String Ascii.
From S2P Require Import Prelude RiscvDefs State IoMem Tlb Pmp Mmu Csr Trap Alu HartInv Frame Devices Machine Virtio Fdt Boot Json Config Options.
Open Scope Z_scope.
Open Scope b_scope.

Record Host := mkHost {
  h_file : list Z -> option (list Z);
  h_dir : list Z -> bool;
  h_tap : option (list Z) -> bool;
  h_log : list Z -> bool;
  h_gmtoff : Z
}.

(** ** Files *)

(** The characters up to the last slash, if there is one. *)
Fixpoint upto_slash (s : list Z) : option (list Z) :=
  match s with
  | [] => None
  | c :: s' => match upto_slash s' with Some d => Some (c :: d) | None => if c =? 47 then Some [c] else None end
  end.

Definition get_file_path (base_filename : option (list Z)) (filename : list Z) : list Z :=
  match base_filename with
  | None => filename
  | Some base =>
      if bool_decide (58 ∈ filename) then filename
      else if peek filename =? 47 then filename
      else match upto_slash base with Some dir => dir ++ filename | None => filename end
  end.

Section Program.
Context (host : Host).

Definition load_file (filename : list Z) : list Z + bstop :=
  match h_file host filename with Some buf => inl buf | None => inr (Exit 1) end.

(** [config_additional_file_load] and its callback over the table of files. *)
Fixpoint config_additional_file_load (cfg_filename : list Z) (files : list (option (list Z))) : list (option (list Z)) + bstop :=
  match files with
  | [] => inl []
  | None :: files' =>
      match config_additional_file_load cfg_filename files' with inl l => inl (None :: l) | inr e => inr e end
  | Some name :: files' =>
      match load_file (get_file_path (Some cfg_filename) name) with
      | inr e => inr e
      | inl buf => match config_additional_file_load cfg_filename files' with inl l => inl (Some buf :: l) | inr e => inr e end
      end
  end.

(** The table [files] in the order of [VMFileTypeEnum]. *)
Definition file_names (c : Config) : list (option (list Z)) := [bios c; vga_bios c; kernel c; initrd c].

Definition virt_machine_load_config_file (p : Config) (filename : list Z) : (Config * list (option (list Z))) + bstop :=
  match load_file filename with
  | inr e => inr e
  | inl buf =>
      match virt_machine_parse_config (h_gmtoff host) p buf with
      | inr Failed => inr (Exit 1)
      | inr (Aborted _) => inr (Stopped Undefined)
      | inl c => match config_additional_file_load filename (file_names c) with inl files => inl (c, files) | inr e => inr e end
      end
  end.

Definition isxdigit (c : Z) : bool := negb (from_hex c <? 0).

Definition set_elf_config (path : list Z) (htif : Z) (c : Config) : Config :=
  mkConfig 0x80000000 (Z.shiftl 256 20) (Some path) (vga_bios c) (kernel c) (initrd c) (cmdline c) htif (max_insns c)
    (snapshot_load_name c) (tab_drive c) (tab_fs c) (tab_eth c) (display_device c) (width c) (height c) (input_device c)
    (accel_enable c) (rtc_local_time c) (cpus c) (addr_len c) (logfile c) (bootrom_name c).

(** [None] is the answer false. *)
Definition load_elf_and_fake_the_config (p : Config) (path : list Z) : option (Config * list (option (list Z))) + bstop :=
  match load_file path with
  | inr e => inr e
  | inl buf =>
      let is_hex :=
        match buf with
        | [] => None
        | [c] => if isxdigit c then None else Some false
        | c :: d :: _ => Some (isxdigit c && isxdigit d)
        end in
      match (if elf64_is_riscv64 buf then Some true else is_hex) with
      | None => inr (Stopped Undefined)
      | Some false => inl None
      | Some true =>
          match elf64_find_global buf (str "tohost") with
          | None => inr (Stopped Undefined)
          | Some v => inl (Some (set_elf_config path (match v with Some a => a | None => htif_base p end) p, [Some buf; None; None; None]))
          end
      end
  end.

(** ** Parameters *)

Definition vm_add_cmdline (old : option (list Z)) (line : list Z) : list Z :=
  if peek line =? 33 then tail line else (match old with Some l => l | None => [] end) ++ 32 :: line.

(** The options that override the configuration. *)
Definition override (o : Options) (c : Config) : Config + bstop :=
  let base := if o_memory_addr_override_flag o then o_memory_addr_override o else ram_base c in
  let size := if negb (o_memory_size_override o =? 0) then u64 (Z.shiftl (o_memory_size_override o) 20) else ram_bytes c in
  let ncpus := if negb (o_ncpus o =? 0) then u64 (o_ncpus o) else cpus c in
  if MAX_CPUS <=? ncpus then inr (Exit 1)
  else
    let ncpus := if ncpus =? 0 then 1 else ncpus in
    let line := match o_cmdline o with Some l => Some (vm_add_cmdline (cmdline c) l) | None => cmdline c end in
    inl (mkConfig base size (bios c) (vga_bios c) (kernel c) (initrd c) line (htif_base c) (max_insns c)
      (snapshot_load_name c) (tab_drive c) (tab_fs c) (tab_eth c) (display_device c) (width c) (height c) (input_device c)
      (accel_enable c) (rtc_local_time c) ncpus (addr_len c) (logfile c) (bootrom_name c)).

(** The files and devices that must open. *)
Definition opens_all (cfg_filename : option (list Z)) (c : Config) : bool :=
  forallb (fun d => match h_file host (get_file_path cfg_filename (fst d)) with Some _ => true | None => false end) (tab_drive c)
  && forallb (fun d => h_dir host (get_file_path cfg_filename (fst d))) (tab_fs c)
  && forallb (fun d => bool_decide (fst d = str "tap") && h_tap host (snd d)) (tab_eth c).

Definition or_default (x d : Z) : Z := if negb (x =? 0) then x else d.

Definition machine_params (o : Options) (c : Config) (files : list (option (list Z))) : VirtMachineParams :=
  let d := virt_machine_set_defaults in
  let file i := match files !! i with Some f => f | None => None end in
  mkParams (ram_base c) (ram_bytes c) (cpus c) (or_default (o_reset_vector_override o) (p_reset_vector d)) (addr_len c)
    (o_compact_bootrom o) (o_custom_extension o) (o_clear_ids o)
    (or_default (o_plic_base_addr_override o) (p_plic_base_addr d)) (or_default (o_plic_size_override o) (p_plic_size d))
    (or_default (o_clint_base_addr_override o) (p_clint_base_addr d)) (or_default (o_clint_size_override o) (p_clint_size d))
    (htif_base c) (max_insns c)
    (Z.of_nat (length (tab_eth c))) (Z.of_nat (length (tab_drive c))) (Z.of_nat (length (tab_fs c))) (input_device c)
    (file 0%nat) (file 2%nat) (file 3%nat)
    (option_map (h_file host) (match o_bootrom_name o with Some n => Some n | None => bootrom_name c end))
    (option_map (h_file host) (o_dtb_name o)) (cmdline c).

(** ** The machine *)

Definition virt_machine_load (p : VirtMachineParams) : BM unit :=
  match p_bios p with
  | None => bfail (Refused 0)
  | Some fw => copy_kernel fw (p_kernel p) (p_initrd p) (p_bootrom_name p) (p_dtb_name p) (p_cmdline p)
  end.

(** The images named on the command line, for a run without a configuration. *)
Fixpoint load_images (paths : list (list Z)) : BM unit :=
  match paths with
  | [] => bret tt
  | path :: paths' =>
      match load_file path with
      | inr e => bfail e
      | inl buf => (if elf64_is_riscv64 buf then load_elf_image buf else load_hex_image buf) ;; load_images paths'
      end
  end.

Definition get_stf_highest_priv_mode (modes : list Z) : option Z :=
  if bool_decide (modes = str "USHM") then Some PRV_M
  else if bool_decide (modes = str "USH") then Some PRV_H
  else if bool_decide (modes = str "US") then Some PRV_S
  else if bool_decide (modes = str "U") then Some PRV_U
  else None.

(** The assignments to the machine behind its construction. *)
Definition trace_options (o : Options) (priv : Z) (m : RISCVMachine) : RISCVMachine :=
  let m := set_interactive (o_interactive o) (set_exe_trace (o_exe_trace o) m) in
  let m := set_stf_trace (is_set (o_stf_trace o)) m in
  let m := set_stf_exit_on_stop_opc (o_stf_exit_on_stop_opc o) m in
  let m := set_stf_memrecord_size_in_bits (o_stf_memrecord_size_in_bits o) m in
  let m := set_stf_trace_register_state (o_stf_trace_register_state o) m in
  let m := set_stf_disable_memory_records (o_stf_disable_memory_records o) m in
  let m := set_stf_highest_priv_mode priv m in
  let m := set_stf_insn_num_tracing (o_stf_insn_num_tracing o) m in
  let m := set_stf_insn_length (o_stf_insn_length o) (set_stf_insn_start (o_stf_insn_start o) m) in
  let m := set_stf_in_traceable_region false (set_stf_trace_open_flag false m) in
  let m := set_stf_insn_tracing_active false (set_stf_macro_tracing_active false m) in
  let m := set_stf_is_stop_opc false (set_stf_is_start_opc false m) in
  let m := set_stf_num_traced 0 (set_stf_prog_asid 0 (set_stf_has_exit_pending false m)) in
  set_simpoint_en_bbv (o_simpoint_en_bbv o) m.

Definition apply_options (o : Options) (priv : Z) (m : RISCVMachine) : RISCVMachine :=
  let m := trace_options o priv m in
  let m := if 0 <? o_maxinsns o then set_maxinsns (o_maxinsns o) m else m in
  let m := if maxinsns m =? 0 then set_maxinsns UINT64_MAX m else m in
  set_cpu_state (map (set_ignore_sbi_shutdown (o_ignore_sbi_shutdown o)) (cpu_state m)) m.

(** [virt_machine_main] on the results of [getopt_long], the arguments behind
    the options and the blocks [malloc] returns for RAM. *)
Definition virt_machine_main (opts : list (ascii * list Z)) (args : list (list Z)) (blocks : list Z) : (Boot * unit) + bstop :=
  match parse_options initial_options opts with
  | inr e => inr e
  | inl o =>
      match args with
      | [] => inr (Exit 1)
      | path :: _ =>
          let start :=
            match load_elf_and_fake_the_config default_config path with
            | inr e => inr e
            | inl (Some (c, files)) => inl (c, files, None)
            | inl None => match virt_machine_load_config_file default_config path with inl (c, files) => inl (c, files, Some path) | inr e => inr e end
            end in
          match start with
          | inr e => inr e
          | inl (c, files, cfg_filename) =>
              if match logfile c with Some l => negb (h_log host l) | None => false end then inr (Exit 1)
              else match override o c with
              | inr e => inr e
              | inl c =>
                  if negb (opens_all cfg_filename c) then inr (Exit 1)
                  else
                    let p := machine_params o c files in
                    match virt_machine_init p blocks with
                    | inr e => inr e
                    | inl (b, _) =>
                        (match cfg_filename with
                         | None => load_images args ;; enter_debug_mode
                         | Some _ => virt_machine_load p
                         end ;;
                         if is_set (o_simpoint_file o) || is_set (o_snapshot_load_name o) || is_set (snapshot_load_name c) then bfail (Stopped Undefined)
                         else match get_stf_highest_priv_mode (o_stf_priv_modes o) with
                         | None => bfail (Exit 1)
                         | Some priv => bmod (fun b => set_bm (apply_options o priv (bm b)) b)
                         end) b
                    end
              end
          end
      end
  end.

End Program.

(** ** Loading the images once more *)

Lemma debugging_twice c : debugging (debugging c) = debugging c.
Proof. reflexivity. Qed.

Section Reload.
Context (p : VirtMachineParams) (fw : list Z) (A B : Z) (rest : list Z).
Context (Hp : buildable p) (Hi : images_fit p fw) (Hdis : A + p_ram_size p <= B \/ B + ROM_SIZE <= A).

Lemma final_set_hmem h h' : set_hmem h' (final_machine p A B h) = final_machine p A B h'.
Proof. unfold final_machine. cbv zeta. rewrite <- (built_set_hmem p A B h h'). generalize (built_machine p A B h). intros m. reflexivity. Qed.

Lemma final_debugging h : map debugging (cpu_state (final_machine p A B h)) = cpu_state (final_machine p A B h).
Proof.
  change (cpu_state (final_machine p A B h)) with (map debugging (cpu_state (built_machine p A B h))). rewrite map_map. apply map_ext. exact debugging_twice.
Qed.

Lemma final_set_harts h : set_cpu_state (map debugging (cpu_state (final_machine p A B h))) (final_machine p A B h) = final_machine p A B h.
Proof. rewrite final_debugging. generalize (final_machine p A B h). intros []. reflexivity. Qed.

Lemma final_described h y c i e :
  riscv_build_fdt (final_machine p A B h) y c i e = riscv_build_fdt (new_machine p (p_ncpus p)) y c i e.
Proof.
  apply build_fdt_ext; [reflexivity..|]. intros k. unfold get_hart.
  change (cpu_state (final_machine p A B h))
    with (debugging <$> (set_physical_addr_len (i32 (p_physical_addr_len p)) <$> cpu_state (new_machine p (p_ncpus p)))).
  destruct (0 <=? k); [|reflexivity]. generalize (cpu_state (new_machine p (p_ncpus p))). intros cs.
  rewrite !list_lookup_fmap. destruct (cs !! Z.to_nat k); reflexivity.
Qed.

(** The second copy finds the machine the first has left and leaves it so. *)
Lemma load_again blob h start : described p = inl blob -> fdt_offset p + Z.of_nat (length blob) <= ROM_SIZE ->
  present h A (p_ram_size p) -> present h B ROM_SIZE ->
  exists h', virt_machine_load p (mkBoot (final_machine p A B h) (built_layout p) (p_compact_bootrom p) false start rest) =
      inl (mkBoot (final_machine p A B h') (built_layout p) (p_compact_bootrom p) false (initrd_at p) rest, tt) /\ loaded p A B fw blob h'.
Proof.
  intros Hb Hf PA PB. destruct (bd_cpus p Hp) as [N1 N2].
  pose proof (images_loaded p A B rest fw Hp Hi (final_machine p A B h) eq_refl eq_refl eq_refl blob Hf) as Hl.
  destruct Hl with (h0 := h) as (h' & E & L & _); [| |exact Hdis|exact PA|exact PB|].
  { intros h'. rewrite final_set_hmem, final_described. exact Hb. }
  { change (cpu_state (final_machine p A B h)) with (map debugging (map (set_physical_addr_len (i32 (p_physical_addr_len p))) (new_harts p (p_ncpus p)))).
    rewrite !length_map, new_harts_length. lia. }
  exists h'. split; [|exact L]. unfold virt_machine_load. rewrite (if_bios _ _ Hi).
  rewrite final_set_hmem in E. change (cpu_state (final_machine p A B h)) with (cpu_state (final_machine p A B h')) in E. rewrite final_set_harts in E.
  rewrite <- E. unfold booting. rewrite final_set_hmem. reflexivity.
Qed.

End Reload.

(** ** The text is not an image *)

Lemma is_space_hex c : is_space c = true -> isxdigit c = false /\ c <> 127.
Proof.
  unfold is_space, isxdigit, from_hex. intros H.
  repeat match goal with
  | H : context [?a =? ?b] |- _ => destruct (Z.eqb_spec a b)
  | H : context [?a <=? ?b] |- _ => destruct (Z.leb_spec a b)
  end; cbn in H; try discriminate; repeat match goal with
  | |- context [?a <=? ?b] => destruct (Z.leb_spec a b); try lia
  end; cbn; split; (reflexivity || lia).
Qed.

Lemma text_head sp c : blank sp -> exists a d t, sp ++ print sp (config_json c) ++ sp = a :: d :: t /\ isxdigit a = false /\ a <> 127.
Proof.
  intros H. assert (Hp : exists k x, print sp (config_json c) = 123 :: k :: x).
  { unfold config_json, object. cbn [print]. destruct (sp ++ _) as [|k x] eqn:E; [|eauto]. exfalso.
    apply app_eq_nil in E. destruct E as [_ E]. apply app_eq_nil in E. destruct E as [_ E]. discriminate. }
  destruct Hp as (k & x & Hp). rewrite Hp. destruct H as [|a sp Ha _|l sp _ _|l sp _ _]; cbn [app].
  - exists 123, k. eexists. split; [reflexivity|]. split; [reflexivity|discriminate].
  - destruct (is_space_hex a Ha) as [H1 H2]. destruct sp as [|b sp]; cbn [app]; eexists a, _, _; split; try reflexivity; auto.
  - eexists 47, 47, _. split; [reflexivity|]. split; [reflexivity|discriminate].
  - eexists 47, 42, _. split; [reflexivity|]. split; [reflexivity|discriminate].
Qed.

Lemma not_elf a t : a <> 127 -> elf64_is_riscv64 (a :: t) = false.
Proof.
  intros H. unfold elf64_is_riscv64. destruct (_ <? _); [reflexivity|]. rewrite bool_decide_false; [reflexivity|].
  cbn [firstn]. intros [= E _]. contradiction.
Qed.

Lemma config_not_image host path sp c : blank sp -> h_file host path = Some (sp ++ print sp (config_json c) ++ sp) ->
  load_elf_and_fake_the_config host default_config path = inl None.
Proof.
  intros H Hf. unfold load_elf_and_fake_the_config, load_file. rewrite Hf. destruct (text_head sp c H) as (a & d & t & -> & Hx & Ha).
  rewrite not_elf by exact Ha. rewrite Hx. reflexivity.
Qed.

(** ** The options on the machine *)

Lemma apply_options_frame o priv m : let m' := apply_options o priv m in
  mem_map m' = mem_map m /\ hmem m' = hmem m /\ cpu_state m' = map (set_ignore_sbi_shutdown (o_ignore_sbi_shutdown o)) (cpu_state m) /\
  (0 <= maxinsns m -> 0 < maxinsns m') /\ stf_highest_priv_mode m' = priv /\ stf_trace m' = is_set (o_stf_trace o).
Proof.
  assert (E : mem_map (trace_options o priv m) = mem_map m /\ hmem (trace_options o priv m) = hmem m /\
    cpu_state (trace_options o priv m) = cpu_state m /\ maxinsns (trace_options o priv m) = maxinsns m /\
    stf_highest_priv_mode (trace_options o priv m) = priv /\ stf_trace (trace_options o priv m) = is_set (o_stf_trace o))
    by (repeat (split; [reflexivity|]); reflexivity).
  unfold apply_options. cbv zeta. revert E. generalize (trace_options o priv m). intros m1 (<- & <- & <- & <- & <- & <-).
  destruct (Z.ltb_spec 0 (o_maxinsns o)) as [H|H].
  - change (maxinsns (set_maxinsns (o_maxinsns o) m1)) with (o_maxinsns o). destruct (Z.eqb_spec (o_maxinsns o) 0); [lia|].
    repeat split. intros _. exact H.
  - destruct (Z.eqb_spec (maxinsns m1) 0); repeat split; intros ?; cbn; first [reflexivity|lia].
Qed.

Lemma in_ram_ext m m' a l : mem_map m' = mem_map m -> hmem m' = hmem m -> in_ram m a l -> in_ram m' a l.
Proof. intros E1 E2 H i Hi. rewrite <- (H i Hi). unfold ram_byte, get_ram_ptr. rewrite E1, E2. reflexivity. Qed.

(** ** The program *)

(** A run: the options the command line stands for, the configuration after
    they have been applied, the images, and a machine that can be built from
    them in two blocks of memory. *)
Record runnable (host : Host) (opts : list (ascii * list Z)) (path : list Z) (c : Config) (o : Options) (c' : Config)
  (files : list (option (list Z))) (fw : list Z) (priv A B : Z) : Prop := {
  rn_options : parse_options initial_options opts = inl o;
  rn_plain : o_simpoint_file o = None /\ o_snapshot_load_name o = None /\ snapshot_load_name c' = None;
  rn_log : forall l, logfile c = Some l -> h_log host l = true;
  rn_priv : get_stf_highest_priv_mode (o_stf_priv_modes o) = Some priv;
  rn_override : override o c = inl c';
  rn_files : config_additional_file_load host path (file_names c) = inl files;
  rn_devices : opens_all host (Some path) c' = true;
  rn_buildable : buildable (machine_params host o c' files);
  rn_images : images_fit (machine_params host o c' files) fw;
  rn_blocks : A + ram_bytes c' <= B \/ B + ROM_SIZE <= A;
  rn_fdt : forall blob, described (machine_params host o c' files) = inl blob ->
    fdt_offset (machine_params host o c' files) + Z.of_nat (length blob) <= ROM_SIZE;
  rn_maxinsns : 0 <= max_insns c'
}.


(** ** What the command line cannot say *)

(** [--plic 0x10000000:] makes [strtok] return a null pointer, which is read. *)
Remark plic_size_missing : parse_options initial_options [("p"%char, str "0x10000000:")] = inr (Stopped Undefined).
Proof. vm_compute. reflexivity. Qed.

(** As many harts as the machine supports are refused. *)
Remark max_cpus_refused o c : o_ncpus o = MAX_CPUS -> override o c = inr (Exit 1).
Proof. intros H. unfold override. rewrite H. reflexivity. Qed.

(** ** A run *)

Definition demo_path : list Z := str "vm/a.cfg".
Definition demo_text : list Z := demo_blank ++ print demo_blank (config_json demo_config) ++ demo_blank.
Definition demo_fw : list Z := [0x6f; 0; 0; 0].

Definition demo_host : Host :=
  mkHost (fun name =>
      if bool_decide (name = demo_path) then Some demo_text
      else if bool_decide (name = str "vm/fw.bin") then Some demo_fw
      else if bool_decide (name = str "vm/rd.img") then Some [7; 8]
      else if bool_decide (name = str "vm/disk.img") then Some []
      else None)
    (fun _ => false) (fun i => is_set i) (fun _ => false) 0.

(** A command line to add and a budget of ten thousand instructions. *)
Definition demo_opts : list (ascii * list Z) := [("c"%char, str "ro"); ("m"%char, str "10k")].
Definition demo_options : Options := with_maxinsns 10000 (with_cmdline (Some (str "ro")) initial_options).
Definition demo_final : Config :=
  mkConfig 0x80000000 (2 ^ 20) (Some (str "fw.bin")) None None (Some (str "rd.img")) (Some (str "quiet ro")) 0 0 None
    [(str "disk.img", None)] [] [(str "tap", Some (str "tap0"))] None 0 0 None false true 2 40 None None.
Definition demo_files : list (option (list Z)) := [Some demo_fw; None; None; Some [7; 8]].
Definition demo_machine_params : VirtMachineParams := machine_params demo_host demo_options demo_final demo_files.

Lemma demo_run_blob : match described demo_machine_params with inl blob => Z.of_nat (length blob) <= 4096 | inr _ => False end.
Proof. vm_compute. discriminate. Qed.

Lemma demo_run_images : images_fit demo_machine_params demo_fw.
Proof.
  split; try reflexivity.
  - discriminate.
  - intros []. reflexivity.
  - intros _. vm_compute. repeat split; discriminate || (intros []; reflexivity).
  - split; reflexivity.
  - split; [|discriminate]. repeat constructor; lia.
Qed.

Lemma demo_runnable : runnable demo_host demo_opts demo_path demo_config demo_options demo_final demo_files demo_fw PRV_M 0x1000000 0x2000000.
Proof.
  constructor; try reflexivity.
  - repeat split.
  - intros l; discriminate.
  - split; try (left; reflexivity); repeat split; (reflexivity || discriminate).
  - exact demo_run_images.
  - left. cbn. lia.
  - fold demo_machine_params. intros blob E. pose proof demo_run_blob as H. rewrite E in H. change (fdt_offset demo_machine_params) with 256. unfold ROM_SIZE. lia.
Qed.

